(* ===== verification/_CoqProject ===== *)
-Q . S2P
Prelude.v
GoStrings.v
Protocol.v
Registry.v
RegistryProps.v
Tickets.v
Traffic.v
Http.v
Server.v
Auth.v
AuthProps.v
Forward.v
ForwardProps.v
AgentWS.v
AgentProps.v
Browser.v
BrowserProps.v
Api.v
ApiProps.v
ForwardConn.v
Paths.v
Agent.v
AgentInv.v
DeviceProps.v
EndToEnd.v
Direct.v
DirectProps.v
DirectEnd.v
Analytics.v
Routing.v
ServerSys.v
ServerFrames.v
ServerInv.v
ServerProps.v
Quoting.v
Logging.v
Keepalive.v
Platform.v
Commands.v
CommandsProps.v
Client.v
ClientProps.v
Serving.v
Schema.v
LocalUI.v
Screen.v
