(* ===== verification/Prelude.v ===== *)
(** * WarpMesh: a verification development

    WarpMesh relays terminals, desktops, file transfers and TCP tunnels between
    browsers and devices.  A _relay server_ ([src/internal/server], [src/cmd/server])
    keeps an inventory of devices and accounts in SQLite, serves a web console and
    its API, and copies frames between WebSockets.  An _agent_ on every device
    ([src/internal/agent], [src/cmd/agent]) holds one control connection to the
    server, runs shells, reads and writes files, and opens tunnels, over the relay
    or directly over WebRTC.  The two speak the messages of
    [src/internal/protocol].

    This library models both sides as executable functions, states what makes each
    part correct, and composes the two sides for the paths that run through both.

    ** How the code is modelled

    A handler is a function in the state monad of this file ([stateM]) from its
    request or message to its answer, over a record of the component's state.
    Objects that the code shares by pointer (connections, sessions, recorders,
    tunnels, open files, peers) live in heaps (finite maps from references), and the
    maps of the Go structs hold references, so aliasing and replaced entries are as
    in the code.  A handler is cut into one function per stretch between two points
    where another goroutine can run (a blocking read, a released lock that matters);
    interleavings are sequences or step relations over these; [ServerSys] puts all
    handlers of the server together, one thread each.  There a step is a handler's work
    on one input or one deferred call: the locks inside a step are taken as one, so a
    tunnel request and the leaving of its target do not overlap (in the code the
    fallback timer closes such a tunnel).  Errors are values of
    [res] or [option].  Times and durations are integers of nanoseconds, Go's [int]
    and [int64] are integers with [wrap64] where the code does arithmetic on them,
    strings and bytes are byte sequences.  Clocks, random bytes, decoded bodies and
    what the operating system answers are arguments.

    Code that is not in the repository is a parameter: bcrypt and SHA-256 (class
    [Crypto] with [CryptoLaws]), [url.Parse] ([UrlParser], [LocalNet], [UrlLib]), the tables of package [unicode]
    ([UnicodeTables]), SQLite's
    [julianday] ([JulianDay] with [JulianDayLaws]), the WebRTC library ([Signaling]
    and the outcomes of its calls), the file system of the agent.

    ** The files

    - [Prelude]: Go values, the state monad, frame rules ([keeps]), reachability
      ([steps]), tactics and hint databases; [GoStrings]: package [strings],
      [strconv], [hex].
    - [Protocol]: [protocol.go], the message and base64.
    - [Registry], [RegistryProps]: [registry.go], the tables and every method;
      invariants, keys, grants, accounts; [Schema]: the columns added to older files.
    - [Tickets]: [wsticket.go]; [Traffic]: [traffic.go] against the interface
      [TrafficSink]; [Http]: requests, responses, the pure helpers of the handlers.
    - [Server]: the [Server] struct and its primitives; [Auth], [AuthProps]:
      [auth.go] and the login, session and access parts of [server.go].
    - [Forward], [ForwardProps]: [forward.go], tunnels on the server.
    - [AgentWS], [AgentProps]: [agentws.go], device connections on the server.
    - [Browser], [BrowserProps]: [terminal.go], [file.go], [filesmanager.go],
      [screen.go], the four kinds of browser session.
    - [Api], [ApiProps]: [api.go], [users.go], [downloads.go]; [Analytics]:
      [analytics.go] and its listings; [Routing]: routes, static files and shutdown
      of [server.go], and the whole console request.
    - [ServerSys], [ServerFrames], [ServerInv], [ServerProps]: the running server, all
      handlers, timers and requests interleaved; what each step may change, the
      invariant, and what follows from it.  [Keepalive]: pings and read deadlines of
      [agentws.go], in time.  [Quoting]: [strconv.Quote] and URL escaping; [Logging]:
      the log lines of [server.go] and [requestlog.go].
    - [ForwardConn]: the agent's tunnel write queue with its goroutine; [Paths]:
      path confinement; [Agent], [AgentInv], [DeviceProps]: [agent.go], [files.go],
      terminals; [Direct], [DirectProps]: [direct.go], [browser_direct.go];
      [Screen]: [screen.go]; [LocalUI]: [localui.go]; [Platform]: [session_windows.go],
      [desktop_unix.go], [desktop_windows.go], [capabilities.go].
    - [Commands], [CommandsProps]: [cmd/server/main.go], [cmd/agent/main.go] and
      [agent.New]; [Client], [ClientProps]: the subcommands of [cmd/agent/cli.go];
      [Serving]: serving and shutting down, the janitor.
    - [EndToEnd]: a browser, the server and devices composed; [DirectEnd]: the same for
      the negotiation of a direct terminal.

    ** What the theorems show

    - Authorisation: a request is authenticated exactly with a live credential and
      the right origin; without one the console answers nothing and changes nothing;
      upgrades, sessions and tunnels need the device's grant or the forwarding
      policy; registry changes need an administrator; tickets and invites work once,
      whatever races for them; logins are rate limited.
    - Confinement: a device's frames reach only its own sessions and tunnels, a
      browser speaks only for its session, an operator's analytics show only its
      devices, an agent touches only allowed paths, the local UI serves only its own
      page.
    - Data: uploads, downloads and tunnels deliver exactly the bytes sent, in order,
      end to end; a terminal that negotiates goes direct, with every candidate at its
      peer, and its output survives the fall-back to the relay; bytes are accounted
      exactly.
    - State: the tables stay well formed over every history, an administrator
      remains, an agent's maps stay coherent over every event, a reconnect survives
      the old connection's teardown, disconnects and shutdown leave nothing open.
    - The running server: over every interleaving each table entry, socket and recorder
      has a handler that will take care of it, a server without handlers has nothing
      left, and no handler waits in vain; responsive peers are kept, vanished ones are
      noticed.
    - Start and stop: a deployment that starts is guarded and reachable, an enrolled
      device finds its identity and is let in, configured forwards listen, the terminal
      a command line asks for is the one that opens; shutting down takes a bounded time.
    - Platforms and formats: the two implementations of a terminal agree, a VNC server
      is started for the loopback only, older databases are completed without loss,
      log lines are read back.
    - Termination: the path resolver ends within one round per component, a drained
      tunnel and a desktop link come down, the server's handlers return in a number of
      steps known in advance.

    Some theorems show what the code does not do as meant (a direct client that
    loses early bytes, a flush that can be overtaken, a candidate that is stranded,
    peers that outlive their tunnel, an account that is an administrator by name, a
    tunnel whose row stays active, a forged log line); their comments say so.

    ** Bounds and fuel

    [trim_left_of] has the length of its string as fuel, [resolve_loop] the number
    of path components plus one (each round removes one component);
    [resolve_path_nearest_ancestor] proves the latter enough.  The tunnel queue holds
    64 writes, as in the code, and a longer backlog closes the tunnel.
    [drain_schedule] is the schedule of the writer alone, long enough for the queue.
    [work_left] bounds the steps in which handlers without peers return.  [read_fields]
    needs as much fuel as there are fields.

    ** Not modelled

    The WebRTC, WebSocket, SQLite, TLS and ACME libraries; shells, pseudo terminals and
    VNC servers themselves; the web console's TypeScript and the page of the local UI;
    the delegation of [Hijack] and [Flush]; time stamps of the log.  These are calls
    into libraries or the operating system, without decisions of the program's own
    beyond the arguments that stand for their outcomes.

    ** Plan

    Next: the two halves of a tunnel request as separate steps of [ServerSys]. *)

(** * Shared notions *)
From stdpp Require Import base gmap strings list fin_maps sorting pretty.
From Stdlib Require Import ZArith Lia Ascii String.
Export stdpp.base stdpp.gmap stdpp.strings stdpp.list stdpp.fin_maps.

(** String concatenation reduces on constructors. *)
#[global] Arguments String.append : simpl nomatch.

Declare Scope go_scope.
Delimit Scope go_scope with go.
Open Scope Z_scope.

(** ** Go values *)

(** A [time.Time] is a count of nanoseconds since Go's zero time (January 1,
    year 1, UTC), so the zero value is [0]; a [time.Duration] is a count of
    nanoseconds. *)
Abbreviation Time := Z (only parsing).
Abbreviation Duration := Z (only parsing).
Abbreviation bytes := (list ascii) (only parsing).

(** A pointer to an object that is shared (an index into a heap), and a WebSocket
    connection *)
Abbreviation ref := nat (only parsing).
Abbreviation WS := nat (only parsing).

Definition zeroTime : Time := 0.
Definition IsZero (t : Time) : bool := t =? zeroTime.
Definition After (t u : Time) : bool := u <? t.
Definition Before (t u : Time) : bool := t <? u.

Definition Millisecond : Duration := 1000000.
Definition Second : Duration := 1000 * Millisecond.
Definition Minute : Duration := 60 * Second.
Definition Hour : Duration := 60 * Minute.

(** [t.Truncate(d)] on times counted from the zero time. *)
Definition Truncate (t : Time) (d : Duration) : Time := t - t mod d.

(** Two's complement wrap-around of Go's [int64] (and of [int] on the 64-bit
    platforms the server and the agents are built for). *)
Definition wrap64 (z : Z) : Z := (z + 2 ^ 63) mod 2 ^ 64 - 2 ^ 63.
Definition maxInt64 : Z := 2 ^ 63 - 1.
Definition minInt64 : Z := - 2 ^ 63.

(** A Go function returning [(T, error)]: the error carries its message. *)
Inductive res (A : Type) : Type :=
| Ok (a : A)
| Err (e : string).
Arguments Ok {A} a.
Arguments Err {A} e.

Definition is_ok {A} (r : res A) : bool := match r with Ok _ => true | Err _ => false end.

(** ** The state monad the handlers are written in *)

Definition stateM (S A : Type) : Type := S → A * S.

#[export] Instance stateM_ret S : MRet (stateM S) := λ A a s, (a, s).
#[export] Instance stateM_bind S : MBind (stateM S) :=
  λ A B f m s, let '(a, s') := m s in f a s'.
#[export] Instance stateM_fmap S : FMap (stateM S) :=
  λ A B f m s, let '(a, s') := m s in (f a, s').

Definition getS {S} : stateM S S := λ s, (s, s).
Definition putS {S} (s' : S) : stateM S unit := λ _, (tt, s').
Definition modifyS {S} (f : S → S) : stateM S unit := λ s, (tt, f s).
Definition getsS {S A} (f : S → A) : stateM S A := λ s, (f s, s).

(** [if b { m }] *)
Definition whenM {S} (b : bool) (m : stateM S unit) : stateM S unit :=
  if b then m else mret tt.

(** The state after running a handler. *)
Definition exec {S A} (m : stateM S A) (s : S) : S := (m s).2.
Definition eval {S A} (m : stateM S A) (s : S) : A := (m s).1.

Lemma bind_run {S A B} (m : stateM S A) (k : A → stateM S B) s :
  (m ≫= k) s = k (m s).1 (m s).2.
Proof. unfold mbind, stateM_bind. by destruct (m s). Qed.

(** *** Frames

    [keeps R m]: whatever state [m] starts in, it ends in an [R]-related one.
    For a preorder [R] this is closed under the constructs the handlers are
    written in, so a handler is checked by walking over its text. *)

Definition keeps {S A} (R : relation S) (m : stateM S A) : Prop := ∀ s, R s (m s).2.

Section keeps.
Context {S : Type} (R : relation S) `{!PreOrder R}.

Lemma keeps_ret {A} (a : A) : keeps R (mret (M := stateM S) a).
Proof. intros s. simpl. reflexivity. Qed.

Lemma keeps_bind {A B} (m : stateM S A) (k : A → stateM S B) :
  keeps R m → (∀ a, keeps R (k a)) → keeps R (m ≫= k).
Proof.
  intros Hm Hk s. unfold mbind, stateM_bind. specialize (Hm s). destruct (m s) as [a s1].
  etrans; [exact Hm|apply Hk].
Qed.

Lemma keeps_get : keeps R getS.
Proof. intros s. simpl. reflexivity. Qed.

Lemma keeps_modify f : (∀ s, R s (f s)) → keeps R (modifyS f).
Proof. intros Hf s. apply Hf. Qed.
End keeps.

(** A component of the state does not change. *)
#[export] Instance same_preorder {S B} (f : S → B) : PreOrder (λ s s', f s' = f s).
Proof. split; [done|]. intros x y z ? ?. congruence. Qed.

(** ** Reachability under a step relation *)

Section steps.
Context {St : Type} (step : St → St → Prop).

Inductive steps : St → St → Prop :=
| steps_refl s : steps s s
| steps_snoc s t u : steps s t → step t u → steps s u.

Lemma steps_trans s t u : steps s t → steps t u → steps s u.
Proof. intros Hst Htu. induction Htu; eauto using steps. Qed.

(** An inductive invariant holds in every reachable state. *)
Lemma steps_invariant (I : St → Prop) s t :
  (∀ x y, I x → step x y → I y) → I s → steps s t → I t.
Proof. intros Hpres Hs Hst. induction Hst; eauto. Qed.
End steps.
Arguments steps_refl {St step} s.

(** ** Generic lemmas *)

Lemma wrap64_id z : minInt64 ≤ z ≤ maxInt64 → wrap64 z = z.
Proof.
  unfold minInt64, maxInt64, wrap64. intros Hz.
  rewrite Z.mod_small; lia.
Qed.

Lemma wrap64_range z : minInt64 ≤ wrap64 z ≤ maxInt64.
Proof.
  unfold minInt64, maxInt64, wrap64.
  pose proof (Z.mod_pos_bound (z + 2 ^ 63) (2 ^ 64) ltac:(lia)). lia.
Qed.

Lemma wrap64_add_l a b : wrap64 (wrap64 a + b) = wrap64 (a + b).
Proof.
  unfold wrap64. f_equal.
  replace ((a + 2 ^ 63) mod 2 ^ 64 - 2 ^ 63 + b + 2 ^ 63)
    with ((a + 2 ^ 63) mod 2 ^ 64 + b) by lia.
  rewrite Zplus_mod_idemp_l. f_equal. lia.
Qed.

Lemma wrap64_mul_l a b : wrap64 (wrap64 a * b) = wrap64 (a * b).
Proof.
  unfold wrap64. f_equal.
  rewrite <- (Zplus_mod_idemp_l _ (2 ^ 63) (2 ^ 64)).
  rewrite <- (Zplus_mod_idemp_l (a * b) (2 ^ 63) (2 ^ 64)).
  f_equal. f_equal.
  rewrite <- Zmult_mod_idemp_l, Zminus_mod_idemp_l.
  replace (a + 2 ^ 63 - 2 ^ 63) with a by lia.
  by rewrite Zmult_mod_idemp_l.
Qed.

Lemma Before_After t u : Before t u = negb (After t u || (t =? u)).
Proof. unfold Before, After. lia. Qed.

(** A boolean check of every integer below a bound decides the bounded
    universal statement by evaluation. *)
Definition all_below (n : nat) (P : Z → bool) : bool := forallb (λ k, P (Z.of_nat k)) (seq 0 n).

Lemma all_below_spec n P z : all_below n P = true → 0 ≤ z < Z.of_nat n → P z = true.
Proof.
  unfold all_below. rewrite forallb_forall. intros H Hz.
  replace z with (Z.of_nat (Z.to_nat z)) by lia. apply H, in_seq. lia.
Qed.

(** ** Automation *)

Create HintDb go.
Create HintDb registry.
Create Rewrite HintDb go.
#[export] Hint Resolve wrap64_id wrap64_range : go.

(** Unfold the clock comparisons so that [lia] sees them. *)
Ltac clock := unfold After, Before, IsZero, zeroTime in *; try lia.

(** Split every conditional of the goal, keeping the tested equations. *)
Ltac split_ifs :=
  repeat match goal with
    | |- context [if ?b then _ else _] => destruct b eqn:?
    | |- context [match ?o with Some _ => _ | None => _ end] => destruct o eqn:?
    end.

(** Case on every conditional of a hypothesis. *)
Ltac split_ifs_in H :=
  repeat match type of H with
    | context [if ?b then _ else _] => destruct b eqn:?
    | context [match ?o with Some _ => _ | None => _ end] => destruct o eqn:?
    end.

(** Boolean connectives as propositions. *)
Ltac bools :=
  repeat match goal with
    | H : (_ && _)%bool = true |- _ => apply andb_true_iff in H as [? ?]
    | H : (_ || _)%bool = false |- _ => apply orb_false_iff in H as [? ?]
    | H : negb _ = true |- _ => apply negb_true_iff in H
    | H : negb _ = false |- _ => apply negb_false_iff in H
    | H : bool_decide _ = true |- _ => apply bool_decide_eq_true in H
    | H : bool_decide _ = false |- _ => apply bool_decide_eq_false in H
    | H : String.eqb _ _ = true |- _ => apply String.eqb_eq in H
    | H : String.eqb _ _ = false |- _ => apply String.eqb_neq in H
    end.
