(* ===== verification/GoStrings.v ===== *)
(** * The parts of Go's [strings], [strconv] and [encoding/hex] the program uses

    A Go [string] is a byte sequence; it is modelled by Rocq's [string], and a
    [[]byte] by a list of bytes.  Every function is executable. *)
From stdpp Require Import pretty.
From Stdlib Require Import ZArith Lia Ascii String.
From S2P Require Import Prelude.
Open Scope string_scope.
Open Scope list_scope.
Open Scope Z_scope.

(** ** Definitions *)

Fixpoint str_drop (n : nat) (s : string) : string :=
  match n, s with
  | O, _ => s
  | S n', String _ s' => str_drop n' s'
  | S _, EmptyString => ""
  end.

Fixpoint str_take (n : nat) (s : string) : string :=
  match n, s with
  | O, _ => ""
  | S n', String a s' => String a (str_take n' s')
  | S _, EmptyString => ""
  end.

(** [strings.HasPrefix(s, p)] and [strings.TrimPrefix(s, p)] *)
Definition HasPrefix (s p : string) : bool := String.prefix p s.
Definition TrimPrefix (s p : string) : string :=
  if HasPrefix s p then str_drop (String.length p) s else s.

(** [strings.HasSuffix] and [strings.TrimSuffix], on the reversed strings *)
Definition HasSuffix (s p : string) : bool := HasPrefix (String.rev s) (String.rev p).
Definition TrimSuffix (s p : string) : string :=
  String.rev (TrimPrefix (String.rev s) (String.rev p)).

(** Does the byte [c] occur in [s] ([strings.Contains] on a one-byte string)? *)
Fixpoint str_mem (c : ascii) (s : string) : bool :=
  match s with
  | EmptyString => false
  | String a s' => Ascii.eqb a c || str_mem c s'
  end.

(** [strings.Index(s, sub)]: [None] for [-1] *)
Fixpoint Index (s sub : string) : option nat :=
  if HasPrefix s sub then Some O
  else match s with
       | EmptyString => None
       | String _ s' => S <$> Index s' sub
       end.

(** [strings.Contains(s, sub)] *)
Definition Contains (s sub : string) : bool :=
  match Index s sub with Some _ => true | None => false end.

(** [strings.Split(s, sep)] for a one-byte separator: never empty *)
Fixpoint Split (s : string) (c : ascii) : list string :=
  match s with
  | EmptyString => [""]
  | String a s' =>
      if Ascii.eqb a c then "" :: Split s' c
      else match Split s' c with
           | w :: ws => String a w :: ws
           | [] => [String a ""]
           end
  end.

(** [strings.Join(parts, sep)] *)
Fixpoint Join (l : list string) (sep : string) : string :=
  match l with
  | [] => ""
  | [w] => w
  | w :: ws => w +:+ sep +:+ Join ws sep
  end.

(** [strings.Cut(s, sep)] for a one-byte separator: before, after, found *)
Fixpoint Cut (s : string) (c : ascii) : string * string * bool :=
  match s with
  | EmptyString => ("", "", false)
  | String a s' =>
      if Ascii.eqb a c then ("", s', true)
      else let '(b, r, found) := Cut s' c in
           if found then (String a b, r, true) else (s, "", false)
  end.

(** [strings.ReplaceAll(s, old, new)] for one-byte [old] and [new] *)
Fixpoint ReplaceByte (s : string) (old new : ascii) : string :=
  match s with
  | EmptyString => ""
  | String a s' => String (if Ascii.eqb a old then new else a) (ReplaceByte s' old new)
  end.

(** [s[i+1:]] for [i = strings.LastIndex(s, c)], [None] when [i < 0] *)
Fixpoint after_last (s : string) (c : ascii) : option string :=
  match s with
  | EmptyString => None
  | String a s' =>
      match after_last s' c with
      | Some r => Some r
      | None => if Ascii.eqb a c then Some s' else None
      end
  end.

(** [strings.ToLower] on ASCII letters; other bytes are kept *)
Definition lower_byte (a : ascii) : ascii :=
  let n := nat_of_ascii a in
  if ((65 <=? n) && (n <=? 90))%nat then ascii_of_nat (n + 32) else a.
Fixpoint ToLower (s : string) : string :=
  match s with
  | EmptyString => ""
  | String a s' => String (lower_byte a) (ToLower s')
  end.

(** Remove, from the left, every repetition of the strings of [seqs]; [fuel]
    bounds the repetitions by the length of the string. *)
Fixpoint trim_left_of (seqs : list string) (fuel : nat) (s : string) : string :=
  match fuel with
  | O => s
  | S fuel' =>
      match List.find (HasPrefix s) seqs with
      | Some w => trim_left_of seqs fuel' (str_drop (String.length w) s)
      | None => s
      end
  end.

Definition byte_seq (l : list nat) : string := string_of_list_ascii (map ascii_of_nat l).

(** The UTF-8 encodings of Unicode's White_Space runes *)
Definition space_seqs : list string :=
  map byte_seq
    ([[9]; [10]; [11]; [12]; [13]; [32]; [194; 133]; [194; 160]; [225; 154; 128];
      [226; 128; 168]; [226; 128; 169]; [226; 128; 175]; [226; 129; 159]; [227; 128; 128]] ++
     map (λ k, [226; 128; 128 + k]%nat) (seq 0 11))%list%nat.

Definition trim_left (s : string) : string := trim_left_of space_seqs (String.length s) s.

(** [strings.TrimSpace] *)
Definition TrimSpace (s : string) : string :=
  let s1 := trim_left s in
  String.rev (trim_left_of (map String.rev space_seqs) (String.length s1) (String.rev s1)).

(** [strings.Trim(s, c)] and [strings.TrimRight(s, c)] for a one-byte cutset *)
Definition TrimRightByte (s : string) (c : ascii) : string :=
  String.rev (trim_left_of [String c ""] (String.length s) (String.rev s)).
Definition TrimByte (s : string) (c : ascii) : string :=
  TrimRightByte (trim_left_of [String c ""] (String.length s) s) c.

(** ** Numbers *)

(** [strconv.Itoa], [%d] *)
Definition Itoa (n : Z) : string := pretty n.

Definition digit_of (c : ascii) : option Z :=
  let n := Z.of_nat (nat_of_ascii c) in
  if (48 <=? n) && (n <=? 57) then Some (n - 48) else None.

Inductive parsed := PVal (n : Z) | PRange | PSyntax.

(** The digit loop of [strconv.ParseUint(s, 10, 64)]: overflow is reported at
    the digit that overflows, before later characters are looked at. *)
Fixpoint parse_u64 (acc : Z) (s : string) : parsed :=
  match s with
  | EmptyString => PVal acc
  | String c s' =>
      match digit_of c with
      | None => PSyntax
      | Some d =>
          let n := acc * 10 + d in
          if 2 ^ 64 - 1 <? n then PRange else parse_u64 n s'
      end
  end.

(** [strconv.Atoi(s)]: the value returned and whether the error is nil.  A
    range error comes with the clamped value, a syntax error with [0]. *)
Definition Atoi (s : string) : Z * bool :=
  let '(neg, ds) :=
    match s with
    | String "-" r => (true, r)
    | String "+" r => (false, r)
    | _ => (false, s)
    end in
  match ds with
  | EmptyString => (0, false)
  | _ =>
      match parse_u64 0 ds with
      | PSyntax => (0, false)
      | PRange => (if neg then minInt64 else maxInt64, false)
      | PVal n =>
          if neg then if 2 ^ 63 <? n then (minInt64, false) else (- n, true)
          else if 2 ^ 63 <=? n then (maxInt64, false) else (n, true)
      end
  end.

(** ** [hex.EncodeToString] *)

Definition hex_digit (n : nat) : ascii :=
  ascii_of_nat (if (n <? 10)%nat then 48 + n else 87 + n).

Fixpoint hex_encode (b : bytes) : string :=
  match b with
  | [] => ""
  | a :: b' =>
      let n := nat_of_ascii a in
      String (hex_digit (n / 16)) (String (hex_digit (n mod 16)) (hex_encode b'))
  end.

(** ** Lemmas *)

Lemma str_app_nil_r s : s +:+ "" = s.
Proof. induction s as [|a s IH]; simpl; [done | by rewrite IH]. Qed.

Lemma str_app_assoc a b c : a +:+ (b +:+ c) = (a +:+ b) +:+ c.
Proof. induction a as [|x a IH]; simpl; [done | by rewrite IH]. Qed.

Lemma str_length_app a b :
  String.length (a +:+ b) = (String.length a + String.length b)%nat.
Proof. induction a as [|x a IH]; simpl; [done | by rewrite IH]. Qed.

Lemma str_drop_app a b : str_drop (String.length a) (a +:+ b) = b.
Proof. induction a; simpl; auto. Qed.

Lemma HasPrefix_app p s : HasPrefix (p +:+ s) p = true.
Proof.
  unfold HasPrefix. induction p as [|a p IH]; simpl; [by destruct s|].
  destruct (ascii_dec a a); congruence.
Qed.

Lemma HasPrefix_inv s p : HasPrefix s p = true → s = p +:+ str_drop (String.length p) s.
Proof.
  unfold HasPrefix. revert s. induction p as [|a p IH]; intros [|b s]; simpl; try done.
  destruct (ascii_dec a b) as [->|]; [|done]. intros H. by rewrite <- (IH s H).
Qed.

Lemma HasPrefix_nil_r s : HasPrefix s "" = true.
Proof. by destruct s. Qed.

(** A prefix test followed by [TrimPrefix] recovers the rest. *)
Lemma TrimPrefix_app p s : TrimPrefix (p +:+ s) p = s.
Proof. unfold TrimPrefix. by rewrite HasPrefix_app, str_drop_app. Qed.

Lemma str_mem_app c a b : str_mem c (a +:+ b) = str_mem c a || str_mem c b.
Proof. induction a as [|x a IH]; simpl; [done | by rewrite IH, orb_assoc]. Qed.

Lemma Split_not_nil s c : Split s c ≠ [].
Proof. destruct s; simpl; [done|]. case_match; [done|]. by case_match. Qed.

Lemma Split_cons_other a s c :
  Ascii.eqb a c = false →
  ∃ w ws, Split s c = w :: ws ∧ Split (String a s) c = String a w :: ws.
Proof.
  intros Ha. destruct (Split s c) as [|w ws] eqn:E; [by apply Split_not_nil in E|].
  exists w, ws. split; [done|]. simpl. by rewrite Ha, E.
Qed.

(** No part of a split contains the separator. *)
Lemma Split_no_sep s c : Forall (λ w, str_mem c w = false) (Split s c).
Proof.
  induction s as [|a s IH]; [by repeat constructor|].
  destruct (Ascii.eqb a c) eqn:Ha; [simpl; rewrite Ha; by constructor|].
  destruct (Split_cons_other a s c Ha) as (w & ws & E & ->).
  rewrite E in IH. inversion_clear IH. constructor; [simpl; by rewrite Ha | done].
Qed.

Lemma Join_cons w ws sep : ws ≠ [] → Join (w :: ws) sep = w +:+ sep +:+ Join ws sep.
Proof. by destruct ws. Qed.

(** [strings.Join] inverts [strings.Split]. *)
Lemma Join_Split s c : Join (Split s c) (String c "") = s.
Proof.
  induction s as [|a s IH]; [done|].
  destruct (Ascii.eqb a c) eqn:Ha.
  - apply Ascii.eqb_eq in Ha as ->. simpl. rewrite Ascii.eqb_refl.
    rewrite Join_cons by apply Split_not_nil. by rewrite IH.
  - destruct (Split_cons_other a s c Ha) as (w & ws & E & ->).
    rewrite E in IH. destruct ws; simpl in *; by rewrite IH.
Qed.

(** Splitting a separator-free word followed by the separator. *)
Lemma Split_app w s c :
  str_mem c w = false → Split (w +:+ String c s) c = w :: Split s c.
Proof.
  induction w as [|a w IH]; simpl.
  - by rewrite Ascii.eqb_refl.
  - intros [Ha Hw]%orb_false_iff. by rewrite Ha, IH.
Qed.

Lemma Split_none w c : str_mem c w = false → Split w c = [w].
Proof.
  induction w as [|a w IH]; simpl; [done|].
  intros [Ha Hw]%orb_false_iff. by rewrite Ha, IH.
Qed.

(** [strings.Split] inverts [strings.Join] on separator-free parts. *)
Lemma Split_Join l c :
  l ≠ [] → Forall (λ w, str_mem c w = false) l → Split (Join l (String c "")) c = l.
Proof.
  induction l as [|w l IH]; [done|]. intros _ HF. inversion_clear HF as [|? ? Hw Hl].
  destruct l as [|v l]; [by apply Split_none|].
  rewrite Join_cons by done. cbn [String.append].
  rewrite Split_app by done. f_equal. by apply IH.
Qed.

Lemma Cut_spec s c :
  Cut s c =
    match Split s c with
    | [] => (s, "", false)
    | [w] => (w, "", false)
    | w :: ws => (w, Join ws (String c ""), true)
    end.
Proof.
  induction s as [|a s IH]; [done|]. cbn [Cut].
  destruct (Ascii.eqb a c) eqn:Ha.
  - cbn [Split]. rewrite Ha. destruct (Split s c) eqn:E; [by apply Split_not_nil in E|].
    by rewrite <- E, Join_Split.
  - destruct (Split_cons_other a s c Ha) as (w & ws & E & E').
    rewrite IH, E', E. destruct ws; [|done].
    pose proof (Join_Split (String a s) c) as HJ. rewrite E' in HJ. by rewrite <- HJ.
Qed.

Lemma Cut_found s c b r : Cut s c = (b, r, true) → s = b +:+ String c r ∧ str_mem c b = false.
Proof.
  revert b r. induction s as [|a s IH]; intros b r; simpl; [done|].
  destruct (Ascii.eqb a c) eqn:Ha.
  - intros [= <- <-]. apply Ascii.eqb_eq in Ha as ->. done.
  - destruct (Cut s c) as [[b' r'] [|]] eqn:E; [|done]. intros [= <- <-].
    destruct (IH _ _ eq_refl) as [-> Hb]. simpl. by rewrite Ha.
Qed.

Lemma Cut_app b r c : str_mem c b = false → Cut (b +:+ String c r) c = (b, r, true).
Proof.
  induction b as [|a b IH]; simpl; [by rewrite Ascii.eqb_refl|].
  intros [Ha Hb]%orb_false_iff. by rewrite Ha, IH.
Qed.

Lemma Cut_not_found s c b r : Cut s c = (b, r, false) → b = s ∧ str_mem c s = false.
Proof.
  revert b r. induction s as [|a s IH]; intros b r; simpl; [by intros [= <- <-]|].
  destruct (Ascii.eqb a c) eqn:Ha; [done|].
  destruct (Cut s c) as [[b' r'] [|]] eqn:E; [done|]. intros [= <- <-].
  by destruct (IH _ _ eq_refl) as [_ ->].
Qed.

Lemma after_last_no_sep s c r : after_last s c = Some r → str_mem c r = false.
Proof.
  revert r. induction s as [|a s IH]; intros r; simpl; [done|].
  destruct (after_last s c) eqn:E; [naive_solver|].
  destruct (Ascii.eqb a c); [|done]. intros [= <-]. clear -E.
  induction s as [|b s IH]; simpl in *; [done|].
  destruct (after_last s c); [done|]. destruct (Ascii.eqb b c); [done|]. by apply IH.
Qed.

Lemma after_last_None s c : after_last s c = None ↔ str_mem c s = false.
Proof.
  induction s as [|a s IH]; simpl; [done|].
  destruct (after_last s c), (Ascii.eqb a c); simpl; intuition discriminate.
Qed.

Lemma after_last_suffix s c r : after_last s c = Some r → ∃ p, s = p +:+ String c r.
Proof.
  revert r. induction s as [|a s IH]; intros r; simpl; [done|].
  destruct (after_last s c) eqn:E.
  - intros [= <-]. destruct (IH _ eq_refl) as [p ->]. by exists (String a p).
  - destruct (Ascii.eqb a c) eqn:Ha; [|done]. intros [= <-].
    apply Ascii.eqb_eq in Ha as ->. by exists "".
Qed.

(** *** Reversal *)

Lemma HasPrefix_byte a s c : HasPrefix (String a s) (String c "") = Ascii.eqb a c.
Proof.
  unfold HasPrefix. cbn [String.prefix]. destruct (ascii_dec c a) as [->|Hne].
  - rewrite Ascii.eqb_refl. by destruct s.
  - destruct (Ascii.eqb_spec a c); congruence.
Qed.

Lemma rev_app_app s t : String.rev_app s t = String.rev s +:+ t.
Proof.
  unfold String.rev. revert t. induction s as [|a s IH]; intros t; simpl; [done|].
  by rewrite IH, (IH (String a "")), <- str_app_assoc.
Qed.

Lemma str_rev_cons a s : String.rev (String a s) = String.rev s +:+ String a "".
Proof. unfold String.rev. simpl. apply rev_app_app. Qed.

Lemma str_rev_app s t : String.rev (s +:+ t) = String.rev t +:+ String.rev s.
Proof.
  induction s as [|a s IH]; simpl; [by rewrite str_app_nil_r|].
  by rewrite !str_rev_cons, IH, str_app_assoc.
Qed.

Lemma str_rev_involutive s : String.rev (String.rev s) = s.
Proof. induction s as [|a s IH]; [done|]. by rewrite str_rev_cons, str_rev_app, IH. Qed.

Lemma str_mem_rev c s : str_mem c (String.rev s) = str_mem c s.
Proof.
  induction s as [|a s IH]; [done|]. rewrite str_rev_cons, str_mem_app, IH. simpl.
  rewrite orb_false_r. apply orb_comm.
Qed.

(** A string with a last byte other than [c] has nothing to trim. *)
Lemma TrimRightByte_id s w c :
  w ≠ "" → str_mem c w = false → TrimRightByte (s +:+ w) c = s +:+ w.
Proof.
  intros Hw Hc. unfold TrimRightByte. rewrite <- (str_rev_involutive (s +:+ w)) at 3. f_equal.
  rewrite str_rev_app. rewrite <- str_mem_rev in Hc.
  destruct (String.rev w) as [|a r] eqn:E.
  { destruct Hw. by rewrite <- (str_rev_involutive w), E. }
  simpl in Hc. apply orb_false_iff in Hc as [Ha _].
  destruct (String.length (s +:+ w)) as [|n]; [done|]. cbn [trim_left_of List.find].
  change (String a r +:+ String.rev s) with (String a (r +:+ String.rev s)).
  by rewrite HasPrefix_byte, Ha.
Qed.

Lemma ReplaceByte_mem s old new c :
  str_mem c s = false → c ≠ new → str_mem c (ReplaceByte s old new) = false.
Proof.
  induction s as [|a s IH]; simpl; [done|]. intros [Ha Hs]%orb_false_iff Hc.
  rewrite IH by done. destruct (Ascii.eqb a old); [|by rewrite Ha].
  by rewrite (proj2 (Ascii.eqb_neq new c)).
Qed.

Lemma ReplaceByte_gone s old new :
  old ≠ new → str_mem old (ReplaceByte s old new) = false.
Proof.
  intros Hne. induction s as [|a s IH]; simpl; [done|]. rewrite IH, orb_false_r.
  destruct (Ascii.eqb a old) eqn:E; [|done]. by apply Ascii.eqb_neq.
Qed.

Lemma ReplaceByte_id s old new : str_mem old s = false → ReplaceByte s old new = s.
Proof.
  induction s as [|a s IH]; simpl; [done|]. intros [-> Hs]%orb_false_iff. by rewrite IH.
Qed.

(** *** Numbers *)

Definition digits (s : string) : Prop := ∀ c, str_mem c s = true → is_Some (digit_of c).

Lemma digit_of_pretty (x : N) :
  (x < 10)%N → digit_of (pretty_N_char x) = Some (Z.of_N x).
Proof.
  intros Hx. assert (x = 0 ∨ x = 1 ∨ x = 2 ∨ x = 3 ∨ x = 4 ∨ x = 5 ∨ x = 6 ∨ x = 7 ∨
    x = 8 ∨ x = 9)%N as Hc by lia.
  by repeat destruct Hc as [->|Hc]; [..|subst].
Qed.

Lemma parse_u64_pretty_go (x : N) : ∀ s, ∃ k : Z, 0 ≤ k ∧ ∀ acc,
  0 ≤ acc → acc * 10 ^ k + Z.of_N x ≤ 2 ^ 64 - 1 →
  parse_u64 acc (pretty_N_go x s) = parse_u64 (acc * 10 ^ k + Z.of_N x) s.
Proof.
  induction (N.lt_wf_0 x) as [x _ IH]. intros s.
  destruct (decide (x = 0)%N) as [->|Hx].
  { exists 0. rewrite pretty_N_go_0. split; [lia|]. intros acc. by rewrite Z.mul_1_r, Z.add_0_r. }
  assert (0 < x)%N as Hpos by lia. rewrite pretty_N_go_step by done.
  destruct (IH (x `div` 10)%N ltac:(apply N.div_lt; lia)
    (String (pretty_N_char (x `mod` 10)) s)) as (k & Hk & HI).
  exists (k + 1). split; [lia|]. intros acc Hacc Hb.
  assert (10 ^ (k + 1) = 10 * 10 ^ k) as Hpow by (rewrite Z.pow_add_r; lia).
  assert (Z.of_N x = 10 * Z.of_N (x `div` 10) + Z.of_N (x `mod` 10)) as Hdm
    by (rewrite (N.Div0.div_mod x 10) at 1; lia).
  rewrite Hpow in *. pose proof (Z.pow_nonneg 10 k ltac:(lia)).
  assert (0 ≤ acc * 10 ^ k) by nia.
  pose proof (N2Z.is_nonneg (x `div` 10)). pose proof (N2Z.is_nonneg (x `mod` 10)).
  rewrite HI; [|done|lia].
  simpl. rewrite digit_of_pretty by (apply N.mod_lt; lia).
  replace ((acc * 10 ^ k + Z.of_N (x `div` 10)) * 10 + Z.of_N (x `mod` 10))
    with (acc * (10 * 10 ^ k) + Z.of_N x) by lia.
  destruct (Z.ltb_spec (2 ^ 64 - 1) (acc * (10 * 10 ^ k) + Z.of_N x)); [lia|done].
Qed.

Lemma parse_u64_pretty (n : N) :
  Z.of_N n ≤ 2 ^ 64 - 1 → parse_u64 0 (pretty n) = PVal (Z.of_N n).
Proof.
  intros Hn. unfold pretty, pretty_N. case_decide as H0; [by subst|].
  destruct (parse_u64_pretty_go n "") as (k & Hk & HI).
  rewrite HI; [done|lia|lia].
Qed.

Lemma pretty_N_head (n : N) : ∃ c s, pretty n = String c s ∧ is_Some (digit_of c).
Proof.
  unfold pretty, pretty_N. case_decide as H0; [by exists "0"%char, ""|].
  assert (∀ s, (∃ c s', s = String c s' ∧ is_Some (digit_of c)) ∨ (0 < n)%N →
    ∃ c s', pretty_N_go n s = String c s' ∧ is_Some (digit_of c)) as Hgen.
  { clear H0. induction (N.lt_wf_0 n) as [n _ IH]. intros s Hs.
    destruct (decide (n = 0)%N) as [->|Hn].
    { rewrite pretty_N_go_0. destruct Hs as [?|?]; [done|lia]. }
    rewrite pretty_N_go_step by lia. apply IH; [apply N.div_lt; lia|].
    left. eexists _, _. split; [done|].
    rewrite digit_of_pretty by (apply N.mod_lt; lia). by eexists. }
  apply Hgen. right. lia.
Qed.

Lemma digit_of_not_sign c : is_Some (digit_of c) → c ≠ "-"%char ∧ c ≠ "+"%char.
Proof. intros [d Hd]. split; intros ->; discriminate. Qed.

(** [strconv.Atoi] inverts [strconv.Itoa] on every [int]. *)
Lemma Atoi_Itoa (n : Z) : minInt64 ≤ n ≤ maxInt64 → Atoi (Itoa n) = (n, true).
Proof.
  unfold minInt64, maxInt64, Itoa. intros Hn.
  assert (∀ m : N, Z.of_N m ≤ 2 ^ 63 →
    ∃ c s, pretty m = String c s ∧ c ≠ "-"%char ∧ c ≠ "+"%char ∧
      parse_u64 0 (String c s) = PVal (Z.of_N m)) as Hm.
  { intros m Hb. destruct (pretty_N_head m) as (c & s & E & Hd).
    destruct (digit_of_not_sign c Hd). exists c, s. split_and!; [done..|].
    rewrite <- E. apply parse_u64_pretty. lia. }
  destruct n as [|p|p]; [done| |].
  - destruct (Hm (N.pos p)) as (c & s & E & Hc1 & Hc2 & HP); [lia|].
    change (pretty (Z.pos p)) with (pretty (N.pos p)). rewrite E. unfold Atoi.
    assert (match String c s with
            | String "-" r => (true, r) | String "+" r => (false, r)
            | _ => (false, String c s) end = (false, String c s)) as ->.
    { destruct c as [[] [] [] [] [] [] [] []]; done. }
    rewrite HP. destruct (Z.leb_spec (2 ^ 63) (Z.of_N (N.pos p))); [lia|done].
  - destruct (Hm (N.pos p)) as (c & s & E & Hc1 & Hc2 & HP); [lia|].
    change (pretty (Z.neg p)) with (String "-" (pretty (N.pos p))). rewrite E. unfold Atoi.
    rewrite HP. destruct (Z.ltb_spec (2 ^ 63) (Z.of_N (N.pos p))); [lia|done].
Qed.

#[export] Hint Rewrite str_app_nil_r HasPrefix_app TrimPrefix_app Join_Split : go.
