(* ===== verification/Protocol.v ===== *)
(** * The shared message envelope ([internal/protocol/protocol.go])

    [Message] is the JSON envelope every WebSocket carries, [Type*] are the
    message types, and [EncodeData]/[DecodeData] are the base64 transport of raw
    bytes.  JSON encoding itself (Go's [encoding/json]) is not modelled: a frame
    is the [Message] it decodes to. *)
From Stdlib Require Import ZArith Lia Ascii String.
From S2P Require Import Prelude GoStrings.
Open Scope string_scope.
Open Scope list_scope.
Open Scope Z_scope.

(** ** The envelope *)

Record DeviceCapabilities := mkDeviceCapabilities {
  cap_Terminal : bool;
  cap_Files : bool;
  cap_Desktop : bool;
  cap_DesktopHint : string
}.

Record FileEntry := mkFileEntry {
  fe_Name : string;
  fe_Path : string;
  fe_IsDir : bool;
  fe_Size : Z;
  fe_ModTime : string
}.

Record Message := mkMessage {
  Type_ : string;
  (* agent hello metadata *)
  DeviceID : string;
  Name : string;
  Hostname : string;
  OS : string;
  Arch : string;
  LANIPs : list string;
  DirectPort : Z;
  Capabilities : option DeviceCapabilities;
  (* terminal and file sessions *)
  SessionID : string;
  Data : string;
  Cols : Z;
  Rows : Z;
  Code : Z;
  Error : string;
  (* file transfer *)
  Size : Z;
  Path : string;
  Target : string;
  Port : Z;
  IP : string;
  Service : string;
  Entries : list FileEntry
}.

(** [protocol.Message{Type: ty}]: every other field has its zero value. *)
Definition msg_of (ty : string) : Message :=
  mkMessage ty "" "" "" "" "" [] 0 None "" "" 0 0 0 "" 0 "" "" 0 "" "" [].

(** [protocol.Message{Type: ty, SessionID: sid}] *)
Definition session_msg (ty sid : string) : Message :=
  mkMessage ty "" "" "" "" "" [] 0 None sid "" 0 0 0 "" 0 "" "" 0 "" "" [].

(** [protocol.Message{Type: ty, SessionID: sid, Error: e}] *)
Definition error_msg (ty sid e : string) : Message :=
  mkMessage ty "" "" "" "" "" [] 0 None sid "" 0 0 0 e 0 "" "" 0 "" "" [].

(** [protocol.Message{Type: ty, SessionID: sid, Data: d}] *)
Definition data_msg (ty sid d : string) : Message :=
  mkMessage ty "" "" "" "" "" [] 0 None sid d 0 0 0 "" 0 "" "" 0 "" "" [].

(** [msg.SessionID = sid; msg.Service = svc] on a forwarded frame *)
Definition with_session (m : Message) (sid : string) : Message :=
  mkMessage (Type_ m) (DeviceID m) (Name m) (Hostname m) (OS m) (Arch m) (LANIPs m)
    (DirectPort m) (Capabilities m) sid (Data m) (Cols m) (Rows m) (Code m) (Error m)
    (Size m) (Path m) (Target m) (Port m) (IP m) (Service m) (Entries m).
Definition with_service (m : Message) (svc : string) : Message :=
  mkMessage (Type_ m) (DeviceID m) (Name m) (Hostname m) (OS m) (Arch m) (LANIPs m)
    (DirectPort m) (Capabilities m) (SessionID m) (Data m) (Cols m) (Rows m) (Code m)
    (Error m) (Size m) (Path m) (Target m) (Port m) (IP m) svc (Entries m).

(** ** Message types *)

Definition TypeHello := "hello".
Definition TypeStatus := "device:status".
Definition TypePing := "ping".
Definition TypePong := "pong".
Definition TypeTermStart := "terminal:start".
Definition TypeTermOutput := "terminal:output".
Definition TypeTermInput := "terminal:input".
Definition TypeTermResize := "terminal:resize".
Definition TypeTermStop := "terminal:stop".
Definition TypeTermExit := "terminal:exit".
Definition TypeTermError := "terminal:error".
Definition TypeFileUpload := "file:upload:start".
Definition TypeFileChunk := "file:chunk".
Definition TypeFileUploadEnd := "file:upload:done".
Definition TypeFileDownload := "file:download".
Definition TypeFileDone := "file:done".
Definition TypeFileError := "file:error".
Definition TypeFileList := "file:list".
Definition TypeFileListResult := "file:list:result".
Definition TypeFileMkdir := "file:mkdir".
Definition TypeFileDelete := "file:delete".
Definition TypeFileRename := "file:rename".
Definition TypeFileRoots := "file:roots".
Definition TypeFileRootsResult := "file:roots:result".
Definition TypeForwardConnect := "forward:connect".
Definition TypeForwardOpen := "forward:open".
Definition TypeForwardData := "forward:data".
Definition TypeForwardClose := "forward:close".
Definition TypeForwardError := "forward:error".
Definition TypeForwardOffer := "forward:offer".
Definition TypeForwardAnswer := "forward:answer".
Definition TypeForwardICE := "forward:ice".
Definition TypeForwardDirectOK := "forward:direct-ok".
Definition TypeRTCOffer := "rtc:offer".
Definition TypeRTCAnswer := "rtc:answer".
Definition TypeRTCICE := "rtc:ice".
Definition TypeRTCDirectOK := "rtc:direct-ok".
Definition TypeRTCDirectError := "rtc:direct-error".
Definition TypeRTCFallback := "rtc:fallback".
Definition TypeRTCRelay := "rtc:relay".
Definition TypeRTCReady := "rtc:ready".
Definition TypeRTCStop := "rtc:stop".
Definition TypeScreenStart := "screen:start".
Definition TypeScreenError := "screen:error".

(** ** Base64 ([base64.StdEncoding]) *)

Module Base64.

(** Byte values are kept as [Z] in [0, 256), sextets as [Z] in [0, 64). *)
Definition byte_val (a : ascii) : Z := Z.of_N (N_of_ascii a).
Definition val_byte (z : Z) : ascii := ascii_of_N (Z.to_N z).

(** The alphabet A-Z a-z 0-9 + / *)
Definition enc (s : Z) : ascii :=
  val_byte (if s <? 26 then 65 + s else if s <? 52 then 71 + s
            else if s <? 62 then s - 4 else if s =? 62 then 43 else 47).

Definition dec (a : ascii) : option Z :=
  let c := byte_val a in
  if (65 <=? c) && (c <=? 90) then Some (c - 65)
  else if (97 <=? c) && (c <=? 122) then Some (c - 71)
  else if (48 <=? c) && (c <=? 57) then Some (c + 4)
  else if c =? 43 then Some 62
  else if c =? 47 then Some 63
  else None.

Definition pad : ascii := "="%char.

(** The sextets of a group of three bytes. *)
Definition s0 (x : Z) : Z := x / 4.
Definition s1 (x y : Z) : Z := (x mod 4) * 16 + y / 16.
Definition s2 (y z : Z) : Z := (y mod 16) * 4 + z / 64.
Definition s3 (z : Z) : Z := z mod 64.

(** The bytes of a group of four sextets. *)
Definition b0 (s t : Z) : Z := s * 4 + t / 16.
Definition b1 (t u : Z) : Z := (t mod 16) * 16 + u / 4.
Definition b2 (u v : Z) : Z := (u mod 4) * 64 + v.

Fixpoint encode (l : bytes) : bytes :=
  match l with
  | [] => []
  | [a] => let x := byte_val a in [enc (s0 x); enc (s1 x 0); pad; pad]
  | [a; b] =>
      let x := byte_val a in let y := byte_val b in
      [enc (s0 x); enc (s1 x y); enc (s2 y 0); pad]
  | a :: b :: c :: l' =>
      let x := byte_val a in let y := byte_val b in let z := byte_val c in
      enc (s0 x) :: enc (s1 x y) :: enc (s2 y z) :: enc (s3 z) :: encode l'
  end.

(** The decoder skips carriage returns and line feeds, accepts padding only in
    the last group, and refuses a short last group; it does not require the
    unused bits of a padded group to be zero. *)
Definition is_newline (a : ascii) : bool := Ascii.eqb a "010"%char || Ascii.eqb a "013"%char.

Fixpoint decode_groups (l : bytes) : option bytes :=
  match l with
  | [] => Some []
  | a :: b :: c :: d :: l' =>
      s ← dec a; t ← dec b;
      if Ascii.eqb c pad then
        if Ascii.eqb d pad then
          match l' with [] => Some [val_byte (b0 s t)] | _ => None end
        else None
      else
        u ← dec c;
        if Ascii.eqb d pad then
          match l' with [] => Some [val_byte (b0 s t); val_byte (b1 t u)] | _ => None end
        else
          v ← dec d; r ← decode_groups l';
          Some (val_byte (b0 s t) :: val_byte (b1 t u) :: val_byte (b2 u v) :: r)
  | _ => None
  end.

Definition decode (l : bytes) : option bytes :=
  decode_groups (List.filter (λ a, negb (is_newline a)) l).

End Base64.

Definition EncodeData (raw : bytes) : string :=
  string_of_list_ascii (Base64.encode raw).

Definition DecodeData (data : string) : res bytes :=
  match Base64.decode (list_ascii_of_string data) with
  | Some raw => Ok raw
  | None => Err "illegal base64 data"
  end.

(** ** Lemmas on the encoding *)

Module Base64Facts.
Import Base64.

Lemma byte_val_range a : 0 ≤ byte_val a < 256.
Proof. unfold byte_val. pose proof (N_ascii_bounded a). lia. Qed.

Lemma val_byte_val a : val_byte (byte_val a) = a.
Proof. unfold val_byte, byte_val. rewrite N2Z.id. apply ascii_N_embedding. Qed.

Definition enc_ok (s : Z) : bool :=
  bool_decide (dec (enc s) = Some s) && negb (Ascii.eqb (enc s) pad) &&
  negb (is_newline (enc s)).

Lemma dec_enc s : 0 ≤ s < 64 →
  dec (enc s) = Some s ∧ Ascii.eqb (enc s) pad = false ∧ is_newline (enc s) = false.
Proof.
  intros Hs. assert (enc_ok s = true) as H.
  { by apply (all_below_spec 64); [vm_compute|]. }
  unfold enc_ok in H. by bools.
Qed.

Ltac Zify.zify_post_hook ::= Z.div_mod_to_equations.

Lemma sextets_range x y z :
  0 ≤ x < 256 → 0 ≤ y < 256 → 0 ≤ z < 256 →
  0 ≤ s0 x < 64 ∧ 0 ≤ s1 x y < 64 ∧ 0 ≤ s2 y z < 64 ∧ 0 ≤ s3 z < 64.
Proof. unfold s0, s1, s2, s3. lia. Qed.

Lemma group_bytes x y z :
  0 ≤ x < 256 → 0 ≤ y < 256 → 0 ≤ z < 256 →
  b0 (s0 x) (s1 x y) = x ∧ b1 (s1 x y) (s2 y z) = y ∧ b2 (s2 y z) (s3 z) = z.
Proof. unfold b0, b1, b2, s0, s1, s2, s3. lia. Qed.

Ltac Zify.zify_post_hook ::= idtac.

(** Induction over a byte string in groups of three. *)
Lemma groups_ind (P : bytes → Prop) :
  P [] → (∀ a, P [a]) → (∀ a b, P [a; b]) →
  (∀ a b c l, P l → P (a :: b :: c :: l)) → ∀ l, P l.
Proof.
  intros H0 H1 H2 H3.
  assert (∀ n l, (length l ≤ n)%nat → P l) as Hn.
  { induction n as [|n IH]; intros [|a [|b [|c l]]]; simpl; intros Hl; auto; try lia.
    apply H3, IH. lia. }
  intros l. by apply (Hn (length l)).
Qed.

Ltac group_facts :=
  repeat match goal with
    | |- context [byte_val ?a] =>
        lazymatch goal with
        | _ : 0 ≤ byte_val a < 256 |- _ => fail
        | _ => pose proof (byte_val_range a)
        end
    end.

Lemma encode_clean l : List.filter (λ a, negb (is_newline a)) (encode l) = encode l.
Proof.
  induction l as [| a | a b | a b c l IH] using groups_ind; [done|..]; simpl; group_facts.
  - destruct (sextets_range (byte_val a) 0 0) as (? & ? & _); [lia..|].
    destruct (dec_enc (s0 (byte_val a))) as (_ & _ & ->); [done|].
    by destruct (dec_enc (s1 (byte_val a) 0)) as (_ & _ & ->).
  - destruct (sextets_range (byte_val a) (byte_val b) 0) as (? & ? & ? & _); [lia..|].
    destruct (dec_enc (s0 (byte_val a))) as (_ & _ & ->); [done|].
    destruct (dec_enc (s1 (byte_val a) (byte_val b))) as (_ & _ & ->); [done|].
    by destruct (dec_enc (s2 (byte_val b) 0)) as (_ & _ & ->).
  - destruct (sextets_range (byte_val a) (byte_val b) (byte_val c)) as (? & ? & ? & ?); [lia..|].
    destruct (dec_enc (s0 (byte_val a))) as (_ & _ & ->); [done|].
    destruct (dec_enc (s1 (byte_val a) (byte_val b))) as (_ & _ & ->); [done|].
    destruct (dec_enc (s2 (byte_val b) (byte_val c))) as (_ & _ & ->); [done|].
    destruct (dec_enc (s3 (byte_val c))) as (_ & _ & ->); [done|]. simpl. by rewrite IH.
Qed.

Lemma decode_groups_encode l : decode_groups (encode l) = Some l.
Proof.
  induction l as [| a | a b | a b c l IH] using groups_ind; [done|..];
    cbn [encode decode_groups]; group_facts.
  - destruct (sextets_range (byte_val a) 0 0) as (? & ? & _); [lia..|].
    destruct (group_bytes (byte_val a) 0 0) as (E0 & _); [lia..|].
    destruct (dec_enc (s0 (byte_val a))) as (-> & _ & _); [done|].
    destruct (dec_enc (s1 (byte_val a) 0)) as (-> & _ & _); [done|].
    simpl. by rewrite E0, val_byte_val.
  - destruct (sextets_range (byte_val a) (byte_val b) 0) as (? & ? & ? & _); [lia..|].
    destruct (group_bytes (byte_val a) (byte_val b) 0) as (E0 & E1 & _); [lia..|].
    destruct (dec_enc (s0 (byte_val a))) as (-> & _ & _); [done|].
    destruct (dec_enc (s1 (byte_val a) (byte_val b))) as (-> & _ & _); [done|].
    destruct (dec_enc (s2 (byte_val b) 0)) as (-> & -> & _); [done|].
    simpl. by rewrite E0, E1, !val_byte_val.
  - destruct (sextets_range (byte_val a) (byte_val b) (byte_val c)) as (? & ? & ? & ?); [lia..|].
    destruct (group_bytes (byte_val a) (byte_val b) (byte_val c)) as (E0 & E1 & E2); [lia..|].
    destruct (dec_enc (s0 (byte_val a))) as (-> & _ & _); [done|].
    destruct (dec_enc (s1 (byte_val a) (byte_val b))) as (-> & _ & _); [done|].
    destruct (dec_enc (s2 (byte_val b) (byte_val c))) as (-> & -> & _); [done|].
    destruct (dec_enc (s3 (byte_val c))) as (-> & -> & _); [done|].
    simpl. by rewrite IH, E0, E1, E2, !val_byte_val.
Qed.

Lemma decode_encode l : decode (encode l) = Some l.
Proof. unfold decode. by rewrite encode_clean, decode_groups_encode. Qed.

Lemma encode_length l :
  Z.of_nat (length (encode l)) = 4 * ((Z.of_nat (length l) + 2) / 3).
Proof.
  induction l as [| a | a b | a b c l IH] using groups_ind; [done..|].
  cbn [encode length]. rewrite !Nat2Z.inj_succ, IH.
  replace (Z.succ (Z.succ (Z.succ (Z.of_nat (length l)))) + 2)
    with (Z.of_nat (length l) + 2 + 1 * 3) by lia.
  rewrite Z.div_add by lia. lia.
Qed.

End Base64Facts.

Lemma EncodeData_length raw :
  Z.of_nat (String.length (EncodeData raw)) = 4 * ((Z.of_nat (length raw) + 2) / 3).
Proof.
  unfold EncodeData. rewrite <- Base64Facts.encode_length. f_equal.
  generalize (Base64.encode raw) as l. induction l as [|a l IH]; simpl; congruence.
Qed.

Lemma DecodeData_EncodeData_ok raw : DecodeData (EncodeData raw) = Ok raw.
Proof.
  unfold DecodeData, EncodeData. rewrite list_ascii_of_string_of_list_ascii.
  by rewrite Base64Facts.decode_encode.
Qed.
#[export] Hint Rewrite DecodeData_EncodeData_ok : go.
