(* ===== verification/Registry.v ===== *)
(** * The device registry ([internal/server/registry.go])

    [Registry] holds the SQLite tables: a table with a primary (or unique) key is
    a finite map from that key to the remaining columns, the append-only audit
    log is a list.  Each method of the Go type is one function: the SQL statements
    are written out on the tables, the Go code around them as it is.  [db_up] says
    whether the store accepts statements; when it does not (the handle was
    closed), every statement returns an error and leaves the tables alone.

    A TEXT timestamp column holds the RFC 3339 rendering of an instant, kept here
    as the instant; a column that may hold the empty string is an [option].  A
    TEXT column holding a JSON array of strings is kept as the list.  Randomness,
    the clock and the hash functions are arguments. *)
From stdpp Require Import sorting.
From Stdlib Require Import ZArith Lia Ascii String.
From S2P Require Import Prelude GoStrings Protocol.
Open Scope string_scope.
Open Scope list_scope.
Open Scope Z_scope.

(** ** What the registry uses of the hash functions *)

(** [golang.org/x/crypto/bcrypt] and SHA-256. [bcrypt_generate salt pw] is
    [bcrypt.GenerateFromPassword] drawing [salt]; [bcrypt_compare h pw] says that
    [bcrypt.CompareHashAndPassword] returns nil. *)
Class Crypto := {
  bcrypt_generate : string → string → res string;
  bcrypt_compare : string → string → bool;
  sha256 : string → bytes
}.

(** What their documentation promises. *)
Class CryptoLaws `{Crypto} := {
  bcrypt_generate_compare salt pw h :
    bcrypt_generate salt pw = Ok h → bcrypt_compare h pw = true;
  bcrypt_generate_ne salt pw h : bcrypt_generate salt pw = Ok h → h ≠ ""
}.

(** ** Records *)

Definition ForwardPolicyAny := "any".
Definition ForwardPolicyRestricted := "restricted".

Definition ValidForwardPolicy (p : string) : bool :=
  String.eqb p ForwardPolicyAny || String.eqb p ForwardPolicyRestricted.

Record Device := mkDevice {
  dev_ID : string; dev_Name : string; dev_Hostname : string; dev_OS : string;
  dev_Arch : string; dev_LANIPs : list string; dev_Group : string;
  dev_ForwardPolicy : string; dev_CreatedAt : Time; dev_LastSeen : Time;
  dev_Online : bool; dev_Capabilities : option DeviceCapabilities
}.

Record ForwardGrant := mkForwardGrant {
  fg_SourceDevice : string; fg_TargetDevice : string;
  fg_PortMin : Z; fg_PortMax : Z; fg_CreatedAt : Time
}.

Record ForwardPolicyRecord := mkForwardPolicyRecord {
  fpr_DeviceID : string; fpr_Name : string; fpr_ForwardPolicy : string; fpr_GrantCount : Z
}.

Record User := mkUser {
  user_ID : Z; user_Username : string; user_Role : string;
  user_DeviceIDs : list string; user_ExpiresAt : Time; user_CreatedAt : Time
}.

Record DeviceKey := mkDeviceKey {
  key_DeviceID : string; key_Name : string; key_CreatedAt : Time;
  key_ExpiresAt : Time; key_Token : string
}.

Record Invite := mkInvite {
  inv_Code : string; inv_Name : string; inv_ExpiresAt : Time; inv_CreatedAt : Time
}.

Record AuditEntry := mkAuditEntry {
  au_ID : Z; au_Actor : string; au_Action : string; au_Target : string;
  au_Detail : string; au_CreatedAt : Time
}.

Record ConnectionRecord := mkConnectionRecord {
  conn_ID : string; conn_Actor : string; conn_DeviceID : string; conn_DeviceName : string;
  conn_PeerDeviceID : string; conn_PeerDeviceName : string; conn_Service : string;
  conn_Transport : string; conn_State : string; conn_ClientIP : string;
  conn_BytesToDevice : Z; conn_BytesFromDevice : Z; conn_StartedAt : Time;
  conn_EndedAt : option Time
}.

(** Rows: the columns other than the key *)
Record device_row := mkDeviceRow {
  d_name : string; d_hostname : string; d_os : string; d_arch : string;
  d_lan_ips : list string; d_group_name : string; d_forward_policy : string;
  d_created_at : Time; d_last_seen : Time; d_online : Z
}.

Record user_row := mkUserRow {
  u_id : Z; u_password_hash : string; u_role : string; u_created_at : Time;
  u_expires_at : option Time; u_device_ids : list string
}.

Record key_row := mkKeyRow {
  k_token_hash : string; k_name : string; k_created_at : Time; k_expires_at : option Time
}.

Record invite_row := mkInviteRow {
  i_name : string; i_expires_at : Time; i_created_at : Time
}.

Record conn_row := mkConnRow {
  c_actor : string; c_device_id : string; c_peer_device_id : string; c_service : string;
  c_transport : string; c_state : string; c_client_ip : string;
  c_bytes_to_device : Z; c_bytes_from_device : Z;
  c_started_at : Time; c_ended_at : option Time
}.

(** [registrySchema] *)
Record Registry := mkRegistry {
  db_up : bool;
  devices : gmap string device_row;
  users : gmap string user_row;
  next_user_id : Z;
  device_keys : gmap string key_row;
  invite_codes : gmap string invite_row;
  audit_log : list AuditEntry;
  connection_sessions : gmap string conn_row;
  connection_traffic : gmap (string * Time) (Z * Z);
  forward_grants : gmap (string * string * Z * Z) Time
}.

Definition set_devices (f : gmap string device_row → gmap string device_row) (r : Registry) :=
  mkRegistry (db_up r) (f (devices r)) (users r) (next_user_id r) (device_keys r)
    (invite_codes r) (audit_log r) (connection_sessions r) (connection_traffic r) (forward_grants r).
Definition set_users (f : gmap string user_row → gmap string user_row) (n : Z) (r : Registry) :=
  mkRegistry (db_up r) (devices r) (f (users r)) n (device_keys r)
    (invite_codes r) (audit_log r) (connection_sessions r) (connection_traffic r) (forward_grants r).
Definition set_device_keys (f : gmap string key_row → gmap string key_row) (r : Registry) :=
  mkRegistry (db_up r) (devices r) (users r) (next_user_id r) (f (device_keys r))
    (invite_codes r) (audit_log r) (connection_sessions r) (connection_traffic r) (forward_grants r).
Definition set_invite_codes (f : gmap string invite_row → gmap string invite_row) (r : Registry) :=
  mkRegistry (db_up r) (devices r) (users r) (next_user_id r) (device_keys r)
    (f (invite_codes r)) (audit_log r) (connection_sessions r) (connection_traffic r) (forward_grants r).
Definition set_audit_log (l : list AuditEntry) (r : Registry) :=
  mkRegistry (db_up r) (devices r) (users r) (next_user_id r) (device_keys r)
    (invite_codes r) l (connection_sessions r) (connection_traffic r) (forward_grants r).
Definition set_connections (f : gmap string conn_row → gmap string conn_row)
    (g : gmap (string * Time) (Z * Z) → gmap (string * Time) (Z * Z)) (r : Registry) :=
  mkRegistry (db_up r) (devices r) (users r) (next_user_id r) (device_keys r)
    (invite_codes r) (audit_log r) (f (connection_sessions r)) (g (connection_traffic r)) (forward_grants r).
Definition set_forward_grants
    (f : gmap (string * string * Z * Z) Time → gmap (string * string * Z * Z) Time) (r : Registry) :=
  mkRegistry (db_up r) (devices r) (users r) (next_user_id r) (device_keys r)
    (invite_codes r) (audit_log r) (connection_sessions r) (connection_traffic r) (f (forward_grants r)).

(** The error every statement returns once the handle is closed *)
Definition errClosed := "sql: database is closed".
Definition errNoRows := "sql: no rows in result set".
Definition errUnique := "UNIQUE constraint failed".

(** [Exec] of a statement: the tables change only when the store is up. *)
Definition sql_exec (f : Registry → Registry) (r : Registry) : res unit * Registry :=
  if db_up r then (Ok tt, f r) else (Err errClosed, r).

(** An empty database, as the schema creates it *)
Definition empty_registry : Registry := mkRegistry true ∅ ∅ 1 ∅ ∅ [] ∅ ∅ ∅.

(** ** Helpers *)

(** [formatTime]: the zero time is stored as the empty string. *)
Definition formatTime (t : Time) : option Time := if IsZero t then None else Some t.

(** [t, _ = time.Parse(...)]: an empty column parses to the zero time. *)
Definition parse_or_zero (c : option Time) : Time := default zeroTime c.

Definition boolInt (v : bool) : Z := if v then 1 else 0.

Definition hashToken `{Crypto} (token : string) : string := hex_encode (sha256 token).

(** [ORDER BY key COLLATE NOCASE] *)
Definition nocase_le {A} (key : A → string) (x y : A) : Prop :=
  String.le (ToLower (key x)) (ToLower (key y)).
#[export] Instance nocase_le_dec {A} (key : A → string) : RelDecision (nocase_le key).
Proof. intros x y. unfold nocase_le. apply _. Defined.
Definition order_by_nocase {A} (key : A → string) (l : list A) : list A :=
  merge_sort (nocase_le key) l.

(** ** Opening the store *)

(** [NewRegistry] on the tables found on disk: sessions left open by the previous
    process are interrupted and no device is online.  (The schema and the column
    migrations of [ensureColumn] fix the shape of the rows.) *)
Definition interrupt_row (now : Time) (c : conn_row) : conn_row :=
  if String.eqb (c_state c) "active" || String.eqb (c_state c) "pending" then
    mkConnRow (c_actor c) (c_device_id c) (c_peer_device_id c) (c_service c) (c_transport c)
      "interrupted" (c_client_ip c) (c_bytes_to_device c) (c_bytes_from_device c)
      (c_started_at c) (Some now)
  else c.

Definition offline_row (d : device_row) : device_row :=
  mkDeviceRow (d_name d) (d_hostname d) (d_os d) (d_arch d) (d_lan_ips d) (d_group_name d)
    (d_forward_policy d) (d_created_at d) (d_last_seen d) 0.

Definition NewRegistry (disk : Registry) (now : Time) : Registry :=
  mkRegistry true (offline_row <$> devices disk) (users disk) (next_user_id disk)
    (device_keys disk) (invite_codes disk) (audit_log disk)
    (interrupt_row now <$> connection_sessions disk) (connection_traffic disk)
    (forward_grants disk).

(** [Close] *)
Definition Close (r : Registry) : Registry :=
  mkRegistry false (devices r) (users r) (next_user_id r) (device_keys r) (invite_codes r)
    (audit_log r) (connection_sessions r) (connection_traffic r) (forward_grants r).

(** ** Connections *)

(** [StartConnection]; [id] is the random [newID()]. *)
Definition StartConnection (id actor deviceID peerDeviceID service transport clientIP : string)
    (now : Time) (r : Registry) : res string * Registry :=
  if negb (db_up r) then (Err errClosed, r)
  else match connection_sessions r !! id with
       | Some _ => (Err errUnique, r)
       | None =>
           (Ok id, set_connections
              (<[id := mkConnRow actor deviceID peerDeviceID service transport "active"
                         clientIP 0 0 now None]>) (λ t, t) r)
       end.

Definition set_transport (transport : string) (c : conn_row) : conn_row :=
  mkConnRow (c_actor c) (c_device_id c) (c_peer_device_id c) (c_service c) transport
    (c_state c) (c_client_ip c) (c_bytes_to_device c) (c_bytes_from_device c)
    (c_started_at c) (c_ended_at c).

Definition SetConnectionTransport (id transport : string) (r : Registry) : res unit * Registry :=
  sql_exec (set_connections (alter (set_transport transport) id) (λ t, t)) r.

Definition add_bytes (toDevice fromDevice : Z) (c : conn_row) : conn_row :=
  mkConnRow (c_actor c) (c_device_id c) (c_peer_device_id c) (c_service c) (c_transport c)
    (c_state c) (c_client_ip c) (c_bytes_to_device c + toDevice)
    (c_bytes_from_device c + fromDevice) (c_started_at c) (c_ended_at c).

(** [INSERT ... ON CONFLICT DO UPDATE SET bytes = bytes + excluded.bytes] *)
Definition upsert_bucket (k : string * Time) (toDevice fromDevice : Z)
    (t : gmap (string * Time) (Z * Z)) : gmap (string * Time) (Z * Z) :=
  match t !! k with
  | Some (a, b) => <[k := (a + toDevice, b + fromDevice)]> t
  | None => <[k := (toDevice, fromDevice)]> t
  end.

(** [AddConnectionTraffic]: both statements in one transaction *)
Definition AddConnectionTraffic (id : string) (toDevice fromDevice : Z) (now : Time)
    (r : Registry) : res unit * Registry :=
  let bucket := Truncate now Hour in
  sql_exec (set_connections (alter (add_bytes toDevice fromDevice) id)
                            (upsert_bucket (id, bucket) toDevice fromDevice)) r.

Definition end_row (state : string) (now : Time) (c : conn_row) : conn_row :=
  match c_ended_at c with
  | Some _ => c
  | None =>
      mkConnRow (c_actor c) (c_device_id c) (c_peer_device_id c) (c_service c) (c_transport c)
        state (c_client_ip c) (c_bytes_to_device c) (c_bytes_from_device c)
        (c_started_at c) (Some now)
  end.

(** [EndConnection]: only a row whose [ended_at] is empty changes. *)
Definition end_state (state : string) : string :=
  if negb (String.eqb state "closed") && negb (String.eqb state "failed") &&
     negb (String.eqb state "interrupted") then "closed" else state.

Definition EndConnection (id state : string) (now : Time) (r : Registry) : res unit * Registry :=
  sql_exec (set_connections (alter (end_row (end_state state) now) id) (λ t, t)) r.

(** ** Users *)

Definition user_of (username : string) (u : user_row) : User :=
  mkUser (u_id u) username (u_role u) (u_device_ids u) (parse_or_zero (u_expires_at u))
    (u_created_at u).

(** [getUserLocked], [GetUser] *)
Definition getUserLocked (username : string) (r : Registry) : res User :=
  if db_up r then
    match users r !! username with
    | Some u => Ok (user_of username u)
    | None => Err errNoRows
    end
  else Err errClosed.

Definition GetUser := getUserLocked.

Definition insert_user (username hash role : string) (now : Time) (expires : option Time)
    (deviceIDs : list string) (r : Registry) : res unit * Registry :=
  if negb (db_up r) then (Err errClosed, r)
  else match users r !! username with
       | Some _ => (Err errUnique, r)
       | None =>
           (Ok tt, set_users (<[username := mkUserRow (next_user_id r) hash role now expires deviceIDs]>)
                     (next_user_id r + 1) r)
       end.

Section users.
Context `{Crypto}.

(** [EnsureUser] *)
Definition EnsureUser (username password role salt : string) (now : Time) (r : Registry)
    : res unit * Registry :=
  if String.eqb username "" || String.eqb password "" then
    (Err "username and password are required", r)
  else match bcrypt_generate salt password with
       | Err e => (Err e, r)
       | Ok hash =>
           if negb (db_up r) then (Err errClosed, r)
           else match users r !! username with
                | Some _ => (Ok tt, r)
                | None => insert_user username hash role now None [] r
                end
       end.

(** [ValidateUser]: the returned [User] has no creation time. *)
Definition ValidateUser (username password : string) (now : Time) (r : Registry) : res User :=
  if negb (db_up r) then Err "invalid credentials"
  else match users r !! username with
       | None => Err "invalid credentials"
       | Some u =>
           if negb (bcrypt_compare (u_password_hash u) password) then Err "invalid credentials"
           else match u_expires_at u with
                | Some t =>
                    if After now t then Err "account expired"
                    else Ok (mkUser (u_id u) username (u_role u) (u_device_ids u) t zeroTime)
                | None =>
                    Ok (mkUser (u_id u) username (u_role u) (u_device_ids u) zeroTime zeroTime)
                end
       end.

(** [CreateUser] *)
Definition CreateUser (username password role : string) (deviceIDs : list string)
    (expiresAt : Time) (salt : string) (now : Time) (r : Registry) : res unit * Registry :=
  if String.eqb username "" || String.eqb password "" then
    (Err "username and password are required", r)
  else match bcrypt_generate salt password with
       | Err e => (Err e, r)
       | Ok hash => insert_user username hash role now (formatTime expiresAt) deviceIDs r
       end.

(** [SELECT COUNT( * ) FROM users WHERE role = 'admin'] *)
Definition count_admins (r : Registry) : Z :=
  Z.of_nat (size (filter (λ kv, u_role kv.2 = "admin") (users r))).

(** [UpdateUser]: a nil argument leaves the column alone. *)
Definition UpdateUser (username : string) (password role : option string)
    (deviceIDs : option (list string)) (expiresAt : option Time) (salt : string)
    (r : Registry) : res unit * Registry :=
  match getUserLocked username r with
  | Err _ => (Err "user not found", r)
  | Ok u =>
      let role_ok : res unit :=
        match role with
        | None => Ok tt
        | Some ro =>
            if negb (String.eqb ro "admin") && negb (String.eqb ro "operator") then
              Err "role must be admin or operator"
            else if String.eqb (user_Role u) "admin" && negb (String.eqb ro "admin") then
              if count_admins r <=? 1 then Err "cannot demote the last admin" else Ok tt
            else Ok tt
        end in
      match role_ok with
      | Err e => (Err e, r)
      | Ok _ =>
          let new_hash : res string :=
            match password with
            | Some pw => bcrypt_generate salt pw
            | None => Ok ""
            end in
          match new_hash with
          | Err e => (Err e, r)
          | Ok h =>
              sql_exec (set_users (alter (λ row, mkUserRow (u_id row)
                   (if String.eqb h "" then u_password_hash row else h)
                   (default (user_Role u) role) (u_created_at row)
                   (formatTime (default (user_ExpiresAt u) expiresAt))
                   (default (user_DeviceIDs u) deviceIDs)) username) (next_user_id r)) r
          end
      end
  end.

(** [ListUsers] *)
Definition ListUsers (r : Registry) : list User :=
  if db_up r then
    order_by_nocase user_Username (map (λ kv, user_of kv.1 kv.2) (map_to_list (users r)))
  else [].

(** [DeleteUser] *)
Definition DeleteUser (username : string) (r : Registry) : res unit * Registry :=
  if negb (db_up r) then (Err errClosed, r)
  else match users r !! username with
       | None => (Err "user not found", r)
       | Some _ => (Ok tt, set_users (delete username) (next_user_id r) r)
       end.
End users.

(** ** Devices *)

(** [scanDevice] *)
Definition scanDevice (id : string) (d : device_row) : Device :=
  mkDevice id (d_name d) (d_hostname d) (d_os d) (d_arch d) (d_lan_ips d) (d_group_name d)
    (if String.eqb (d_forward_policy d) "" then ForwardPolicyAny else d_forward_policy d)
    (d_created_at d) (d_last_seen d) (d_online d =? 1) None.

(** [getLocked] *)
Definition getLocked (id : string) (r : Registry) : res Device :=
  if db_up r then
    match devices r !! id with
    | Some d => Ok (scanDevice id d)
    | None => Err errNoRows
    end
  else Err errClosed.

(** [Upsert]: an insert takes the column default for the policy, an update keeps
    the name given by an operator, the group, the policy and the creation time. *)
Definition Upsert (id name hostname osName arch : string) (ips : list string) (now : Time)
    (r : Registry) : res Device * Registry :=
  if negb (db_up r) then (Err errClosed, r)
  else
    let r' :=
      match devices r !! id with
      | None =>
          set_devices (<[id := mkDeviceRow name hostname osName arch ips "" ForwardPolicyAny
                                 now now 1]>) r
      | Some d =>
          let name' := if negb (String.eqb (d_name d) "") then d_name d else name in
          set_devices (alter (λ row, mkDeviceRow name' hostname osName arch ips (d_group_name row)
                          (d_forward_policy row) (d_created_at row) now 1) id) r
      end in
    (getLocked id r', r').

(** [SetOnline] *)
Definition SetOnline (id : string) (online : bool) (now : Time) (r : Registry)
    : res unit * Registry :=
  sql_exec (set_devices (alter (λ d, mkDeviceRow (d_name d) (d_hostname d) (d_os d) (d_arch d)
    (d_lan_ips d) (d_group_name d) (d_forward_policy d) (d_created_at d) now (boolInt online)) id)) r.

(** [Get] *)
Definition Get (id : string) (r : Registry) : option Device :=
  match getLocked id r with Ok d => Some d | Err _ => None end.

(** [List] *)
Definition List (r : Registry) : list Device :=
  if db_up r then
    order_by_nocase dev_Name (map (λ kv, scanDevice kv.1 kv.2) (map_to_list (devices r)))
  else [].

Inductive device_column := ColName | ColGroupName | ColForwardPolicy.

Definition set_column (c : device_column) (value : string) (d : device_row) : device_row :=
  match c with
  | ColName => mkDeviceRow value (d_hostname d) (d_os d) (d_arch d) (d_lan_ips d)
      (d_group_name d) (d_forward_policy d) (d_created_at d) (d_last_seen d) (d_online d)
  | ColGroupName => mkDeviceRow (d_name d) (d_hostname d) (d_os d) (d_arch d) (d_lan_ips d)
      value (d_forward_policy d) (d_created_at d) (d_last_seen d) (d_online d)
  | ColForwardPolicy => mkDeviceRow (d_name d) (d_hostname d) (d_os d) (d_arch d) (d_lan_ips d)
      (d_group_name d) value (d_created_at d) (d_last_seen d) (d_online d)
  end.

(** [updateField] *)
Definition updateField (id : string) (c : device_column) (value : string) (r : Registry)
    : res unit * Registry :=
  if negb (db_up r) then (Err errClosed, r)
  else match devices r !! id with
       | None => (Err "device not found", r)
       | Some _ => (Ok tt, set_devices (alter (set_column c value) id) r)
       end.

(** [Rename] *)
Definition Rename (id name : string) (r : Registry) : res unit * Registry :=
  if String.eqb name "" then (Err "name cannot be empty", r) else updateField id ColName name r.

(** [SetGroup] *)
Definition SetGroup (id group : string) (r : Registry) : res unit * Registry :=
  updateField id ColGroupName group r.

(** [SetForwardPolicy] *)
Definition SetForwardPolicy (id policy : string) (r : Registry) : res unit * Registry :=
  if negb (ValidForwardPolicy policy) then
    (Err "forward policy must be 'any' or 'restricted'", r)
  else updateField id ColForwardPolicy policy r.

(** [Delete] *)
Definition Delete (id : string) (r : Registry) : res unit * Registry :=
  if negb (db_up r) then (Err errClosed, r)
  else match devices r !! id with
       | None => (Err "device not found", r)
       | Some _ => (Ok tt, set_devices (delete id) r)
       end.

(** [Groups] *)
Definition Groups (r : Registry) : list string :=
  if db_up r then
    order_by_nocase (λ g, g)
      (remove_dups (filter (λ g, g ≠ "") (map (λ kv, d_group_name kv.2) (map_to_list (devices r)))))
  else [].

(** ** Forwarding policy *)

(** The row condition of [ForwardAllowed]'s second query *)
Definition grant_covers (source target : string) (port : Z)
    (k : string * string * Z * Z) : bool :=
  let '(s, t, pmin, pmax) := k in
  String.eqb s source && (String.eqb t target || String.eqb t "*") &&
  (pmin <=? port) && (port <=? pmax).

(** [ForwardAllowed] *)
Definition ForwardAllowed (source target : string) (port : Z) (r : Registry) : bool :=
  if negb (db_up r) then false
  else match devices r !! source with
       | None => false
       | Some d =>
           if negb (String.eqb (d_forward_policy d) ForwardPolicyRestricted) then true
           else
             let count := size (filter (λ kv, grant_covers source target port kv.1 = true)
                                  (forward_grants r)) in
             (0 <? Z.of_nat count)
       end.

(** [AddForwardGrant] *)
Definition AddForwardGrant (source target : string) (portMin portMax : Z) (now : Time)
    (r : Registry) : res unit * Registry :=
  if String.eqb source "" || String.eqb target "" then
    (Err "source and target devices are required", r)
  else if (portMin <=? 0) || (65535 <? portMax) || (portMax <? portMin) then
    (Err ("invalid port range " +:+ Itoa portMin +:+ "-" +:+ Itoa portMax), r)
  else if negb (db_up r) then (Err errClosed, r)
  else match devices r !! source with
       | None => (Err "source device not found", r)
       | Some _ =>
           (Ok tt, set_forward_grants
              (λ g, match g !! (source, target, portMin, portMax) with
                    | Some _ => g
                    | None => <[(source, target, portMin, portMax) := now]> g
                    end) r)
       end.

(** [DeleteForwardGrant] *)
Definition DeleteForwardGrant (source target : string) (portMin portMax : Z) (r : Registry)
    : res unit * Registry :=
  if negb (db_up r) then (Err errClosed, r)
  else match forward_grants r !! (source, target, portMin, portMax) with
       | None => (Err "grant not found", r)
       | Some _ => (Ok tt, set_forward_grants (delete (source, target, portMin, portMax)) r)
       end.

(** [GetForwardGrant] *)
Definition GetForwardGrant (source target : string) (portMin portMax : Z) (r : Registry)
    : option ForwardGrant :=
  if negb (db_up r) then None
  else (λ t, mkForwardGrant source target portMin portMax t) <$>
         forward_grants r !! (source, target, portMin, portMax).

Definition grant_of (kv : (string * string * Z * Z) * Time) : ForwardGrant :=
  let '((s, t, pmin, pmax), created) := kv in mkForwardGrant s t pmin pmax created.

(** [ORDER BY source_device, target_device, port_min, port_max] *)
Definition grant_cmp (a b : ForwardGrant) : comparison :=
  match String.compare (fg_SourceDevice a) (fg_SourceDevice b) with
  | Eq => match String.compare (fg_TargetDevice a) (fg_TargetDevice b) with
          | Eq => match Z.compare (fg_PortMin a) (fg_PortMin b) with
                  | Eq => Z.compare (fg_PortMax a) (fg_PortMax b)
                  | c => c
                  end
          | c => c
          end
  | c => c
  end.
Definition grant_le (a b : ForwardGrant) : Prop := grant_cmp a b ≠ Gt.
#[export] Instance grant_le_dec : RelDecision grant_le.
Proof. intros a b. unfold grant_le. apply _. Defined.

(** [listForwardGrantsLocked]; [ListForwardGrants] passes the empty source. *)
Definition listForwardGrantsLocked (source : string) (r : Registry) : list ForwardGrant :=
  if db_up r then
    merge_sort grant_le
      (filter (λ g, source = "" ∨ fg_SourceDevice g = source)
         (map grant_of (map_to_list (forward_grants r))))
  else [].
Definition ListForwardGrants (r : Registry) : list ForwardGrant := listForwardGrantsLocked "" r.
Definition ListForwardGrantsFor (source : string) (r : Registry) : list ForwardGrant :=
  listForwardGrantsLocked source r.

(** [ListForwardPolicies]: every device with the number of its grants *)
Definition ListForwardPolicies (r : Registry) : list ForwardPolicyRecord :=
  if db_up r then
    order_by_nocase fpr_Name
      (map (λ kv, mkForwardPolicyRecord kv.1 (d_name kv.2)
              (if String.eqb (d_forward_policy kv.2) "" then ForwardPolicyAny
               else d_forward_policy kv.2)
              (Z.of_nat (size (filter (λ g, (g.1).1.1.1 = kv.1) (forward_grants r)))))
         (map_to_list (devices r)))
  else [].

(** ** Device keys and invites *)

Section keys.
Context `{Crypto}.

Definition expiry (now : Time) (ttl : Duration) : option Time :=
  if 0 <? ttl then Some (now + ttl) else None.

(** [CreateDeviceKey]; the two random reads are arguments, [None] a failed read. *)
Definition CreateDeviceKey (idBytes tokenBytes : option bytes) (name : string)
    (ttl : Duration) (now : Time) (r : Registry) : res DeviceKey * Registry :=
  match idBytes, tokenBytes with
  | Some ib, Some tb =>
      let deviceID := "dev-" +:+ hex_encode ib in
      let token := hex_encode tb in
      let expires := expiry now ttl in
      if negb (db_up r) then (Err errClosed, r)
      else match device_keys r !! deviceID with
           | Some _ => (Err errUnique, r)
           | None =>
               (Ok (mkDeviceKey deviceID name now (parse_or_zero expires) token),
                set_device_keys (<[deviceID := mkKeyRow (hashToken token) name now expires]>) r)
           end
  | _, _ => (Err "rand: read failed", r)
  end.

(** [ValidateDeviceKey] *)
Definition ValidateDeviceKey (deviceID token : string) (now : Time) (r : Registry) : bool :=
  if negb (db_up r) then false
  else match device_keys r !! deviceID with
       | None => false
       | Some k =>
           match k_expires_at k with
           | Some t => if After now t then false else String.eqb (k_token_hash k) (hashToken token)
           | None => String.eqb (k_token_hash k) (hashToken token)
           end
       end.

(** [RotateDeviceKey] *)
Definition RotateDeviceKey (deviceID : string) (tokenBytes : option bytes) (ttl : Duration)
    (now : Time) (r : Registry) : res DeviceKey * Registry :=
  if negb (db_up r) then (Err errClosed, r)
  else match device_keys r !! deviceID with
       | None => (Err errNoRows, r)
       | Some k =>
           match tokenBytes with
           | None => (Err "rand: read failed", r)
           | Some tb =>
               let token := hex_encode tb in
               let expires := expiry now ttl in
               (Ok (mkDeviceKey deviceID (k_name k) (k_created_at k) (parse_or_zero expires) token),
                set_device_keys (alter (λ row, mkKeyRow (hashToken token) (k_name row)
                                          (k_created_at row) expires) deviceID) r)
           end
       end.

(** [RevokeDeviceKey] *)
Definition RevokeDeviceKey (deviceID : string) (r : Registry) : res unit * Registry :=
  if negb (db_up r) then (Err errClosed, r)
  else match device_keys r !! deviceID with
       | None => (Err "device key not found", r)
       | Some _ => (Ok tt, set_device_keys (delete deviceID) r)
       end.
End keys.

(** [CreateInvite] *)
Definition CreateInvite (b : option bytes) (name : string) (ttl : Duration) (now : Time)
    (r : Registry) : res Invite * Registry :=
  match b with
  | None => (Err "rand: read failed", r)
  | Some b =>
      let code := "inv-" +:+ hex_encode b in
      let expires := now + ttl in
      if negb (db_up r) then (Err errClosed, r)
      else match invite_codes r !! code with
           | Some _ => (Err errUnique, r)
           | None => (Ok (mkInvite code name expires now),
                      set_invite_codes (<[code := mkInviteRow name expires now]>) r)
           end
  end.

(** [ValidateInvite] *)
Definition ValidateInvite (code : string) (now : Time) (r : Registry) : res Invite :=
  if negb (db_up r) then Err "invalid invite code"
  else match invite_codes r !! code with
       | None => Err "invalid invite code"
       | Some i =>
           if After now (i_expires_at i) then Err "invite code expired"
           else Ok (mkInvite code (i_name i) (i_expires_at i) (i_created_at i))
       end.

(** [UseInvite] *)
Definition UseInvite (code : string) (r : Registry) : res unit * Registry :=
  if negb (db_up r) then (Err errClosed, r)
  else match invite_codes r !! code with
       | None => (Err "invite code not found", r)
       | Some _ => (Ok tt, set_invite_codes (delete code) r)
       end.

(** ** Listings ordered by a timestamp column

    [ORDER BY created_at DESC] compares the stored text; [stamp_text] is the
    RFC 3339 rendering in the server's time zone. *)
Section listings.
Context (stamp_text : Time → string).

Definition newest_first {A} (key : A → Time) (x y : A) : Prop :=
  String.le (stamp_text (key y)) (stamp_text (key x)).
#[local] Instance newest_first_dec {A} (key : A → Time) : RelDecision (newest_first key).
Proof. intros x y. unfold newest_first. apply _. Defined.

(** [ListDeviceKeys] *)
Definition ListDeviceKeys (r : Registry) : list DeviceKey :=
  if db_up r then
    merge_sort (newest_first key_CreatedAt)
      (map (λ kv, mkDeviceKey kv.1 (k_name kv.2) (k_created_at kv.2)
                    (parse_or_zero (k_expires_at kv.2)) "")
         (map_to_list (device_keys r)))
  else [].

(** [ListInvites] *)
Definition ListInvites (r : Registry) : list Invite :=
  if db_up r then
    merge_sort (newest_first inv_CreatedAt)
      (map (λ kv, mkInvite kv.1 (i_name kv.2) (i_expires_at kv.2) (i_created_at kv.2))
         (map_to_list (invite_codes r)))
  else [].
End listings.

(** ** Audit *)

(** [RecordAudit]: rows are numbered from 1 and never deleted. *)
Definition RecordAudit (actor action target detail : string) (now : Time) (r : Registry)
    : res unit * Registry :=
  sql_exec (λ r, set_audit_log
    (audit_log r ++ [mkAuditEntry (Z.of_nat (length (audit_log r)) + 1) actor action target detail now]) r) r.

(** [ListAudit] *)
Definition ListAudit (limit : Z) (r : Registry) : list AuditEntry :=
  let limit := if (limit <=? 0) || (200 <? limit) then 50 else limit in
  if db_up r then take (Z.to_nat limit) (reverse (audit_log r)) else [].
