(* ===== verification/RegistryProps.v ===== *)
(** * Properties of the registry

    The well-formedness invariant of the tables and its preservation by every
    operation, the life cycle of device keys, forwarding policy, accounts and
    connections, and the behaviour of a closed store. *)
From stdpp Require Import sorting.
From Stdlib Require Import ZArith Lia Ascii String.
From S2P Require Import Prelude GoStrings Protocol Registry.
Open Scope string_scope.
Open Scope list_scope.
Open Scope Z_scope.

(** ** Operations as data *)

(** Every call that can change the registry. *)
Inductive reg_op :=
| OpStartConnection (id actor dev peer service transport ip : string) (now : Time)
| OpSetConnectionTransport (id transport : string)
| OpAddConnectionTraffic (id : string) (toDevice fromDevice : Z) (now : Time)
| OpEndConnection (id state : string) (now : Time)
| OpEnsureUser (username password role salt : string) (now : Time)
| OpCreateUser (username password role : string) (ids : list string) (expires : Time)
    (salt : string) (now : Time)
| OpUpdateUser (username : string) (password role : option string)
    (ids : option (list string)) (expires : option Time) (salt : string)
| OpDeleteUser (username : string)
| OpUpsert (id name hostname os arch : string) (ips : list string) (now : Time)
| OpSetOnline (id : string) (online : bool) (now : Time)
| OpRename (id name : string)
| OpSetGroup (id group : string)
| OpSetForwardPolicy (id policy : string)
| OpDelete (id : string)
| OpAddForwardGrant (source target : string) (pmin pmax : Z) (now : Time)
| OpDeleteForwardGrant (source target : string) (pmin pmax : Z)
| OpCreateDeviceKey (idBytes tokenBytes : option bytes) (name : string) (ttl : Duration) (now : Time)
| OpRotateDeviceKey (id : string) (tokenBytes : option bytes) (ttl : Duration) (now : Time)
| OpRevokeDeviceKey (id : string)
| OpCreateInvite (b : option bytes) (name : string) (ttl : Duration) (now : Time)
| OpUseInvite (code : string)
| OpRecordAudit (actor action target detail : string) (now : Time)
| OpClose
| OpReopen (now : Time).

Definition run_op `{Crypto} (op : reg_op) (r : Registry) : Registry :=
  match op with
  | OpStartConnection id a d p s t ip now => (StartConnection id a d p s t ip now r).2
  | OpSetConnectionTransport id t => (SetConnectionTransport id t r).2
  | OpAddConnectionTraffic id a b now => (AddConnectionTraffic id a b now r).2
  | OpEndConnection id st now => (EndConnection id st now r).2
  | OpEnsureUser u p ro salt now => (EnsureUser u p ro salt now r).2
  | OpCreateUser u p ro ids e salt now => (CreateUser u p ro ids e salt now r).2
  | OpUpdateUser u p ro ids e salt => (UpdateUser u p ro ids e salt r).2
  | OpDeleteUser u => (DeleteUser u r).2
  | OpUpsert id n h o a ips now => (Upsert id n h o a ips now r).2
  | OpSetOnline id b now => (SetOnline id b now r).2
  | OpRename id n => (Rename id n r).2
  | OpSetGroup id g => (SetGroup id g r).2
  | OpSetForwardPolicy id p => (SetForwardPolicy id p r).2
  | OpDelete id => (Delete id r).2
  | OpAddForwardGrant s t a b now => (AddForwardGrant s t a b now r).2
  | OpDeleteForwardGrant s t a b => (DeleteForwardGrant s t a b r).2
  | OpCreateDeviceKey ib tb n ttl now => (CreateDeviceKey ib tb n ttl now r).2
  | OpRotateDeviceKey id tb ttl now => (RotateDeviceKey id tb ttl now r).2
  | OpRevokeDeviceKey id => (RevokeDeviceKey id r).2
  | OpCreateInvite b n ttl now => (CreateInvite b n ttl now r).2
  | OpUseInvite c => (UseInvite c r).2
  | OpRecordAudit a b c d now => (RecordAudit a b c d now r).2
  | OpClose => Close r
  | OpReopen now => NewRegistry r now
  end.

(** ** Well-formed tables *)

Definition grant_wf (k : string * string * Z * Z) : Prop :=
  let '(s, t, pmin, pmax) := k in s ≠ "" ∧ t ≠ "" ∧ 0 < pmin ≤ pmax ∧ pmax ≤ 65535.

Definition device_wf (d : device_row) : Prop :=
  ValidForwardPolicy (d_forward_policy d) = true ∧ (d_online d = 0 ∨ d_online d = 1).

(** A session row is open exactly while its state is ["active"]. *)
Definition conn_wf (c : conn_row) : Prop :=
  match c_ended_at c with
  | None => c_state c = "active"
  | Some _ => c_state c = "closed" ∨ c_state c = "failed" ∨ c_state c = "interrupted"
  end.

Definition users_wf (m : gmap string user_row) (next : Z) : Prop :=
  (∀ n u, m !! n = Some u → 1 ≤ u_id u < next) ∧
  (∀ n1 n2 u1 u2, m !! n1 = Some u1 → m !! n2 = Some u2 → u_id u1 = u_id u2 → n1 = n2).

Record registry_wf (r : Registry) : Prop := {
  wf_grants : ∀ k t, forward_grants r !! k = Some t → grant_wf k;
  wf_devices : ∀ i d, devices r !! i = Some d → device_wf d;
  wf_conns : ∀ i c, connection_sessions r !! i = Some c → conn_wf c;
  wf_users : 1 ≤ next_user_id r ∧ users_wf (users r) (next_user_id r);
  wf_audit : ∀ i e, audit_log r !! i = Some e → au_ID e = Z.of_nat i + 1;
  wf_traffic : ∀ i b v, connection_traffic r !! (i, b) = Some v → b mod Hour = 0
}.

(** ** Map lemmas shared by the preservation proofs *)

Section maps.
Context {K : Type} `{Countable K} {V : Type} (P : K → V → Prop).
Implicit Types m : gmap K V.

Lemma forall_insert m k v :
  (∀ i x, m !! i = Some x → P i x) → P k v → ∀ i x, <[k := v]> m !! i = Some x → P i x.
Proof.
  intros Hm Hv i x. rewrite lookup_insert. case_decide as E; [|apply Hm].
  subst. by intros [= <-].
Qed.

Lemma forall_alter m f k :
  (∀ i x, m !! i = Some x → P i x) → (∀ x, m !! k = Some x → P k x → P k (f x)) →
  ∀ i x, alter f k m !! i = Some x → P i x.
Proof.
  intros Hm Hf i x. rewrite lookup_alter. case_decide as E; [|apply Hm].
  subst. rewrite fmap_Some. intros (y & Hy & ->). auto.
Qed.

Lemma forall_delete m k :
  (∀ i x, m !! i = Some x → P i x) → ∀ i x, delete k m !! i = Some x → P i x.
Proof. intros Hm i x [_ ?]%lookup_delete_Some. auto. Qed.

Lemma forall_fmap m f :
  (∀ i x, m !! i = Some x → P i x) → (∀ i x, P i x → P i (f x)) →
  ∀ i x, (f <$> m) !! i = Some x → P i x.
Proof.
  intros Hm Hf i x. rewrite lookup_fmap, fmap_Some. intros (y & Hy & ->). auto.
Qed.
End maps.

Lemma users_wf_insert m next n row :
  users_wf m next → 1 ≤ next → u_id row = next → m !! n = None →
  users_wf (<[n := row]> m) (next + 1).
Proof.
  intros [Hr Hu] H1 Hid Hn. split.
  - intros k u. rewrite lookup_insert. case_decide.
    + intros [= <-]. lia.
    + intros Hk%Hr. lia.
  - intros n1 n2 u1 u2. rewrite !lookup_insert. repeat case_decide; subst.
    + done.
    + intros [= <-] Hk%Hr ?. lia.
    + intros Hk%Hr [= <-] ?. lia.
    + apply Hu.
Qed.

Lemma users_wf_alter m next n f :
  users_wf m next → (∀ u, u_id (f u) = u_id u) → users_wf (alter f n m) next.
Proof.
  intros [Hr Hu] Hf.
  assert (∀ k u, alter f n m !! k = Some u → ∃ u0, m !! k = Some u0 ∧ u_id u = u_id u0) as Hl.
  { intros k u. rewrite lookup_alter. case_decide; [|by eauto]. subst.
    rewrite fmap_Some. intros (u0 & ? & ->). eauto. }
  split.
  - intros k u (u0 & H0%Hr & ->)%Hl. done.
  - intros n1 n2 u1 u2 (v1 & ? & ->)%Hl (v2 & ? & ->)%Hl. by apply Hu.
Qed.

Lemma users_wf_delete m next n : users_wf m next → users_wf (delete n m) next.
Proof.
  intros [Hr Hu]. split.
  - intros k u [_ ?]%lookup_delete_Some. eauto.
  - intros n1 n2 u1 u2 [_ ?]%lookup_delete_Some [_ ?]%lookup_delete_Some. by apply Hu.
Qed.

Lemma Truncate_multiple now d : 0 < d → Truncate now d mod d = 0.
Proof.
  intros Hd. unfold Truncate. rewrite Zminus_mod_idemp_r, Z.sub_diag. by apply Z.mod_0_l; lia.
Qed.

#[export] Hint Resolve users_wf_insert users_wf_alter users_wf_delete : registry.

(** ** Preservation *)

(** Break a call into its branches and reduce the resulting registry. *)
Ltac reg_cases :=
  repeat match goal with
    | |- context [match ?x with Some _ => _ | None => _ end] => destruct x eqn:?
    | |- context [match ?x with Ok _ => _ | Err _ => _ end] => destruct x eqn:?
    | |- context [if ?b then _ else _] => destruct b eqn:?
    end; cbn [fst snd] in *.

Lemma wf_set_connections f g r :
  registry_wf r →
  (∀ i c, f (connection_sessions r) !! i = Some c → conn_wf c) →
  (∀ i b v, g (connection_traffic r) !! (i, b) = Some v → b mod Hour = 0) →
  registry_wf (set_connections f g r).
Proof. by intros [] ? ?. Qed.

Lemma wf_set_users f n r :
  registry_wf r → 1 ≤ n ∧ users_wf (f (users r)) n → registry_wf (set_users f n r).
Proof. by intros [] ?. Qed.

Lemma wf_set_devices f r :
  registry_wf r → (∀ i d, f (devices r) !! i = Some d → device_wf d) →
  registry_wf (set_devices f r).
Proof. by intros [] ?. Qed.

Lemma wf_set_device_keys f r : registry_wf r → registry_wf (set_device_keys f r).
Proof. by intros []. Qed.

Lemma wf_set_invite_codes f r : registry_wf r → registry_wf (set_invite_codes f r).
Proof. by intros []. Qed.

Lemma wf_set_forward_grants f r :
  registry_wf r → (∀ k t, f (forward_grants r) !! k = Some t → grant_wf k) →
  registry_wf (set_forward_grants f r).
Proof. by intros [] ?. Qed.

Lemma wf_sql_exec f r : registry_wf r → registry_wf (f r) → registry_wf (sql_exec f r).2.
Proof. unfold sql_exec. by destruct (db_up r). Qed.

#[export] Hint Resolve wf_set_connections wf_set_users wf_set_devices wf_set_device_keys
  wf_set_invite_codes wf_set_forward_grants wf_sql_exec : registry.

Lemma wf_insert_user n h ro now e ids r :
  registry_wf r → registry_wf (insert_user n h ro now e ids r).2.
Proof.
  intros Hr. unfold insert_user. reg_cases; try done.
  destruct (wf_users _ Hr) as [H1 Hu].
  apply wf_set_users; [done|]. split; [lia|]. by apply users_wf_insert.
Qed.

Lemma wf_updateField id c v r :
  (c = ColForwardPolicy → ValidForwardPolicy v = true) →
  registry_wf r → registry_wf (updateField id c v r).2.
Proof.
  intros Hv Hr. unfold updateField. reg_cases; try done.
  apply wf_set_devices; [done|]. apply forall_alter; [apply (wf_devices _ Hr)|].
  intros x _ [Hp Ho]. destruct c; split; simpl; auto.
Qed.

Lemma end_state_terminal st :
  end_state st = "closed" ∨ end_state st = "failed" ∨ end_state st = "interrupted".
Proof.
  unfold end_state.
  destruct (String.eqb_spec st "closed"), (String.eqb_spec st "failed"),
    (String.eqb_spec st "interrupted"); simpl; auto.
Qed.

Lemma wf_connection_ops `{Crypto} op r :
  registry_wf r →
  match op with
  | OpStartConnection _ _ _ _ _ _ _ _ | OpSetConnectionTransport _ _
  | OpAddConnectionTraffic _ _ _ _ | OpEndConnection _ _ _ => registry_wf (run_op op r)
  | _ => True
  end.
Proof.
  intros Hr. pose proof (wf_conns _ Hr) as Hc. pose proof (wf_traffic _ Hr) as Ht.
  destruct op; try done; cbn [run_op].
  - unfold StartConnection. reg_cases; try done.
    apply wf_set_connections; [done| |done]. by apply forall_insert.
  - apply wf_sql_exec, wf_set_connections; [done..| |done]. by apply forall_alter.
  - apply wf_sql_exec, wf_set_connections; [done..| |].
    + by apply forall_alter.
    + intros i b v. unfold upsert_bucket.
      destruct (connection_traffic r !! _) as [[x y]|]; rewrite lookup_insert;
        (case_decide as E; [|apply Ht]); simplify_eq; intros _; by apply Truncate_multiple.
  - apply wf_sql_exec, wf_set_connections; [done..| |done]. apply forall_alter; [done|].
    intros x _ Hx. unfold conn_wf, end_row in *. destruct (c_ended_at x) eqn:E; simpl.
    + by rewrite E.
    + apply end_state_terminal.
Qed.

Lemma wf_user_ops `{Crypto} op r :
  registry_wf r →
  match op with
  | OpEnsureUser _ _ _ _ _ | OpCreateUser _ _ _ _ _ _ _ | OpUpdateUser _ _ _ _ _ _
  | OpDeleteUser _ => registry_wf (run_op op r)
  | _ => True
  end.
Proof.
  intros Hr. destruct (wf_users _ Hr) as [H1 Hu].
  destruct op; try done; cbn [run_op].
  - unfold EnsureUser. reg_cases; try done. by apply wf_insert_user.
  - unfold CreateUser. reg_cases; try done. by apply wf_insert_user.
  - unfold UpdateUser. destruct (getUserLocked _ r) as [u|]; [|done].
    reg_cases; try done;
      (apply wf_sql_exec, wf_set_users; [done..|]; split; [done|]; by apply users_wf_alter).
  - unfold DeleteUser. reg_cases; try done.
    apply wf_set_users; [done|]. split; [done|]. by apply users_wf_delete.
Qed.

Lemma wf_device_ops `{Crypto} op r :
  registry_wf r →
  match op with
  | OpUpsert _ _ _ _ _ _ _ | OpSetOnline _ _ _ | OpRename _ _ | OpSetGroup _ _
  | OpSetForwardPolicy _ _ | OpDelete _ => registry_wf (run_op op r)
  | _ => True
  end.
Proof.
  intros Hr. pose proof (wf_devices _ Hr) as Hd.
  destruct op; try done; cbn [run_op].
  - unfold Upsert. destruct (db_up r); [|done]. cbn [negb snd].
    destruct (devices r !! _); (apply wf_set_devices; [done|]).
    + apply forall_alter; [done|]. intros x _ [Hp _]. split; simpl; auto.
    + apply forall_insert; [done|]. split; simpl; auto.
  - apply wf_sql_exec, wf_set_devices; [done..|]. apply forall_alter; [done|].
    intros x _ [Hp _]. split; [done|]. simpl. destruct online; simpl; auto.
  - unfold Rename. reg_cases; [done|]. by apply wf_updateField.
  - by apply wf_updateField.
  - unfold SetForwardPolicy. destruct (ValidForwardPolicy _) eqn:E; [|done].
    by apply wf_updateField.
  - unfold Delete. reg_cases; try done.
    apply wf_set_devices; [done|]. by apply forall_delete.
Qed.

Lemma wf_grant_ops `{Crypto} op r :
  registry_wf r →
  match op with
  | OpAddForwardGrant _ _ _ _ _ | OpDeleteForwardGrant _ _ _ _ => registry_wf (run_op op r)
  | _ => True
  end.
Proof.
  intros Hr. pose proof (wf_grants _ Hr) as Hg.
  destruct op; try done; cbn [run_op].
  - unfold AddForwardGrant.
    destruct (String.eqb source "" || String.eqb target "") eqn:E1; [done|].
    destruct ((pmin <=? 0) || _ || _) eqn:E2; [done|]. bools.
    destruct (db_up r); [|done]. cbn [negb]. destruct (devices r !! source); [|done]. cbn [snd].
    apply wf_set_forward_grants; [done|].
    destruct (forward_grants r !! _); [done|].
    apply (forall_insert (λ k _, grant_wf k)); [done|]. unfold grant_wf. split_and!; auto; lia.
  - unfold DeleteForwardGrant. reg_cases; try done.
    apply wf_set_forward_grants; [done|]. by apply (forall_delete (λ k _, grant_wf k)).
Qed.

Lemma wf_lifecycle_ops `{Crypto} op r :
  registry_wf r →
  match op with
  | OpClose | OpReopen _ | OpRecordAudit _ _ _ _ _ => registry_wf (run_op op r)
  | _ => True
  end.
Proof.
  intros Hr. destruct op; try done; cbn [run_op].
  - apply wf_sql_exec; [done|]. destruct Hr as [? ? ? ? Ha ?]. constructor; try done.
    simpl. intros i e. rewrite lookup_app. destruct (audit_log r !! i) eqn:E.
    { intros [= <-]. by apply Ha. }
    apply lookup_ge_None in E. intros [Hi <-]%list_lookup_singleton_Some. simpl. lia.
  - by destruct Hr.
  - destruct Hr as [? Hd Hc ? ? ?]. constructor; try done; simpl.
    + apply forall_fmap; [done|]. intros _ x [Hp _]. split; simpl; auto.
    + apply forall_fmap; [done|]. intros _ x Hx. unfold interrupt_row.
      destruct (String.eqb _ _ || _); [|done]. unfold conn_wf. simpl. auto.
Qed.

Lemma wf_run_op `{Crypto} op r : registry_wf r → registry_wf (run_op op r).
Proof.
  intros Hr.
  pose proof (wf_connection_ops op r Hr). pose proof (wf_user_ops op r Hr).
  pose proof (wf_device_ops op r Hr). pose proof (wf_grant_ops op r Hr).
  pose proof (wf_lifecycle_ops op r Hr).
  destruct op; try assumption; cbn [run_op].
  - unfold CreateDeviceKey. reg_cases; auto with registry.
  - unfold RotateDeviceKey. reg_cases; auto with registry.
  - unfold RevokeDeviceKey. reg_cases; auto with registry.
  - unfold CreateInvite. reg_cases; auto with registry.
  - unfold UseInvite. reg_cases; auto with registry.
Qed.

Lemma empty_registry_wf : registry_wf empty_registry.
Proof.
  constructor; simpl; intros; simplify_map_eq.
  split; [lia|]. split; intros; simplify_map_eq.
Qed.

(** ** Helper lemmas *)

Definition run_ops `{Crypto} (ops : list reg_op) (r : Registry) : Registry :=
  foldl (λ r op, run_op op r) r ops.

Lemma run_ops_invariant `{Crypto} (I : Registry → Prop) ops r :
  (∀ op r, I r → I (run_op op r)) → I r → I (run_ops ops r).
Proof. intros Hpres. revert r. induction ops as [|op ops IH]; simpl; auto. Qed.

(** The fields an operation of another table leaves alone. *)
Lemma audit_prefix_run_op `{Crypto} op r : audit_log r `prefix_of` audit_log (run_op op r).
Proof.
  destruct op; cbn [run_op];
    unfold StartConnection, SetConnectionTransport, AddConnectionTraffic, EndConnection,
      EnsureUser, CreateUser, UpdateUser, DeleteUser, Upsert, SetOnline, Rename, SetGroup,
      SetForwardPolicy, Delete, AddForwardGrant, DeleteForwardGrant, CreateDeviceKey,
      RotateDeviceKey, RevokeDeviceKey, CreateInvite, UseInvite, RecordAudit, updateField,
      insert_user, sql_exec, getUserLocked;
    reg_cases; try reflexivity; by eexists.
Qed.

Lemma count_admins_pos r n u :
  users r !! n = Some u → u_role u = "admin" → 1 ≤ count_admins r.
Proof.
  intros Hn Hu. unfold count_admins.
  enough (size (filter (λ kv, u_role kv.2 = "admin") (users r)) ≠ 0)%nat by lia.
  intros Hs%map_size_empty_inv.
  assert (filter (λ kv, u_role kv.2 = "admin") (users r) !! n = Some u) as Hl
    by by apply map_lookup_filter_Some.
  rewrite Hs in Hl. by rewrite lookup_empty in Hl.
Qed.

Lemma count_admins_witness r :
  1 ≤ count_admins r → ∃ n u, users r !! n = Some u ∧ u_role u = "admin".
Proof.
  unfold count_admins. intros Hc.
  destruct (map_choose (filter (λ kv, u_role kv.2 = "admin") (users r))) as (n & u & Hl).
  { intros He. rewrite He, map_size_empty in Hc. lia. }
  apply map_lookup_filter_Some in Hl as [? ?]. eauto.
Qed.

Lemma count_admins_two r n :
  1 < count_admins r → ∃ n' u', n' ≠ n ∧ users r !! n' = Some u' ∧ u_role u' = "admin".
Proof.
  unfold count_admins. set (A := filter _ (users r)). intros Hc.
  destruct (map_choose (delete n A)) as (n' & u' & [Hne Hl]%lookup_delete_Some).
  { intros Hd. assert (size (delete n A) = 0)%nat as Hz by by rewrite Hd, map_size_empty.
    destruct (A !! n) as [x|] eqn:E.
    - rewrite (map_size_delete_Some n A) in Hz by by eexists. lia.
    - rewrite map_size_delete_None in Hz by done. lia. }
  apply map_lookup_filter_Some in Hl as [Hl Hr]. by exists n', u'.
Qed.

Lemma count_admins_set_users f k r :
  (∃ n u, f (users r) !! n = Some u ∧ u_role u = "admin") →
  1 ≤ count_admins (set_users f k r).
Proof. intros (n & u & Hn & Hu). by apply (count_admins_pos _ n u). Qed.

(** [UpdateUser] keeps an administrator. *)
Lemma UpdateUser_keeps_admin `{Crypto} n p ro ids e salt r :
  1 ≤ count_admins r → 1 ≤ count_admins (UpdateUser n p ro ids e salt r).2.
Proof.
  intros Hadm. unfold UpdateUser, getUserLocked.
  destruct (db_up r) eqn:Hdb; [|done].
  destruct (users r !! n) as [u|] eqn:Hn; [|done]. simpl user_Role.
  match goal with |- context [match ?x with Ok _ => _ | Err e => (Err e, r) end] =>
    destruct x as [[]|] eqn:Hrole; [|done] end.
  match goal with |- context [match ?x with Ok _ => _ | Err e => (Err e, r) end] =>
    destruct x as [h|]; [|done] end.
  unfold sql_exec. rewrite Hdb. cbn [snd]. apply count_admins_set_users.
  destruct (decide (default (u_role u) ro = "admin")) as [Hnew|Hnew].
  { eexists n, _. rewrite lookup_alter_eq, Hn. by split. }
  assert (∃ n' u', n' ≠ n ∧ users r !! n' = Some u' ∧ u_role u' = "admin") as (n' & u' & ? & ? & ?).
  { destruct (decide (u_role u = "admin")) as [Hold|Hold].
    - destruct ro as [ro|]; simpl in Hnew; [|done].
      rewrite Hold in Hrole. split_ifs_in Hrole; try done.
      + apply count_admins_two. lia.
      + simpl in *. bools. done.
    - apply count_admins_witness in Hadm as (n' & u' & ? & ?).
      exists n', u'. split_and!; [|done..]. naive_solver. }
  exists n', u'. by rewrite lookup_alter_ne by done.
Qed.

Lemma insert_user_keeps_admin n h ro now e ids r :
  1 ≤ count_admins r → 1 ≤ count_admins (insert_user n h ro now e ids r).2.
Proof.
  intros (n' & u' & Hn' & ?)%count_admins_witness. unfold insert_user.
  destruct (db_up r); [|by apply (count_admins_pos _ n' u')]. cbn [negb].
  destruct (users r !! n) eqn:E; [by apply (count_admins_pos _ n' u')|].
  apply count_admins_set_users. exists n', u'. rewrite lookup_insert_ne; [done|congruence].
Qed.

Lemma users_untouched `{Crypto} op r :
  match op with
  | OpEnsureUser _ _ _ _ _ | OpCreateUser _ _ _ _ _ _ _ | OpUpdateUser _ _ _ _ _ _
  | OpDeleteUser _ => True
  | _ => users (run_op op r) = users r
  end.
Proof.
  destruct op; cbn [run_op]; try done;
    unfold StartConnection, SetConnectionTransport, AddConnectionTraffic, EndConnection,
      Upsert, SetOnline, Rename, SetGroup,
      SetForwardPolicy, Delete, AddForwardGrant, DeleteForwardGrant, CreateDeviceKey,
      RotateDeviceKey, RevokeDeviceKey, CreateInvite, UseInvite, RecordAudit, updateField,
      sql_exec;
    reg_cases; reflexivity.
Qed.

Lemma ended_row_run_op `{Crypto} op r id c t :
  registry_wf r → connection_sessions r !! id = Some c → c_ended_at c = Some t →
  ∃ c', connection_sessions (run_op op r) !! id = Some c' ∧
        c_state c' = c_state c ∧ c_ended_at c' = Some t.
Proof.
  intros Hr Hc Ht. pose proof (wf_conns _ Hr _ _ Hc) as Hwf.
  destruct op; cbn [run_op];
    unfold StartConnection, SetConnectionTransport, AddConnectionTraffic, EndConnection,
      EnsureUser, CreateUser, UpdateUser, DeleteUser, Upsert, SetOnline, Rename, SetGroup,
      SetForwardPolicy, Delete, AddForwardGrant, DeleteForwardGrant, CreateDeviceKey,
      RotateDeviceKey, RevokeDeviceKey, CreateInvite, UseInvite, RecordAudit, updateField,
      insert_user, sql_exec, getUserLocked;
    reg_cases; eauto; simpl.
  - exists c. rewrite lookup_insert_ne; [done|]. intros ->. congruence.
  - rewrite lookup_alter. case_decide; subst; [rewrite Hc|]; simpl; eauto.
  - rewrite lookup_alter. case_decide; subst; [rewrite Hc|]; simpl; eauto.
  - rewrite lookup_alter. case_decide; subst; [rewrite Hc|]; simpl; eauto.
    eexists. split; [done|]. unfold end_row. by rewrite Ht.
  - rewrite lookup_fmap, Hc. simpl. eexists. split; [done|].
    unfold interrupt_row. unfold conn_wf in Hwf. rewrite Ht in Hwf.
    destruct Hwf as [E | [E | E]]; rewrite E; simpl; by rewrite E.
Qed.

(** ** Theorems *)

(** C13: starting from an empty database, every sequence of registry calls
    (connections, users, devices, grants, keys, invites, audit, closing and
    reopening) leaves well-formed tables: grants name non-empty devices and a
    port range within 1-65535, policies are "any" or "restricted", liveness is 0
    or 1, a session row is open exactly while it is "active", user ids are unique
    and below the counter, audit ids number the log, traffic buckets start on the
    hour. *)
Theorem registry_wf_reachable `{Crypto} ops : registry_wf (run_ops ops empty_registry).
Proof. apply run_ops_invariant; [apply @wf_run_op | apply empty_registry_wf]. Qed.

(** Once the database handle is closed no call changes any table; only
    opening the store again does. *)
Theorem closed_store_frozen `{Crypto} op r :
  db_up r = false → (∀ now, op ≠ OpReopen now) → run_op op r = r.
Proof.
  intros Hdb Hop.
  destruct op; cbn [run_op];
    unfold StartConnection, SetConnectionTransport, AddConnectionTraffic, EndConnection,
      EnsureUser, CreateUser, UpdateUser, DeleteUser, Upsert, SetOnline, Rename, SetGroup,
      SetForwardPolicy, Delete, AddForwardGrant, DeleteForwardGrant, CreateDeviceKey,
      RotateDeviceKey, RevokeDeviceKey, CreateInvite, UseInvite, RecordAudit, updateField,
      insert_user, sql_exec, getUserLocked; rewrite ?Hdb; cbn [negb];
    reg_cases; try done.
  - destruct r; simpl in *. by subst.
  - by destruct (Hop now).
Qed.

(** The audit log is append-only: no registry call removes or rewrites an
    entry. *)
Theorem audit_append_only `{Crypto} ops r : audit_log r `prefix_of` audit_log (run_ops ops r).
Proof.
  apply (run_ops_invariant (λ r', audit_log r `prefix_of` audit_log r')); [|done].
  intros op r' Hr'. etrans; [exact Hr'|]. apply audit_prefix_run_op.
Qed.

(** An ended session is final: whatever calls follow (a second end, a late
    transport change, more traffic, a restart), its end time and its state stay
    what the first end recorded. *)
Theorem ended_connection_final `{Crypto} ops r id c t :
  registry_wf r → connection_sessions r !! id = Some c → c_ended_at c = Some t →
  ∃ c', connection_sessions (run_ops ops r) !! id = Some c' ∧
        c_state c' = c_state c ∧ c_ended_at c' = Some t.
Proof.
  intros Hr Hc Ht.
  apply (run_ops_invariant (λ r', registry_wf r' ∧
    ∃ c', connection_sessions r' !! id = Some c' ∧ c_state c' = c_state c ∧
          c_ended_at c' = Some t)); [|eauto].
  intros op r' [Hr' (c' & Hc' & Hst & Ht')]. split; [by apply wf_run_op|].
  destruct (ended_row_run_op op r' id c' t Hr' Hc' Ht') as (c'' & ? & ? & ?).
  exists c''. split_and!; congruence.
Qed.

(** No registry call other than [DeleteUser] removes the last administrator;
    in particular [UpdateUser] refuses to demote it. *)
Theorem last_admin_kept `{Crypto} op r :
  (∀ n, op ≠ OpDeleteUser n) → 1 ≤ count_admins r → 1 ≤ count_admins (run_op op r).
Proof.
  intros Hop Hadm. pose proof (users_untouched op r) as Hu.
  destruct op; try (unfold count_admins in *; rewrite Hu; exact Hadm); cbn [run_op].
  - unfold EnsureUser. reg_cases; try done. by apply insert_user_keeps_admin.
  - unfold CreateUser. reg_cases; try done. by apply insert_user_keeps_admin.
  - by apply UpdateUser_keeps_admin.
  - by destruct (Hop username).
Qed.

(** After a restart nothing is online and no session is open: liveness never
    survives the process that observed it. *)
Theorem reopen_resets_liveness r now :
  registry_wf r →
  (∀ i d, devices (NewRegistry r now) !! i = Some d → d_online d = 0) ∧
  (∀ i c, connection_sessions (NewRegistry r now) !! i = Some c →
     is_Some (c_ended_at c) ∧ c_state c ≠ "active").
Proof.
  intros Hr. split.
  - intros i d. simpl. rewrite lookup_fmap, fmap_Some. by intros (x & _ & ->).
  - intros i c. simpl. rewrite lookup_fmap, fmap_Some. intros (x & Hx%(wf_conns _ Hr) & ->).
    unfold conn_wf in Hx. unfold interrupt_row. destruct (c_ended_at x) eqn:E.
    + destruct Hx as [Ex|[Ex|Ex]]; rewrite Ex; simpl; rewrite Ex, E; eauto.
    + rewrite Hx. simpl. eauto.
Qed.

(** *** Device keys *)

Lemma key_row_lookup `{Crypto} id row r t token :
  db_up r = true → device_keys r !! id = Some row →
  ValidateDeviceKey id token t r =
    (match k_expires_at row with Some e => t <=? e | None => true end) &&
    String.eqb (k_token_hash row) (hashToken token).
Proof.
  intros Hdb Hk. unfold ValidateDeviceKey. rewrite Hdb, Hk. simpl.
  destruct (k_expires_at row) as [e|]; [|done]. unfold After.
  destruct (Z.ltb_spec e t), (Z.leb_spec t e); simpl; try done; lia.
Qed.

Lemma ValidateDeviceKey_frame `{Crypto} id token t r r' :
  db_up r' = db_up r → device_keys r' !! id = device_keys r !! id →
  ValidateDeviceKey id token t r' = ValidateDeviceKey id token t r.
Proof. intros Hdb Hk. unfold ValidateDeviceKey. by rewrite Hdb, Hk. Qed.

(** A freshly issued device key authenticates its own device with the
    returned token exactly until it expires (for ever when the lifetime is not
    positive), only the token's hash is stored, and every other device's
    credentials are unaffected. *)
Theorem device_key_issued `{Crypto} ib tb name ttl now r key r' :
  CreateDeviceKey ib tb name ttl now r = (Ok key, r') →
  (∀ t, ValidateDeviceKey (key_DeviceID key) (key_Token key) t r' =
        ((ttl <=? 0) || (t <=? now + ttl))) ∧
  (∃ row, device_keys r' !! key_DeviceID key = Some row ∧
          k_token_hash row = hashToken (key_Token key)) ∧
  (∀ id token t, id ≠ key_DeviceID key →
     ValidateDeviceKey id token t r' = ValidateDeviceKey id token t r).
Proof.
  unfold CreateDeviceKey. destruct ib as [ib|], tb as [tb|]; try done.
  destruct (db_up r) eqn:Hdb; [|done]. simpl negb.
  destruct (device_keys r !! _) eqn:Hk; [done|]. intros [= <- <-]. simpl. split_and!.
  - intros t. erewrite key_row_lookup; [|done|simpl; apply lookup_insert_eq]. simpl.
    rewrite String.eqb_refl, andb_true_r. unfold expiry.
    destruct (Z.ltb_spec 0 ttl), (Z.leb_spec ttl 0); simpl; try done; lia.
  - eexists. rewrite lookup_insert_eq. done.
  - intros id token t Hne. apply ValidateDeviceKey_frame; [done|]. simpl.
    by rewrite lookup_insert_ne.
Qed.

(** Rotating a key revokes the previous token at once: a token whose hash
    differs from the new one is refused at every later time, the new token is
    accepted until its expiry, the key keeps its name and creation time, and no
    other device is affected. *)
Theorem device_key_rotated `{Crypto} id tb ttl now r key r' :
  RotateDeviceKey id (Some tb) ttl now r = (Ok key, r') →
  (∀ old t, hashToken old ≠ hashToken (key_Token key) → ValidateDeviceKey id old t r' = false) ∧
  (∀ t, ValidateDeviceKey id (key_Token key) t r' = ((ttl <=? 0) || (t <=? now + ttl))) ∧
  (∃ k, device_keys r !! id = Some k ∧ key_Name key = k_name k ∧
        key_CreatedAt key = k_created_at k) ∧
  (∀ id' token t, id' ≠ id →
     ValidateDeviceKey id' token t r' = ValidateDeviceKey id' token t r).
Proof.
  unfold RotateDeviceKey. destruct (db_up r) eqn:Hdb; [|done]. simpl negb.
  destruct (device_keys r !! id) as [k|] eqn:Hk; [|done]. intros [= <- <-]. simpl.
  set (row := mkKeyRow (hashToken (hex_encode tb)) (k_name k) (k_created_at k) (expiry now ttl)).
  assert (∀ token t, ValidateDeviceKey id token t
     (set_device_keys (alter (λ row, mkKeyRow (hashToken (hex_encode tb)) (k_name row)
        (k_created_at row) (expiry now ttl)) id) r) =
     (match expiry now ttl with Some e => t <=? e | None => true end) &&
     String.eqb (hashToken (hex_encode tb)) (hashToken token)) as HV.
  { intros token t. rewrite (key_row_lookup id row); [done|done|].
    simpl. by rewrite lookup_alter_eq, Hk. }
  split_and!.
  - intros old t Hne. rewrite HV. rewrite (proj2 (String.eqb_neq _ _)); [|congruence].
    apply andb_false_r.
  - intros t. rewrite HV, String.eqb_refl, andb_true_r. unfold expiry.
    destruct (Z.ltb_spec 0 ttl), (Z.leb_spec ttl 0); simpl; try done; lia.
  - eauto.
  - intros id' token t Hne. apply ValidateDeviceKey_frame; [done|]. simpl.
    by rewrite lookup_alter_ne.
Qed.

(** *** Forwarding policy *)

Lemma filter_size_pos {K V} `{Countable K} (P : K * V → Prop) `{!∀ x, Decision (P x)}
    (m : gmap K V) :
  (0 <? Z.of_nat (size (filter P m))) = true ↔ ∃ k v, m !! k = Some v ∧ P (k, v).
Proof.
  rewrite Z.ltb_lt. split.
  - intros Hs. destruct (map_choose (filter P m)) as (k & v & [? ?]%map_lookup_filter_Some); [|eauto].
    intros He. rewrite He, map_size_empty in Hs. lia.
  - intros (k & v & Hk & HP).
    enough (size (filter P m) ≠ 0)%nat by lia. intros He%map_size_empty_inv.
    assert (filter P m !! k = Some v) as Hl by by apply map_lookup_filter_Some.
    rewrite He in Hl. by rewrite lookup_empty in Hl.
Qed.

(** What the two queries of [ForwardAllowed] decide *)
Lemma ForwardAllowed_true source target port r :
  ForwardAllowed source target port r = true ↔
  db_up r = true ∧
  ∃ d, devices r !! source = Some d ∧
    (d_forward_policy d ≠ "restricted" ∨
     ∃ tgt pmin pmax created,
       forward_grants r !! (source, tgt, pmin, pmax) = Some created ∧
       (tgt = target ∨ tgt = "*") ∧ pmin ≤ port ≤ pmax).
Proof.
  unfold ForwardAllowed. destruct (db_up r); simpl; [|intuition discriminate].
  destruct (devices r !! source) as [d|]; [|by split; [|intros (_ & ? & ? & _)]].
  unfold ForwardPolicyRestricted. destruct (String.eqb_spec (d_forward_policy d) "restricted") as [E|E];
    simpl; [|by split; eauto].
  rewrite (filter_size_pos (λ kv, grant_covers source target port kv.1 = true)). split.
  - intros ([[[s t] a] b] & v & Hk & Hc). split; [done|]. exists d. split; [done|]. right.
    simpl in Hc. bools. subst. exists t, a, b, v. split_and!; [done| |lia|lia].
    match goal with H : _ || _ = true |- _ => apply orb_true_iff in H as [?|?]; bools; auto end.
  - intros (_ & d' & [= <-] & [?|(t & a & b & v & Hk & Ht & Hp)]); [done|].
    exists (source, t, a, b), v. split; [done|]. simpl. rewrite String.eqb_refl.
    assert ((String.eqb t target || String.eqb t "*") = true) as ->.
    { destruct Ht as [-> | ->]; rewrite String.eqb_refl; [done|apply orb_true_r]. }
    simpl. lia.
Qed.

(** Exactly when a device may reach a peer: the store answers, the source is
    enrolled, and either its policy is not "restricted" or some grant of that
    source names the target (or "*") and covers the port. An unknown source, a
    closed store and a restricted source without a matching grant are refused. *)
Theorem forward_allowed_iff source target port r :
  ForwardAllowed source target port r = true ↔
  db_up r = true ∧
  ∃ d, devices r !! source = Some d ∧
    (d_forward_policy d ≠ "restricted" ∨
     ∃ tgt pmin pmax created,
       forward_grants r !! (source, tgt, pmin, pmax) = Some created ∧
       (tgt = target ∨ tgt = "*") ∧ pmin ≤ port ≤ pmax).
Proof. apply ForwardAllowed_true. Qed.

(** Adding a grant permits exactly the traffic it describes and nothing
    else: afterwards a request is allowed if it was allowed before, or if it
    comes from the (now granted) source, matches the target and falls in the
    range; re-adding the same grant changes nothing. *)
Theorem forward_grant_exact source target pmin pmax now r r' s t p :
  AddForwardGrant source target pmin pmax now r = (Ok tt, r') →
  ForwardAllowed s t p r' =
    ForwardAllowed s t p r ||
    (String.eqb s source && (String.eqb target t || String.eqb target "*") &&
     (pmin <=? p) && (p <=? pmax)).
Proof.
  intros Hadd.
  assert (db_up r = true ∧ is_Some (devices r !! source) ∧ devices r' = devices r ∧
    db_up r' = true ∧ ∀ k, is_Some (forward_grants r' !! k) ↔
      is_Some (forward_grants r !! k) ∨ k = (source, target, pmin, pmax))
    as (Hdb & [d Hd] & Hdev & Hdb' & Hg).
  { unfold AddForwardGrant in Hadd. split_ifs_in Hadd; try done.
    injection Hadd as <-. bools. simpl. split_and!; eauto.
    intros k. destruct (forward_grants r !! _) eqn:E; [naive_solver|].
    rewrite lookup_insert_is_Some'. naive_solver. }
  apply eq_true_iff_eq. rewrite orb_true_iff, !ForwardAllowed_true, Hdev, Hdb, Hdb'.
  split.
  - intros (_ & d' & Hd' & [Hpol|(tg & a & b & v & Hk & Ht & Hp)]); [left; eauto 10|].
    destruct (Hg (s, tg, a, b)) as [[[v' Hv']|Heq] _]; [by eexists| |].
    + left. split; [done|]. exists d'. split; [done|]. right. eauto 10.
    + simplify_eq. right. rewrite String.eqb_refl. simpl.
      destruct Ht as [-> | ->]; rewrite String.eqb_refl; rewrite ?orb_true_r; simpl; lia.
  - intros [(_ & d' & Hd' & [Hpol|(tg & a & b & v & Hk & Ht & Hp)])|Hcov].
    + split; [done|]. eauto 10.
    + destruct (Hg (s, tg, a, b)) as [_ [v' Hv']]; [left; by eexists|].
      split; [done|]. exists d'. split; [done|]. right. eauto 10.
    + bools. subst. split; [done|]. exists d. split; [done|]. right.
      destruct (Hg (source, target, pmin, pmax)) as [_ [v' Hv']]; [by right|].
      exists target, pmin, pmax, v'. split_and!; [done| |lia|lia].
      match goal with H : _ || _ = true |- _ => apply orb_true_iff in H as [?|?]; bools; auto end.
Qed.

(** *** Devices *)

(** A hello from an agent refreshes the host metadata and marks the device
    online, but never overwrites what an operator manages: a non-empty name, the
    group, the forwarding policy and the creation time survive; an unknown device
    starts with the agent's name, no group and the "any" policy; other devices are
    untouched. *)
Theorem upsert_keeps_inventory id name hostname os arch ips now r :
  db_up r = true →
  ∃ d r', Upsert id name hostname os arch ips now r = (Ok d, r') ∧
    dev_ID d = id ∧ dev_Hostname d = hostname ∧ dev_OS d = os ∧ dev_Arch d = arch ∧
    dev_LANIPs d = ips ∧ dev_LastSeen d = now ∧ dev_Online d = true ∧
    match Get id r with
    | Some old =>
        dev_Name d = (if String.eqb (dev_Name old) "" then name else dev_Name old) ∧
        dev_Group d = dev_Group old ∧ dev_ForwardPolicy d = dev_ForwardPolicy old ∧
        dev_CreatedAt d = dev_CreatedAt old
    | None =>
        dev_Name d = name ∧ dev_Group d = "" ∧ dev_ForwardPolicy d = "any" ∧
        dev_CreatedAt d = now
    end ∧
    (∀ id', id' ≠ id → Get id' r' = Get id' r).
Proof.
  intros Hdb. unfold Upsert, Get, getLocked. rewrite Hdb. simpl.
  destruct (devices r !! id) as [old|] eqn:Hd; simpl; rewrite Hdb.
  - rewrite lookup_alter_eq, Hd. simpl. eexists _, _. split; [done|]. simpl. split_and!; try done.
    + by destruct (String.eqb (d_name old) "").
    + intros id' Hne. simpl. by rewrite Hdb, lookup_alter_ne.
  - rewrite lookup_insert_eq. eexists _, _. split; [done|]. simpl. split_and!; try done.
    intros id' Hne. simpl. by rewrite Hdb, lookup_insert_ne.
Qed.

(** *** Accounts *)

(** After [CreateUser] the account's password logs in with the given role and
    device grants until the account expires, and from then on is refused. *)
Theorem created_user_can_log_in `{CryptoLaws} username password role ids expires salt now r r' :
  CreateUser username password role ids expires salt now r = (Ok tt, r') →
  ∀ t, ValidateUser username password t r' =
    if negb (IsZero expires) && After t expires then Err "account expired"
    else Ok (mkUser (next_user_id r) username role ids expires zeroTime).
Proof.
  unfold CreateUser. destruct (String.eqb username "" || _); [done|].
  destruct (bcrypt_generate salt password) as [h|] eqn:Hh; [|done].
  unfold insert_user. destruct (db_up r) eqn:Hdb; [|done]. simpl.
  destruct (users r !! username); [done|]. intros [= <-] t.
  unfold ValidateUser. simpl. rewrite Hdb, lookup_insert_eq. simpl.
  rewrite (bcrypt_generate_compare _ _ _ Hh). simpl. unfold formatTime.
  destruct (IsZero expires) eqn:Hz; simpl; [|done].
  apply Z.eqb_eq in Hz. by subst.
Qed.

(** [UpdateUser], unlike [CreateUser], accepts an empty password: when the
    hash function accepts it, the update succeeds and the account then logs in
    with no password at all. *)
Theorem update_accepts_empty_password `{CryptoLaws} username u salt h r :
  db_up r = true → users r !! username = Some u → u_expires_at u = None →
  bcrypt_generate salt "" = Ok h →
  ∃ r', UpdateUser username (Some "") None None None salt r = (Ok tt, r') ∧
        is_ok (ValidateUser username "" 0 r') = true.
Proof.
  intros Hdb Hu He Hh. unfold UpdateUser, getUserLocked. rewrite Hdb, Hu. simpl. rewrite Hh.
  unfold sql_exec. rewrite Hdb. eexists. split; [done|]. unfold ValidateUser. simpl.
  rewrite Hdb, lookup_alter_eq, Hu. simpl.
  destruct (String.eqb_spec h "") as [->|_]; [by apply bcrypt_generate_ne in Hh|].
  rewrite (bcrypt_generate_compare _ _ _ Hh). simpl. by rewrite He.
Qed.

(** ** Witnesses *)

(** A toy instance of the hash interface, for evaluating the definitions. *)
Module Toy.
Definition hash (salt pw : string) : res string :=
  if (72 <? String.length pw)%nat then Err "bcrypt: password length exceeds 72 bytes"
  else Ok ("$2a$" +:+ pw).
#[export] Instance crypto : Crypto := {|
  bcrypt_generate := hash;
  bcrypt_compare h pw := String.eqb h ("$2a$" +:+ pw);
  sha256 := list_ascii_of_string
|}.
#[export] Instance crypto_laws : CryptoLaws.
Proof.
  split; intros salt pw h; simpl; unfold hash; case_match; try done; intros [= <-].
  - apply String.eqb_refl.
  - done.
Qed.

(** An enrolled device ["d1"] with a key, an administrator and a finished session *)
Definition key_bytes : bytes := list_ascii_of_string "0123456789abcdef".
Definition reg0 : Registry :=
  run_ops [OpEnsureUser "admin" "pw" "admin" "" 10;
           OpUpsert "d1" "box" "host" "linux" "amd64" [] 20;
           OpStartConnection "c1" "admin" "d1" "" "terminal" "relay" "" 30;
           OpEndConnection "c1" "failed" 40;
           OpCreateInvite (Some key_bytes) "guest" 1000 50] empty_registry.
(** ["dev-30"] holds the token ["31"]. *)
Definition reg1 : Registry :=
  (CreateDeviceKey (Some ["0"%char]) (Some ["1"%char]) "box" 500 100 reg0).2.
Lemma reg0_wf : registry_wf reg0.
Proof. apply (run_ops_invariant registry_wf); [apply @wf_run_op | apply empty_registry_wf]. Qed.
End Toy.
Import Toy.

Lemma closed_store_frozen_witness :
  db_up (Close Toy.reg0) = false ∧ run_op (OpDelete "d1") (Close Toy.reg0) = Close Toy.reg0.
Proof. split; [done|]. by apply closed_store_frozen. Defined.

Lemma ended_connection_final_witness :
  ∃ c', connection_sessions (run_ops [OpEndConnection "c1" "closed" 99; OpReopen 100] Toy.reg0)
          !! "c1" = Some c' ∧ c_state c' = "failed" ∧ c_ended_at c' = Some 40.
Proof.
  refine (ended_connection_final [OpEndConnection "c1" "closed" 99; OpReopen 100] Toy.reg0 "c1"
    (mkConnRow "admin" "d1" "" "terminal" "relay" "failed" "" 0 0 30 (Some 40)) 40 _ _ _).
  - exact Toy.reg0_wf.
  - vm_compute. reflexivity.
  - reflexivity.
Defined.

Lemma last_admin_kept_witness :
  1 ≤ count_admins (run_op (OpUpdateUser "admin" None (Some "operator") None None "") Toy.reg0).
Proof. apply last_admin_kept; [done|]. by vm_compute. Defined.

Lemma reopen_resets_liveness_witness :
  (∀ i d, devices (NewRegistry Toy.reg0 60) !! i = Some d → d_online d = 0) ∧
  (∀ i c, connection_sessions (NewRegistry Toy.reg0 60) !! i = Some c →
     is_Some (c_ended_at c) ∧ c_state c ≠ "active").
Proof.
  exact (reopen_resets_liveness Toy.reg0 60 Toy.reg0_wf).
Defined.

Lemma device_key_issued_witness :
  ∃ key r', CreateDeviceKey (Some Toy.key_bytes) (Some Toy.key_bytes) "box" 500 100 Toy.reg0 = (Ok key, r') ∧
    ValidateDeviceKey (key_DeviceID key) (key_Token key) 600 r' = true ∧
    ValidateDeviceKey (key_DeviceID key) (key_Token key) 601 r' = false.
Proof.
  eexists _, _. split; [vm_compute; reflexivity|].
  edestruct (device_key_issued (Some Toy.key_bytes) (Some Toy.key_bytes) "box" 500 100 Toy.reg0)
    as [HV _]; [vm_compute; reflexivity|].
  split; [exact (HV 600) | exact (HV 601)].
Defined.

Lemma device_key_rotated_witness :
  ∃ key r', RotateDeviceKey "dev-30" (Some []) 500 200 Toy.reg1 = (Ok key, r') ∧
    ValidateDeviceKey "dev-30" "31" 300 Toy.reg1 = true ∧
    ValidateDeviceKey "dev-30" "31" 300 r' = false.
Proof.
  eexists _, _. split; [vm_compute; reflexivity|]. split; [by vm_compute|].
  edestruct (device_key_rotated "dev-30" [] 500 200 Toy.reg1) as [Hold _];
    [vm_compute; reflexivity|].
  apply Hold. by vm_compute.
Defined.

Lemma forward_grant_exact_witness :
  ∃ r', AddForwardGrant "d1" "d2" 20 25 60 Toy.reg0 = (Ok tt, r') ∧
    ForwardAllowed "d9" "d2" 22 r' = false.
Proof.
  eexists. split; [vm_compute; reflexivity|].
  erewrite (forward_grant_exact "d1" "d2" 20 25 60 Toy.reg0); [|vm_compute; reflexivity].
  by vm_compute.
Defined.

Lemma upsert_keeps_inventory_witness :
  ∃ d r', Upsert "d1" "other" "h2" "linux" "arm64" [] 70 Toy.reg0 = (Ok d, r') ∧ dev_Name d = "box".
Proof.
  destruct (upsert_keeps_inventory "d1" "other" "h2" "linux" "arm64" [] 70 Toy.reg0)
    as (d & r' & E & _ & _ & _ & _ & _ & _ & _ & [HN _] & _); [reflexivity|].
  exists d, r'. split; [exact E | exact HN].
Defined.

Lemma created_user_can_log_in_witness :
  ∃ r', CreateUser "op" "secret" "operator" ["d1"] 500 "" 100 Toy.reg0 = (Ok tt, r') ∧
    is_ok (ValidateUser "op" "secret" 400 r') = true.
Proof.
  eexists. split; [vm_compute; reflexivity|].
  erewrite (created_user_can_log_in "op" "secret" "operator" ["d1"] 500 "" 100 Toy.reg0);
    [|vm_compute; reflexivity].
  reflexivity.
Defined.

Lemma update_accepts_empty_password_witness :
  ∃ r', UpdateUser "admin" (Some "") None None None "" Toy.reg0 = (Ok tt, r') ∧
        is_ok (ValidateUser "admin" "" 0 r') = true.
Proof.
  refine (update_accepts_empty_password "admin" (mkUserRow 1 "$2a$pw" "admin" 10 None [])
    "" "$2a$" Toy.reg0 _ _ _ _); vm_compute; reflexivity.
Defined.
