(* ===== verification/Tickets.v ===== *)
(** * WebSocket tickets ([internal/server/wsticket.go])

    [ticketStore] is the map of outstanding tickets behind its mutex: each method
    is one atomic step on it.  The random bytes and the clock are arguments. *)
From Stdlib Require Import ZArith Lia Ascii String.
From S2P Require Import Prelude GoStrings.
Open Scope string_scope.
Open Scope list_scope.
Open Scope Z_scope.

(** ** Definitions *)

Definition webSocketTicketTTL : Duration := 60 * Second.

Record wsTicket := mkTicket {
  tk_actor : string; tk_device : string; tk_kind : string; tk_expiresAt : Time
}.

Abbreviation ticketStore := (gmap string wsTicket).

Definition newTicketStore : ticketStore := ∅.

(** [issue]; [buf] is the result of [rand.Read], [None] when it fails. *)
Definition issue (buf : option bytes) (actor device kind : string) (now : Time)
    (t : ticketStore) : res string * ticketStore :=
  match buf with
  | None => (Err "rand: read failed", t)
  | Some b =>
      let token := hex_encode b in
      (Ok token, <[token := mkTicket actor device kind (now + webSocketTicketTTL)]> t)
  end.

(** [consume]: the ticket is removed whatever the outcome. *)
Definition consume (token device kind : string) (now : Time) (t : ticketStore)
    : option wsTicket * ticketStore :=
  let t' := delete token t in
  match t !! token with
  | None => (None, t')
  | Some ticket =>
      if After now (tk_expiresAt ticket) then (None, t')
      else if negb (String.eqb (tk_device ticket) device) || negb (String.eqb (tk_kind ticket) kind)
      then (None, t')
      else (Some ticket, t')
  end.

(** [sweep] *)
Definition sweep (now : Time) (t : ticketStore) : ticketStore :=
  filter (λ kv, After now (tk_expiresAt kv.2) = false) t.

(** ** Histories *)

Inductive tk_op :=
| TIssue (buf : option bytes) (actor device kind : string) (now : Time)
| TConsume (token device kind : string) (now : Time)
| TSweep (now : Time).

(** What a step lets a caller observe *)
Inductive tk_event :=
| EIssued (token : string) (ticket : wsTicket)
| EAccepted (token device kind : string) (now : Time) (ticket : wsTicket)
| ENothing.

Definition tk_step (op : tk_op) (t : ticketStore) : tk_event * ticketStore :=
  match op with
  | TIssue buf actor device kind now =>
      match issue buf actor device kind now t with
      | (Ok token, t') =>
          (EIssued token (mkTicket actor device kind (now + webSocketTicketTTL)), t')
      | (Err _, t') => (ENothing, t')
      end
  | TConsume token device kind now =>
      match consume token device kind now t with
      | (Some tk, t') => (EAccepted token device kind now tk, t')
      | (None, t') => (ENothing, t')
      end
  | TSweep now => (ENothing, sweep now t)
  end.

(** The events of a history, oldest first, and the store it leaves *)
Fixpoint tk_run (ops : list tk_op) (t : ticketStore) : list tk_event * ticketStore :=
  match ops with
  | [] => ([], t)
  | op :: ops =>
      let '(e, t1) := tk_step op t in
      let '(es, t2) := tk_run ops t1 in (e :: es, t2)
  end.

Definition is_issue (token : string) (e : tk_event) : bool :=
  match e with EIssued k _ => String.eqb k token | _ => false end.
Definition is_accept (token : string) (e : tk_event) : bool :=
  match e with EAccepted k _ _ _ _ => String.eqb k token | _ => false end.
Definition issues (token : string) (es : list tk_event) : nat :=
  length (List.filter (is_issue token) es).
Definition accepts (token : string) (es : list tk_event) : nat :=
  length (List.filter (is_accept token) es).

(** 1 when the token is outstanding *)
Definition outstanding (token : string) (t : ticketStore) : nat :=
  match t !! token with Some _ => 1 | None => 0 end.

(** ** Lemmas *)

Lemma consume_accept token device kind now t ticket t' :
  consume token device kind now t = (Some ticket, t') →
  t !! token = Some ticket ∧ now ≤ tk_expiresAt ticket ∧ tk_device ticket = device ∧
  tk_kind ticket = kind ∧ t' = delete token t.
Proof.
  unfold consume. destruct (t !! token) as [tk|]; [|done].
  destruct (After now _) eqn:Ha; [done|].
  destruct (_ || _) eqn:Hb; [done|]. intros [= <- <-]. bools. clock. split_and!; done || lia.
Qed.

Lemma consume_store token device kind now t : (consume token device kind now t).2 = delete token t.
Proof. unfold consume. destruct (t !! token); [|done]. by repeat case_match. Qed.

Lemma tk_step_balance token op t :
  (accepts token [(tk_step op t).1] + outstanding token (tk_step op t).2 ≤
   issues token [(tk_step op t).1] + outstanding token t)%nat.
Proof.
  destruct op as [buf actor device kind now | tok device kind now | now]; simpl.
  - destruct buf as [b|]; simpl; [|done]. unfold accepts, issues, outstanding. simpl.
    rewrite lookup_insert. destruct (String.eqb_spec (hex_encode b) token) as [->|Hne].
    + rewrite decide_True by done. simpl. lia.
    + by rewrite decide_False.
  - pose proof (consume_store tok device kind now t) as Hs.
    destruct (consume tok device kind now t) as [[tk|] t'] eqn:E; simpl in Hs; subst t';
      unfold accepts, issues, outstanding; simpl; rewrite lookup_delete.
    + apply consume_accept in E as (Ht & _).
      destruct (String.eqb_spec tok token) as [->|Hne].
      * by rewrite decide_True, Ht.
      * by rewrite decide_False.
    + case_decide; simpl; lia.
  - unfold accepts, issues, outstanding, sweep. simpl.
    destruct (filter _ t !! token) eqn:E; [|lia].
    apply map_lookup_filter_Some in E as [-> _]. done.
Qed.

Lemma events_app f (e : tk_event) es :
  length (List.filter f (e :: es)) = (length (List.filter f [e]) + length (List.filter f es))%nat.
Proof. simpl. by destruct (f e). Qed.

Lemma tk_run_balance token ops t :
  (accepts token (tk_run ops t).1 + outstanding token (tk_run ops t).2 ≤
   issues token (tk_run ops t).1 + outstanding token t)%nat.
Proof.
  revert t. induction ops as [|op ops IH]; intros t; simpl; [done|].
  pose proof (tk_step_balance token op t) as Hs. destruct (tk_step op t) as [e t1].
  specialize (IH t1). destruct (tk_run ops t1) as [es t2]. simpl in *.
  unfold accepts, issues in *. rewrite !(events_app _ e es). simpl in *. lia.
Qed.

(** Every outstanding ticket was issued, and keeps what it was issued for. *)
Lemma tk_run_provenance ops t es t' (P : string → wsTicket → Prop) :
  tk_run ops t = (es, t') →
  (∀ k tk, t !! k = Some tk → P k tk) →
  (∀ k tk, EIssued k tk ∈ es → P k tk) →
  (∀ k tk, t' !! k = Some tk → P k tk) ∧
  (∀ k d kd now tk, EAccepted k d kd now tk ∈ es → P k tk ∧ tk_device tk = d ∧ tk_kind tk = kd ∧
     now ≤ tk_expiresAt tk).
Proof.
  revert t es. induction ops as [|op ops IH]; intros t es; simpl.
  { intros [= <- <-] Ht _. split; [done|]. by intros ? ? ? ? ? ?%not_elem_of_nil. }
  destruct (tk_step op t) as [e t1] eqn:Hstep. destruct (tk_run ops t1) as [es1 t2] eqn:Hrun.
  intros [= <- <-] Ht Hes.
  assert (∀ k tk, t1 !! k = Some tk → P k tk) as Ht1.
  { intros k tk Hk. destruct op as [buf a d kd now | tok d kd now | now]; simpl in Hstep.
    - destruct buf as [b|]; simpl in Hstep; injection Hstep as <- <-; [|by apply Ht].
      rewrite lookup_insert in Hk. case_decide; [|by apply Ht]. simplify_eq.
      apply Hes. set_solver.
    - pose proof (consume_store tok d kd now t) as Hs.
      destruct (consume tok d kd now t) as [[?|] ?]; simpl in Hs; simplify_eq;
        apply lookup_delete_Some in Hk as [_ ?]; auto.
    - injection Hstep as <- <-. apply map_lookup_filter_Some in Hk as [? _]. auto. }
  destruct (IH t1 es1 Hrun Ht1) as [Ht2 Hacc].
  { intros k tk ?. apply Hes. set_solver. }
  split; [done|]. intros k d kd now tk [He|He]%elem_of_cons; [|eauto].
  subst e. destruct op as [buf ? ? ? ? | tok d' kd' now' | ?]; simpl in Hstep; try done.
  - by destruct buf.
  - destruct (consume tok d' kd' now' t) as [[tk'|] ?] eqn:E; simplify_eq.
    apply consume_accept in E as (? & ? & ? & ? & _). eauto.
Qed.

Lemma sweep_lookup now t token :
  sweep now t !! token =
    match t !! token with
    | Some tk => if After now (tk_expiresAt tk) then None else Some tk
    | None => None
    end.
Proof.
  unfold sweep. rewrite map_lookup_filter. destruct (t !! token) as [tk|]; simpl; [|done].
  unfold guard. case_decide as H; simpl; [by rewrite H|].
  by apply not_false_is_true in H as ->.
Qed.

(** ** Theorems *)

(** C19: a ticket is a single-use credential: over any history of issues, consumes
    and sweeps starting from an empty store, a token is accepted at most as often
    as it was issued (once, when the random tokens do not repeat), and when it has
    been accepted that often it is no longer outstanding. *)
Theorem ticket_single_use ops token es t :
  tk_run ops newTicketStore = (es, t) →
  (accepts token es ≤ issues token es)%nat ∧
  (accepts token es = issues token es → t !! token = None).
Proof.
  intros Hrun. pose proof (tk_run_balance token ops newTicketStore) as Hb. rewrite Hrun in Hb.
  simpl in Hb. unfold outstanding, newTicketStore in Hb. rewrite lookup_empty in Hb.
  destruct (t !! token); split; try done; lia.
Qed.

(** An accepted ticket was minted by this server for exactly the device and
    session kind it is presented for, its actor is the one that requested it, and
    it is presented no later than a minute after it was issued. *)
Theorem ticket_bound_to_resource ops es t token device kind now ticket :
  tk_run ops newTicketStore = (es, t) → EAccepted token device kind now ticket ∈ es →
  ∃ buf actor issued,
    TIssue (Some buf) actor device kind issued ∈ ops ∧ token = hex_encode buf ∧
    tk_actor ticket = actor ∧ now ≤ issued + webSocketTicketTTL.
Proof.
  intros Hrun Hacc.
  destruct (tk_run_provenance ops newTicketStore es t (λ k tk, ∃ buf actor d kd issued,
      TIssue (Some buf) actor d kd issued ∈ ops ∧ k = hex_encode buf ∧
      tk = mkTicket actor d kd (issued + webSocketTicketTTL)) Hrun) as [_ Hprov].
  - intros k tk Hk. unfold newTicketStore in Hk. by rewrite lookup_empty in Hk.
  - clear Hacc. revert es t Hrun. generalize newTicketStore as s.
    induction ops as [|op ops IH]; intros s es t Hrun k tk Hin; simpl in Hrun.
    { simplify_eq. by apply not_elem_of_nil in Hin. }
    destruct (tk_step op s) as [e s1] eqn:Hstep. destruct (tk_run ops s1) as [es1 s2] eqn:Hr.
    simplify_eq. apply elem_of_cons in Hin as [<-|Hin].
    + destruct op as [[b|] a d kd i | ? ? ? ? | ?]; simpl in Hstep; simplify_eq.
      * eexists b, a, d, kd, i. split_and!; [|done..]. apply elem_of_cons. by left.
      * by repeat case_match; simplify_eq.
    + destruct (IH _ _ _ Hr _ _ Hin) as (b & a & d & kd & i & ? & ? & ?).
      eexists b, a, d, kd, i. split_and!; [|done..]. apply elem_of_cons. by right.
  - destruct (Hprov _ _ _ _ _ Hacc) as ((b & a & d & kd & i & Hin & -> & ->) & Hd & Hk & Ht).
    simpl in *. subst. eauto 10.
Qed.

(** The janitor is invisible to honest clients: at or after the sweep, every
    presentation of a ticket gets the same answer with or without it; only tickets
    that would have been refused disappear. *)
Theorem ticket_sweep_invisible token device kind swept now t :
  swept ≤ now →
  (consume token device kind now (sweep swept t)).1 = (consume token device kind now t).1.
Proof.
  intros Hle. unfold consume. rewrite sweep_lookup.
  destruct (t !! token) as [tk|]; [|done].
  destruct (After swept (tk_expiresAt tk)) eqn:Ha; [|by repeat case_match].
  assert (After now (tk_expiresAt tk) = true) as -> by clock. done.
Qed.

(** ** Witnesses *)

Definition demo_ops : list tk_op :=
  [TIssue (Some ["a"%char]) "alice" "d1" "terminal" 100;
   TConsume "61" "d1" "terminal" 200;
   TConsume "61" "d1" "terminal" 201].

Lemma ticket_single_use_witness :
  accepts "61" (tk_run demo_ops newTicketStore).1 = 1%nat ∧
  (accepts "61" (tk_run demo_ops newTicketStore).1 ≤
   issues "61" (tk_run demo_ops newTicketStore).1)%nat.
Proof.
  split; [by vm_compute|].
  exact (proj1 (ticket_single_use demo_ops "61" (tk_run demo_ops newTicketStore).1
    (tk_run demo_ops newTicketStore).2 (surjective_pairing _))).
Defined.

Lemma ticket_bound_to_resource_witness :
  ∃ buf actor issued,
    TIssue (Some buf) actor "d1" "terminal" issued ∈ demo_ops ∧ "61" = hex_encode buf ∧
    "alice" = actor ∧ 200 ≤ issued + webSocketTicketTTL.
Proof.
  refine (ticket_bound_to_resource demo_ops (tk_run demo_ops newTicketStore).1
    (tk_run demo_ops newTicketStore).2 "61" "d1" "terminal" 200
    (mkTicket "alice" "d1" "terminal" (100 + webSocketTicketTTL)) (surjective_pairing _) _).
  vm_compute. apply elem_of_cons. right. apply elem_of_cons. by left.
Defined.

Lemma ticket_sweep_invisible_witness :
  (consume "61" "d1" "terminal" 300 (sweep 250 {["61" := mkTicket "a" "d1" "terminal" 200]})).1 = None.
Proof.
  rewrite (ticket_sweep_invisible "61" "d1" "terminal" 250 300); [by vm_compute | lia].
Defined.
