(* ===== verification/Traffic.v ===== *)
(** * Batched byte counters ([internal/server/traffic.go])

    A [trafficRecorder] accumulates the bytes of one session and writes them to
    the registry at most once per second, or once per mebibyte, and when it is
    closed.  It is proved against the interface [TrafficSink] (what it needs of
    the registry), which [Registry_sink] discharges for the registry's tables.
    Each method runs under the recorder's mutex and is one step, with one reading
    of the clock. *)
From Stdlib Require Import ZArith Lia String.
From S2P Require Import Prelude GoStrings Protocol Registry.
Open Scope string_scope.
Open Scope list_scope.
Open Scope Z_scope.

(** ** The store the recorder writes to *)

Class TrafficSink (R : Type) := {
  sink_add : string → Z → Z → Time → R → R;       (* AddConnectionTraffic *)
  sink_end : string → string → Time → R → R;      (* EndConnection *)
  sink_live : string → R → Prop;                  (* the session has a row in an open store *)
  sink_bytes : string → R → Z * Z                 (* its byte counters *)
}.

Class TrafficSinkLaws (R : Type) `{TrafficSink R} := {
  sink_add_live id a b now r : sink_live id r → sink_live id (sink_add id a b now r);
  sink_add_bytes id a b now r : sink_live id r →
    sink_bytes id (sink_add id a b now r) =
      ((sink_bytes id r).1 + a, (sink_bytes id r).2 + b);
  sink_end_bytes id state now r : sink_bytes id (sink_end id state now r) = sink_bytes id r
}.

(** ** Definitions *)

Record trafficRecorder := mkRecorder {
  tr_id : string; tr_toDevice : Z; tr_fromDevice : Z; tr_lastFlush : Time; tr_closed : bool
}.

Definition newTrafficRecorder (id : string) (now : Time) : trafficRecorder :=
  mkRecorder id 0 0 now false.

Section recorder.
Context {R : Type} `{TrafficSink R}.
Implicit Types t : trafficRecorder.
Implicit Types r : R.

Definition flushLocked (now : Time) (t : trafficRecorder) (r : R) : trafficRecorder * R :=
  if (tr_toDevice t =? 0) && (tr_fromDevice t =? 0) then (t, r)
  else (mkRecorder (tr_id t) 0 0 now (tr_closed t),
        sink_add (tr_id t) (tr_toDevice t) (tr_fromDevice t) now r).

Definition Add (toDevice fromDevice : Z) (now : Time) (t : trafficRecorder) (r : R)
    : trafficRecorder * R :=
  if tr_closed t then (t, r)
  else
    let t := mkRecorder (tr_id t) (wrap64 (tr_toDevice t + toDevice))
               (wrap64 (tr_fromDevice t + fromDevice)) (tr_lastFlush t) (tr_closed t) in
    if (Second <=? now - tr_lastFlush t) ||
       (1024 * 1024 <=? wrap64 (tr_toDevice t + tr_fromDevice t))
    then flushLocked now t r
    else (t, r).

Definition Close (state : string) (now : Time) (t : trafficRecorder) (r : R)
    : trafficRecorder * R :=
  if tr_closed t then (t, r)
  else
    let t := mkRecorder (tr_id t) (tr_toDevice t) (tr_fromDevice t) (tr_lastFlush t) true in
    let '(t, r) := flushLocked now t r in
    (t, sink_end (tr_id t) state now r).

(** A sequence of [Add]s: bytes to the device, bytes from it, and the instant *)
Fixpoint add_all (l : list (Z * Z * Time)) (t : trafficRecorder) (r : R) : trafficRecorder * R :=
  match l with
  | [] => (t, r)
  | (a, b, now) :: l => let '(t, r) := Add a b now t r in add_all l t r
  end.
End recorder.

Definition total_to (l : list (Z * Z * Time)) : Z := foldr (λ x s, x.1.1 + s) 0 l.
Definition total_from (l : list (Z * Z * Time)) : Z := foldr (λ x s, x.1.2 + s) 0 l.

(** A frame's byte counts: what one [Add] gets; 2^60 is far above any frame. *)
Definition frame_ok (x : Z * Z * Time) : Prop :=
  0 ≤ x.1.1 ≤ 2 ^ 60 ∧ 0 ≤ x.1.2 ≤ 2 ^ 60.

(** The registry as the recorder sees it *)
#[export] Instance Registry_sink : TrafficSink Registry := {
  sink_add id a b now r := (AddConnectionTraffic id a b now r).2;
  sink_end id state now r := (EndConnection id state now r).2;
  sink_live id r := db_up r = true ∧ is_Some (connection_sessions r !! id);
  sink_bytes id r :=
    match connection_sessions r !! id with
    | Some c => (c_bytes_to_device c, c_bytes_from_device c)
    | None => (0, 0)
    end
}.

#[export] Instance Registry_sink_laws : TrafficSinkLaws Registry.
Proof.
  split; simpl; unfold AddConnectionTraffic, EndConnection, sql_exec.
  - intros id a b now r [Hup [c Hc]]. rewrite Hup. simpl. split; [done|]. rewrite lookup_alter_eq, Hc; eauto.
  - intros id a b now r [-> [c Hc]]. simpl. by rewrite lookup_alter_eq, Hc.
  - intros id state now r. destruct (db_up r); [|done]. simpl.
    rewrite lookup_alter_eq. destruct (connection_sessions r !! id) as [c|]; [|done].
    simpl. unfold end_row. by destruct (c_ended_at c).
Qed.

(** ** Lemmas *)

Section recorder_lemmas.
Context {R : Type} `{TrafficSinkLaws R}.

(** An open recorder holds less than a mebibyte. *)
Definition pending_ok (t : trafficRecorder) : Prop :=
  0 ≤ tr_toDevice t ∧ 0 ≤ tr_fromDevice t ∧ tr_toDevice t + tr_fromDevice t < 1024 * 1024.

(** What the store will hold once the recorder is flushed *)
Definition accounted (t : trafficRecorder) (r : R) : Z * Z :=
  ((sink_bytes (tr_id t) r).1 + tr_toDevice t, (sink_bytes (tr_id t) r).2 + tr_fromDevice t).

Lemma flushLocked_spec now t r :
  sink_live (tr_id t) r →
  let '(t', r') := flushLocked now t r in
  tr_toDevice t' = 0 ∧ tr_fromDevice t' = 0 ∧ tr_id t' = tr_id t ∧ tr_closed t' = tr_closed t ∧
  sink_live (tr_id t) r' ∧ sink_bytes (tr_id t) r' = accounted t r.
Proof.
  intros Hl. unfold flushLocked, accounted. destruct (_ && _) eqn:E.
  - bools. split_and!; try lia; try done. rewrite (surjective_pairing (sink_bytes _ _)) at 1.
    f_equal; lia.
  - simpl. split_and!; auto using sink_add_live. by rewrite sink_add_bytes.
Qed.

Lemma Add_spec a b now t r :
  pending_ok t → frame_ok (a, b, now) → tr_closed t = false → sink_live (tr_id t) r →
  let '(t', r') := Add a b now t r in
  pending_ok t' ∧ tr_closed t' = false ∧ tr_id t' = tr_id t ∧ sink_live (tr_id t) r' ∧
  accounted t' r' = ((accounted t r).1 + a, (accounted t r).2 + b).
Proof.
  intros (Ha & Hb & Hab) [Hfa Hfb] Hc Hl. simpl in *. unfold Add. rewrite Hc. simpl.
  rewrite (wrap64_id (tr_toDevice t + a)), (wrap64_id (tr_fromDevice t + b))
    by (unfold minInt64, maxInt64; lia).
  rewrite wrap64_id by (unfold minInt64, maxInt64; lia).
  destruct (_ || _) eqn:E.
  - pose proof (flushLocked_spec now
      (mkRecorder (tr_id t) (tr_toDevice t + a) (tr_fromDevice t + b) (tr_lastFlush t) false) r Hl) as Hf.
    destruct (flushLocked _ _ _) as [t' r']. destruct Hf as (H1 & H2 & H3 & H4 & H5 & H6).
    unfold pending_ok, accounted in *. simpl in *. rewrite H1, H2, H3, H6. simpl.
    split_and!; try done; try lia. f_equal; lia.
  - bools. unfold pending_ok, accounted. simpl. split_and!; try done; try lia. f_equal; lia.
Qed.

Lemma add_all_spec l t r :
  pending_ok t → Forall frame_ok l → tr_closed t = false → sink_live (tr_id t) r →
  let '(t', r') := add_all l t r in
  pending_ok t' ∧ tr_closed t' = false ∧ tr_id t' = tr_id t ∧ sink_live (tr_id t) r' ∧
  accounted t' r' = ((accounted t r).1 + total_to l, (accounted t r).2 + total_from l).
Proof.
  revert t r. induction l as [|[[a b] now] l IH]; intros t r Hp Hf Hc Hl; simpl.
  - split_and!; try done; unfold accounted; simpl; f_equal; lia.
  - apply Forall_cons in Hf as [Hf1 Hf]. pose proof (Add_spec a b now t r Hp Hf1 Hc Hl) as HA.
    destruct (Add a b now t r) as [t1 r1]. destruct HA as (Hp1 & Hc1 & Hid & Hl1 & Hacc).
    rewrite <- Hid in Hl1. specialize (IH t1 r1 Hp1 Hf Hc1 Hl1).
    destruct (add_all l t1 r1) as [t2 r2]. destruct IH as (? & ? & Hid2 & Hl2 & ->).
    rewrite Hacc. rewrite Hid in Hid2, Hl2. simpl. split_and!; try done. f_equal; lia.
Qed.
End recorder_lemmas.

(** ** Theorems *)

Section recorder_theorems.
Context {R : Type} `{TrafficSinkLaws R}.

(** C35: no byte is lost or counted twice: whatever sequence of frames a session
    carries, at every moment the store's counters plus what the recorder still
    holds are the bytes carried so far, the recorder holds less than 1 MiB, and
    once it is closed the store holds exactly the session's totals. *)
Theorem traffic_conserved id start l state finish (r : R) :
  sink_live id r → Forall frame_ok l →
  let '(t1, r1) := add_all l (newTrafficRecorder id start) r in
  accounted t1 r1 = ((sink_bytes id r).1 + total_to l, (sink_bytes id r).2 + total_from l) ∧
  tr_toDevice t1 + tr_fromDevice t1 < 1024 * 1024 ∧
  sink_bytes id (Close state finish t1 r1).2 =
    ((sink_bytes id r).1 + total_to l, (sink_bytes id r).2 + total_from l).
Proof.
  intros Hl Hf.
  pose proof (add_all_spec l (newTrafficRecorder id start) r) as HA. simpl in HA.
  specialize (HA ltac:(by unfold pending_ok) Hf eq_refl Hl).
  destruct (add_all l _ r) as [t1 r1]. destruct HA as ((_ & _ & Hp) & Hc & Hid & Hl1 & Hacc).
  rewrite !Z.add_0_r in Hacc. split_and!; [done..|]. rewrite <- Hid in Hl1.
  unfold Close. rewrite Hc.
  pose proof (flushLocked_spec finish
    (mkRecorder (tr_id t1) (tr_toDevice t1) (tr_fromDevice t1) (tr_lastFlush t1) true) r1 Hl1) as HF.
  destruct (flushLocked _ _ _) as [t2 r2]. destruct HF as (_ & _ & Hid2 & _ & _ & Hb).
  simpl in *. rewrite <- Hid at 1. rewrite <- Hid2 at 1. by rewrite sink_end_bytes, Hid2, Hb.
Qed.
End recorder_theorems.

(** The recorder spares the store: while less than a second has passed since
    the last flush and the frames it got amount to less than 1 MiB, no frame
    causes any write. *)
Theorem traffic_batches {R} `{TrafficSink R} l t (r : R) :
  tr_closed t = false → 0 ≤ tr_toDevice t → 0 ≤ tr_fromDevice t →
  Forall (λ x, frame_ok x ∧ x.2 - tr_lastFlush t < Second) l →
  tr_toDevice t + tr_fromDevice t + total_to l + total_from l < 1024 * 1024 →
  (add_all l t r).2 = r.
Proof.
  revert t. induction l as [|[[a b] now] l IH]; intros t Hc Ha Hb Hl Htot; [done|].
  apply Forall_cons in Hl as [[[Hfa Hfb] Hnow] Hl]. simpl in *.
  assert (0 ≤ total_to l ∧ 0 ≤ total_from l) as [Ht1 Ht2].
  { clear -Hl. induction l as [|x l IHl]; simpl; [lia|].
    apply Forall_cons in Hl as [[[? ?] _] Hl]. specialize (IHl Hl). lia. }
  unfold Add. rewrite Hc. simpl.
  rewrite (wrap64_id (tr_toDevice t + a)), (wrap64_id (tr_fromDevice t + b))
    by (unfold minInt64, maxInt64; lia).
  rewrite wrap64_id by (unfold minInt64, maxInt64; lia).
  destruct (_ || _) eqn:E; [lia|]. apply IH; simpl; try done; lia.
Qed.

(** Closing is final and idempotent: the first [Close] decides the session's
    recorded state, and later [Add]s and [Close]s (the deferred cleanup of a
    handler racing with the close of its peer) leave the recorder and the store
    exactly as they are. *)
Theorem traffic_close_final {R} `{TrafficSink R} state1 now1 state2 now2 l t (r : R) :
  let '(t1, r1) := Close state1 now1 t r in
  add_all l t1 r1 = (t1, r1) ∧ Close state2 now2 t1 r1 = (t1, r1).
Proof.
  destruct (Close state1 now1 t r) as [t1 r1] eqn:E.
  assert (tr_closed t1 = true) as Hc.
  { unfold Close, flushLocked in E. by repeat case_match; simplify_eq/=. }
  unfold Close. rewrite Hc. split; [|done].
  induction l as [|[[a b] now] l IH]; simpl; [done|]. unfold Add. by rewrite Hc.
Qed.

(** ** Witnesses *)

Definition demo_conn : Registry :=
  (StartConnection "c1" "alice" "d1" "" "terminal" "relay" "10.0.0.1" 5 empty_registry).2.

Definition demo_frames : list (Z * Z * Time) :=
  [(10, 0, 6); (0, 700, 7); (5, 1048576, 8); (1, 2, 9 + Second)].

Lemma traffic_conserved_witness :
  sink_bytes "c1" (Close "closed" (Hour) (add_all demo_frames (newTrafficRecorder "c1" 5) demo_conn).1
    (add_all demo_frames (newTrafficRecorder "c1" 5) demo_conn).2).2 = (16, 1049278).
Proof.
  pose proof (traffic_conserved "c1" 5 demo_frames "closed" Hour demo_conn) as H.
  destruct (add_all demo_frames _ _) as [t1 r1]. simpl in H.
  refine (proj2 (proj2 (H _ _))).
  - split; [done|by eexists].
  - repeat constructor; vm_compute; discriminate.
Defined.

Lemma traffic_batches_witness :
  (add_all [(10, 0, 6); (0, 700, 7)] (newTrafficRecorder "c1" 5) demo_conn).2 = demo_conn.
Proof.
  apply (traffic_batches [(10, 0, 6); (0, 700, 7)] (newTrafficRecorder "c1" 5) demo_conn);
    [done|done|done| |done].
  repeat constructor; vm_compute; discriminate.
Defined.
