(* ===== verification/Http.v ===== *)
(** * HTTP requests, responses and the pure helpers of the handlers

    The request and response values the handlers of [internal/server] see, and
    the functions of [auth.go], [server.go], [terminal.go], [file.go] and
    [requestlog.go] that only read a request.  [net.SplitHostPort] and
    [net.JoinHostPort] are modelled from the Go library's documentation; the
    grammar of [url.Parse] is the parameter [url_Host]. *)
From stdpp Require Import pretty.
From Stdlib Require Import ZArith Lia Ascii String.
From S2P Require Import Prelude GoStrings Protocol Registry.
Open Scope string_scope.
Open Scope list_scope.
Open Scope Z_scope.

(** ** Go's [net] package *)

(** Split at the last occurrence of a byte *)
Fixpoint CutLast (s : string) (c : ascii) : option (string * string) :=
  match s with
  | EmptyString => None
  | String a s' =>
      match CutLast s' c with
      | Some (b, r) => Some (String a b, r)
      | None => if Ascii.eqb a c then Some ("", s') else None
      end
  end.

(** [net.SplitHostPort]; [None] when it returns an error (the host and the port
    it returns then are empty). *)
Definition SplitHostPort (hostport : string) : option (string * string) :=
  match CutLast hostport ":" with
  | None => None                                           (* missing port *)
  | Some (before, port) =>
      match hostport with
      | String "["%char rest =>
          let '(inner, after, found) := Cut rest "]" in
          if negb found then None                          (* missing ']' *)
          else if negb (String.eqb (String "]" after) (String "]" (String ":" port))) then None
          else if str_mem "[" rest then None
          else if str_mem "]" after then None
          else Some (inner, port)
      | _ =>
          if str_mem ":" before then None                  (* too many colons *)
          else if str_mem "[" hostport then None
          else if str_mem "]" hostport then None
          else Some (before, port)
      end
  end.

Definition JoinHostPort (host port : string) : string :=
  if str_mem ":" host then "[" +:+ host +:+ "]:" +:+ port else host +:+ ":" +:+ port.

(** [strings.Trim(s, cutset)] for a cutset of one-byte characters *)
Definition Trim (s : string) (cutset : list string) : string :=
  let s1 := trim_left_of cutset (String.length s) s in
  String.rev (trim_left_of cutset (String.length s1) (String.rev s1)).

(** ** Requests and responses *)

(** A header line or a query or cookie pair; the names of headers are canonical. *)
Abbreviation pairs := (list (string * string)).

(** The values of a key, in order; [Get] is the first one, or the empty string. *)
Fixpoint Values (l : pairs) (k : string) : list string :=
  match l with
  | [] => []
  | (k', v) :: l => if String.eqb k' k then v :: Values l k else Values l k
  end.

Definition GetFirst (l : pairs) (k : string) : string :=
  match Values l k with v :: _ => v | [] => "" end.

Record Request := mkRequest {
  r_Method : string; r_Path : string; r_Query : pairs; r_RawQuery : string;
  r_Header : pairs; r_Cookies : pairs; r_Host : string; r_TLS : bool; r_RemoteAddr : string
}.

Definition QueryGet (r : Request) (k : string) : string := GetFirst (r_Query r) k.
Definition HeaderGet (r : Request) (k : string) : string := GetFirst (r_Header r) k.
Definition Cookie (r : Request) (k : string) : option string := head (Values (r_Cookies r) k).

(** What is encoded into a JSON body: plain values, and the registry's structs (which
    [encoding/json] renders by their field tags) *)
Inductive json :=
| JNull
| JBool (b : bool)
| JNum (z : Z)
| JStr (s : string)
| JArr (l : list json)
| JObj (l : list (string * json))
| JDevice (d : Device)
| JGrant (g : ForwardGrant)
| JPolicy (p : ForwardPolicyRecord)
| JUser (u : User)
| JKey (k : DeviceKey)
| JInvite (i : Invite)
| JAudit (a : AuditEntry)
| JConnection (c : ConnectionRecord)
| JTime (t : Time).

(** The status line, the JSON body ([None]: no body is written) and the session
    cookie the response sets: [(value, max_age)]. *)
Record Response := mkResponse {
  rs_Status : Z; rs_Body : option json; rs_Cookie : option (string * Z)
}.

Definition writeJSON (status : Z) (v : json) : Response := mkResponse status (Some v) None.
Definition writeError (status : Z) (e : string) : Response :=
  writeJSON status (JObj [("error", JStr e)]).
Definition writeHeader (status : Z) : Response := mkResponse status None None.

Definition StatusOK := 200.
Definition StatusCreated := 201.
Definition StatusNoContent := 204.
Definition StatusBadRequest := 400.
Definition StatusUnauthorized := 401.
Definition StatusForbidden := 403.
Definition StatusNotFound := 404.
Definition StatusMethodNotAllowed := 405.
Definition StatusConflict := 409.
Definition StatusTooManyRequests := 429.
Definition StatusInternalServerError := 500.

(** ** Credentials of a request ([auth.go], [server.go]) *)

(** [url.Parse(origin)]: the [Host] of the parsed URL, [None] on a parse error. *)
Class UrlParser := { url_Host : string → option string }.

Definition wsProtocolPrefix := "warpmesh-ticket.".
Definition sessionCookieName := "warpmesh_session".

Definition bearerToken (r : Request) : string :=
  let auth := HeaderGet r "Authorization" in
  if HasPrefix auth "Bearer " then TrimPrefix auth "Bearer " else "".

(** The cookie is tried first, then the header, then the legacy parameter. *)
Definition requestToken (r : Request) : string :=
  let rest :=
    let auth := HeaderGet r "Authorization" in
    if HasPrefix auth "Bearer " then TrimPrefix auth "Bearer " else QueryGet r "token" in
  match Cookie r sessionCookieName with
  | Some v => if negb (String.eqb v "") then v else rest
  | None => rest
  end.

Definition sameOriginCheck `{UrlParser} (r : Request) : bool :=
  let origin := HeaderGet r "Origin" in
  if String.eqb origin "" then true
  else match url_Host origin with
       | None => false
       | Some host => String.eqb host (r_Host r)
       end.

Definition safe_method (m : string) : bool :=
  String.eqb m "GET" || String.eqb m "HEAD" || String.eqb m "OPTIONS".

Definition checkCSRF `{UrlParser} (r : Request) : bool :=
  if safe_method (r_Method r) then true
  else match Cookie r sessionCookieName with
       | None => true
       | Some _ =>
           let origin := HeaderGet r "Origin" in
           if String.eqb origin "" then true else sameOriginCheck r
       end.

(** The first part of a header value that carries a ticket *)
Fixpoint ticket_in (parts : list string) : option string :=
  match parts with
  | [] => None
  | part :: parts =>
      let part := TrimSpace part in
      if HasPrefix part wsProtocolPrefix then Some (TrimPrefix part wsProtocolPrefix)
      else ticket_in parts
  end.

Fixpoint ticket_in_headers (headers : list string) : string :=
  match headers with
  | [] => ""
  | header :: headers =>
      match ticket_in (Split header ",") with
      | Some t => t
      | None => ticket_in_headers headers
      end
  end.

Definition wsTicketFromRequest (r : Request) : string :=
  ticket_in_headers (Values (r_Header r) "Sec-Websocket-Protocol").

Definition setSessionCookie (token : string) (w : Response) : Response :=
  mkResponse (rs_Status w) (rs_Body w) (Some (token, 0)).
Definition clearSessionCookie (w : Response) : Response :=
  mkResponse (rs_Status w) (rs_Body w) (Some ("", -1)).

Definition clientIP (r : Request) : string :=
  match SplitHostPort (r_RemoteAddr r) with
  | None => r_RemoteAddr r
  | Some (host, _) => host
  end.

(** ** Query parameters and names *)

(** The loop of [queryInt] and [queryInt64]: [None] is the early return of the
    default.  The accumulator wraps at 64 bits. *)
Fixpoint query_digits (n : Z) (v : string) : option Z :=
  match v with
  | EmptyString => Some n
  | String c v =>
      match digit_of c with
      | None => None
      | Some d => query_digits (wrap64 (n * 10 + d)) v
      end
  end.

Definition queryInt (r : Request) (key : string) (def : Z) : Z :=
  let v := QueryGet r key in
  if String.eqb v "" then def
  else match query_digits 0 v with Some n => n | None => def end.

Definition queryInt64 (r : Request) (key : string) (def : Z) : Z :=
  let v := QueryGet r key in
  if String.eqb v "" then def
  else match query_digits 0 v with Some n => n | None => def end.

Definition sanitizeName (name : string) : string :=
  let name := ReplaceByte name "\" "/" in
  let name := match after_last name "/" with Some r => r | None => name end in
  if String.eqb name "" || String.eqb name "." || String.eqb name ".." then "" else name.

(** ** Request log ([requestlog.go]) *)

Definition secret_key (k : string) : bool :=
  String.eqb k "token" || String.eqb k "password" || String.eqb k "code" || String.eqb k "key".

Definition redact_part (p : string) : string :=
  let '(key, _, found) := Cut p "=" in
  if negb found then p
  else if secret_key key then key +:+ "=REDACTED" else p.

Definition redactQuery (raw : string) : string := Join (map redact_part (Split raw "&")) "&".

(** [statusRecorder]: what the wrapped response writer has seen *)
Record statusRecorder := mkStatusRecorder { sr_status : Z; sr_bytes : Z }.

Definition WriteHeader (code : Z) (r : statusRecorder) : statusRecorder :=
  if sr_status r =? 0 then mkStatusRecorder code (sr_bytes r) else r.
(** [n]: the count the underlying writer returned *)
Definition WriteBody (n : Z) (r : statusRecorder) : statusRecorder :=
  mkStatusRecorder (if sr_status r =? 0 then StatusOK else sr_status r) (sr_bytes r + n).

(** The fields of the request's log line; [None] when the request is not logged
    (a WebSocket upgrade, or a successful read). *)
Record log_line := mkLogLine {
  ll_ip : string; ll_method : string; ll_path : string; ll_status : Z; ll_bytes : Z
}.

Definition withRequestLog (r : Request) (rec : statusRecorder) : option log_line :=
  if HasPrefix (r_Path r) "/ws/" then None
  else
    let status := if sr_status rec =? 0 then StatusOK else sr_status rec in
    let interesting :=
      (400 <=? status) ||
      ((200 <=? status) && (status <? 400) &&
       negb (String.eqb (r_Method r) "GET") && negb (String.eqb (r_Method r) "HEAD")) in
    if negb interesting then None
    else
      let path := r_Path r in
      let path := if negb (String.eqb (r_RawQuery r) "")
                  then path +:+ "?" +:+ redactQuery (r_RawQuery r) else path in
      Some (mkLogLine (clientIP r) (r_Method r) path status (sr_bytes rec)).

(** ** The published agent endpoint ([handleAgentConfig]) *)

Definition port_of (addr : string) : string :=
  match SplitHostPort addr with Some (_, port) => port | None => "" end.

Definition agent_endpoint (agentListen : string) (r : Request) : string :=
  let host := match SplitHostPort (r_Host r) with Some (h, _) => h | None => r_Host r end in
  let scheme := if r_TLS r then "wss" else "ws" in
  let port := if negb (String.eqb agentListen "") then port_of agentListen else "" in
  let port := if String.eqb port "" then port_of (r_Host r) else port in
  let port := if String.eqb port "" then (if r_TLS r then "443" else "80") else port in
  let host := Trim host ["["; "]"] in
  scheme +:+ "://" +:+ JoinHostPort host port +:+ "/ws/agent".

Definition handleAgentConfig (agentListen : string) (r : Request) : Response :=
  writeJSON StatusOK (JObj [("agentWSS", JStr (agent_endpoint agentListen r))]).

Definition handleHealth : Response := writeJSON StatusOK (JObj [("status", JStr "ok")]).

(** ** Lemmas *)

Lemma CutLast_spec s c b r :
  CutLast s c = Some (b, r) → s = b +:+ String c r ∧ str_mem c r = false.
Proof.
  revert b r. induction s as [|a s IH]; simpl; intros b r; [done|].
  destruct (CutLast s c) as [[b' r']|] eqn:E.
  - intros [= <- <-]. destruct (IH b' r' eq_refl) as [-> Hr]. by split.
  - destruct (Ascii.eqb_spec a c) as [->|]; [|done]. intros [= <- <-]. split; [done|].
    clear IH. induction s as [|a s IH]; simpl in *; [done|].
    destruct (CutLast s c) as [[]|] eqn:E'; [done|].
    destruct (Ascii.eqb_spec a c) as [->|Hne]; [done|].
    by rewrite IH.
Qed.

Lemma CutLast_app b r c : str_mem c r = false → CutLast (b +:+ String c r) c = Some (b, r).
Proof.
  intros Hr. induction b as [|a b IH]; simpl.
  - assert (CutLast r c = None) as ->.
    { induction r as [|a r IHr]; simpl in *; [done|].
      apply orb_false_iff in Hr as [Ha Hr]. rewrite IHr by done.
      by rewrite Ha. }
    by rewrite Ascii.eqb_refl.
  - by rewrite IH.
Qed.

Lemma query_digits_app n a b :
  query_digits n (a +:+ b) = match query_digits n a with Some m => query_digits m b | None => None end.
Proof. revert n. induction a as [|c a IH]; intros n; simpl; [done|]. by destruct (digit_of c). Qed.

Lemma digit_of_range c d : digit_of c = Some d → 0 ≤ d ≤ 9.
Proof. unfold digit_of. intros H. repeat case_match; simplify_eq; lia. Qed.

Lemma parse_u64_mono v acc n : 0 ≤ acc → parse_u64 acc v = PVal n → acc ≤ n.
Proof.
  revert acc. induction v as [|c v IH]; simpl; intros acc Ha; [by intros [= ->]|].
  destruct (digit_of c) as [d|] eqn:Hd; [|done]. apply digit_of_range in Hd.
  destruct (_ <? _); [done|]. intros Hp. apply IH in Hp; nia.
Qed.

(** The accumulating loop agrees with [strconv.ParseUint] below the overflow. *)
Lemma query_digits_parse v acc n :
  0 ≤ acc → parse_u64 acc v = PVal n → n ≤ maxInt64 → query_digits acc v = Some n.
Proof.
  revert acc. induction v as [|c v IH]; simpl; intros acc Ha; [congruence|].
  destruct (digit_of c) as [d|] eqn:Hd; [|done]. apply digit_of_range in Hd.
  destruct (_ <? _); [done|]. intros Hp Hn.
  assert (acc * 10 + d ≤ n) by (eapply parse_u64_mono; [|exact Hp]; lia).
  rewrite wrap64_id by (unfold minInt64, maxInt64 in *; lia). apply IH; [lia|done|done].
Qed.

Lemma Itoa_of_N (n : N) : Itoa (Z.of_N n) = pretty n.
Proof. by destruct n. Qed.

Lemma redact_part_no_amp p : str_mem "&" p = false → str_mem "&" (redact_part p) = false.
Proof.
  unfold redact_part. intros Hp. destruct (Cut p "=") as [[k v] found] eqn:E.
  destruct found; simpl; [|done]. destruct (secret_key k); [|done].
  apply Cut_found in E as [-> _]. rewrite str_mem_app in *. simpl in *.
  apply orb_false_iff in Hp as [-> _]. done.
Qed.

(** A logged query has the parts of the request's, each redacted. *)
Lemma redactQuery_parts raw : Split (redactQuery raw) "&" = map redact_part (Split raw "&").
Proof.
  unfold redactQuery. apply Split_Join.
  - destruct (Split raw "&") eqn:E; [by apply Split_not_nil in E | done].
  - pose proof (Split_no_sep raw "&") as H. rewrite Forall_map.
    eapply Forall_impl; [exact H|]. intros. by apply redact_part_no_amp.
Qed.

(** A host or port text [net.SplitHostPort] accepts: no brackets *)
Definition no_brackets (s : string) : bool := negb (str_mem "[" s) && negb (str_mem "]" s).

Lemma SplitHostPort_JoinHostPort h p :
  no_brackets h = true → no_brackets p = true → str_mem ":" p = false →
  SplitHostPort (JoinHostPort h p) = Some (h, p).
Proof.
  unfold no_brackets, SplitHostPort, JoinHostPort. intros Hh Hp Hc. bools.
  destruct (str_mem ":" h) eqn:Hcol.
  - cbn [String.append].
    replace (String "[" (h +:+ String "]" (String ":" p)))
      with (String "[" (h +:+ "]") +:+ String ":" p)
      by (simpl; by rewrite <- str_app_assoc).
    rewrite CutLast_app, Cut_app by done. simpl. rewrite String.eqb_refl. simpl.
    rewrite str_mem_app. simpl. by rewrite H, H0, H1.
  - change (h +:+ ":" +:+ p) with (h +:+ String ":" p).
    rewrite CutLast_app by done.
    destruct h as [|a h].
    + simpl. by rewrite ?H, ?H0.
    + assert (a ≠ "["%char) as Ha.
      { intros ->. done. }
      rewrite Hcol, !str_mem_app. simpl in *. rewrite H, H0, H1, H2. simpl.
      destruct a as [[] [] [] [] [] [] [] []]; try done.
Qed.

Lemma trim_left_of_brackets n s : no_brackets s = true → trim_left_of ["["; "]"] n s = s.
Proof.
  unfold no_brackets. intros Hs. destruct n as [|n]; [done|].
  destruct s as [|a s]; [done|]. cbn [trim_left_of List.find].
  rewrite !HasPrefix_byte. cbn [str_mem] in Hs.
  destruct (Ascii.eqb a "["), (Ascii.eqb a "]"); simpl in Hs; try done.
  by rewrite andb_false_r in Hs.
Qed.

Lemma Trim_brackets s : no_brackets s = true → Trim s ["["; "]"] = s.
Proof.
  intros Hs. unfold Trim. rewrite (trim_left_of_brackets (String.length s) s) by done.
  rewrite trim_left_of_brackets; [apply str_rev_involutive|].
  unfold no_brackets in *. by rewrite !str_mem_rev.
Qed.

(** ** Theorems *)

(** A logged query string keeps its shape and leaks no credential: it has
    exactly the parts of the request's query, a part whose key is [token],
    [password], [code] or [key] is logged with the value REDACTED, and every
    other part is logged as it is.  Redacting twice changes nothing. *)
Theorem redact_query_spec raw :
  Split (redactQuery raw) "&" = map redact_part (Split raw "&") ∧
  (∀ p k v, p ∈ Split (redactQuery raw) "&" → Cut p "=" = (k, v, true) → secret_key k = true →
     v = "REDACTED") ∧
  (∀ p k v, p ∈ Split raw "&" → Cut p "=" = (k, v, true) → secret_key k = false →
     p ∈ Split (redactQuery raw) "&") ∧
  redactQuery (redactQuery raw) = redactQuery raw.
Proof.
  rewrite redactQuery_parts. split_and!; [done| | |].
  - intros p k v Hp Hc Hs. apply list_elem_of_fmap in Hp as (q & -> & _).
    unfold redact_part in Hc. destruct (Cut q "=") as [[k' v'] found] eqn:E.
    destruct found; simpl in Hc; [|congruence].
    destruct (secret_key k') eqn:Hk; [|congruence].
    apply Cut_found in E as [_ Hno]. change ("=REDACTED") with (String "=" "REDACTED") in Hc.
    rewrite Cut_app in Hc by done. congruence.
  - intros p k v Hp Hc Hs. apply list_elem_of_fmap. exists p. split; [|done].
    unfold redact_part. by rewrite Hc; simpl; rewrite Hs.
  - unfold redactQuery at 1. rewrite redactQuery_parts, map_map. unfold redactQuery. f_equal.
    apply map_ext. intros q. unfold redact_part.
    destruct (Cut q "=") as [[k v] found] eqn:E. destruct found; simpl; [|by rewrite E].
    destruct (secret_key k) eqn:Hk; simpl; [|by rewrite E, Hk].
    apply Cut_found in E as [_ Hno]. change ("=REDACTED") with (String "=" "REDACTED").
    rewrite Cut_app by done. by simpl; rewrite Hk.
Qed.

(** An upload's file name cannot leave the target directory: the sanitised
    name has no path separator of either platform and is neither [.] nor [..];
    it is the part after the last separator; a plain name is kept, and the
    function is idempotent. *)
Theorem sanitize_name_safe name :
  str_mem "/" (sanitizeName name) = false ∧ str_mem "\" (sanitizeName name) = false ∧
  sanitizeName name ≠ "." ∧ sanitizeName name ≠ ".." ∧
  (str_mem "/" name = false → str_mem "\" name = false → name ≠ "." → name ≠ ".." →
   sanitizeName name = name) ∧
  sanitizeName (sanitizeName name) = sanitizeName name.
Proof.
  assert (∀ m, str_mem "/" m = false → str_mem "\" m = false →
    m ≠ "." → m ≠ ".." → sanitizeName m = m) as Hplain.
  { intros m Hs Hb H1 H2. unfold sanitizeName. rewrite ReplaceByte_id by done.
    apply after_last_None in Hs. rewrite Hs.
    destruct (String.eqb_spec m "") as [->|]; [done|].
    apply String.eqb_neq in H1, H2. by rewrite H1, H2. }
  assert (str_mem "/" (sanitizeName name) = false ∧ str_mem "\" (sanitizeName name) = false ∧
          sanitizeName name ≠ "." ∧ sanitizeName name ≠ "..") as (Ha & Hb & Hc & Hd).
  { unfold sanitizeName. set (m := ReplaceByte name "\" "/").
    set (b := match after_last m "/" with Some r => r | None => m end).
    assert (str_mem "/" b = false ∧ str_mem "\" b = false) as [H1 H2].
    { subst b. assert (str_mem "\" m = false) as Hm by (apply ReplaceByte_gone; done).
      destruct (after_last m "/") as [r|] eqn:E.
      - split; [by eapply after_last_no_sep|]. apply after_last_suffix in E as [p E].
        rewrite E, str_mem_app in Hm. apply orb_false_iff in Hm as [_ Hm].
        simpl in Hm. done.
      - split; [by apply after_last_None|done]. }
    destruct (String.eqb_spec b ""); [done|]. destruct (String.eqb_spec b "."); [done|].
    destruct (String.eqb_spec b ".."); [done|]. done. }
  split_and!; auto.
Qed.

(** A numeric query parameter is read exactly: a missing one or one with any
    character other than a decimal digit gives the default, the decimal rendering
    of any non-negative 64-bit value gives that value, and whatever the text the
    result stays in the 64-bit range when the default does. *)
Theorem query_int_spec r key def :
  (QueryGet r key = "" → queryInt r key def = def) ∧
  (∀ a c b, QueryGet r key = a +:+ String c b → digit_of c = None → queryInt r key def = def) ∧
  (∀ n : N, Z.of_N n ≤ maxInt64 → QueryGet r key = Itoa (Z.of_N n) → queryInt r key def = Z.of_N n) ∧
  (minInt64 ≤ def ≤ maxInt64 → minInt64 ≤ queryInt r key def ≤ maxInt64).
Proof.
  unfold queryInt. split_and!.
  - by intros ->.
  - intros a c b -> Hc. destruct (String.eqb _ _); [done|].
    rewrite query_digits_app. simpl. rewrite Hc. by destruct (query_digits 0 a).
  - intros n Hn ->. rewrite Itoa_of_N. destruct (pretty_N_head n) as (c & v & E & _).
    rewrite E at 1. simpl.
    by rewrite (query_digits_parse (pretty n) 0 (Z.of_N n)); [| |apply parse_u64_pretty; unfold maxInt64 in Hn; lia|].
  - intros Hd. destruct (String.eqb _ _); [done|].
    assert (∀ v n, minInt64 ≤ n ≤ maxInt64 → ∀ m, query_digits n v = Some m →
      minInt64 ≤ m ≤ maxInt64) as Hr.
    { induction v as [|c v IH]; simpl; intros n Hn m; [congruence|].
      destruct (digit_of c); [|done]. apply IH. apply wrap64_range. }
    destruct (query_digits 0 _) eqn:E; [|done]. eapply Hr; [|done]. done.
Qed.

(** The published endpoint is the one agents can dial: behind one listener it
    is the address the console was reached at, with a separate agent listener it
    is the console's host with the listener's port; [wss] exactly under TLS.
    IPv6 hosts are bracketed. *)
Theorem agent_endpoint_spec r h p lh lp :
  r_Host r = JoinHostPort h p →
  no_brackets h = true → no_brackets p = true → str_mem ":" p = false → p ≠ "" →
  no_brackets lh = true → no_brackets lp = true → str_mem ":" lp = false → lp ≠ "" →
  agent_endpoint "" r = (if r_TLS r then "wss" else "ws") +:+ "://" +:+ r_Host r +:+ "/ws/agent" ∧
  agent_endpoint (JoinHostPort lh lp) r =
    (if r_TLS r then "wss" else "ws") +:+ "://" +:+ JoinHostPort h lp +:+ "/ws/agent".
Proof.
  intros Hr Hh Hp Hpc Hpn Hlh Hlp Hlpc Hlpn. unfold agent_endpoint, port_of.
  rewrite Hr, !SplitHostPort_JoinHostPort by done.
  assert (String.eqb (JoinHostPort lh lp) "" = false) as ->.
  { unfold JoinHostPort. destruct (str_mem ":" lh); simpl; [done|]. by destruct lh. }
  apply String.eqb_neq in Hpn, Hlpn. simpl. rewrite Hpn, !Hlpn, Trim_brackets by done. done.
Qed.

(** ** Witnesses *)

Definition demo_request : Request :=
  mkRequest "GET" "/api/agent-config" [] "" [] [] "[fd00::1]:8443" true "10.0.0.9:5000".

Lemma agent_endpoint_spec_witness :
  agent_endpoint "" demo_request = "wss://[fd00::1]:8443/ws/agent" ∧
  agent_endpoint ":9443" demo_request = "wss://[fd00::1]:9443/ws/agent".
Proof.
  apply (agent_endpoint_spec demo_request "fd00::1" "8443" "" "9443"); by vm_compute.
Defined.
