(* ===== verification/Server.v ===== *)
(** * The relay server's state ([internal/server/server.go])

    [Server] is the Go struct.  Objects that are shared by pointer (an agent
    connection, a session, a traffic recorder) live in heaps, one per type, and
    the maps of the struct hold their references: two connections of one device
    differ, and a handler can still hold a session the map no longer has.

    [open_ws] is the set of WebSocket connections neither side has closed;
    a write to an open one succeeds and appends to [wire], the frames handed to
    the network in order; a write to any other returns an error.  [timers] are the
    armed [time.AfterFunc] callbacks of the tunnels.  Handlers are written in the
    state monad; what a handler does between two blocking calls is one function.
    Log lines are not modelled. *)
From Stdlib Require Import ZArith Lia String.
From S2P Require Import Prelude GoStrings Protocol Registry Tickets Traffic Http.
Open Scope string_scope.
Open Scope list_scope.
Open Scope Z_scope.

(** ** Data *)

(** A frame on a WebSocket: a JSON message, a binary frame, or a text frame that is
    copied without being looked at *)
Inductive frame :=
| Text (m : Message)
| Binary (raw : bytes)
| RawText (raw : bytes).

(** [Config]; the embedded web UI is left out. *)
Record Config := mkConfig {
  AdminToken : string; DataDir : string; AdminUser : string; AdminPassword : string;
  AgentListen : string; KeyTTL : Duration; AgentDir : string
}.

Record agentConn := mkAgentConn {
  ac_deviceID : string; ac_publicIP : string; ac_directPort : Z; ac_ws : WS;
  ac_lastSync : Time; ac_capabilities : option DeviceCapabilities
}.

Record termSession := mkTermSession {
  ts_deviceID : string; ts_browser : WS; ts_traffic : option ref; ts_connection : string;
  ts_transport : string; ts_direct : bool
}.

Record fileSession := mkFileSession {
  fs_deviceID : string; fs_browser : WS; fs_op : string; fs_traffic : option ref
}.

Record managerSession := mkManagerSession { ms_deviceID : string; ms_browser : WS }.

(** [timer] is the reference of the armed timer, [None] for nil. *)
Record forwardSession := mkForwardSession {
  fw_source : string; fw_target : string; fw_direct : bool; fw_transport : string;
  fw_timer : option ref; fw_traffic : option ref
}.

(** [linkReady] is closed exactly when [linkSet] is set, so one flag models both. *)
Record screenSession := mkScreenSession {
  sc_sessionID : string; sc_deviceID : string; sc_browser : WS; sc_link : option WS;
  sc_linkSet : bool; sc_done : bool; sc_traffic : option ref; sc_connection : string;
  sc_transport : string; sc_direct : bool
}.

Record sessionEntry := mkSessionEntry { se_username : string; se_expiresAt : Time }.

Record loginAttempt := mkLoginAttempt { la_count : Z; la_until : Time }.

(** An armed fallback timer: what its callback captured, and when it is due *)
Record fallbackTimer := mkFallbackTimer {
  ft_session : ref; ft_source : string; ft_msg : Message; ft_due : Time
}.

Definition maxLoginAttempts : Z := 5.
Definition loginLockoutTime : Duration := Minute.
Definition sessionLifetime : Duration := 24 * Hour.

Record Server := mkServer {
  cfg : Config;
  reg : Registry;
  agents : gmap string ref;
  terms : gmap string ref;
  files : gmap string ref;
  managers : gmap string ref;
  forwards : gmap string ref;
  screens : gmap string ref;
  sessions : gmap string sessionEntry;
  loginAttempts : gmap string loginAttempt;
  tickets : ticketStore;
  agentH : gmap ref agentConn;
  termH : gmap ref termSession;
  fileH : gmap ref fileSession;
  managerH : gmap ref managerSession;
  forwardH : gmap ref forwardSession;
  screenH : gmap ref screenSession;
  recorderH : gmap ref trafficRecorder;
  timers : gmap ref fallbackTimer;
  open_ws : gset WS;
  wire : list (WS * frame);
  next_ref : ref
}.

Definition upd_reg (f : Registry → Registry) (s : Server) : Server :=
  mkServer (cfg s) (f (reg s)) (agents s) (terms s) (files s) (managers s) (forwards s)
    (screens s) (sessions s) (loginAttempts s) (tickets s) (agentH s) (termH s) (fileH s)
    (managerH s) (forwardH s) (screenH s) (recorderH s) (timers s) (open_ws s) (wire s)
    (next_ref s).
Definition upd_agents (f : gmap string ref → gmap string ref) (s : Server) : Server :=
  mkServer (cfg s) (reg s) (f (agents s)) (terms s) (files s) (managers s) (forwards s)
    (screens s) (sessions s) (loginAttempts s) (tickets s) (agentH s) (termH s) (fileH s)
    (managerH s) (forwardH s) (screenH s) (recorderH s) (timers s) (open_ws s) (wire s)
    (next_ref s).
Definition upd_terms (f : gmap string ref → gmap string ref) (s : Server) : Server :=
  mkServer (cfg s) (reg s) (agents s) (f (terms s)) (files s) (managers s) (forwards s)
    (screens s) (sessions s) (loginAttempts s) (tickets s) (agentH s) (termH s) (fileH s)
    (managerH s) (forwardH s) (screenH s) (recorderH s) (timers s) (open_ws s) (wire s)
    (next_ref s).
Definition upd_files (f : gmap string ref → gmap string ref) (s : Server) : Server :=
  mkServer (cfg s) (reg s) (agents s) (terms s) (f (files s)) (managers s) (forwards s)
    (screens s) (sessions s) (loginAttempts s) (tickets s) (agentH s) (termH s) (fileH s)
    (managerH s) (forwardH s) (screenH s) (recorderH s) (timers s) (open_ws s) (wire s)
    (next_ref s).
Definition upd_managers (f : gmap string ref → gmap string ref) (s : Server) : Server :=
  mkServer (cfg s) (reg s) (agents s) (terms s) (files s) (f (managers s)) (forwards s)
    (screens s) (sessions s) (loginAttempts s) (tickets s) (agentH s) (termH s) (fileH s)
    (managerH s) (forwardH s) (screenH s) (recorderH s) (timers s) (open_ws s) (wire s)
    (next_ref s).
Definition upd_forwards (f : gmap string ref → gmap string ref) (s : Server) : Server :=
  mkServer (cfg s) (reg s) (agents s) (terms s) (files s) (managers s) (f (forwards s))
    (screens s) (sessions s) (loginAttempts s) (tickets s) (agentH s) (termH s) (fileH s)
    (managerH s) (forwardH s) (screenH s) (recorderH s) (timers s) (open_ws s) (wire s)
    (next_ref s).
Definition upd_screens (f : gmap string ref → gmap string ref) (s : Server) : Server :=
  mkServer (cfg s) (reg s) (agents s) (terms s) (files s) (managers s) (forwards s)
    (f (screens s)) (sessions s) (loginAttempts s) (tickets s) (agentH s) (termH s) (fileH s)
    (managerH s) (forwardH s) (screenH s) (recorderH s) (timers s) (open_ws s) (wire s)
    (next_ref s).
Definition upd_sessions (f : gmap string sessionEntry → gmap string sessionEntry) (s : Server) : Server :=
  mkServer (cfg s) (reg s) (agents s) (terms s) (files s) (managers s) (forwards s) (screens s)
    (f (sessions s)) (loginAttempts s) (tickets s) (agentH s) (termH s) (fileH s) (managerH s)
    (forwardH s) (screenH s) (recorderH s) (timers s) (open_ws s) (wire s) (next_ref s).
Definition upd_loginAttempts (f : gmap string loginAttempt → gmap string loginAttempt) (s : Server) : Server :=
  mkServer (cfg s) (reg s) (agents s) (terms s) (files s) (managers s) (forwards s) (screens s)
    (sessions s) (f (loginAttempts s)) (tickets s) (agentH s) (termH s) (fileH s) (managerH s)
    (forwardH s) (screenH s) (recorderH s) (timers s) (open_ws s) (wire s) (next_ref s).
Definition upd_tickets (f : ticketStore → ticketStore) (s : Server) : Server :=
  mkServer (cfg s) (reg s) (agents s) (terms s) (files s) (managers s) (forwards s) (screens s)
    (sessions s) (loginAttempts s) (f (tickets s)) (agentH s) (termH s) (fileH s) (managerH s)
    (forwardH s) (screenH s) (recorderH s) (timers s) (open_ws s) (wire s) (next_ref s).
Definition upd_agentH (f : gmap ref agentConn → gmap ref agentConn) (s : Server) : Server :=
  mkServer (cfg s) (reg s) (agents s) (terms s) (files s) (managers s) (forwards s) (screens s)
    (sessions s) (loginAttempts s) (tickets s) (f (agentH s)) (termH s) (fileH s) (managerH s)
    (forwardH s) (screenH s) (recorderH s) (timers s) (open_ws s) (wire s) (next_ref s).
Definition upd_termH (f : gmap ref termSession → gmap ref termSession) (s : Server) : Server :=
  mkServer (cfg s) (reg s) (agents s) (terms s) (files s) (managers s) (forwards s) (screens s)
    (sessions s) (loginAttempts s) (tickets s) (agentH s) (f (termH s)) (fileH s) (managerH s)
    (forwardH s) (screenH s) (recorderH s) (timers s) (open_ws s) (wire s) (next_ref s).
Definition upd_fileH (f : gmap ref fileSession → gmap ref fileSession) (s : Server) : Server :=
  mkServer (cfg s) (reg s) (agents s) (terms s) (files s) (managers s) (forwards s) (screens s)
    (sessions s) (loginAttempts s) (tickets s) (agentH s) (termH s) (f (fileH s)) (managerH s)
    (forwardH s) (screenH s) (recorderH s) (timers s) (open_ws s) (wire s) (next_ref s).
Definition upd_managerH (f : gmap ref managerSession → gmap ref managerSession) (s : Server) : Server :=
  mkServer (cfg s) (reg s) (agents s) (terms s) (files s) (managers s) (forwards s) (screens s)
    (sessions s) (loginAttempts s) (tickets s) (agentH s) (termH s) (fileH s) (f (managerH s))
    (forwardH s) (screenH s) (recorderH s) (timers s) (open_ws s) (wire s) (next_ref s).
Definition upd_forwardH (f : gmap ref forwardSession → gmap ref forwardSession) (s : Server) : Server :=
  mkServer (cfg s) (reg s) (agents s) (terms s) (files s) (managers s) (forwards s) (screens s)
    (sessions s) (loginAttempts s) (tickets s) (agentH s) (termH s) (fileH s) (managerH s)
    (f (forwardH s)) (screenH s) (recorderH s) (timers s) (open_ws s) (wire s) (next_ref s).
Definition upd_screenH (f : gmap ref screenSession → gmap ref screenSession) (s : Server) : Server :=
  mkServer (cfg s) (reg s) (agents s) (terms s) (files s) (managers s) (forwards s) (screens s)
    (sessions s) (loginAttempts s) (tickets s) (agentH s) (termH s) (fileH s) (managerH s)
    (forwardH s) (f (screenH s)) (recorderH s) (timers s) (open_ws s) (wire s) (next_ref s).
Definition upd_recorderH (f : gmap ref trafficRecorder → gmap ref trafficRecorder) (s : Server) : Server :=
  mkServer (cfg s) (reg s) (agents s) (terms s) (files s) (managers s) (forwards s) (screens s)
    (sessions s) (loginAttempts s) (tickets s) (agentH s) (termH s) (fileH s) (managerH s)
    (forwardH s) (screenH s) (f (recorderH s)) (timers s) (open_ws s) (wire s) (next_ref s).
Definition upd_timers (f : gmap ref fallbackTimer → gmap ref fallbackTimer) (s : Server) : Server :=
  mkServer (cfg s) (reg s) (agents s) (terms s) (files s) (managers s) (forwards s) (screens s)
    (sessions s) (loginAttempts s) (tickets s) (agentH s) (termH s) (fileH s) (managerH s)
    (forwardH s) (screenH s) (recorderH s) (f (timers s)) (open_ws s) (wire s) (next_ref s).
Definition upd_open_ws (f : gset WS → gset WS) (s : Server) : Server :=
  mkServer (cfg s) (reg s) (agents s) (terms s) (files s) (managers s) (forwards s) (screens s)
    (sessions s) (loginAttempts s) (tickets s) (agentH s) (termH s) (fileH s) (managerH s)
    (forwardH s) (screenH s) (recorderH s) (timers s) (f (open_ws s)) (wire s) (next_ref s).
Definition upd_wire (f : list (WS * frame) → list (WS * frame)) (s : Server) : Server :=
  mkServer (cfg s) (reg s) (agents s) (terms s) (files s) (managers s) (forwards s) (screens s)
    (sessions s) (loginAttempts s) (tickets s) (agentH s) (termH s) (fileH s) (managerH s)
    (forwardH s) (screenH s) (recorderH s) (timers s) (open_ws s) (f (wire s)) (next_ref s).
Definition upd_next_ref (f : ref → ref) (s : Server) : Server :=
  mkServer (cfg s) (reg s) (agents s) (terms s) (files s) (managers s) (forwards s) (screens s)
    (sessions s) (loginAttempts s) (tickets s) (agentH s) (termH s) (fileH s) (managerH s)
    (forwardH s) (screenH s) (recorderH s) (timers s) (open_ws s) (wire s) (f (next_ref s)).

(** ** Primitive operations *)

(** Run a registry method *)
Definition regM {A} (m : Registry → A * Registry) : stateM Server A :=
  λ s, let '(a, r) := m (reg s) in (a, upd_reg (λ _, r) s).

(** [_ = s.reg.RecordAudit(...)] *)
Definition audit (actor action target detail : string) (now : Time) : stateM Server unit :=
  _ ← regM (RecordAudit actor action target detail now); mret tt.

(** [ws.WriteJSON], [ws.WriteMessage]: [true] when the error is nil *)
Definition wsWrite (w : WS) (f : frame) : stateM Server bool :=
  s ← getS;
  if bool_decide (w ∈ open_ws s) then
    _ ← modifyS (upd_wire (λ l, l ++ [(w, f)])); mret true
  else mret false.

(** [ws.Close()] *)
Definition wsClose (w : WS) : stateM Server unit := modifyS (upd_open_ws (λ o, o ∖ {[w]})).

(** [&T{...}] *)
Definition fresh : stateM Server ref :=
  s ← getS; _ ← modifyS (upd_next_ref S); mret (next_ref s).

(** The methods of a recorder; a nil receiver does nothing. *)
Definition withRecorder (t : option ref)
    (m : trafficRecorder → Registry → trafficRecorder * Registry) : stateM Server unit :=
  match t with
  | None => mret tt
  | Some p =>
      s ← getS;
      match recorderH s !! p with
      | None => mret tt
      | Some rc =>
          let '(rc', r') := m rc (reg s) in
          _ ← modifyS (upd_recorderH (<[p := rc']>)); modifyS (upd_reg (λ _, r'))
      end
  end.

Definition trafficAdd (t : option ref) (toDevice fromDevice : Z) (now : Time) : stateM Server unit :=
  withRecorder t (Add toDevice fromDevice now).
Definition trafficClose (t : option ref) (state : string) (now : Time) : stateM Server unit :=
  withRecorder t (Close state now).

(** [traffic = newTrafficRecorder(s.reg, metricID)] when the row was inserted *)
Definition startTraffic (metric : res string) (now : Time) : stateM Server (option ref) :=
  match metric with
  | Err _ => mret None
  | Ok id =>
      p ← fresh; _ ← modifyS (upd_recorderH (<[p := newTrafficRecorder id now]>)); mret (Some p)
  end.

(** [getAgent] *)
Definition getAgent (id : string) (s : Server) : option ref := agents s !! id.

(** [agentConn.write] through a pointer *)
Definition agentWrite (p : ref) (m : Message) : stateM Server bool :=
  s ← getS;
  match agentH s !! p with
  | Some a => wsWrite (ac_ws a) (Text m)
  | None => mret false
  end.

(** ** Construction ([NewServer]) *)

Definition empty_server (c : Config) (r : Registry) : Server :=
  mkServer c r ∅ ∅ ∅ ∅ ∅ ∅ ∅ ∅ newTicketStore ∅ ∅ ∅ ∅ ∅ ∅ ∅ ∅ ∅ [] O.

(** [NewServer] on the database found in [DataDir]; [disk] is [None] when it
    cannot be opened, [salt] what bcrypt draws. *)
Definition NewServer `{Crypto} (c : Config) (disk : option Registry) (salt : string) (now : Time)
    : res Server :=
  if String.eqb (TrimSpace (AdminToken c)) "" then Err "admin token must not be empty"
  else match disk with
       | None => Err "open database"
       | Some tables =>
           let r := NewRegistry tables now in
           if negb (String.eqb (AdminUser c) "") && negb (String.eqb (AdminPassword c) "") then
             match EnsureUser (AdminUser c) (AdminPassword c) "admin" salt now r with
             | (Ok _, r') => Ok (empty_server c r')
             | (Err e, _) => Err e
             end
           else Ok (empty_server c r)
       end.

(** ** Running the primitives *)

Lemma audit_run actor action target detail now s :
  audit actor action target detail now s =
    (tt, upd_reg (λ r, (RecordAudit actor action target detail now r).2) s).
Proof.
  unfold audit, regM, upd_reg. rewrite bind_run. simpl. by destruct (RecordAudit _ _ _ _ _ _).
Qed.

Lemma wsWrite_run w f s :
  wsWrite w f s =
    if bool_decide (w ∈ open_ws s) then (true, upd_wire (λ l, l ++ [(w, f)]) s) else (false, s).
Proof. unfold wsWrite. rewrite bind_run. simpl. by case_bool_decide. Qed.

Lemma agentWrite_run p m s :
  agentWrite p m s =
    match agentH s !! p with
    | Some a =>
        if bool_decide (ac_ws a ∈ open_ws s)
        then (true, upd_wire (λ l, l ++ [(ac_ws a, Text m)]) s) else (false, s)
    | None => (false, s)
    end.
Proof.
  unfold agentWrite. rewrite bind_run. simpl. destruct (agentH s !! p); [|done]. apply wsWrite_run.
Qed.

(** Closing the recorder of an unfinished session completes its row. *)
Lemma trafficClose_row t state now s rc row :
  recorderH s !! t = Some rc → tr_closed rc = false → db_up (reg s) = true →
  connection_sessions (reg s) !! tr_id rc = Some row →
  connection_sessions (reg (trafficClose (Some t) state now s).2) !! tr_id rc =
    Some (end_row (end_state state) now (add_bytes (tr_toDevice rc) (tr_fromDevice rc) row)).
Proof.
  intros Hrc Hcl Hup Hrow. unfold trafficClose, withRecorder. rewrite bind_run. simpl. rewrite Hrc.
  unfold Traffic.Close, flushLocked. rewrite Hcl. simpl.
  destruct (_ && _) eqn:E; simpl; unfold EndConnection, AddConnectionTraffic, sql_exec;
    rewrite ?Hup; simpl; rewrite ?Hup; simpl; rewrite lookup_alter_eq, ?lookup_alter_eq, Hrow; simpl.
  - bools. assert (tr_toDevice rc = 0 ∧ tr_fromDevice rc = 0) as [-> ->] by lia.
    unfold add_bytes. rewrite !Z.add_0_r. by destruct row.
  - done.
Qed.

(** ** Frames

    The server's own primitives, for the frame rules of [keeps] *)

Section keeps.
Context (R : relation Server) `{!PreOrder R}.

Lemma keeps_regM {A} (m : Registry → A * Registry) :
  (∀ s, R s (upd_reg (λ _, (m (reg s)).2) s)) → keeps R (regM m).
Proof. intros Hm s. unfold regM. specialize (Hm s). by destruct (m (reg s)). Qed.

Lemma keeps_wsWrite w f : (∀ s, R s (upd_wire (λ l, l ++ [(w, f)]) s)) → keeps R (wsWrite w f).
Proof.
  intros Hw. apply (keeps_bind R); [by apply keeps_get|]. intros s0.
  case_bool_decide; [|by apply keeps_ret].
  apply (keeps_bind R); [by apply keeps_modify|]. intros. by apply keeps_ret.
Qed.

Lemma keeps_recorder t m :
  (∀ s f, R s (upd_recorderH f s)) → (∀ s f, R s (upd_reg f s)) → keeps R (withRecorder t m).
Proof.
  intros H1 H2. destruct t as [p|]; [|by apply keeps_ret].
  apply (keeps_bind R); [by apply keeps_get|]. intros s0.
  destruct (recorderH s0 !! p); [|by apply keeps_ret].
  destruct (m _ _). apply (keeps_bind R); intros; apply keeps_modify; auto.
Qed.
End keeps.

(** An entry of a table is left alone or removed. *)
Definition shrinks {V} (f : Server → gmap string V) (k : string) (s s' : Server) : Prop :=
  f s' !! k = f s !! k ∨ f s' !! k = None.
#[export] Instance shrinks_preorder {V} (f : Server → gmap string V) k : PreOrder (shrinks f k).
Proof.
  split; [by left|]. unfold shrinks. intros x y z [H1|H1] [H2|H2]; rewrite ?H2; auto.
Qed.

Lemma shrinks_delete {V} (f : Server → gmap string V) k k' (s s' : Server) :
  f s' = delete k' (f s) → shrinks f k s s'.
Proof. unfold shrinks. intros ->. rewrite lookup_delete. case_decide; auto. Qed.

Lemma shrinks_same {V} (f : Server → gmap string V) k (s s' : Server) :
  f s' = f s → shrinks f k s s'.
Proof. unfold shrinks. intros ->. auto. Qed.

(** Frames are appended, each satisfying [P]. *)
Definition emits (P : WS * frame → Prop) (s s' : Server) : Prop :=
  ∃ out, wire s' = wire s ++ out ∧ Forall P out.
#[export] Instance emits_preorder P : PreOrder (emits P).
Proof.
  split.
  - intros s. exists []. by rewrite app_nil_r.
  - intros x y z (o1 & E1 & H1) (o2 & E2 & H2). exists (o1 ++ o2).
    rewrite E2, E1, app_assoc. split; [done|]. by apply Forall_app.
Qed.

Lemma emits_same P s s' : wire s' = wire s → emits P s s'.
Proof. intros E. exists []. by rewrite E, app_nil_r. Qed.

Lemma emits_one (P : WS * frame → Prop) s s' e : wire s' = wire s ++ [e] → P e → emits P s s'.
Proof. intros E HP. exists [e]. split; [done|]. by constructor. Qed.

(** Walk over the text of a handler. *)
Ltac frame_with tac :=
  repeat first
    [ match goal with |- PreOrder _ => apply _ end
    | progress intros
    | solve [tac]
    | apply keeps_ret
    | apply keeps_get
    | apply keeps_bind
    | apply keeps_modify; intros; tac
    | apply keeps_regM; intros; tac
    | apply keeps_wsWrite; intros; first [apply _ | tac]
    | apply keeps_recorder; intros; first [apply _ | tac]
    | progress unfold whenM
    | progress case_match ].
Ltac frame := frame_with ltac:(first [reflexivity | done]).
