(* ===== verification/Auth.v ===== *)
(** * Authentication and authorisation

    [internal/server/auth.go] and the login, session, lockout and access-control
    parts of [internal/server/server.go]: who a request speaks for, which devices
    an actor may reach, console logins with their lockout, WebSocket tickets and
    the janitor. *)
From Stdlib Require Import ZArith Lia String.
From S2P Require Import Prelude GoStrings Protocol Registry Tickets Traffic Http Server.
Open Scope string_scope.
Open Scope list_scope.
Open Scope Z_scope.

Section auth.
Context `{Crypto} `{UrlParser}.

(** ** Definitions *)

(** [crypto/subtle.ConstantTimeCompare(x, y) == 1] holds exactly for equal
    contents. *)
Definition validAdmin (token : string) (s : Server) : bool :=
  if String.eqb token "" || String.eqb (AdminToken (cfg s)) "" then false
  else String.eqb token (AdminToken (cfg s)).

Definition authorizeAgent (deviceID token : string) (now : Time) (s : Server) : bool :=
  ValidateDeviceKey deviceID token now (reg s).

Definition dropSession (token : string) : stateM Server unit :=
  modifyS (upd_sessions (delete token)).

(** An account with an expiry date in the past *)
Definition accountExpired (u : User) (now : Time) : bool :=
  negb (IsZero (user_ExpiresAt u)) && After now (user_ExpiresAt u).

Definition validSession (token : string) (now : Time) : stateM Server (option string) :=
  s ← getS;
  match sessions s !! token with
  | None => mret None
  | Some entry =>
      if After now (se_expiresAt entry) then _ ← dropSession token; mret None
      else match GetUser (se_username entry) (reg s) with
           | Err _ => _ ← dropSession token; mret None
           | Ok user =>
               if accountExpired user now then _ ← dropSession token; mret None
               else mret (Some (se_username entry))
           end
  end.

Definition authenticate (r : Request) (now : Time) : stateM Server (option string) :=
  if negb (checkCSRF r) then mret None
  else
    let token := requestToken r in
    s ← getS;
    if validAdmin token s then mret (Some "admin-token") else validSession token now.

Definition admin_user : User := mkUser 0 "" "admin" [] zeroTime zeroTime.

Definition actorInfo (actor : string) (now : Time) (s : Server) : option User :=
  if String.eqb actor "admin-token" then Some admin_user
  else match GetUser actor (reg s) with
       | Err _ => None
       | Ok user => if accountExpired user now then None else Some user
       end.

Definition isAdmin (actor : string) (now : Time) (s : Server) : bool :=
  match actorInfo actor now s with
  | Some user => String.eqb (user_Role user) "admin"
  | None => false
  end.

Definition canAccessDevice (actor deviceID : string) (now : Time) (s : Server) : bool :=
  match actorInfo actor now s with
  | None => false
  | Some user =>
      if String.eqb (user_Role user) "admin" then true
      else existsb (λ id, String.eqb id deviceID) (user_DeviceIDs user)
  end.

(** *** Login lockout *)

Definition allowLoginAttempt (key : string) (now : Time) (s : Server) : bool :=
  match loginAttempts s !! key with
  | Some attempt =>
      if Before now (la_until attempt) && (maxLoginAttempts <=? la_count attempt) then false
      else true
  | None => true
  end.

Definition failed_attempt (now : Time) (old : option loginAttempt) : loginAttempt :=
  let attempt := default (mkLoginAttempt 0 zeroTime) old in
  let count := wrap64 (la_count attempt + 1) in
  if maxLoginAttempts <=? count then mkLoginAttempt count (now + loginLockoutTime)
  else mkLoginAttempt count (la_until attempt).

Definition recordLoginFailure (key : string) (now : Time) : stateM Server unit :=
  modifyS (λ s, upd_loginAttempts (<[key := failed_attempt now (loginAttempts s !! key)]>) s).

Definition clearLoginAttempts (key : string) : stateM Server unit :=
  modifyS (upd_loginAttempts (delete key)).

(** [newSessionToken]; [None] when the random source fails *)
Definition newSessionToken (b : option bytes) : option string := hex_encode <$> b.

Definition login_key (username : string) (r : Request) : string := username +:+ "|" +:+ clientIP r.

(** [handleLogin]; [body] is the decoded request, [None] when it is not JSON. *)
Definition handleLogin (r : Request) (body : option (string * string)) (rnd : option bytes)
    (now : Time) : stateM Server Response :=
  if negb (String.eqb (r_Method r) "POST") then mret (writeHeader StatusMethodNotAllowed)
  else match body with
  | None => mret (writeError StatusBadRequest "invalid request")
  | Some (username, password) =>
      if negb (checkCSRF r) then
        mret (writeError StatusForbidden "cross-origin request rejected")
      else
        let key := login_key username r in
        s ← getS;
        if negb (allowLoginAttempt key now s) then
          _ ← audit username "login.locked" username "too many failures" now;
          mret (writeError StatusTooManyRequests "too many login attempts, try again later")
        else match ValidateUser username password now (reg s) with
        | Err _ =>
            _ ← recordLoginFailure key now;
            _ ← audit username "login.failed" username "bad credentials" now;
            mret (writeError StatusUnauthorized "invalid credentials")
        | Ok user =>
            _ ← clearLoginAttempts key;
            match newSessionToken rnd with
            | None => mret (writeError StatusInternalServerError "session creation failed")
            | Some token =>
                _ ← modifyS (upd_sessions
                      (<[token := mkSessionEntry (user_Username user) (now + sessionLifetime)]>));
                _ ← audit (user_Username user) "login.ok" (user_Username user) "" now;
                mret (setSessionCookie token (writeJSON StatusOK (JObj
                  [("token", JStr token); ("username", JStr (user_Username user));
                   ("role", JStr (user_Role user))])))
            end
        end
  end.

Definition handleLogout (r : Request) (now : Time) : stateM Server Response :=
  if negb (String.eqb (r_Method r) "POST") then
    mret (writeError StatusMethodNotAllowed "logout requires POST")
  else if negb (checkCSRF r) then
    mret (writeError StatusForbidden "cross-origin request rejected")
  else
    let token := requestToken r in
    s ← getS;
    let username := match sessions s !! token with Some e => se_username e | None => "" end in
    _ ← whenM (bool_decide (is_Some (sessions s !! token))) (dropSession token);
    _ ← whenM (negb (String.eqb username "")) (audit username "logout" username "" now);
    mret (clearSessionCookie (writeHeader StatusNoContent)).

(** *** The janitor *)

Definition stale_attempt (now : Time) (a : loginAttempt) : bool :=
  (maxLoginAttempts <=? la_count a) && After now (la_until a).

Definition sweepAuthState (now : Time) : stateM Server unit :=
  _ ← modifyS (upd_sessions (filter (λ kv, After now (se_expiresAt kv.2) = false)));
  _ ← modifyS (upd_loginAttempts (filter (λ kv, stale_attempt now kv.2 = false)));
  modifyS (upd_tickets (sweep now)).

(** *** WebSocket upgrades *)

(** Run a method of the ticket store *)
Definition ticketM {A} (m : ticketStore → A * ticketStore) : stateM Server A :=
  λ s, let '(a, t) := m (tickets s) in (a, upd_tickets (λ _, t) s).

(** [authorizeWS]: the actor, or the error response.  (The subprotocol echoed on
    success is [wsProtocolPrefix] and the ticket.) *)
Definition authorizeWS (r : Request) (kind : string) (now : Time)
    : stateM Server (Response + string) :=
  let deviceID := QueryGet r "device" in
  if String.eqb deviceID "" then mret (inl (writeError StatusBadRequest "missing device"))
  else
    let ticket := wsTicketFromRequest r in
    if negb (String.eqb ticket "") then
      entry ← ticketM (consume ticket deviceID kind now);
      match entry with
      | None => mret (inl (writeError StatusUnauthorized "invalid or expired ticket"))
      | Some entry =>
          s ← getS;
          if negb (canAccessDevice (tk_actor entry) deviceID now s) then
            mret (inl (writeError StatusForbidden "device not granted"))
          else mret (inr (tk_actor entry))
      end
    else
      actor ← authenticate r now;
      match actor with
      | None => mret (inl (writeError StatusUnauthorized "unauthorized"))
      | Some actor =>
          s ← getS;
          if negb (canAccessDevice actor deviceID now s) then
            mret (inl (writeError StatusForbidden "device not granted"))
          else mret (inr actor)
      end.

Definition ticket_kind (kind : string) : bool :=
  String.eqb kind "terminal" || String.eqb kind "desktop" || String.eqb kind "files".

Definition handleWSTicket (r : Request) (rnd : option bytes) (now : Time)
    : stateM Server Response :=
  if negb (String.eqb (r_Method r) "POST") then
    mret (writeError StatusMethodNotAllowed "method not allowed")
  else
    actor ← authenticate r now;
    match actor with
    | None => mret (writeError StatusUnauthorized "unauthorized")
    | Some actor =>
        let deviceID := QueryGet r "device" in
        if String.eqb deviceID "" then mret (writeError StatusBadRequest "missing device")
        else
          let kind := QueryGet r "kind" in
          if negb (ticket_kind kind) then
            mret (writeError StatusBadRequest "kind must be terminal, desktop or files")
          else
            s ← getS;
            if negb (canAccessDevice actor deviceID now s) then
              mret (writeError StatusForbidden "device not granted")
            else
              ticket ← ticketM (issue rnd actor deviceID kind now);
              match ticket with
              | Err _ => mret (writeError StatusInternalServerError "could not issue ticket")
              | Ok ticket =>
                  mret (writeJSON StatusOK (JObj
                    [("ticket", JStr ticket); ("protocol", JStr (wsProtocolPrefix +:+ ticket));
                     ("expiresIn", JNum (webSocketTicketTTL / Second))]))
              end
    end.

End auth.
