(* ===== verification/AuthProps.v ===== *)
(** * Properties of authentication and authorisation

    Who a request authenticates as, what a credential still opens after it is
    revoked, and how fast passwords can be guessed. *)
From Stdlib Require Import ZArith Lia Ascii String.
From S2P Require Import Prelude GoStrings Protocol Registry RegistryProps Tickets Traffic Http.
From S2P Require Import Server Auth.
Open Scope string_scope.
Open Scope list_scope.
Open Scope Z_scope.

(** ** Specifications *)

(** The account exists and has not expired. *)
Definition live_account (u : string) (row : user_row) (now : Time) (r : Registry) : Prop :=
  db_up r = true ∧ users r !! u = Some row ∧ accountExpired (user_of u row) now = false.

(** The session [token] speaks for the account [u] at [now]. *)
Definition session_for (token u : string) (now : Time) (s : Server) : Prop :=
  ∃ e row, sessions s !! token = Some e ∧ se_username e = u ∧ now ≤ se_expiresAt e ∧
    live_account u row now (reg s).

(** The operator's token *)
Definition admin_credential (token : string) (s : Server) : Prop :=
  token = AdminToken (cfg s) ∧ token ≠ "".

Section auth_lemmas.
Context `{Crypto} `{UrlParser}.

Lemma validAdmin_iff token s : validAdmin token s = true ↔ admin_credential token s.
Proof.
  unfold validAdmin, admin_credential. destruct (String.eqb_spec token ""); simpl; [naive_solver|].
  destruct (String.eqb_spec (AdminToken (cfg s)) ""); simpl; [naive_solver congruence|].
  destruct (String.eqb_spec token (AdminToken (cfg s))); naive_solver.
Qed.

Lemma GetUser_Ok u r user :
  GetUser u r = Ok user ↔ db_up r = true ∧ ∃ row, users r !! u = Some row ∧ user = user_of u row.
Proof.
  unfold GetUser, getUserLocked. destruct (db_up r); [|naive_solver].
  destruct (users r !! u); naive_solver.
Qed.

(** The result of a session check, and its only effect: a dead session is dropped. *)
Lemma validSession_run token now s :
  validSession token now s =
    match sessions s !! token with
    | None => (None, s)
    | Some e =>
        if After now (se_expiresAt e) then (None, upd_sessions (delete token) s)
        else match GetUser (se_username e) (reg s) with
             | Ok user =>
                 if accountExpired user now then (None, upd_sessions (delete token) s)
                 else (Some (se_username e), s)
             | Err _ => (None, upd_sessions (delete token) s)
             end
    end.
Proof. unfold validSession. rewrite bind_run. simpl. by repeat case_match. Qed.

Lemma validSession_iff token now s u :
  (validSession token now s).1 = Some u ↔ session_for token u now s.
Proof.
  rewrite validSession_run. unfold session_for, live_account.
  destruct (sessions s !! token) as [e|] eqn:He; simpl; [|naive_solver].
  destruct (After now (se_expiresAt e)) eqn:Ha; simpl.
  { split; [done|]. intros (e' & row & [= <-] & ? & Hle & _). clock. }
  destruct (GetUser (se_username e) (reg s)) as [user|err] eqn:Hu.
  - apply GetUser_Ok in Hu as (Hup & row & Hrow & ->).
    destruct (accountExpired _ now) eqn:Hx; simpl; split; try done.
    + intros (e' & row' & [= <-] & <- & _ & _ & ? & ?). simplify_eq. congruence.
    + intros [= <-]. exists e, row. split_and!; try done. clock.
    + intros (e' & row' & [= <-] & <- & _). done.
  - split; [done|]. intros (e' & row & [= <-] & <- & _ & Hup & Hrow & _).
    assert (GetUser (se_username e) (reg s) = Ok (user_of (se_username e) row)); [|congruence].
    apply GetUser_Ok. eauto.
Qed.

Lemma validSession_effect token now s :
  (validSession token now s).2 = s ∨
  ((validSession token now s).1 = None ∧
   (validSession token now s).2 = upd_sessions (delete token) s).
Proof. rewrite validSession_run. repeat case_match; simpl; auto. Qed.

Lemma authenticate_run r now s :
  authenticate r now s =
    if checkCSRF r then
      if validAdmin (requestToken r) s then (Some "admin-token", s)
      else validSession (requestToken r) now s
    else (None, s).
Proof.
  unfold authenticate. destruct (checkCSRF r); simpl; [|done].
  rewrite bind_run. simpl. by destruct (validAdmin _ s).
Qed.

Lemma authenticate_keeps r now s :
  reg (authenticate r now s).2 = reg s ∧ cfg (authenticate r now s).2 = cfg s ∧
  tickets (authenticate r now s).2 = tickets s ∧
  loginAttempts (authenticate r now s).2 = loginAttempts s ∧
  (∀ k, sessions (authenticate r now s).2 !! k = sessions s !! k ∨
        sessions (authenticate r now s).2 !! k = None).
Proof.
  rewrite authenticate_run. destruct (checkCSRF r); [|simpl; auto 10].
  destruct (validAdmin _ s); [simpl; auto 10|].
  destruct (validSession_effect (requestToken r) now s) as [->|[_ ->]]; [auto 10|].
  simpl. split_and!; try done. intros k. rewrite lookup_delete. case_decide; auto.
Qed.

Lemma canAccessDevice_iff actor d now s :
  canAccessDevice actor d now s = true ↔
  actor = "admin-token" ∨
  ∃ row, live_account actor row now (reg s) ∧ (u_role row = "admin" ∨ d ∈ u_device_ids row).
Proof.
  unfold canAccessDevice, actorInfo, live_account.
  destruct (String.eqb_spec actor "admin-token") as [->|Hne]; simpl; [naive_solver|].
  destruct (GetUser actor (reg s)) as [user|e] eqn:Hu.
  - apply GetUser_Ok in Hu as (Hup & row & Hrow & ->). destruct (accountExpired _ now) eqn:Hx.
    { split; [done|]. naive_solver congruence. }
    simpl. destruct (String.eqb_spec (u_role row) "admin") as [Hr|Hr].
    { split; [|done]. intros _. right. exists row. auto. }
    rewrite existsb_exists. split.
    + intros (x & Hx1 & ->%String.eqb_eq). right. exists row. split; [done|]. right.
      by apply list_elem_of_In.
    + intros [?|(row' & (_ & ? & _) & Hd)]; [done|]. simplify_eq.
      destruct Hd as [?|Hd]; [done|]. exists d. rewrite String.eqb_refl.
      by apply list_elem_of_In in Hd.
  - split; [done|]. intros [?|(row & (Hup & Hrow & _) & _)]; [done|].
    assert (GetUser actor (reg s) = Ok (user_of actor row)); [|congruence]. apply GetUser_Ok. eauto.
Qed.

End auth_lemmas.

Section upgrade_lemmas.
Context `{Crypto} `{UrlParser}.

(** The run of an upgrade that presents a ticket *)
Lemma authorizeWS_ticket r kind now s :
  QueryGet r "device" ≠ "" → wsTicketFromRequest r ≠ "" →
  authorizeWS r kind now s =
    (match (consume (wsTicketFromRequest r) (QueryGet r "device") kind now (tickets s)).1 with
     | None => inl (writeError StatusUnauthorized "invalid or expired ticket")
     | Some e =>
         if canAccessDevice (tk_actor e) (QueryGet r "device") now s then inr (tk_actor e)
         else inl (writeError StatusForbidden "device not granted")
     end,
     upd_tickets (delete (wsTicketFromRequest r)) s).
Proof.
  intros Hd Ht. unfold authorizeWS. apply String.eqb_neq in Hd, Ht. rewrite Hd, Ht. simpl.
  rewrite bind_run. unfold ticketM.
  pose proof (consume_store (wsTicketFromRequest r) (QueryGet r "device") kind now (tickets s)) as Hs.
  destruct (consume _ _ _ _ _) as [[e|] t]; simpl in *; subst t; [|done].
  rewrite bind_run. simpl.
  change (canAccessDevice ?a ?d now (upd_tickets ?f s)) with (canAccessDevice a d now s).
  by destruct (canAccessDevice _ _ _ _).
Qed.
End upgrade_lemmas.

(** ** Histories of the authentication state *)

(** Everything that touches sessions, login attempts and tickets; [AReg] is any
    change of the registry by another handler. *)
Inductive auth_op :=
| ALogin (r : Request) (body : option (string * string)) (rnd : option bytes) (now : Time)
| ALogout (r : Request) (now : Time)
| ATicket (r : Request) (rnd : option bytes) (now : Time)
| AUpgrade (r : Request) (kind : string) (now : Time)
| ARequest (r : Request) (now : Time)
| ASweep (now : Time)
| AReg (r' : Registry).

(** The random reads of a history: [rand.Read] fills the 24 bytes it is given. *)
Definition rnd_ok (op : auth_op) : Prop :=
  match op with
  | ALogin _ _ (Some b) _ => length b = 24%nat
  | _ => True
  end.

Section auth_histories.
Context `{Crypto} `{UrlParser}.

Definition run_auth (op : auth_op) (s : Server) : Server :=
  match op with
  | ALogin r body rnd now => exec (handleLogin r body rnd now) s
  | ALogout r now => exec (handleLogout r now) s
  | ATicket r rnd now => exec (handleWSTicket r rnd now) s
  | AUpgrade r kind now => exec (authorizeWS r kind now) s
  | ARequest r now => exec (authenticate r now) s
  | ASweep now => exec (sweepAuthState now) s
  | AReg r' => upd_reg (λ _, r') s
  end.

(** No session is filed under the empty token, and the configuration is fixed. *)
Definition auth_wf (c : Config) (s : Server) : Prop :=
  cfg s = c ∧ sessions s !! "" = None.

(** The run of a login whose preliminary checks pass *)
Lemma handleLogin_run r u p rnd now s :
  r_Method r = "POST" → checkCSRF r = true →
  handleLogin r (Some (u, p)) rnd now s =
    if allowLoginAttempt (login_key u r) now s then
      match ValidateUser u p now (reg s) with
      | Err _ =>
          (writeError StatusUnauthorized "invalid credentials",
           upd_reg (λ g, (RecordAudit u "login.failed" u "bad credentials" now g).2)
             (upd_loginAttempts (<[login_key u r :=
                failed_attempt now (loginAttempts s !! login_key u r)]>) s))
      | Ok user =>
          let s1 := upd_loginAttempts (delete (login_key u r)) s in
          match newSessionToken rnd with
          | None => (writeError StatusInternalServerError "session creation failed", s1)
          | Some token =>
              (setSessionCookie token (writeJSON StatusOK (JObj
                  [("token", JStr token); ("username", JStr (user_Username user));
                   ("role", JStr (user_Role user))])),
               upd_reg (λ g, (RecordAudit (user_Username user) "login.ok" (user_Username user) "" now g).2)
                 (upd_sessions (<[token := mkSessionEntry (user_Username user) (now + sessionLifetime)]>) s1))
          end
      end
    else
      (writeError StatusTooManyRequests "too many login attempts, try again later",
       upd_reg (λ g, (RecordAudit u "login.locked" u "too many failures" now g).2) s).
Proof.
  intros Hm Hc. unfold handleLogin. rewrite Hm, Hc. simpl. rewrite bind_run. simpl.
  destruct (allowLoginAttempt _ now s); simpl.
  - destruct (ValidateUser u p now (reg s)) as [user|e]; simpl.
    + rewrite bind_run. destruct (newSessionToken rnd) as [token|]; simpl; [|done].
      rewrite bind_run. simpl. rewrite bind_run, audit_run. done.
    + rewrite bind_run. simpl. rewrite bind_run, audit_run. done.
  - rewrite bind_run, audit_run. done.
Qed.

Lemma handleLogin_refused r body rnd now s :
  r_Method r ≠ "POST" ∨ checkCSRF r = false ∨ body = None →
  (handleLogin r body rnd now s).2 = s.
Proof.
  unfold handleLogin. intros Hr. destruct (String.eqb_spec (r_Method r) "POST"); [|done].
  simpl. destruct body as [[u p]|]; [|done].
  destruct (checkCSRF r); [|done]. naive_solver.
Qed.

Lemma keeps_validSession R `{!PreOrder R} token now :
  (∀ s k, R s (upd_sessions (delete k) s)) → keeps R (validSession token now).
Proof. intros HR. unfold validSession, dropSession. frame_with ltac:(apply HR). Qed.

Lemma keeps_authenticate R `{!PreOrder R} r now :
  (∀ s k, R s (upd_sessions (delete k) s)) → keeps R (authenticate r now).
Proof. intros HR. unfold authenticate. frame_with ltac:(by apply keeps_validSession). Qed.

Lemma keeps_audit R `{!PreOrder R} actor action target detail now :
  (∀ s f, R s (upd_reg f s)) → keeps R (audit actor action target detail now).
Proof. intros HR. unfold audit. frame_with ltac:(apply HR). Qed.

(** What a request's credential check, a logout, a ticket request and an upgrade
    may change: sessions are dropped, the audit log and the tickets change. *)
Lemma keeps_auth_handlers R `{!PreOrder R} :
  (∀ s k, R s (upd_sessions (delete k) s)) → (∀ s f, R s (upd_reg f s)) →
  (∀ s f, R s (upd_tickets f s)) →
  (∀ r now, keeps R (handleLogout r now)) ∧ (∀ r rnd now, keeps R (handleWSTicket r rnd now)) ∧
  (∀ r kind now, keeps R (authorizeWS r kind now)).
Proof.
  intros H1 H2 H3.
  assert (∀ A (m : ticketStore → A * ticketStore), keeps R (ticketM m)) as Ht.
  { intros A m s. unfold ticketM. destruct (m (tickets s)). apply H3. }
  split_and!; intros; unfold handleLogout, handleWSTicket, authorizeWS, dropSession;
    frame_with ltac:(first [apply H1 | by apply keeps_audit | by apply keeps_authenticate | apply Ht]).
Qed.

Lemma run_auth_cfg op s : cfg (run_auth op s) = cfg s.
Proof.
  pose proof (keeps_auth_handlers (λ s s', cfg s' = cfg s)) as (H1 & H2 & H3); [done..|].
  destruct op as [r body rnd now|r now|r rnd now|r kind now|r now|now|r']; simpl; unfold exec; try done.
  - assert (keeps (λ s s', cfg s' = cfg s) (handleLogin r body rnd now)) as Hk; [|apply Hk].
    unfold handleLogin, recordLoginFailure, clearLoginAttempts.
    frame_with ltac:(first [reflexivity | by apply keeps_audit; try apply _]).
  - exact (H1 _ _ s).
  - exact (H2 _ _ _ s).
  - exact (H3 _ _ _ s).
  - by apply (keeps_authenticate (λ s s', cfg s' = cfg s)).
Qed.

Lemma run_auth_sessions op s k :
  match op with ALogin _ _ _ _ | ASweep _ | AReg _ => False | _ => True end →
  shrinks sessions k s (run_auth op s).
Proof.
  pose proof (keeps_auth_handlers (shrinks sessions k)) as (H1 & H2 & H3);
    [intros; by eapply shrinks_delete|intros; by apply shrinks_same..|].
  destruct op as [r body rnd now|r now|r rnd now|r kind now|r now|now|r']; try done; intros _.
  - apply H1.
  - apply H2.
  - apply H3.
  - apply (keeps_authenticate (shrinks sessions k)). intros. by eapply shrinks_delete.
Qed.

Lemma hex_encode_nonempty b : length b = 24%nat → hex_encode b ≠ "".
Proof. by destruct b. Qed.

Lemma run_auth_wf c op s : rnd_ok op → auth_wf c s → auth_wf c (run_auth op s).
Proof.
  intros Hr [Hc Hs]. split; [by rewrite run_auth_cfg|].
  destruct op as [r body rnd now|r now|r rnd now|r kind now|r now|now|r']; simpl.
  - unfold exec. destruct (decide (r_Method r = "POST")) as [Hm|];
      [|rewrite handleLogin_refused; auto].
    destruct (checkCSRF r) eqn:Hcs; [|rewrite handleLogin_refused; auto].
    destruct body as [[u p]|]; [|rewrite handleLogin_refused; auto].
    rewrite handleLogin_run by done. destruct (allowLoginAttempt _ _ _); simpl; [|done].
    destruct (ValidateUser _ _ _ _); simpl; [|done].
    destruct rnd as [b|]; simpl; [|done]. rewrite lookup_insert_ne; [done|].
    by apply hex_encode_nonempty.
  - destruct (run_auth_sessions (ALogout r now) s "" I) as [E|E]; simpl in E; congruence.
  - destruct (run_auth_sessions (ATicket r rnd now) s "" I) as [E|E]; simpl in E; congruence.
  - destruct (run_auth_sessions (AUpgrade r kind now) s "" I) as [E|E]; simpl in E; congruence.
  - destruct (run_auth_sessions (ARequest r now) s "" I) as [E|E]; simpl in E; congruence.
  - unfold exec, sweepAuthState. cbn.
    apply map_lookup_filter_None. auto.
  - done.
Qed.
End auth_histories.

(** ** Login histories *)

(** A login request: the HTTP request, user name and password, random bytes, time *)
Record login := mkLogin {
  lg_req : Request; lg_user : string; lg_pass : string; lg_rnd : option bytes; lg_now : Time
}.

(** The keys of the requests whose password was compared and found wrong (401),
    newest first, and the final state *)
Section logins.
Context `{Crypto} `{UrlParser}.

Definition do_login (l : login) : stateM Server Response :=
  handleLogin (lg_req l) (Some (lg_user l, lg_pass l)) (lg_rnd l) (lg_now l).

Definition key_of (l : login) : string := login_key (lg_user l) (lg_req l).

Fixpoint run_logins (key : string) (ls : list login) (checked : list Time) (s : Server)
    : list Time * Server :=
  match ls with
  | [] => (checked, s)
  | l :: ls =>
      let '(resp, s1) := do_login l s in
      let wrong := String.eqb (key_of l) key && (rs_Status resp =? StatusUnauthorized) in
      run_logins key ls (if wrong then lg_now l :: checked else checked) s1
  end.

(** No attempt for [key] succeeds along the run. *)
Fixpoint no_success (key : string) (ls : list login) (s : Server) : Prop :=
  match ls with
  | [] => True
  | l :: ls =>
      let '(resp, s1) := do_login l s in
      (key_of l = key → is_ok (ValidateUser (lg_user l) (lg_pass l) (lg_now l) (reg s)) = false) ∧
      no_success key ls s1
  end.

(** From the fifth wrong password on, the next comparison is a minute later. *)
Fixpoint rate_limited (checked : list Time) : Prop :=
  match checked with
  | t :: ((u :: _) as rest) =>
      (maxLoginAttempts ≤ Z.of_nat (length rest) → u + loginLockoutTime ≤ t) ∧ rate_limited rest
  | _ => True
  end.

(** The entry of the lockout table counts the wrong passwords. *)
Definition lockout_state (key : string) (checked : list Time) (s : Server) : Prop :=
  match checked with
  | [] => loginAttempts s !! key = None
  | t :: _ =>
      ∃ a, loginAttempts s !! key = Some a ∧ la_count a = Z.of_nat (length checked) ∧
        (maxLoginAttempts ≤ la_count a → la_until a = t + loginLockoutTime)
  end.

Lemma lockout_step key l checked s :
  Z.of_nat (length checked) < maxInt64 →
  lockout_state key checked s → rate_limited checked →
  (key_of l = key → is_ok (ValidateUser (lg_user l) (lg_pass l) (lg_now l) (reg s)) = false) →
  r_Method (lg_req l) = "POST" → checkCSRF (lg_req l) = true →
  let '(resp, s1) := do_login l s in
  let wrong := String.eqb (key_of l) key && (rs_Status resp =? StatusUnauthorized) in
  let checked1 := if wrong then lg_now l :: checked else checked in
  lockout_state key checked1 s1 ∧ rate_limited checked1.
Proof.
  intros Hlen Hst Hrl Hno Hm Hc. unfold do_login. rewrite handleLogin_run by done.
  fold (key_of l). destruct (allowLoginAttempt (key_of l) (lg_now l) s) eqn:Hal; simpl.
  2: { rewrite andb_false_r. done. }
  destruct (String.eqb_spec (key_of l) key) as [Hk|Hk]; simpl.
  - rewrite Hk in *. specialize (Hno eq_refl).
    destruct (ValidateUser _ _ _ _) as [u|e]; [done|]. simpl. clear Hno.
    unfold allowLoginAttempt in Hal. destruct checked as [|t checked]; simpl in Hst.
    + rewrite Hst. split; [|done]. eexists. rewrite lookup_insert_eq. split; [done|]. done.
    + destruct Hst as (a & Ha & Hcnt & Hunt). rewrite Ha in *. split.
      * eexists. rewrite lookup_insert_eq. split; [done|]. unfold failed_attempt. simpl in *.
        rewrite wrap64_id by (unfold minInt64, maxInt64 in *; lia).
        destruct (Z.leb_spec maxLoginAttempts (la_count a + 1)); simpl; split; lia.
      * split; [|done]. intros Hge. specialize (Hunt ltac:(simpl in *; lia)).
        destruct (Before _ _ && _) eqn:E; [done|]. apply andb_false_iff in E as [E|E];
          simpl in *; clock.
  - assert (∀ s1, loginAttempts s1 !! key = loginAttempts s !! key →
      lockout_state key checked s1 ∧ rate_limited checked) as Hsame.
    { intros s1 E. split; [|done]. unfold lockout_state in *. destruct checked; by rewrite E. }
    destruct (ValidateUser _ _ _ _) as [u|e]; simpl.
    + destruct (newSessionToken _); apply Hsame; simpl; by apply lookup_delete_ne.
    + apply Hsame. simpl. by apply lookup_insert_ne.
Qed.
End logins.

(** ** Theorems *)

Section auth_theorems.
Context `{Crypto} `{UrlParser}.

(** C7: what authentication accepts, exactly.  A request speaks for an actor iff
    it passes the origin check and its credential is the (non-empty) admin
    token, which gives [admin-token], or an unexpired session whose account
    still exists and has not expired.  The check's only possible effect is to
    drop the session it refused. *)
Theorem authenticate_exactly r now s actor :
  ((authenticate r now s).1 = Some actor ↔
   checkCSRF r = true ∧
   (admin_credential (requestToken r) s ∧ actor = "admin-token" ∨
    ¬ admin_credential (requestToken r) s ∧ session_for (requestToken r) actor now s)) ∧
  ((authenticate r now s).2 = s ∨
   (authenticate r now s).1 = None ∧
   (authenticate r now s).2 = upd_sessions (delete (requestToken r)) s).
Proof.
  rewrite authenticate_run. destruct (checkCSRF r); simpl; [|naive_solver].
  rewrite <- validAdmin_iff. destruct (validAdmin (requestToken r) s); simpl.
  - split; [naive_solver congruence|auto].
  - rewrite validSession_iff. split; [naive_solver|]. apply validSession_effect.
Qed.

(** A page of another origin cannot use the console's cookie: a state-changing
    request that carries the session cookie and an [Origin] whose host is not the
    console's is refused by every authenticated endpoint, by login and by logout,
    and changes nothing. *)
Theorem cross_origin_refused r v now rnd body s :
  safe_method (r_Method r) = false → Cookie r sessionCookieName = Some v →
  HeaderGet r "Origin" ≠ "" → url_Host (HeaderGet r "Origin") ≠ Some (r_Host r) →
  authenticate r now s = (None, s) ∧
  (handleLogout r now s).2 = s ∧ (handleLogin r body rnd now s).2 = s ∧
  (handleWSTicket r rnd now s).2 = s ∧
  (rs_Status (handleLogout r now s).1 = 403 ∨ rs_Status (handleLogout r now s).1 = 405) ∧
  (rs_Status (handleWSTicket r rnd now s).1 = 401 ∨ rs_Status (handleWSTicket r rnd now s).1 = 405).
Proof.
  intros Hm Hc Ho Hh. assert (checkCSRF r = false) as Hcs.
  { unfold checkCSRF, sameOriginCheck. rewrite Hm, Hc. apply String.eqb_neq in Ho. rewrite Ho.
    destruct (url_Host _) as [h|]; [|done]. apply String.eqb_neq. congruence. }
  assert (authenticate r now s = (None, s)) as Ha by (by rewrite authenticate_run, Hcs).
  split; [done|]. unfold handleLogout, handleWSTicket. rewrite Hcs.
  rewrite handleLogin_refused by auto.
  destruct (String.eqb (r_Method r) "POST"); simpl; [|auto 10].
  rewrite bind_run, Ha. simpl. auto 10.
Qed.

(** Access control, exactly: an actor reaches a device iff it is the admin
    token, or an existing, unexpired account that is an administrator or has the
    device among its grants. *)
Theorem device_access_exactly actor d now s :
  canAccessDevice actor d now s = true ↔
  actor = "admin-token" ∨
  ∃ row, live_account actor row now (reg s) ∧ (u_role row = "admin" ∨ d ∈ u_device_ids row).
Proof. apply canAccessDevice_iff. Qed.

(** C9: no WebSocket is opened on a device without a right to it: whenever an
    upgrade is authorised, the actor may reach the device at that very moment,
    and it came either from a ticket for exactly that device and kind, which is
    gone afterwards, or from the request's own credential. *)
Theorem upgrade_authorized r kind now s actor s' :
  authorizeWS r kind now s = (inr actor, s') →
  let dev := QueryGet r "device" in
  dev ≠ "" ∧ canAccessDevice actor dev now s' = true ∧
  (let tk := wsTicketFromRequest r in
   (∃ e, tk ≠ "" ∧ tickets s !! tk = Some e ∧ tk_actor e = actor ∧ tk_device e = dev ∧
      tk_kind e = kind ∧ now ≤ tk_expiresAt e ∧ tickets s' !! tk = None) ∨
   (tk = "" ∧ authenticate r now s = (Some actor, s'))).
Proof.
  unfold authorizeWS. destruct (String.eqb_spec (QueryGet r "device") ""); [done|].
  destruct (String.eqb_spec (wsTicketFromRequest r) "") as [He|He]; simpl.
  - rewrite bind_run. destruct (authenticate r now s) as [[a|] s1]; simpl; [|done].
    rewrite bind_run. simpl. destruct (canAccessDevice a _ now s1) eqn:Hc; simpl; [|done].
    intros [= <- <-]. auto.
  - rewrite bind_run. unfold ticketM.
    destruct (consume _ _ _ _ (tickets s)) as [[e|] t] eqn:Hcons; simpl; [|done].
    rewrite bind_run. simpl. destruct (canAccessDevice _ _ _ _) eqn:Hc; simpl; [|done].
    intros [= <- <-]. apply consume_accept in Hcons as (? & ? & ? & ? & ->).
    split_and!; [done..|]. left. exists e. simpl. rewrite lookup_delete_eq. auto 10.
Qed.

(** Logging out ends the session: after a logout, no request presenting the
    same credential authenticates, at any later time, unless that credential is
    the operator's admin token, which is not a session. *)
Theorem logout_revokes r now s r' now' :
  r_Method r = "POST" → checkCSRF r = true →
  requestToken r' = requestToken r → ¬ admin_credential (requestToken r) s →
  (authenticate r' now' (handleLogout r now s).2).1 = None.
Proof.
  intros Hm Hc Ht Ha.
  set (s' := (handleLogout r now s).2).
  assert (sessions s' !! requestToken r = None ∧ cfg s' = cfg s) as [Hs Hcf].
  { subst s'. unfold handleLogout. rewrite Hm, Hc. simpl. rewrite bind_run. simpl.
    rewrite !bind_run. unfold whenM.
    case_bool_decide as Hb; simpl; case_match; rewrite ?audit_run; simpl;
      rewrite ?lookup_delete_eq; try done; split; try done; by apply eq_None_not_Some. }
  rewrite authenticate_run, Ht. destruct (checkCSRF r'); [|done].
  assert (validAdmin (requestToken r) s' = false) as ->.
  { apply not_true_iff_false. rewrite validAdmin_iff. unfold admin_credential in *. by rewrite Hcf. }
  rewrite validSession_run, Hs. done.
Qed.

(** Deleting an account locks it out at once: none of its sessions
    authenticates afterwards (the first use drops the session), and none of its
    outstanding tickets opens a WebSocket. *)
Theorem deleted_account_locked_out u s g :
  DeleteUser u (reg s) = (Ok tt, g) → u ≠ "admin-token" →
  let s' := upd_reg (λ _, g) s in
  (∀ token e now, sessions s !! token = Some e → se_username e = u →
     (validSession token now s').1 = None ∧
     sessions (validSession token now s').2 !! token = None) ∧
  (∀ r kind now e, tickets s !! wsTicketFromRequest r = Some e → tk_actor e = u →
     wsTicketFromRequest r ≠ "" →
     ∃ resp, (authorizeWS r kind now s').1 = inl resp).
Proof.
  intros Hd Hu s'. assert (users g !! u = None) as Hg.
  { unfold DeleteUser in Hd. repeat case_match; simplify_eq. simpl. apply lookup_delete_eq. }
  assert (∃ e, GetUser u g = Err e) as [err Herr].
  { unfold GetUser, getUserLocked. rewrite Hg. destruct (db_up g); eauto. }
  split.
  - intros token e now He Hn. rewrite validSession_run. simpl. rewrite He.
    destruct (After now _); simpl; [by rewrite lookup_delete_eq|].
    rewrite Hn, Herr. simpl. by rewrite lookup_delete_eq.
  - intros r kind now e He Hn Htk.
    destruct (authorizeWS r kind now s') as [[resp|actor] s1] eqn:E; [by eexists|].
    exfalso. destruct (decide (QueryGet r "device" = "")) as [Hd'|Hd'].
    { unfold authorizeWS in E. apply String.eqb_eq in Hd'. by rewrite Hd' in E. }
    rewrite authorizeWS_ticket in E by done. apply (f_equal fst) in E.
    destruct (consume _ _ _ _ (tickets s')) as [[e'|] t] eqn:Hcons; simpl in E; [|done].
    apply consume_accept in Hcons as (Ht & _). simpl in Ht.
    assert (e' = e) as -> by congruence.
    destruct (canAccessDevice _ _ _ _) eqn:Hcan; simpl in E; [|done].
    apply canAccessDevice_iff in Hcan as [?|(row & (_ & Hrow & _) & _)]; [congruence|].
    simpl in Hrow. congruence.
Qed.

(** A request without a credential is never authenticated: over any history
    of logins, logouts, ticket requests, upgrades, sweeps and registry changes of
    a server started by [NewServer], whatever configuration it accepted. *)
Theorem empty_credential_refused c disk salt t0 s0 ops r now :
  NewServer c disk salt t0 = Ok s0 → Forall rnd_ok ops → requestToken r = "" →
  (authenticate r now (foldl (λ s op, run_auth op s) s0 ops)).1 = None.
Proof.
  intros Hn Hops Ht.
  assert (auth_wf c s0) as Hwf.
  { unfold NewServer in Hn. repeat case_match; simplify_eq; split; try done; apply lookup_empty. }
  assert (auth_wf c (foldl (λ s op, run_auth op s) s0 ops)) as [_ Hs].
  { clear Hn. revert s0 Hwf. induction Hops as [|op ops Hop Hops IH]; intros s0 Hwf; [done|].
    simpl. apply IH. by apply run_auth_wf. }
  rewrite authenticate_run, Ht. destruct (checkCSRF r); [|done].
  assert (validAdmin "" _ = false) as -> by done.
  rewrite validSession_run, Hs. done.
Qed.


(** The ticket round trip: a ticket the server hands out to an actor for a
    device and kind opens that WebSocket once, within a minute, for that actor
    (as long as its access stands), and is refused the second time. *)
Theorem ticket_round_trip r b now s resp s1 ws_req later kind :
  handleWSTicket r (Some b) now s = (resp, s1) → rs_Status resp = 200 → b ≠ [] →
  wsTicketFromRequest ws_req = hex_encode b → QueryGet ws_req "device" = QueryGet r "device" →
  kind = QueryGet r "kind" → later ≤ now + webSocketTicketTTL →
  ∃ actor s2, (authenticate r now s).1 = Some actor ∧
    authorizeWS ws_req kind later s1 =
      ((if canAccessDevice actor (QueryGet r "device") later s1 then inr actor
        else inl (writeError StatusForbidden "device not granted")), s2) ∧
    (∃ e, (authorizeWS ws_req kind later s2).1 = inl (writeError StatusUnauthorized e)).
Proof.
  intros Ht Hst Hb Hreq Hdev Hkind Hl. unfold handleWSTicket in Ht.
  destruct (negb _); [by (simpl in Ht; injection Ht as <- <-)|]. rewrite bind_run in Ht.
  destruct (authenticate r now s) as [[actor|] s0]; simpl in Ht; [|by injection Ht as <- <-].
  destruct (String.eqb (QueryGet r "device") "") eqn:Hd; [by (simpl in Ht; injection Ht as <- <-)|].
  destruct (negb _); [by (simpl in Ht; injection Ht as <- <-)|]. rewrite bind_run in Ht. simpl in Ht.
  destruct (negb _); [by (simpl in Ht; injection Ht as <- <-)|]. rewrite bind_run in Ht. simpl in Ht. injection Ht as <- <-. subst kind.
  assert (hex_encode b ≠ "") as Hne by (by destruct b). apply String.eqb_neq in Hd.
  rewrite <- Hdev in Hd.
  set (s1 := upd_tickets _ s0). exists actor, (upd_tickets (delete (hex_encode b)) s1).
  split; [done|]. rewrite !(authorizeWS_ticket ws_req) by congruence. rewrite Hreq, Hdev.
  split; [f_equal|eexists]; unfold consume; simpl.
  - rewrite lookup_insert_eq. simpl. rewrite !String.eqb_refl. simpl.
    destruct (After later _) eqn:Ha; [clock|]. done.
  - by rewrite lookup_delete_eq.
Qed.
End auth_theorems.

(** ** Witnesses *)

Module AuthDemo.
Import Toy.
(** The host of an origin such as [https://host:port] *)
#[export] Instance url : UrlParser := {|
  url_Host o := Some (TrimPrefix (TrimPrefix o "https://") "http://")
|}.
Definition conf : Config := mkConfig "root-token" "/data" "" "" "" 0 "".
(** The account ["admin"] with password ["pw"] and device ["d1"] *)
Definition srv : Server := empty_server conf Toy.reg0.
Definition req (m : string) (q hd ck : pairs) : Request :=
  mkRequest m "/" q "" hd ck "relay.example" true "10.0.0.7:4000".
Definition cookie_req : Request := req "POST" [] [] [(sessionCookieName, "tok")].
(** ... logged in with the session ["tok"] until instant 1000 *)
Definition srv1 : Server := upd_sessions (<["tok" := mkSessionEntry "admin" 1000]>) srv.
Definition srv2 : Server :=
  upd_tickets (<["ab" := mkTicket "admin" "d1" "terminal" 1000]>) srv1.
Definition ws_req : Request :=
  req "GET" [("device", "d1")] [("Sec-Websocket-Protocol", "warpmesh-ticket.ab")] [].
Definition wrong (now : Time) : login := mkLogin (req "POST" [] [] []) "admin" "guess" None now.
Definition ticket_req : Request :=
  req "POST" [("device", "d1"); ("kind", "terminal")] [] [(sessionCookieName, "tok")].
Definition minted : Response * Server :=
  handleWSTicket ticket_req (Some [Ascii.ascii_of_nat 171]) 6 srv1.
End AuthDemo.
Import Toy AuthDemo.

Lemma cross_origin_refused_witness :
  authenticate (req "POST" [] [("Origin", "https://evil.example")] [(sessionCookieName, "tok")])
    5 srv1 = (None, srv1).
Proof.
  apply (cross_origin_refused (req "POST" [] [("Origin", "https://evil.example")]
    [(sessionCookieName, "tok")]) "tok" 5 None None srv1); by vm_compute.
Defined.

Lemma upgrade_authorized_witness :
  canAccessDevice "admin" "d1" 500 (authorizeWS ws_req "terminal" 500 srv2).2 = true.
Proof.
  refine (proj1 (proj2 (upgrade_authorized ws_req "terminal" 500 srv2 "admin" _ _))).
  rewrite (surjective_pairing (authorizeWS _ _ _ _)). f_equal.
Defined.

Lemma logout_revokes_witness :
  (authenticate cookie_req 6 srv1).1 = Some "admin" ∧
  (authenticate cookie_req 7 (handleLogout cookie_req 6 srv1).2).1 = None.
Proof.
  split; [by vm_compute|].
  apply (logout_revokes cookie_req 6 srv1 cookie_req 7); [done|done|done|].
  intros [Ht _]. discriminate Ht.
Defined.

Lemma deleted_account_locked_out_witness :
  (validSession "tok" 7 (upd_reg (λ _, (DeleteUser "admin" (reg srv2)).2) srv2)).1 = None.
Proof.
  refine (proj1 (proj1 (deleted_account_locked_out "admin" srv2 (DeleteUser "admin" (reg srv2)).2 _ _)
    "tok" (mkSessionEntry "admin" 1000) 7 _ _)); by vm_compute.
Defined.

Lemma empty_credential_refused_witness :
  (authenticate (req "GET" [] [] []) 9 (foldl (λ s op, run_auth op s) (empty_server conf
     (NewRegistry Toy.reg0 5)) [ASweep 6; ALogout cookie_req 7])).1 = None.
Proof.
  apply (empty_credential_refused conf (Some Toy.reg0) "" 5 (empty_server conf (NewRegistry Toy.reg0 5)));
    [by vm_compute | repeat constructor | by vm_compute].
Defined.


Lemma ticket_round_trip_witness :
  ∃ actor s2, (authenticate ticket_req 6 srv1).1 = Some actor ∧
    (authorizeWS ws_req "terminal" 500 minted.2).2 = s2 ∧
    ∃ e, (authorizeWS ws_req "terminal" 500 s2).1 = inl (writeError StatusUnauthorized e).
Proof.
  destruct (ticket_round_trip ticket_req [Ascii.ascii_of_nat 171] 6 srv1 minted.1 minted.2
    ws_req 500 "terminal") as (actor & s2 & Ha & Hw & He); try by vm_compute.
  exists actor, s2. split_and!; [done| |done]. by rewrite Hw.
Defined.
