(* ===== verification/Forward.v ===== *)
(** * Tunnels between devices ([internal/server/forward.go])

    A tunnel session is created by the source device's request, gets five seconds
    to establish a direct path, and otherwise falls back to the relay.  Each
    method of [forwardSession] runs under the session's mutex and is one step; so
    is each handler, except that arming the fallback timer is a step of its own
    ([armFallback]), because the session is already visible to the other handlers
    when the timer is set.  The callback of a timer ([fallbackFired]) may run in
    any state: a timer that has gone off cannot be stopped any more. *)
From Stdlib Require Import ZArith Lia String.
From S2P Require Import Prelude GoStrings Protocol Registry Tickets Traffic Http Server.
Open Scope string_scope.
Open Scope list_scope.
Open Scope Z_scope.

(** ** Definitions *)

Definition directAttemptTimeout : Duration := 5 * Second.

(** *** Methods of a session *)

Definition isRelay (f : forwardSession) : bool := String.eqb (fw_transport f) "relay".

(** The changed session and the timer to stop *)
Definition markDirect (f : forwardSession) : bool * forwardSession * option ref :=
  if fw_direct f then (false, f, None)
  else (true, mkForwardSession (fw_source f) (fw_target f) true "direct" None (fw_traffic f),
        fw_timer f).

Definition markRelay (f : forwardSession) : option (option ref) * forwardSession :=
  if fw_direct f || bool_decide (fw_timer f = None) then (None, f)
  else (Some (fw_traffic f),
        mkForwardSession (fw_source f) (fw_target f) (fw_direct f) "relay" None (fw_traffic f)).

Definition setTimer (t : ref) (f : forwardSession) : forwardSession * option ref :=
  (mkForwardSession (fw_source f) (fw_target f) (fw_direct f) (fw_transport f) (Some t)
     (fw_traffic f), fw_timer f).

Definition stopTimer (f : forwardSession) : option ref * forwardSession * option ref :=
  (fw_traffic f,
   mkForwardSession (fw_source f) (fw_target f) (fw_direct f) (fw_transport f) None (fw_traffic f),
   fw_timer f).

(** [timer.Stop()] on a timer that may be nil *)
Definition timerStop (t : option ref) : stateM Server unit :=
  match t with
  | Some p => modifyS (upd_timers (delete p))
  | None => mret tt
  end.

(** Run a method on the session [p] points to *)
Definition onForward (p : ref) (g : forwardSession → forwardSession) : stateM Server unit :=
  modifyS (upd_forwardH (alter g p)).

(** [getForward] *)
Definition getForward (sessionID : string) (s : Server) : option ref := forwards s !! sessionID.

(** *** Handlers *)

Definition sendForwardError (deviceID sessionID errMsg : string) : stateM Server unit :=
  s ← getS;
  match getAgent deviceID s with
  | None => mret tt
  | Some agent => _ ← agentWrite agent (error_msg TypeForwardError sessionID errMsg); mret tt
  end.

Definition closeForward (sessionID state : string) (now : Time) : stateM Server unit :=
  s ← getS;
  _ ← modifyS (upd_forwards (delete sessionID));
  match forwards s !! sessionID with
  | None => mret tt
  | Some p =>
      match forwardH s !! p with
      | None => mret tt
      | Some f =>
          _ ← onForward p (λ f, (stopTimer f).1.2);
          _ ← timerStop (stopTimer f).2;
          trafficClose (stopTimer f).1.1 state now
      end
  end.

(** [&agent.publicIP] of the source *)
Definition publicIP (p : ref) (s : Server) : string :=
  match agentH s !! p with Some a => ac_publicIP a | None => "" end.

(** [handleForwardConnect] up to the registration of the session; [metric] is the
    random connection id.  The result is the new session. *)
Definition handleForwardConnect (sourceID : string) (msg : Message) (metric : string) (now : Time)
    : stateM Server (option ref) :=
  if String.eqb (Target msg) "" || (Port msg <=? 0) || String.eqb (SessionID msg) "" then
    _ ← sendForwardError sourceID (SessionID msg) "invalid forward request"; mret None
  else
    s ← getS;
    match getAgent sourceID s, getAgent (Target msg) s with
    | Some source, Some target =>
        if negb (ForwardAllowed sourceID (Target msg) (Port msg) (reg s)) then
          _ ← regM (RecordAudit sourceID "forward.denied" (Target msg)
                (Target msg +:+ ":" +:+ Itoa (Port msg)) now);
          _ ← sendForwardError sourceID (SessionID msg)
                ("forward denied: " +:+ sourceID +:+ " is not permitted to reach " +:+ Target msg
                   +:+ ":" +:+ Itoa (Port msg));
          mret None
        else
          m ← regM (StartConnection metric sourceID (Target msg) sourceID
                ("tcp:" +:+ Itoa (Port msg)) "negotiating" (publicIP source s) now);
          traffic ← startTraffic m now;
          p ← fresh;
          _ ← modifyS (upd_forwardH (<[p :=
                mkForwardSession sourceID (Target msg) false "negotiating" None traffic]>));
          _ ← modifyS (upd_forwards (<[SessionID msg := p]>));
          _ ← regM (RecordAudit sourceID "forward.connect" (Target msg) (Itoa (Port msg)) now);
          mret (Some p)
    | _, _ => _ ← sendForwardError sourceID (SessionID msg) "target device offline"; mret None
    end.

(** The rest of [handleForwardConnect]: [sess.setTimer(time.AfterFunc(...))] *)
Definition armFallback (sourceID : string) (msg : Message) (p : ref) (now : Time)
    : stateM Server unit :=
  s ← getS;
  match forwardH s !! p with
  | None => mret tt
  | Some f =>
      t ← fresh;
      _ ← modifyS (upd_timers (<[t := mkFallbackTimer p sourceID msg (now + directAttemptTimeout)]>));
      _ ← timerStop (setTimer t f).2; onForward p (λ f, (setTimer t f).1)
  end.

(** [protocol.Message{Type: TypeForwardConnect, SessionID: sid, Port: port}] *)
Definition connect_msg (sid : string) (port : Z) : Message :=
  mkMessage TypeForwardConnect "" "" "" "" "" [] 0 None sid "" 0 0 0 "" 0 "" "" port "" "" [].

Definition startRelayFallback (msg : Message) (now : Time) : stateM Server unit :=
  s ← getS;
  match getAgent (Target msg) s with
  | None => closeForward (SessionID msg) "failed" now
  | Some target =>
      ok ← agentWrite target (connect_msg (SessionID msg) (Port msg));
      if negb ok then closeForward (SessionID msg) "failed" now else mret tt
  end.

(** The callback of the timer armed for session [p] *)
Definition fallbackFired (ft : fallbackTimer) (now : Time) : stateM Server unit :=
  let p := ft_session ft in
  let msg := ft_msg ft in
  s ← getS;
  if negb (bool_decide (getForward (SessionID msg) s = Some p)) then mret tt
  else match forwardH s !! p with
  | None => mret tt
  | Some f =>
      match markRelay f with
      | (None, _) => mret tt
      | (Some traffic, _) =>
          _ ← onForward p (λ f, (markRelay f).2);
          _ ← match traffic ≫= (λ t, recorderH s !! t) with
              | Some rc => _ ← regM (SetConnectionTransport (tr_id rc) "relay"); mret tt
              | None => mret tt
              end;
          _ ← regM (RecordAudit (ft_source ft) "forward.relay" (Target msg) (SessionID msg) now);
          startRelayFallback msg now
      end
  end.

Definition handleDirectOK (deviceID : string) (msg : Message) (now : Time) : stateM Server unit :=
  s ← getS;
  _ ← match getForward (SessionID msg) s with
      | None => mret tt
      | Some p =>
          match forwardH s !! p with
          | None => mret tt
          | Some f =>
              let '(changed, _, t) := markDirect f in
              if changed then
                _ ← onForward p (λ f, (markDirect f).1.2);
                _ ← timerStop t;
                match fw_traffic f ≫= (λ t, recorderH s !! t) with
                | Some rc => _ ← regM (SetConnectionTransport (tr_id rc) "direct"); mret tt
                | None => mret tt
                end
              else mret tt
          end
      end;
  _ ← regM (RecordAudit deviceID "forward.direct" (SessionID msg) "" now);
  mret tt.

(** The other party of a session, [None] for a device that is not one *)
Definition otherParty (f : forwardSession) (fromID : string) : option string :=
  if String.eqb fromID (fw_source f) then Some (fw_target f)
  else if String.eqb fromID (fw_target f) then Some (fw_source f)
  else None.

Definition relayForward (fromID : string) (msg : Message) (now : Time) : stateM Server unit :=
  s ← getS;
  match getForward (SessionID msg) s ≫= (λ p, forwardH s !! p) with
  | None => mret tt
  | Some f =>
      match otherParty f fromID with
      | None => mret tt
      | Some toID =>
          match getAgent toID s with
          | None => closeForward (SessionID msg) "interrupted" now
          | Some agent =>
              _ ← (if String.eqb (Type_ msg) TypeForwardData && isRelay f then
                     match DecodeData (Data msg) with
                     | Err _ => mret tt
                     | Ok raw =>
                         if String.eqb fromID (fw_source f)
                         then trafficAdd (fw_traffic f) (Z.of_nat (length raw)) 0 now
                         else trafficAdd (fw_traffic f) 0 (Z.of_nat (length raw)) now
                     end
                   else mret tt);
              ok ← agentWrite agent msg;
              if negb ok then closeForward (SessionID msg) "interrupted" now
              else if String.eqb (Type_ msg) TypeForwardClose || String.eqb (Type_ msg) TypeForwardError
              then closeForward (SessionID msg)
                     (if String.eqb (Type_ msg) TypeForwardError then "failed" else "closed") now
              else mret tt
          end
      end
  end.

(** [for _, x := range l { f(x) }] *)
Fixpoint forM_ {A} (l : list A) (f : A → stateM Server unit) : stateM Server unit :=
  match l with
  | [] => mret tt
  | x :: l => _ ← f x; forM_ l f
  end.

(** The sessions of a device: id, peer and recorder, in the map's order *)
Definition agentForwards (deviceID : string) (s : Server)
    : list (string * (string * option ref)) :=
  omap (λ kv,
    match forwardH s !! kv.2 with
    | Some f =>
        if String.eqb (fw_source f) deviceID || String.eqb (fw_target f) deviceID then
          Some (kv.1, (if String.eqb (fw_target f) deviceID then fw_source f else fw_target f,
                       fw_traffic f))
        else None
    | None => None
    end) (map_to_list (forwards s)).

Definition closeAgentForwards (deviceID : string) (now : Time) : stateM Server unit :=
  s ← getS;
  let closed := agentForwards deviceID s in
  _ ← modifyS (upd_forwards (λ m, foldr (λ cf m, delete cf.1 m) m closed));
  forM_ closed (λ cf,
    _ ← trafficClose cf.2.2 "interrupted" now;
    s ← getS;
    match getAgent cf.2.1 s with
    | None => mret tt
    | Some agent => _ ← agentWrite agent (session_msg TypeForwardClose cf.1); mret tt
    end).
