(* ===== verification/ForwardProps.v ===== *)
(** * Properties of tunnels

    Authorisation before anything else, relaying only between the two parties,
    a direct path is never undone by the fallback, and complete teardown. *)
From Stdlib Require Import ZArith Lia String.
From S2P Require Import Prelude GoStrings Protocol Registry RegistryProps Tickets Traffic Http.
From S2P Require Import Server Forward.
Open Scope string_scope.
Open Scope list_scope.
Open Scope Z_scope.

(** ** Histories *)

(** Everything that touches tunnels: the agents' messages, the timers, agents
    coming and going, and any other change of the registry or of the sockets. *)
Inductive fwd_op :=
| FConnect (source : string) (msg : Message) (metric : string) (now : Time)
| FArm (source : string) (msg : Message) (p : ref) (now : Time)
| FFire (ft : fallbackTimer) (now : Time)
| FDirectOK (device : string) (msg : Message) (now : Time)
| FRelay (from : string) (msg : Message) (now : Time)
| FClose (sid state : string) (now : Time)
| FAgentGone (device : string) (now : Time)
| FAgents (a : gmap string ref) (h : gmap ref agentConn)
| FSockets (o : gset WS)
| FReg (r : Registry).

Definition run_fwd (op : fwd_op) (s : Server) : Server :=
  match op with
  | FConnect source msg metric now => exec (handleForwardConnect source msg metric now) s
  | FArm source msg p now => exec (armFallback source msg p now) s
  | FFire ft now => exec (fallbackFired ft now) s
  | FDirectOK device msg now => exec (handleDirectOK device msg now) s
  | FRelay from msg now => exec (relayForward from msg now) s
  | FClose sid state now => exec (closeForward sid state now) s
  | FAgentGone device now => exec (closeAgentForwards device now) s
  | FAgents a h => upd_agents (λ _, a) (upd_agentH (λ _, h) s)
  | FSockets o => upd_open_ws (λ _, o) s
  | FReg r => upd_reg (λ _, r) s
  end.

Definition run_fwds (ops : list fwd_op) (s : Server) : Server := foldl (λ s op, run_fwd op s) s ops.

(** ** Frame lemmas *)

(** What the handlers other than [handleForwardConnect] may do to tunnels. *)
Definition parties (f : forwardSession) : string * string := (fw_source f, fw_target f).
Definition parties_at (p : ref) (s : Server) : option (string * string) :=
  parties <$> forwardH s !! p.

Record fwd_frame (s s' : Server) : Prop := mkFwdFrame {
  ff_forwards k : forwards s' !! k = forwards s !! k ∨ forwards s' !! k = None;
  ff_parties p : parties_at p s' = parties_at p s;
  ff_direct p f : forwardH s !! p = Some f → fw_direct f = true → fw_transport f = "direct" →
    ∃ f', forwardH s' !! p = Some f' ∧ fw_direct f' = true ∧ fw_transport f' = "direct";
  ff_next : (next_ref s ≤ next_ref s')%nat
}.

#[export] Instance fwd_frame_preorder : PreOrder fwd_frame.
Proof.
  split.
  - intros s. split; eauto.
  - intros x y z [A1 A2 A3 A4] [B1 B2 B3 B4]. split.
    + intros k. destruct (B1 k) as [->| ->]; auto.
    + intros p. by rewrite B2.
    + intros p f H1 H2 H3. destruct (A3 p f H1 H2 H3) as (f' & ? & ? & ?). eauto.
    + lia.
Qed.

(** A change that leaves the tunnels alone *)
Lemma fwd_frame_same s s' :
  forwards s' = forwards s → forwardH s' = forwardH s → (next_ref s ≤ next_ref s')%nat →
  fwd_frame s s'.
Proof.
  intros E1 E2 E3. split; [rewrite E1; auto|unfold parties_at; by rewrite E2|rewrite E2; eauto|done].
Qed.

Lemma fwd_frame_delete s s' k :
  forwards s' = delete k (forwards s) → forwardH s' = forwardH s → next_ref s' = next_ref s →
  fwd_frame s s'.
Proof.
  intros E1 E2 E3. split; [|unfold parties_at; by rewrite E2|rewrite E2; eauto|lia].
  intros j. rewrite E1, lookup_delete. case_decide; auto.
Qed.

(** A method that keeps the parties and does not undo a direct path *)
Lemma fwd_frame_on s p g :
  (∀ f, parties (g f) = parties f) →
  (∀ f, fw_direct f = true → fw_transport f = "direct" →
        fw_direct (g f) = true ∧ fw_transport (g f) = "direct") →
  fwd_frame s (upd_forwardH (alter g p) s).
Proof.
  intros Hp Hd. split; simpl; [auto| | |done].
  - intros q. unfold parties_at. simpl. rewrite lookup_alter. case_decide as E; [|done]. subst.
    destruct (forwardH s !! q); simpl; [by rewrite Hp|done].
  - intros q f Hf H1 H2. rewrite lookup_alter. case_decide as E; [|eauto]. subst. rewrite Hf.
    simpl. eexists. split; [done|]. auto.
Qed.

Lemma markDirect_frame f :
  parties (markDirect f).1.2 = parties f ∧
  (fw_direct f = true → fw_transport f = "direct" →
   fw_direct (markDirect f).1.2 = true ∧ fw_transport (markDirect f).1.2 = "direct").
Proof. unfold markDirect. by destruct (fw_direct f) eqn:E; simpl; rewrite ?E. Qed.

Lemma markRelay_frame f :
  parties (markRelay f).2 = parties f ∧
  (fw_direct f = true → fw_transport f = "direct" →
   fw_direct (markRelay f).2 = true ∧ fw_transport (markRelay f).2 = "direct").
Proof. unfold markRelay. destruct (fw_direct f) eqn:E; simpl; [|case_bool_decide]; by rewrite ?E. Qed.

(** The tactic that closes the leaves of a walk over a tunnel handler *)
Ltac fwd_leaf :=
  first
    [ by apply fwd_frame_same
    | apply fwd_frame_same; simpl; first [done | lia]
    | by eapply fwd_frame_delete
    | apply fwd_frame_on; [apply markDirect_frame | apply markDirect_frame]
    | apply fwd_frame_on; [apply markRelay_frame | apply markRelay_frame]
    | apply fwd_frame_on; [done | by intros; split] ].
Ltac fwd_walk := frame_with ltac:(fwd_leaf).

Lemma keeps_agentWrite R `{!PreOrder R} p m :
  (∀ s f, R s (upd_wire f s)) → keeps R (agentWrite p m).
Proof. intros HR. unfold agentWrite. frame_with ltac:(apply HR). Qed.

Lemma keeps_closeForward sid st now : keeps fwd_frame (closeForward sid st now).
Proof. unfold closeForward, timerStop, onForward, trafficClose. fwd_walk. Qed.

Lemma keeps_sendForwardError d sid e : keeps fwd_frame (sendForwardError d sid e).
Proof. unfold sendForwardError, agentWrite. fwd_walk. Qed.

Lemma keeps_armFallback src msg p now : keeps fwd_frame (armFallback src msg p now).
Proof. unfold armFallback, fresh, timerStop, onForward. fwd_walk. Qed.

Lemma keeps_fallbackFired ft now : keeps fwd_frame (fallbackFired ft now).
Proof.
  unfold fallbackFired, startRelayFallback, agentWrite, onForward.
  frame_with ltac:(first [fwd_leaf | apply keeps_closeForward]).
Qed.

Lemma keeps_handleDirectOK d msg now : keeps fwd_frame (handleDirectOK d msg now).
Proof. unfold handleDirectOK, timerStop, onForward. fwd_walk. Qed.

Lemma keeps_relayForward from msg now : keeps fwd_frame (relayForward from msg now).
Proof.
  unfold relayForward, agentWrite, trafficAdd.
  frame_with ltac:(first [fwd_leaf | apply keeps_closeForward]).
Qed.

Lemma keeps_forM R `{!PreOrder R} {A} (l : list A) f :
  (∀ x, keeps R (f x)) → keeps R (forM_ l f).
Proof. intros Hf. induction l as [|x l IH]; simpl; frame_with ltac:(first [apply Hf | exact IH]). Qed.

Lemma keeps_closeAgentForwards d now : keeps fwd_frame (closeAgentForwards d now).
Proof.
  unfold closeAgentForwards. apply keeps_bind; [apply _|fwd_walk|]. intros s0.
  apply keeps_bind; [apply _| |].
  - apply keeps_modify. intros s. generalize (agentForwards d s0) as l. intros l.
    split; simpl; try done; [|eauto].
    intros k. induction l as [|cf l IH]; simpl; [auto|]. rewrite lookup_delete. case_decide; auto.
  - intros _. apply keeps_forM; [apply _|]. intros cf.
    unfold trafficClose, agentWrite. fwd_walk.
Qed.

(** ** The connect request *)

Definition connect_valid (msg : Message) : bool :=
  negb (String.eqb (Target msg) "" || (Port msg <=? 0) || String.eqb (SessionID msg) "").

(** Writing an error to a device: at most one frame, on that device's socket *)
Lemma sendForwardError_run d sid e s :
  sendForwardError d sid e s = (tt, s) ∨
  ∃ p a, getAgent d s = Some p ∧ agentH s !! p = Some a ∧
    sendForwardError d sid e s =
      (tt, upd_wire (λ l, l ++ [(ac_ws a, Text (error_msg TypeForwardError sid e))]) s).
Proof.
  unfold sendForwardError. rewrite bind_run. simpl. destruct (getAgent d s) as [p|] eqn:Hg; [|by left].
  rewrite bind_run, agentWrite_run. destruct (agentH s !! p) as [a|] eqn:Ha; [|by left].
  case_bool_decide; [|by left]. right. eauto 10.
Qed.

Lemma connect_refused src msg metric now s :
  connect_valid msg = false ∨ ForwardAllowed src (Target msg) (Port msg) (reg s) = false ∨
  getAgent src s = None ∨ getAgent (Target msg) s = None →
  ∃ f sid e,
    let s0 := upd_reg f s in
    (∀ r, connection_sessions (f r) = connection_sessions r) ∧
    handleForwardConnect src msg metric now s = (None, (sendForwardError src sid e s0).2).
Proof.
  intros Hr. unfold handleForwardConnect. fold (connect_valid msg).
  unfold connect_valid in Hr. destruct (_ || _ || _) eqn:Hv.
  { rewrite bind_run. eexists (λ r, r), _, _. split; [done|]. by destruct s. }
  destruct Hr as [Hr|Hr]; [done|]. rewrite bind_run. simpl.
  assert (∀ e sid, ∃ f sid' e', (∀ r, connection_sessions (f r) = connection_sessions r) ∧
    (_ ← sendForwardError src sid e; mret (@None nat)) s =
    (None, (sendForwardError src sid' e' (upd_reg f s)).2)) as Hsend.
  { intros e sid. exists (λ r, r), sid, e. split; [done|]. rewrite bind_run. by destruct s. }
  destruct (getAgent src s) as [source|] eqn:Hsrc; [|apply Hsend].
  destruct (getAgent (Target msg) s) as [target|] eqn:Htgt; [|apply Hsend].
  destruct Hr as [Hr|[Hr|Hr]]; [|done..]. rewrite Hr. simpl. rewrite !bind_run.
  eexists (λ r, (RecordAudit src "forward.denied" (Target msg)
    (Target msg +:+ ":" +:+ Itoa (Port msg)) now r).2), _, _. split.
  - intros r. unfold RecordAudit, sql_exec. by destruct (db_up r).
  - unfold regM, upd_reg. simpl. by destruct (RecordAudit _ _ _ _ _ (reg s)).
Qed.

(** An accepted request registers one new session, and nothing else of the tunnels
    changes. *)
Lemma connect_accepted src msg metric now s source target :
  connect_valid msg = true → ForwardAllowed src (Target msg) (Port msg) (reg s) = true →
  getAgent src s = Some source → getAgent (Target msg) s = Some target →
  ∃ p s' traffic, handleForwardConnect src msg metric now s = (Some p, s') ∧
    (next_ref s ≤ p)%nat ∧ next_ref s' = S p ∧
    forwards s' = <[SessionID msg := p]> (forwards s) ∧
    forwardH s' =
      <[p := mkForwardSession src (Target msg) false "negotiating" None traffic]> (forwardH s) ∧
    wire s' = wire s.
Proof.
  intros Hv Ha Hs Ht. unfold handleForwardConnect. unfold connect_valid in Hv.
  apply negb_true_iff in Hv. rewrite Hv. rewrite bind_run. cbn [getS fst snd].
  rewrite Hs, Ht, Ha. cbn [negb].
  generalize (StartConnection metric src (Target msg) src
    ("tcp:" +:+ Itoa (Port msg)) "negotiating" (publicIP source s) now).
  generalize (RecordAudit src "forward.connect" (Target msg) (Itoa (Port msg)) now).
  intros rec start. rewrite bind_run. unfold regM.
  destruct (start (reg s)) as [[id|e] r1]; simpl; unfold mbind, stateM_bind; simpl;
    destruct (rec r1) as [? r2]; eexists _, _, _; (split; [reflexivity|]);
    simpl; split_and!; try done; lia.
Qed.

Lemma run_fwd_frame op s :
  match op with FConnect _ _ _ _ => False | _ => True end → fwd_frame s (run_fwd op s).
Proof.
  destruct op; intros Hop; [done|..]; simpl.
  - apply keeps_armFallback.
  - apply keeps_fallbackFired.
  - apply keeps_handleDirectOK.
  - apply keeps_relayForward.
  - apply keeps_closeForward.
  - apply keeps_closeAgentForwards.
  - by apply fwd_frame_same.
  - by apply fwd_frame_same.
  - by apply fwd_frame_same.
Qed.

(** References below the allocator; a listed session exists. *)
Definition fwd_wf (s : Server) : Prop :=
  (∀ p, is_Some (forwardH s !! p) → (p < next_ref s)%nat) ∧
  (∀ sid p, forwards s !! sid = Some p → is_Some (forwardH s !! p)).

Lemma fwd_wf_frame s s' : fwd_frame s s' → fwd_wf s → fwd_wf s'.
Proof.
  intros [Hf Hp _ Hn] [H1 H2].
  assert (∀ p, is_Some (forwardH s' !! p) ↔ is_Some (forwardH s !! p)) as Hdom.
  { intros p. specialize (Hp p). unfold parties_at in Hp.
    destruct (forwardH s' !! p), (forwardH s !! p); simpl in *; try done;
      split; intros; by eexists || done. }
  split.
  - intros p Hs. apply Hdom, H1 in Hs. lia.
  - intros sid p Hs. apply Hdom. destruct (Hf sid) as [E|E]; rewrite E in Hs; eauto. done.
Qed.

(** Either the tunnels are framed, or a session has been created for an authorised
    request. *)
Lemma run_fwd_cases op s :
  fwd_frame s (run_fwd op s) ∨
  ∃ src msg metric now p traffic, op = FConnect src msg metric now ∧
    ForwardAllowed src (Target msg) (Port msg) (reg s) = true ∧ (next_ref s ≤ p)%nat ∧
    next_ref (run_fwd op s) = S p ∧
    forwards (run_fwd op s) = <[SessionID msg := p]> (forwards s) ∧
    forwardH (run_fwd op s) =
      <[p := mkForwardSession src (Target msg) false "negotiating" None traffic]> (forwardH s).
Proof.
  destruct op as [src msg metric now| | | | | | | | |]; try by (left; apply run_fwd_frame).
  assert (connect_valid msg = false ∨ ForwardAllowed src (Target msg) (Port msg) (reg s) = false ∨
    getAgent src s = None ∨ getAgent (Target msg) s = None ∨
    (connect_valid msg = true ∧ ForwardAllowed src (Target msg) (Port msg) (reg s) = true ∧
     is_Some (getAgent src s) ∧ is_Some (getAgent (Target msg) s))) as Hc.
  { destruct (connect_valid msg); [right|by left].
    destruct (ForwardAllowed _ _ _ _); [right|by left].
    destruct (getAgent src s); [right|by left].
    destruct (getAgent (Target msg) s); [right|by left]. split_and!; by eexists || done. }
  assert (connect_valid msg = false ∨ ForwardAllowed src (Target msg) (Port msg) (reg s) = false ∨
    getAgent src s = None ∨ getAgent (Target msg) s = None → fwd_frame s (run_fwd (FConnect src msg metric now) s)) as Href.
  { intros Hr. destruct (connect_refused src msg metric now s Hr) as (f & sid & e & _ & E).
    simpl. unfold exec. rewrite E. simpl. etrans; [|apply keeps_sendForwardError].
    by apply fwd_frame_same. }
  do 4 (destruct Hc as [?|Hc]; [left; by auto|]).
  destruct Hc as (Hv & Ha & [source Hs] & [target Ht]). right.
  destruct (connect_accepted src msg metric now s source target Hv Ha Hs Ht)
    as (p & s' & traffic & E & ? & ? & ? & ? & ?).
  simpl. unfold exec. rewrite E. simpl. exists src, msg, metric, now, p, traffic. done.
Qed.

Lemma run_fwd_wf op s : fwd_wf s → fwd_wf (run_fwd op s).
Proof.
  intros Hwf. destruct (run_fwd_cases op s) as [Hf|Hc]; [by eapply fwd_wf_frame|].
  destruct Hc as (src & msg & metric & now & p & traffic & -> & _ & Hp & Hn & Hf & Hh).
  destruct Hwf as [H1 H2]. split.
  - intros q. rewrite Hh, Hn, lookup_insert. case_decide; [subst; lia|]. intros Hq%H1. lia.
  - intros sid q. rewrite Hf, Hh, !lookup_insert. case_decide.
    + intros [= <-]. rewrite decide_True by done. eauto.
    + intros Hq%H2. case_decide; [by eexists|done].
Qed.

Lemma run_fwds_wf ops s : fwd_wf s → fwd_wf (run_fwds ops s).
Proof.
  unfold run_fwds. revert s. induction ops as [|op ops IH]; intros s; simpl; auto using run_fwd_wf.
Qed.

(** A direct session stays direct. *)
Definition direct_at (p : ref) (s : Server) : Prop :=
  ∃ f, forwardH s !! p = Some f ∧ fw_direct f = true ∧ fw_transport f = "direct".

Lemma run_fwd_direct op p s : fwd_wf s → direct_at p s → direct_at p (run_fwd op s).
Proof.
  intros [Hwf _] (f & Hf & Hd & Ht). destruct (run_fwd_cases op s) as [[_ _ Hdir _]|Hc].
  - destruct (Hdir p f Hf Hd Ht) as (f' & ? & ? & ?). by exists f'.
  - destruct Hc as (? & ? & ? & ? & q & ? & _ & _ & Hq & _ & _ & Hh). exists f. rewrite Hh.
    rewrite lookup_insert_ne; [done|]. intros ->. specialize (Hwf p ltac:(eauto)). lia.
Qed.

Lemma run_fwds_direct ops p s : fwd_wf s → direct_at p s → direct_at p (run_fwds ops s).
Proof.
  unfold run_fwds. revert s. induction ops as [|op ops IH]; intros s; simpl;
    auto using run_fwd_wf, run_fwd_direct.
Qed.

Lemma fallback_after_direct ft now s :
  direct_at (ft_session ft) s → fallbackFired ft now s = (tt, s).
Proof.
  intros (f & Hf & Hd & _). unfold fallbackFired. rewrite bind_run. simpl.
  destruct (negb _); [done|]. rewrite Hf. unfold markRelay. by rewrite Hd.
Qed.

(** ** Teardown *)

(** Frames are only appended, and who is connected does not change. *)
Definition wire_ext (s s' : Server) : Prop :=
  wire s `prefix_of` wire s' ∧ agents s' = agents s ∧ agentH s' = agentH s ∧
  open_ws s' = open_ws s ∧ forwards s' = forwards s ∧ forwardH s' = forwardH s.
#[export] Instance wire_ext_preorder : PreOrder wire_ext.
Proof.
  split.
  - intros s. unfold wire_ext. by split_and!.
  - intros x y z (A & A1 & A2 & A3 & A4 & A5) (B & B1 & B2 & B3 & B4 & B5). unfold wire_ext.
    split_and!; try congruence. by etrans.
Qed.

Lemma wire_ext_recorder t m : keeps wire_ext (withRecorder t m).
Proof. frame_with ltac:(done). Qed.

(** The notice for one closed session *)
Definition notify (now : Time) (cf : string * (string * option ref)) : stateM Server unit :=
  _ ← trafficClose cf.2.2 "interrupted" now;
  s ← getS;
  match getAgent cf.2.1 s with
  | None => mret tt
  | Some agent => _ ← agentWrite agent (session_msg TypeForwardClose cf.1); mret tt
  end.

Lemma notify_ext now cf : keeps wire_ext (notify now cf).
Proof.
  unfold notify, trafficClose, agentWrite.
  frame_with ltac:(first [apply wire_ext_recorder | split_and!; [by eexists|done..]]).
Qed.

Lemma notify_sends now cf s p a :
  agents s !! cf.2.1 = Some p → agentH s !! p = Some a → ac_ws a ∈ open_ws s →
  (ac_ws a, Text (session_msg TypeForwardClose cf.1)) ∈ wire (notify now cf s).2.
Proof.
  intros Hp Ha Ho. unfold notify. rewrite bind_run, bind_run. simpl.
  destruct (wire_ext_recorder cf.2.2 (Traffic.Close "interrupted" now) s) as (_ & E1 & E2 & E3 & _).
  unfold trafficClose. set (s1 := (withRecorder _ _ s).2) in *. unfold getAgent.
  rewrite E1, Hp. rewrite bind_run, agentWrite_run, E2, Ha, E3, bool_decide_true by done.
  simpl. apply elem_of_app. right. by apply list_elem_of_singleton.
Qed.

Lemma notify_all_sends now l cf s p a :
  cf ∈ l → agents s !! cf.2.1 = Some p → agentH s !! p = Some a → ac_ws a ∈ open_ws s →
  (ac_ws a, Text (session_msg TypeForwardClose cf.1)) ∈ wire (forM_ l (notify now) s).2.
Proof.
  intros Hin. revert s. induction l as [|cf' l IH]; intros s Hp Ha Ho; [by apply not_elem_of_nil in Hin|].
  simpl. rewrite bind_run.
  destruct (notify_ext now cf' s) as (_ & E1 & E2 & E3 & _).
  apply elem_of_cons in Hin as [<-|Hin].
  - assert (wire_ext (notify now cf s).2 (forM_ l (notify now) (notify now cf s).2).2) as [[t ->] _]
      by (apply keeps_forM; [apply _|apply notify_ext]).
    apply elem_of_app. left. by eapply notify_sends.
  - apply IH; [done|by rewrite E1|by rewrite E2|by rewrite E3].
Qed.

Lemma agentForwards_elem d s sid other traffic :
  (sid, (other, traffic)) ∈ agentForwards d s ↔
  ∃ p f, forwards s !! sid = Some p ∧ forwardH s !! p = Some f ∧ traffic = fw_traffic f ∧
    (fw_target f = d ∧ other = fw_source f ∨ fw_target f ≠ d ∧ fw_source f = d ∧ other = fw_target f).
Proof.
  unfold agentForwards. rewrite list_elem_of_omap. split.
  - intros ([k p] & Hin%elem_of_map_to_list & Hm). simpl in Hm.
    destruct (forwardH s !! p) as [f|] eqn:Hf; [|done].
    destruct (_ || _) eqn:Hor; [|done]. simplify_eq. exists p, f. split_and!; try done.
    destruct (String.eqb_spec (fw_target f) d); [by left|right].
    rewrite orb_false_r in Hor. by apply String.eqb_eq in Hor.
  - intros (p & f & Hs & Hf & -> & Hd). exists (sid, p). rewrite elem_of_map_to_list.
    split; [done|]. simpl. rewrite Hf. destruct Hd as [[<- ->]|(Hne & <- & ->)].
    + by rewrite String.eqb_refl, orb_true_r.
    + rewrite String.eqb_refl. simpl. apply String.eqb_neq in Hne. by rewrite Hne.
Qed.

Lemma foldr_delete_lookup {V} (l : list (string * V)) (m : gmap string ref) k p :
  foldr (λ cf m, delete cf.1 m) m l !! k = Some p ↔ m !! k = Some p ∧ ∀ v, (k, v) ∉ l.
Proof.
  induction l as [|[k' v'] l IH]; simpl.
  - split; [|naive_solver]. intros ?. split; [done|]. intros v. apply not_elem_of_nil.
  - rewrite lookup_delete_Some, IH. split.
    + intros (Hne & Hm & Hl). split; [done|]. intros v [?|?]%elem_of_cons; [by simplify_eq|by eapply Hl].
    + intros (Hm & Hl). split_and!; [|done|].
      * intros ->. eapply Hl. by apply elem_of_cons; left.
      * intros v Hv. eapply Hl. apply elem_of_cons. by right.
Qed.

Lemma closeAgentForwards_run d now s :
  closeAgentForwards d now s =
    forM_ (agentForwards d s) (notify now)
      (upd_forwards (λ m, foldr (λ cf m, delete cf.1 m) m (agentForwards d s)) s).
Proof. unfold closeAgentForwards. by rewrite bind_run, bind_run. Qed.

(** What relaying a frame writes: nothing, or the frame on the other party's socket *)
Lemma closeForward_wire sid st now : keeps (λ s s', wire s' = wire s) (closeForward sid st now).
Proof. unfold closeForward, timerStop, onForward, trafficClose. frame. Qed.

(** The connection a party's frame of a session is written on *)
Definition tunnel_peer (from sid : string) (s : Server) : option agentConn :=
  p ← forwards s !! sid; f ← forwardH s !! p; other ← otherParty f from; q ← agents s !! other;
  agentH s !! q.

(** What a frame of a tunnel puts on the wire *)
Lemma relayForward_out from msg now s :
  wire (relayForward from msg now s).2 =
    wire s ++ match tunnel_peer from (SessionID msg) s with
              | Some a => if bool_decide (ac_ws a ∈ open_ws s) then [(ac_ws a, Text msg)] else []
              | None => []
              end.
Proof.
  unfold relayForward, tunnel_peer. rewrite bind_run. simpl. unfold getForward.
  destruct (forwards s !! SessionID msg) as [p|]; simpl; [|by rewrite app_nil_r].
  destruct (forwardH s !! p) as [f|]; simpl; [|by rewrite app_nil_r].
  destruct (otherParty f from) as [other|]; simpl; [|by rewrite app_nil_r].
  unfold getAgent. destruct (agents s !! other) as [q|]; simpl;
    [|rewrite closeForward_wire; by rewrite app_nil_r].
  rewrite bind_run. set (m1 := if _ && _ then _ else _).
  assert (keeps (λ s s', (wire s', agents s', agentH s', open_ws s') =
                         (wire s, agents s, agentH s, open_ws s)) m1) as K1.
  { unfold m1, trafficAdd. frame. }
  specialize (K1 s). simpl in K1. destruct (m1 s) as [[] s1]. simpl in *.
  injection K1 as Hw Hag Hah Hop. rewrite bind_run, agentWrite_run, Hah, Hop.
  destruct (agentH s !! q) as [a|]; [|simpl; rewrite closeForward_wire, app_nil_r; done].
  case_bool_decide; simpl; [|rewrite closeForward_wire, app_nil_r; done].
  case_match; [rewrite closeForward_wire|]; simpl; by rewrite Hw.
Qed.

Lemma tunnel_peer_inv from sid s a :
  tunnel_peer from sid s = Some a →
  ∃ p f other q, forwards s !! sid = Some p ∧ forwardH s !! p = Some f ∧
    (from = fw_source f ∧ other = fw_target f ∨ from = fw_target f ∧ other = fw_source f) ∧
    agents s !! other = Some q ∧ agentH s !! q = Some a.
Proof.
  unfold tunnel_peer. intros (p & ? & (f & ? & (other & Ho & (q & ? & ?)%bind_Some)%bind_Some)%bind_Some)%bind_Some.
  exists p, f, other, q. split_and!; try done.
  unfold otherParty in Ho. destruct (String.eqb_spec from (fw_source f)); [left; by simplify_eq|].
  destruct (String.eqb_spec from (fw_target f)); [right; by simplify_eq|done].
Qed.

Lemma relayForward_wire from msg now s :
  wire (relayForward from msg now s).2 = wire s ∨
  ∃ p f other q a, forwards s !! SessionID msg = Some p ∧ forwardH s !! p = Some f ∧
    (from = fw_source f ∧ other = fw_target f ∨ from = fw_target f ∧ other = fw_source f) ∧
    agents s !! other = Some q ∧ agentH s !! q = Some a ∧
    wire (relayForward from msg now s).2 = wire s ++ [(ac_ws a, Text msg)].
Proof.
  rewrite relayForward_out. destruct (tunnel_peer from (SessionID msg) s) as [a|] eqn:E;
    [|left; by rewrite app_nil_r].
  case_bool_decide; [|left; by rewrite app_nil_r]. right.
  apply tunnel_peer_inv in E as (p & f & other & q & ? & ? & ? & ? & ?).
  by exists p, f, other, q, a.
Qed.

(** ** Theorems *)


(** C1: no tunnel without authorisation: in any history of requests, replies,
    timers, disconnections and policy changes, every live tunnel was opened by a
    request of its source for its target that the forwarding policy allowed at
    that moment. *)
Theorem tunnel_needs_authorization s0 ops sid p :
  fwd_wf s0 → forwards s0 = ∅ → forwards (run_fwds ops s0) !! sid = Some p →
  ∃ pre src msg metric now post f,
    ops = pre ++ FConnect src msg metric now :: post ∧ SessionID msg = sid ∧
    ForwardAllowed src (Target msg) (Port msg) (reg (run_fwds pre s0)) = true ∧
    forwardH (run_fwds ops s0) !! p = Some f ∧ fw_source f = src ∧ fw_target f = Target msg.
Proof.
  intros Hwf H0. revert p. induction ops as [|op ops IH] using rev_ind; intros p.
  { simpl. rewrite H0, lookup_empty. done. }
  assert (run_fwds (ops ++ [op]) s0 = run_fwd op (run_fwds ops s0)) as Hrun
    by (unfold run_fwds; by rewrite foldl_app).
  rewrite Hrun. pose proof (run_fwds_wf ops s0 Hwf) as [Hdom _]. intros Hp.
  destruct (run_fwd_cases op (run_fwds ops s0)) as [[Hf Hpar _ _]|Hc].
  - destruct (Hf sid) as [E|E]; rewrite E in Hp; [|done].
    destruct (IH p Hp) as (pre & src & msg & metric & now & post & f & E' & Hs & Ha & Hh & Hsrc & Htgt).
    specialize (Hpar p). unfold parties_at in Hpar. rewrite Hh in Hpar. simpl in Hpar.
    destruct (forwardH (run_fwd op _) !! p) as [f'|] eqn:Hf'; [|done]. simpl in Hpar.
    exists pre, src, msg, metric, now, (post ++ [op]), f'.
    unfold parties in Hpar. split_and!; try done; try congruence. by rewrite E', <- app_assoc.
  - destruct Hc as (src & msg & metric & now & q & traffic & -> & Ha & Hq & _ & Hfw & Hh).
    rewrite Hfw, lookup_insert in Hp. case_decide as Hk.
    + simplify_eq. exists ops, src, msg, metric, now, [],
        (mkForwardSession src (Target msg) false "negotiating" None traffic).
      split_and!; try done. by rewrite Hh, lookup_insert_eq.
    + destruct (IH p Hp) as (pre & src' & msg' & metric' & now' & post & f & E & Hs & Ha' & Hh' & ? & ?).
      exists pre, src', msg', metric', now', (post ++ [FConnect src msg metric now]), f.
      split_and!; try done; [by rewrite E, <- app_assoc|].
      rewrite Hh, lookup_insert_ne; [done|]. intros ->. specialize (Hdom p ltac:(eauto)). lia.
Qed.

(** A direct path is final: once a device has reported it, no later event makes
    the session fall back to the relay: whenever its timer's callback runs, however
    the stop raced with it, it does nothing. *)
Theorem direct_never_falls_back s device msg now p f ops ft fired :
  fwd_wf s → forwards s !! SessionID msg = Some p → forwardH s !! p = Some f →
  fw_direct f = false → ft_session ft = p →
  let s' := run_fwds ops (exec (handleDirectOK device msg now) s) in
  fallbackFired ft fired s' = (tt, s') ∧
  ∃ f', forwardH s' !! p = Some f' ∧ fw_transport f' = "direct".
Proof.
  intros Hwf Hs Hf Hd Hft s'.
  assert (direct_at p s') as Hdir.
  { apply run_fwds_direct; [by apply (run_fwd_wf (FDirectOK device msg now))|].
    unfold exec, handleDirectOK. rewrite bind_run. cbn [getS fst snd]. unfold getForward.
    rewrite Hs, Hf. unfold markDirect at 1. rewrite Hd.
    assert (∀ m1 m2 : stateM Server unit, keeps (λ s s', forwardH s' = forwardH s) m1 →
      keeps (λ s s', forwardH s' = forwardH s) m2 →
      direct_at p ((_ ← (_ ← onForward p (λ f, (markDirect f).1.2); m1); m2) s).2) as Hgen.
    { intros m1 m2 K1 K2. rewrite bind_run. unfold direct_at. rewrite K2.
      rewrite bind_run, K1. simpl. rewrite lookup_alter_eq, Hf. simpl.
      eexists. split; [done|]. unfold markDirect. by rewrite Hd. }
    apply Hgen; unfold timerStop; frame. }
  split; [apply fallback_after_direct; by rewrite Hft|].
  destruct Hdir as (f' & ? & _ & ?). by exists f'.
Qed.

(** Tunnel traffic flows between the two devices and nowhere else: a frame from
    a device that is not a party of the session is dropped without any effect; a
    frame from a party is written, unchanged and once, on the other party's
    connection if that is open, and on no other socket. *)
Theorem relay_only_between_parties from msg now s :
  (∀ p f, forwards s !! SessionID msg = Some p → forwardH s !! p = Some f →
     from ≠ fw_source f → from ≠ fw_target f → relayForward from msg now s = (tt, s)) ∧
  wire (relayForward from msg now s).2 =
    wire s ++ match tunnel_peer from (SessionID msg) s with
              | Some a => if bool_decide (ac_ws a ∈ open_ws s) then [(ac_ws a, Text msg)] else []
              | None => []
              end ∧
  (∀ a, tunnel_peer from (SessionID msg) s = Some a →
     ∃ p f other q, forwards s !! SessionID msg = Some p ∧ forwardH s !! p = Some f ∧
       (from = fw_source f ∧ other = fw_target f ∨ from = fw_target f ∧ other = fw_source f) ∧
       agents s !! other = Some q ∧ agentH s !! q = Some a).
Proof.
  split_and!; [|apply relayForward_out|intros a; apply tunnel_peer_inv].
  intros p f Hp Hf H1 H2. unfold relayForward. rewrite bind_run. simpl. unfold getForward.
  rewrite Hp. simpl. rewrite Hf. unfold otherParty.
  apply String.eqb_neq in H1, H2. by rewrite H1, H2.
Qed.

(** Closing a tunnel completes its record and is final: the connection row gets
    the closing state, the time and every byte still in the recorder, and later
    frames of the session are dropped. *)
Theorem close_forward_completes sid state now s p f t rc row from msg later :
  forwards s !! sid = Some p → forwardH s !! p = Some f → fw_traffic f = Some t →
  recorderH s !! t = Some rc → tr_closed rc = false → db_up (reg s) = true →
  connection_sessions (reg s) !! tr_id rc = Some row → c_ended_at row = None →
  SessionID msg = sid →
  let s' := exec (closeForward sid state now) s in
  connection_sessions (reg s') !! tr_id rc =
    Some (end_row (end_state state) now (add_bytes (tr_toDevice rc) (tr_fromDevice rc) row)) ∧
  relayForward from msg later s' = (tt, s').
Proof.
  intros Hs Hf Ht Hrc Hcl Hup Hrow Hend Hm s'.
  assert (forwards s' !! sid = None) as Hnone.
  { subst s'. unfold exec, closeForward. rewrite bind_run, bind_run. simpl. rewrite Hs, Hf.
    assert (keeps (λ s s', forwards s' = forwards s)
      (_ ← onForward p (λ f, (stopTimer f).1.2); _ ← timerStop (stopTimer f).2;
       trafficClose (stopTimer f).1.1 state now)) as K.
    { unfold onForward, timerStop, trafficClose. frame. }
    rewrite K. simpl. apply lookup_delete_eq. }
  split.
  - subst s'. unfold exec, closeForward. rewrite bind_run, bind_run. simpl. rewrite Hs, Hf.
    rewrite bind_run, bind_run. simpl. rewrite Ht.
    assert (∀ s1, recorderH (timerStop (fw_timer f) s1).2 = recorderH s1 ∧
                  reg (timerStop (fw_timer f) s1).2 = reg s1) as Hts.
    { intros s1. by destruct (fw_timer f). }
    match goal with |- context [timerStop (fw_timer f) ?x] => destruct (Hts x) as [E1 E2] end.
    apply trafficClose_row; rewrite ?E1, ?E2; done.
  - unfold relayForward. rewrite bind_run. simpl. unfold getForward. by rewrite Hm, Hnone.
Qed.

(** A device that goes offline takes exactly its own tunnels with it: afterwards
    no live tunnel has it as an end, every other tunnel is as it was, and each peer
    that is connected is told which session closed. *)
Theorem agent_gone_closes_its_tunnels d now s :
  let s' := exec (closeAgentForwards d now) s in
  forwardH s' = forwardH s ∧
  (∀ sid p f, forwardH s !! p = Some f →
     (forwards s' !! sid = Some p ↔
      forwards s !! sid = Some p ∧ fw_source f ≠ d ∧ fw_target f ≠ d)) ∧
  (∀ sid p f q a, forwards s !! sid = Some p → forwardH s !! p = Some f → fw_source f ≠ fw_target f →
     (fw_source f = d ∧ agents s !! fw_target f = Some q ∨
      fw_target f = d ∧ agents s !! fw_source f = Some q) →
     agentH s !! q = Some a → ac_ws a ∈ open_ws s →
     (ac_ws a, Text (session_msg TypeForwardClose sid)) ∈ wire s').
Proof.
  simpl. unfold exec. rewrite closeAgentForwards_run.
  set (s1 := upd_forwards _ s).
  assert (wire_ext s1 (forM_ (agentForwards d s) (notify now) s1).2) as (_ & _ & _ & _ & Ef & Eh)
    by (apply keeps_forM; [apply _|apply notify_ext]).
  rewrite Ef, Eh. simpl. split_and!; [done| |].
  - intros sid p f Hf. rewrite foldr_delete_lookup. split.
    + intros [Hp Hno]. split; [done|].
      split; intros Hd.
      * destruct (decide (fw_target f = d)).
        -- apply (Hno (fw_source f, fw_traffic f)), agentForwards_elem. naive_solver.
        -- apply (Hno (fw_target f, fw_traffic f)), agentForwards_elem. naive_solver.
      * apply (Hno (fw_source f, fw_traffic f)), agentForwards_elem. naive_solver.
    + intros (Hp & H1 & H2). split; [done|]. intros [o tr] (p' & f' & ? & ? & _ & Hd)%agentForwards_elem.
      simplify_eq. naive_solver.
  - intros sid p f q a Hp Hf Hne Hd Ha Ho.
    destruct Hd as [[Hd Hq]|[Hd Hq]].
    + apply (notify_all_sends now _ (sid, (fw_target f, fw_traffic f)) _ q a); try done.
      apply agentForwards_elem. exists p, f. split_and!; try done. right. split_and!; congruence.
    + apply (notify_all_sends now _ (sid, (fw_source f, fw_traffic f)) _ q a); try done.
      apply agentForwards_elem. exists p, f. split_and!; try done. by left.
Qed.

Lemma closeForward_removes sid state now s : forwards (closeForward sid state now s).2 !! sid = None.
Proof.
  unfold closeForward. rewrite bind_run, bind_run. cbn [getS modifyS fst snd].
  match goal with |- forwards (?m ?s0).2 !! _ = _ =>
    assert (keeps (λ s s', forwards s' = forwards s) m) as K end.
  { unfold onForward, timerStop, trafficClose. frame. }
  rewrite K. simpl. apply lookup_delete_eq.
Qed.

(** ** A target that leaves during the request *)

(** [handleForwardConnect] takes no lock across its checks and the registration.  The
    second half, by itself: *)
Definition connectRegister (sourceID : string) (source : ref) (msg : Message) (metric : string)
    (now : Time) : stateM Server ref :=
  s ← getS;
  m ← regM (StartConnection metric sourceID (Target msg) sourceID
        ("tcp:" +:+ Itoa (Port msg)) "negotiating" (publicIP source s) now);
  traffic ← startTraffic m now;
  p ← fresh;
  _ ← modifyS (upd_forwardH (<[p := mkForwardSession sourceID (Target msg) false "negotiating" None traffic]>));
  _ ← modifyS (upd_forwards (<[SessionID msg := p]>));
  _ ← regM (RecordAudit sourceID "forward.connect" (Target msg) (Itoa (Port msg)) now);
  mret p.

Lemma connect_halves src msg metric now s source target :
  connect_valid msg = true → ForwardAllowed src (Target msg) (Port msg) (reg s) = true →
  getAgent src s = Some source → getAgent (Target msg) s = Some target →
  handleForwardConnect src msg metric now s = (p ← connectRegister src source msg metric now; mret (Some p)) s.
Proof.
  intros Hv Ha Hs Ht. unfold handleForwardConnect. unfold connect_valid in Hv.
  apply negb_true_iff in Hv. rewrite Hv, bind_run. cbn [getS fst snd]. rewrite Hs, Ht, Ha. cbn [negb].
  unfold connectRegister. rewrite !bind_run. done.
Qed.

(** What the registration does, whoever is connected *)
Lemma connectRegister_run src source msg metric now s :
  ∃ p s' traffic, connectRegister src source msg metric now s = (p, s') ∧
    forwards s' = <[SessionID msg := p]> (forwards s) ∧
    forwardH s' = <[p := mkForwardSession src (Target msg) false "negotiating" None traffic]> (forwardH s) ∧
    agents s' = agents s ∧ wire s' = wire s.
Proof.
  unfold connectRegister. rewrite bind_run. cbn [getS fst snd].
  generalize (StartConnection metric src (Target msg) src
    ("tcp:" +:+ Itoa (Port msg)) "negotiating" (publicIP source s) now).
  generalize (RecordAudit src "forward.connect" (Target msg) (Itoa (Port msg)) now).
  intros rec start. rewrite bind_run. unfold regM.
  destruct (start (reg s)) as [[id|e] r1]; simpl; unfold mbind, stateM_bind; simpl;
    destruct (rec r1) as [? r2]; eexists _, _, _; (split; [reflexivity|]); done.
Qed.

(** A target that leaves between the checks and the registration is missed by the
    teardown of its tunnels; the fallback timer, when it goes off, ends the tunnel
    without writing to anybody. *)
Theorem late_tunnel_ended_by_timer src source msg metric now later s :
  getAgent (Target msg) s = None →
  let '(p, s1) := connectRegister src source msg metric now s in
  let s2 := (armFallback src msg p now s1).2 in
  let ft := mkFallbackTimer p src msg (now + directAttemptTimeout) in
  forwards s2 !! SessionID msg = Some p ∧ (∃ t, timers s2 !! t = Some ft) ∧
  let s3 := (fallbackFired ft later s2).2 in
  forwards s3 !! SessionID msg = None ∧ wire s3 = wire s.
Proof.
  intros Hgone. destruct (connectRegister_run src source msg metric now s)
    as (p & s1 & traffic & -> & Hfw & Hh & Hag & Hw).
  intros s2 ft. set (f := mkForwardSession src (Target msg) false "negotiating" None traffic) in *.
  set (t := next_ref s1).
  assert (s2 = upd_forwardH (alter (λ f, (setTimer t f).1) p)
                 (upd_timers (<[t := ft]>) (upd_next_ref S s1))) as Es2.
  { subst s2. unfold armFallback. rewrite bind_run. cbn [getS fst snd]. by rewrite Hh, lookup_insert_eq. }
  assert (forwards s2 !! SessionID msg = Some p) as Hp by (rewrite Es2; simpl; by rewrite Hfw, lookup_insert_eq).
  split; [done|]. split; [exists t; rewrite Es2; simpl; apply lookup_insert_eq|].
  intros s3. subst s3. unfold fallbackFired. rewrite bind_run. cbn [getS fst snd].
  change (ft_session ft) with p. change (ft_msg ft) with msg. unfold getForward.
  rewrite Hp, bool_decide_true by done. cbn [negb].
  assert (forwardH s2 !! p = Some (setTimer t f).1) as ->
    by (rewrite Es2; simpl; by rewrite Hh, lookup_alter_eq, lookup_insert_eq).
  assert ((markRelay (setTimer t f).1).1 = Some traffic) as Em
    by reflexivity.
  destruct (markRelay (setTimer t f).1) as [o f']. cbn [fst] in Em. subst o.
  assert ((agents s2, wire s2) = (agents s, wire s)) as V by (rewrite Es2; simpl; by rewrite Hag, Hw).
  rewrite bind_run. cbn [onForward modifyS fst snd fw_traffic f]. set (s4 := upd_forwardH _ s2).
  match goal with |- context [(?m ≫= _) s4] =>
    assert (keeps (λ s s', (agents s', wire s') = (agents s, wire s)) m) as K1 by frame;
    rewrite bind_run; specialize (K1 s4); set (s5 := (m s4).2) in *
  end.
  rewrite bind_run. set (s6 := (regM _ s5).2).
  assert ((agents s6, wire s6) = (agents s, wire s)) as V6.
  { rewrite <- V. transitivity (agents s5, wire s5); [|by rewrite K1].
    apply (keeps_regM (λ s s', (agents s', wire s') = (agents s, wire s))). done. }
  injection V6 as V6a V6w. unfold startRelayFallback. rewrite bind_run. cbn [getS fst snd].
  unfold getAgent in Hgone |- *. rewrite V6a, Hgone.
  split; [apply closeForward_removes|]. rewrite <- V6w.
  assert (keeps (λ s s', wire s' = wire s) (closeForward (SessionID msg) "failed" later)) as K2
    by (unfold closeForward, onForward, timerStop; frame).
  apply K2.
Qed.

(** ** Witnesses *)

Module ForwardDemo.
Definition reg2 : Registry :=
  (Upsert "d2" "b" "h2" "linux" "amd64" [] 2
    (Upsert "d1" "a" "h1" "linux" "amd64" [] 1 empty_registry).2).2.
Definition conf : Config := mkConfig "root-token" "/data" "" "" "" 0 "".
(** Devices ["d1"] and ["d2"] on sockets 1 and 2 *)
Definition srv : Server :=
  mkServer conf reg2 {["d1" := 10%nat; "d2" := 11%nat]} ∅ ∅ ∅ ∅ ∅ ∅ ∅ ∅
    {[10%nat := mkAgentConn "d1" "10.0.0.1" 0 1%nat 0 None;
      11%nat := mkAgentConn "d2" "10.0.0.2" 0 2%nat 0 None]}
    ∅ ∅ ∅ ∅ ∅ ∅ ∅ {[1%nat; 2%nat]} [] 12%nat.
Definition want (port : Z) : Message :=
  mkMessage TypeForwardConnect "" "" "" "" "" [] 0 None "s1" "" 0 0 0 "" 0 "" "d2" port "" "" [].
Definition opened : Server := run_fwds [FConnect "d1" (want 22) "m1" 50] srv.
(** ["d1"] may only use granted tunnels. *)
Definition locked : Server := upd_reg (λ r, (SetForwardPolicy "d1" ForwardPolicyRestricted r).2) srv.
Lemma srv_wf : fwd_wf srv.
Proof.
  split; simpl.
  - intros p [x Hx]. by rewrite lookup_empty in Hx.
  - intros sid p Hp. by rewrite lookup_empty in Hp.
Qed.
Lemma opened_wf : fwd_wf opened.
Proof. apply run_fwds_wf, srv_wf. Qed.
End ForwardDemo.
Import ForwardDemo.


Lemma tunnel_needs_authorization_witness :
  forwards opened !! "s1" = Some 13%nat ∧
  ∃ pre src msg metric now post f,
    [FConnect "d1" (want 22) "m1" 50] = pre ++ FConnect src msg metric now :: post ∧
    SessionID msg = "s1" ∧
    ForwardAllowed src (Target msg) (Port msg) (reg (run_fwds pre srv)) = true ∧
    forwardH opened !! 13%nat = Some f ∧ fw_source f = src ∧ fw_target f = Target msg.
Proof.
  split; [by vm_compute|].
  apply (tunnel_needs_authorization srv [FConnect "d1" (want 22) "m1" 50] "s1" 13%nat srv_wf eq_refl).
  by vm_compute.
Defined.

Lemma direct_never_falls_back_witness :
  let s' := exec (handleDirectOK "d2" (want 22) 60) opened in
  fallbackFired (mkFallbackTimer 13 "d1" (want 22) 100) 100 s' = (tt, s').
Proof.
  refine (proj1 (direct_never_falls_back opened "d2" (want 22) 60 13%nat
    (mkForwardSession "d1" "d2" false "negotiating" None (Some 12%nat)) []
    (mkFallbackTimer 13 "d1" (want 22) 100) 100 opened_wf _ _ _ _)); by vm_compute.
Defined.

Lemma close_forward_completes_witness :
  relayForward "d1" (want 22) 71 (exec (closeForward "s1" "closed" 70) opened) =
    (tt, exec (closeForward "s1" "closed" 70) opened).
Proof.
  refine (proj2 (close_forward_completes "s1" "closed" 70 opened 13%nat
    (mkForwardSession "d1" "d2" false "negotiating" None (Some 12%nat)) 12%nat
    (newTrafficRecorder "m1" 50)
    (mkConnRow "d1" "d2" "d1" "tcp:22" "negotiating" "active" "10.0.0.1" 0 0 50 None)
    "d1" (want 22) 71 _ _ _ _ _ _ _ _ _)); by vm_compute.
Defined.
