(* ===== verification/AgentWS.v ===== *)
(** * The agent connection ([internal/server/agentws.go], [server.go])

    [handleAgentWS] as the steps between its blocking reads: the hello
    ([agentHello]), one inbound frame ([agentFrame]) and the teardown after the
    read loop ([agentTeardown]).  [routeAgentMessage] delivers a device's message
    to the browser session or tunnel it belongs to. *)
From Stdlib Require Import ZArith Lia String.
From S2P Require Import Prelude GoStrings Protocol Registry Tickets Traffic Http Server Auth.
From S2P Require Import Forward.
Open Scope string_scope.
Open Scope list_scope.
Open Scope Z_scope.

(** ** Liveness *)

Definition agentOnlineSyncInterval : Duration := 10 * Second.

(** [removeAgent], under [agentsMu]: drop the entry if it is still this
    connection's ... *)
Definition unlinkAgent (id : string) (conn : ref) : stateM Server bool :=
  s ← getS;
  if bool_decide (agents s !! id = Some conn) then
    _ ← modifyS (upd_agents (delete id)); mret true
  else mret false.

(** ... then, after the lock is released, mark the device offline. *)
Definition removeAgent (id : string) (conn : ref) (now : Time) : stateM Server bool :=
  removed ← unlinkAgent id conn;
  if removed : bool then _ ← regM (SetOnline id false now); mret true else mret false.

Definition set_lastSync (now : Time) (a : agentConn) : agentConn :=
  mkAgentConn (ac_deviceID a) (ac_publicIP a) (ac_directPort a) (ac_ws a) now (ac_capabilities a).
Definition set_capabilities (c : option DeviceCapabilities) (a : agentConn) : agentConn :=
  mkAgentConn (ac_deviceID a) (ac_publicIP a) (ac_directPort a) (ac_ws a) (ac_lastSync a) c.

Definition touchAgent (id : string) (now : Time) : stateM Server unit :=
  s ← getS;
  match getAgent id s ≫= (λ p, (λ a, (p, a)) <$> agentH s !! p) with
  | None => mret tt
  | Some (p, a) =>
      let due := agentOnlineSyncInterval <=? now - ac_lastSync a in
      if negb due then mret tt
      else
        _ ← modifyS (upd_agentH (alter (set_lastSync now) p));
        _ ← regM (SetOnline id true now);
        mret tt
  end.

(** ** Sessions *)

(** [_ = ws.Close()] when the write failed *)
Definition writeOrClose (w : WS) (f : frame) : stateM Server unit :=
  ok ← wsWrite w f; if negb ok then wsClose w else mret tt.

Definition is_type (m : Message) (ts : list string) : bool :=
  existsb (λ t, String.eqb (Type_ m) t) ts.

(** [protocol.DecodeData] for a byte count: [None] when it fails *)
Definition decoded_length (m : Message) : option Z :=
  match DecodeData (Data m) with Ok raw => Some (Z.of_nat (length raw)) | Err _ => None end.

(** The state a session ends in *)
Definition end_of (m : Message) (errorType : string) : string :=
  if String.eqb (Type_ m) errorType then "failed" else "closed".

(** The terminal branch of [routeAgentMessage] *)
Definition routeTerm (deviceID : string) (msg : Message) (now : Time) : stateM Server unit :=
  s ← getS;
  match terms s !! SessionID msg ≫= (λ p, termH s !! p) with
  | None => mret tt
  | Some sess =>
      if negb (String.eqb (ts_deviceID sess) deviceID) then mret tt
      else
        let relay := String.eqb (ts_transport sess) "relay" in
        let final := is_type msg [TypeTermExit; TypeTermError] in
        _ ← (if String.eqb (Type_ msg) TypeTermOutput && relay then
               match decoded_length msg with
               | Some n => trafficAdd (ts_traffic sess) 0 n now
               | None => mret tt
               end
             else mret tt);
        _ ← whenM final (trafficClose (ts_traffic sess) (end_of msg TypeTermError) now);
        _ ← writeOrClose (ts_browser sess) (Text msg);
        if final then
          _ ← modifyS (upd_terms (delete (SessionID msg))); wsClose (ts_browser sess)
        else mret tt
  end.

(** The file branch: a transfer, or else a file-manager session *)
Definition routeFile (deviceID : string) (msg : Message) (now : Time) : stateM Server unit :=
  s ← getS;
  let final := is_type msg [TypeFileDone; TypeFileError] in
  match files s !! SessionID msg ≫= (λ p, fileH s !! p) with
  | None =>
      match managers s !! SessionID msg ≫= (λ p, managerH s !! p) with
      | None => mret tt
      | Some manager =>
          if negb (String.eqb (ms_deviceID manager) deviceID) then mret tt
          else
            _ ← wsWrite (ms_browser manager) (Text msg);
            if final then
              _ ← modifyS (upd_managers (delete (SessionID msg))); wsClose (ms_browser manager)
            else mret tt
      end
  | Some sess =>
      if negb (String.eqb (fs_deviceID sess) deviceID) then mret tt
      else if String.eqb (Type_ msg) TypeFileChunk then
        match DecodeData (Data msg) with
        | Err _ => mret tt
        | Ok raw =>
            _ ← trafficAdd (fs_traffic sess) 0 (Z.of_nat (length raw)) now;
            writeOrClose (fs_browser sess) (Binary raw)
        end
      else
        _ ← writeOrClose (fs_browser sess) (Text msg);
        if final then
          _ ← trafficClose (fs_traffic sess) (end_of msg TypeFileError) now;
          _ ← modifyS (upd_files (delete (SessionID msg)));
          wsClose (fs_browser sess)
        else mret tt
  end.

(** [TypeFileListResult], [TypeFileRootsResult] *)
Definition routeManager (deviceID : string) (msg : Message) : stateM Server unit :=
  s ← getS;
  match managers s !! SessionID msg ≫= (λ p, managerH s !! p) with
  | None => mret tt
  | Some manager =>
      if String.eqb (ms_deviceID manager) deviceID then
        _ ← wsWrite (ms_browser manager) (Text msg); mret tt
      else mret tt
  end.

Definition set_term_direct (t : termSession) : termSession :=
  mkTermSession (ts_deviceID t) (ts_browser t) (ts_traffic t) (ts_connection t) "direct" true.
Definition set_screen_direct (c : screenSession) : screenSession :=
  mkScreenSession (sc_sessionID c) (sc_deviceID c) (sc_browser c) (sc_link c) (sc_linkSet c)
    (sc_done c) (sc_traffic c) (sc_connection c) "direct" true.

(** The part after the lookup: the signal goes to the browser unless relaying. *)
Definition deliverRTC (msg : Message) (browser : WS) (connection : string) (relaying : bool)
    (promote : stateM Server unit) : stateM Server unit :=
  let direct := String.eqb (Type_ msg) TypeRTCDirectOK in
  _ ← whenM (direct && negb relaying) promote;
  if relaying then mret tt
  else
    _ ← (if direct && negb (String.eqb connection "") then
           _ ← regM (SetConnectionTransport connection "direct"); mret tt
         else mret tt);
    _ ← wsWrite browser (Text msg); mret tt.

Definition routeBrowserRTC (deviceID : string) (msg : Message) : stateM Server unit :=
  s ← getS;
  if String.eqb (Service msg) "terminal" then
    match terms s !! SessionID msg ≫= (λ p, (λ t, (p, t)) <$> termH s !! p) with
    | Some (p, sess) =>
        if String.eqb (ts_deviceID sess) deviceID then
          deliverRTC msg (ts_browser sess) (ts_connection sess)
            (String.eqb (ts_transport sess) "relay")
            (modifyS (upd_termH (alter set_term_direct p)))
        else mret tt
    | None => mret tt
    end
  else if String.eqb (Service msg) "desktop" then
    match screens s !! SessionID msg ≫= (λ p, (λ t, (p, t)) <$> screenH s !! p) with
    | Some (p, sess) =>
        if String.eqb (sc_deviceID sess) deviceID then
          deliverRTC msg (sc_browser sess) (sc_connection sess)
            (String.eqb (sc_transport sess) "relay")
            (modifyS (upd_screenH (alter set_screen_direct p)))
        else mret tt
    | None => mret tt
    end
  else mret tt.

Definition routeScreenError (deviceID : string) (msg : Message) : stateM Server unit :=
  s ← getS;
  match screens s !! SessionID msg ≫= (λ p, screenH s !! p) with
  | None => mret tt
  | Some sess =>
      if String.eqb (sc_deviceID sess) deviceID && negb (String.eqb (sc_transport sess) "relay") then
        _ ← wsWrite (sc_browser sess) (Text msg); mret tt
      else mret tt
  end.

(** ** Routing *)

(** [routeAgentMessage]; [metric] is the connection id a tunnel request draws. *)
Definition routeAgentMessage (deviceID : string) (msg : Message) (metric : string) (now : Time)
    : stateM Server unit :=
  if String.eqb (Type_ msg) TypeStatus then
    s ← getS;
    match getAgent deviceID s with
    | Some p => modifyS (upd_agentH (alter (set_capabilities (Capabilities msg)) p))
    | None => mret tt
    end
  else if String.eqb (Type_ msg) TypePong then mret tt
  else if is_type msg [TypeTermOutput; TypeTermExit; TypeTermError] then routeTerm deviceID msg now
  else if is_type msg [TypeFileChunk; TypeFileUploadEnd; TypeFileDone; TypeFileError] then
    routeFile deviceID msg now
  else if is_type msg [TypeFileListResult; TypeFileRootsResult] then routeManager deviceID msg
  else if String.eqb (Type_ msg) TypeForwardConnect then
    p ← handleForwardConnect deviceID msg metric now;
    match p with
    | Some p => armFallback deviceID msg p now
    | None => mret tt
    end
  else if String.eqb (Type_ msg) TypeForwardDirectOK then handleDirectOK deviceID msg now
  else if is_type msg [TypeForwardOpen; TypeForwardData; TypeForwardClose; TypeForwardError;
                       TypeForwardOffer; TypeForwardAnswer; TypeForwardICE] then
    relayForward deviceID msg now
  else if is_type msg [TypeRTCAnswer; TypeRTCICE; TypeRTCDirectOK; TypeRTCDirectError] then
    routeBrowserRTC deviceID msg
  else if String.eqb (Type_ msg) TypeScreenError then routeScreenError deviceID msg
  else mret tt.

(** ** The connection *)

(** [closeAgentScreens] *)
Definition agentScreens (deviceID : string) (s : Server) : list (string * WS) :=
  omap (λ kv,
    match screenH s !! kv.2 with
    | Some c => if String.eqb (sc_deviceID c) deviceID then Some (kv.1, sc_browser c) else None
    | None => None
    end) (map_to_list (screens s)).

Definition closeAgentScreens (deviceID : string) : stateM Server unit :=
  s ← getS;
  let gone := agentScreens deviceID s in
  _ ← modifyS (upd_screens (λ m, foldr (λ c m, delete c.1 m) m gone));
  forM_ gone (λ c, wsClose c.2).

Section connection.
Context `{Crypto} `{UrlParser}.

(** What the server learns of a device at its hello *)
Definition agentToken (r : Request) : string :=
  let token := bearerToken r in
  if String.eqb token "" then QueryGet r "token" else token.

(** The hello: [w] is the upgraded connection, [hello] the first message ([None]
    when the read failed), [remote] its address, [local] what [localIPs] returned.
    The result is the registered connection, [None] when it was refused. *)
Definition agentHello (r : Request) (w : WS) (hello : option Message) (remote : string)
    (local : list string) (now : Time) : stateM Server (option ref) :=
  match hello with
  | None => _ ← wsWrite w (Text (error_msg TypeFileError "" "expected hello message"));
            _ ← wsClose w; mret None
  | Some hello =>
      if negb (String.eqb (Type_ hello) TypeHello) || String.eqb (DeviceID hello) "" then
        _ ← wsWrite w (Text (error_msg TypeFileError "" "expected hello message"));
        _ ← wsClose w; mret None
      else
        s ← getS;
        if negb (authorizeAgent (DeviceID hello) (agentToken r) now s) then
          _ ← wsWrite w (Text (error_msg TypeFileError "" "invalid device credential"));
          _ ← audit (DeviceID hello) "agent.auth-failed" (DeviceID hello)
                "invalid device credential" now;
          _ ← wsClose w; mret None
        else
          let ips := match LANIPs hello with [] => local | ips => ips end in
          _ ← regM (Upsert (DeviceID hello) (Name hello) (Hostname hello) (OS hello) (Arch hello)
                ips now);
          _ ← audit (DeviceID hello) "agent.online" (DeviceID hello)
                (OS hello +:+ "/" +:+ Arch hello) now;
          p ← fresh;
          let publicIP := match SplitHostPort remote with Some (host, _) => host | None => "" end in
          _ ← modifyS (upd_agentH (<[p := mkAgentConn (DeviceID hello) publicIP (DirectPort hello) w
                now (Capabilities hello)]>));
          s ← getS;
          let old := agents s !! DeviceID hello in
          _ ← modifyS (upd_agents (<[DeviceID hello := p]>));
          _ ← match old ≫= (λ o, agentH s !! o) with
              | Some o => wsClose (ac_ws o)
              | None => mret tt
              end;
          mret (Some p)
  end.

(** One frame of the read loop: [true] to read on, [false] for [break]. *)
Definition agentFrame (id : string) (conn : ref) (msg : Message) (metric : string) (now : Time)
    : stateM Server bool :=
  s ← getS;
  if negb (bool_decide (getAgent id s = Some conn)) then mret false
  else _ ← touchAgent id now; _ ← routeAgentMessage id msg metric now; mret true.

(** After the loop; [w] is closed by the deferred call. *)
Definition agentTeardown (id : string) (conn : ref) (w : WS) (now : Time) : stateM Server unit :=
  removed ← removeAgent id conn now;
  _ ← whenM removed (
        _ ← closeAgentForwards id now;
        _ ← closeAgentScreens id;
        audit id "agent.offline" id "" now);
  wsClose w.

End connection.
