(* ===== verification/AgentProps.v ===== *)
(** * Properties of the agent connection

    A device reaches only the browsers and peers of its own sessions, connects
    only with its key, and a replaced connection can neither act nor tear down
    its successor. *)
From Stdlib Require Import ZArith Lia String.
From S2P Require Import Prelude GoStrings Protocol Registry RegistryProps Tickets Traffic Http.
From S2P Require Import Server Auth Forward ForwardProps AgentWS.
Open Scope string_scope.
Open Scope list_scope.
Open Scope Z_scope.

(** ** Which sockets a device's message may reach *)

Inductive reaches (d sid : string) (s : Server) : WS → Prop :=
| reach_term p t : terms s !! sid = Some p → termH s !! p = Some t → ts_deviceID t = d →
    reaches d sid s (ts_browser t)
| reach_file p t : files s !! sid = Some p → fileH s !! p = Some t → fs_deviceID t = d →
    reaches d sid s (fs_browser t)
| reach_manager p t : managers s !! sid = Some p → managerH s !! p = Some t → ms_deviceID t = d →
    reaches d sid s (ms_browser t)
| reach_screen p t : screens s !! sid = Some p → screenH s !! p = Some t → sc_deviceID t = d →
    reaches d sid s (sc_browser t)
| reach_peer p f other q a : forwards s !! sid = Some p → forwardH s !! p = Some f →
    (d = fw_source f ∧ other = fw_target f ∨ d = fw_target f ∧ other = fw_source f) →
    agents s !! other = Some q → agentH s !! q = Some a → reaches d sid s (ac_ws a)
| reach_self q a : agents s !! d = Some q → agentH s !! q = Some a → reaches d sid s (ac_ws a).

(** Frames are appended, each on a socket of [P]. *)
Abbreviation writes_to P := (emits (λ e, P e.1)).

Ltac writes_leaf :=
  first [ by apply emits_same | eapply emits_one; [reflexivity | simpl; eauto using reaches; fail] ].

Ltac writes_walk :=
  match goal with |- emits ?P ?s (?m ?s).2 =>
    assert (keeps (emits P) m) as K; [frame_with writes_leaf | apply K]
  end.

Lemma connect_writes d msg metric now s :
  writes_to (reaches d (SessionID msg) s) s (handleForwardConnect d msg metric now s).2.
Proof.
  assert (connect_valid msg = false ∨ ForwardAllowed d (Target msg) (Port msg) (reg s) = false ∨
    getAgent d s = None ∨ getAgent (Target msg) s = None ∨
    (connect_valid msg = true ∧ ForwardAllowed d (Target msg) (Port msg) (reg s) = true ∧
     is_Some (getAgent d s) ∧ is_Some (getAgent (Target msg) s))) as Hc.
  { destruct (connect_valid msg); [right|by left].
    destruct (ForwardAllowed _ _ _ _); [right|by left].
    destruct (getAgent d s); [right|by left].
    destruct (getAgent (Target msg) s); [right|by left]. split_and!; by eexists || done. }
  assert (connect_valid msg = false ∨ ForwardAllowed d (Target msg) (Port msg) (reg s) = false ∨
    getAgent d s = None ∨ getAgent (Target msg) s = None →
    writes_to (reaches d (SessionID msg) s) s (handleForwardConnect d msg metric now s).2) as Href.
  { intros Hr. destruct (connect_refused d msg metric now s Hr) as (f & sid & e & _ & ->). simpl.
    destruct (sendForwardError_run d sid e (upd_reg f s)) as [->|(p & a & Hp & Ha & ->)]; simpl.
    - by apply emits_same.
    - eapply emits_one; [done|]. by eapply reach_self. }
  do 4 (destruct Hc as [?|Hc]; [by auto|]).
  destruct Hc as (Hv & Ha & [source Hs] & [target Ht]).
  destruct (connect_accepted d msg metric now s source target Hv Ha Hs Ht)
    as (p & s' & traffic & -> & _ & _ & _ & _ & Hw). by apply emits_same.
Qed.

Lemma routeTerm_writes d msg now s :
  writes_to (reaches d (SessionID msg) s) s (routeTerm d msg now s).2.
Proof.
  unfold routeTerm. rewrite bind_run. simpl.
  destruct (terms s !! SessionID msg) as [p|] eqn:Hp; simpl; [|by apply emits_same].
  destruct (termH s !! p) as [t|] eqn:Ht; [|by apply emits_same].
  destruct (String.eqb_spec (ts_deviceID t) d) as [Hd|]; simpl; [|by apply emits_same].
  unfold writeOrClose, wsClose, trafficAdd, trafficClose. writes_walk.
Qed.

Lemma routeFile_writes d msg now s :
  writes_to (reaches d (SessionID msg) s) s (routeFile d msg now s).2.
Proof.
  unfold routeFile. rewrite bind_run. simpl.
  destruct (files s !! SessionID msg ≫= (λ p, fileH s !! p)) as [t|] eqn:Hf.
  - apply bind_Some in Hf as (p & Hp & Ht).
    destruct (String.eqb_spec (fs_deviceID t) d) as [Hd|]; simpl; [|by apply emits_same].
    unfold writeOrClose, wsClose, trafficAdd, trafficClose. writes_walk.
  - destruct (managers s !! SessionID msg ≫= (λ p, managerH s !! p)) as [t|] eqn:Hm;
      [|by apply emits_same].
    apply bind_Some in Hm as (p & Hp & Ht).
    destruct (String.eqb_spec (ms_deviceID t) d) as [Hd|]; simpl; [|by apply emits_same].
    unfold wsClose. writes_walk.
Qed.

Lemma routeManager_writes d msg s :
  writes_to (reaches d (SessionID msg) s) s (routeManager d msg s).2.
Proof.
  unfold routeManager. rewrite bind_run. simpl.
  destruct (managers s !! SessionID msg ≫= (λ p, managerH s !! p)) as [t|] eqn:Hm;
    [|by apply emits_same].
  apply bind_Some in Hm as (p & Hp & Ht).
  destruct (String.eqb_spec (ms_deviceID t) d) as [Hd|]; simpl; [|by apply emits_same].
  writes_walk.
Qed.

Lemma routeScreenError_writes d msg s :
  writes_to (reaches d (SessionID msg) s) s (routeScreenError d msg s).2.
Proof.
  unfold routeScreenError. rewrite bind_run. simpl.
  destruct (screens s !! SessionID msg ≫= (λ p, screenH s !! p)) as [t|] eqn:Hm;
    [|by apply emits_same].
  apply bind_Some in Hm as (p & Hp & Ht).
  destruct (String.eqb_spec (sc_deviceID t) d) as [Hd|]; simpl; [|by apply emits_same].
  destruct (negb _); [|by apply emits_same].
  writes_walk.
Qed.

Lemma routeBrowserRTC_writes d msg s :
  writes_to (reaches d (SessionID msg) s) s (routeBrowserRTC d msg s).2.
Proof.
  assert (∀ browser connection relaying promote, reaches d (SessionID msg) s browser →
    keeps (writes_to (reaches d (SessionID msg) s)) promote →
    keeps (writes_to (reaches d (SessionID msg) s)) (deliverRTC msg browser connection relaying promote))
    as Hdel.
  { intros browser connection relaying promote Hb Hk. unfold deliverRTC.
    frame_with ltac:(first [exact Hk | writes_leaf]). }
  unfold routeBrowserRTC. rewrite bind_run. simpl.
  destruct (String.eqb (Service msg) "terminal"); [|destruct (String.eqb (Service msg) "desktop")];
    [| |by apply emits_same].
  - destruct (terms s !! SessionID msg) as [p|] eqn:Hp; simpl; [|by apply emits_same].
    destruct (termH s !! p) as [t|] eqn:Ht; simpl; [|by apply emits_same].
    destruct (String.eqb_spec (ts_deviceID t) d) as [Hd|]; simpl; [|by apply emits_same].
    apply Hdel; [by eapply reach_term|]. apply keeps_modify. intros. by apply emits_same.
  - destruct (screens s !! SessionID msg) as [p|] eqn:Hp; simpl; [|by apply emits_same].
    destruct (screenH s !! p) as [t|] eqn:Ht; simpl; [|by apply emits_same].
    destruct (String.eqb_spec (sc_deviceID t) d) as [Hd|]; simpl; [|by apply emits_same].
    apply Hdel; [by eapply reach_screen|]. apply keeps_modify. intros. by apply emits_same.
Qed.

Lemma relayForward_writes d msg now s :
  writes_to (reaches d (SessionID msg) s) s (relayForward d msg now s).2.
Proof.
  destruct (relayForward_wire d msg now s) as [E|(p & f & other & q & a & ? & ? & ? & ? & ? & E)].
  - by apply emits_same.
  - eapply emits_one; [exact E|]. by eapply reach_peer.
Qed.

(** ** The connection *)

Section agent_lemmas.
Context `{Crypto} `{UrlParser}.

(** A refused hello: an error on the new socket, which is closed; no device is
    connected or changed. *)
Definition hello_ok (r : Request) (hello : option Message) (now : Time) (s : Server) : bool :=
  match hello with
  | None => false
  | Some h =>
      String.eqb (Type_ h) TypeHello && negb (String.eqb (DeviceID h) "") &&
      ValidateDeviceKey (DeviceID h) (agentToken r) now (reg s)
  end.

Lemma agentHello_refused r w hello remote local now s :
  hello_ok r hello now s = false →
  let '(res, s') := agentHello r w hello remote local now s in
  res = None ∧ agents s' = agents s ∧ agentH s' = agentH s ∧
  devices (reg s') = devices (reg s) ∧ writes_to (λ x, x = w) s s' ∧ w ∉ open_ws s'.
Proof.
  intros Hh. unfold agentHello.
  assert (∀ e (m : stateM Server unit),
    keeps (λ s s', (wire s', agents s', agentH s', devices (reg s')) =
                   (wire s, agents s, agentH s, devices (reg s))) m →
    let '(res, s') := (_ ← wsWrite w (Text (error_msg TypeFileError "" e)); _ ← m; _ ← wsClose w;
                       mret (@None nat)) s in
    res = None ∧ agents s' = agents s ∧ agentH s' = agentH s ∧
    devices (reg s') = devices (reg s) ∧ writes_to (λ x, x = w) s s' ∧ w ∉ open_ws s') as Hgen.
  { intros e m K. rewrite bind_run, wsWrite_run, bind_run.
    case_bool_decide; cbn [fst snd]; rewrite bind_run; simpl;
      [specialize (K (upd_wire (λ l, l ++ [(w, Text (error_msg TypeFileError "" e))]) s))|specialize (K s)];
      simpl in K; injection K as K1 K2 K3 K4; rewrite K2, K3, K4; split_and!; try done;
      try set_solver.
    - eapply emits_one; [exact K1|done].
    - by apply emits_same. }
  assert (∀ e, let '(res, s') := (_ ← wsWrite w (Text (error_msg TypeFileError "" e)); _ ← wsClose w;
                       mret (@None nat)) s in
    res = None ∧ agents s' = agents s ∧ agentH s' = agentH s ∧
    devices (reg s') = devices (reg s) ∧ writes_to (λ x, x = w) s s' ∧ w ∉ open_ws s') as Hgen0.
  { intros e. specialize (Hgen e (mret tt) ltac:(frame)). unfold mbind, stateM_bind in *.
    destruct (wsWrite _ _ s). done. }
  destruct hello as [h|]; [|apply Hgen0]. simpl in Hh.
  destruct (String.eqb (Type_ h) TypeHello); simpl in *; [|apply Hgen0].
  destruct (String.eqb (DeviceID h) ""); simpl in *; [apply Hgen0|].
  rewrite bind_run. simpl. unfold authorizeAgent. rewrite Hh. simpl. apply Hgen.
  intros s0. rewrite audit_run. simpl. unfold RecordAudit, sql_exec. by destruct (db_up (reg s0)).
Qed.

(** An accepted hello registers a new connection and closes the one it replaces. *)
Lemma agentHello_accepted r w h remote local now s :
  hello_ok r (Some h) now s = true →
  ∃ p s', agentHello r w (Some h) remote local now s = (Some p, s') ∧
    (next_ref s ≤ p)%nat ∧ agents s' = <[DeviceID h := p]> (agents s) ∧
    (∃ a, agentH s' = <[p := a]> (agentH s) ∧ ac_ws a = w ∧ ac_deviceID a = DeviceID h ∧
          ac_lastSync a = now) ∧
    (∀ q o, agents s !! DeviceID h = Some q → agentH s !! q = Some o → q ≠ p →
       ac_ws o ∉ open_ws s') ∧
    reg s' = (RecordAudit (DeviceID h) "agent.online" (DeviceID h) (OS h +:+ "/" +:+ Arch h) now
      (Upsert (DeviceID h) (Name h) (Hostname h) (OS h) (Arch h)
         (match LANIPs h with [] => local | ips => ips end) now (reg s)).2).2.
Proof.
  intros Hh. unfold hello_ok in Hh. bools. unfold agentHello.
  rewrite H1, String.eqb_refl. apply String.eqb_neq in H3. rewrite H3. cbn [negb orb].
  rewrite bind_run. cbn [getS fst snd]. unfold authorizeAgent. rewrite H2. cbn [negb].
  rewrite bind_run. unfold regM.
  destruct (Upsert _ _ _ _ _ _ _ (reg s)) as [? r1] eqn:Hup. rewrite bind_run, audit_run.
  unfold fresh, mbind, stateM_bind. simpl.
  destruct (agents s !! DeviceID h) as [q|] eqn:Hq; simpl.
  - rewrite lookup_insert. case_decide as E; [|destruct (agentH s !! q) as [o|] eqn:Ho]; simpl;
      eexists _, _; (split; [reflexivity|]); simpl; split_and!; try done;
      try (by eexists; split_and!); intros q' o' [= <-] Ho' Hne; [done| |congruence].
    assert (o' = o) as -> by congruence. set_solver.
  - eexists _, _; (split; [reflexivity|]); simpl; split_and!; try done. by eexists; split_and!.
Qed.
End agent_lemmas.

(** The teardown of a connection that is no longer the device's *)
Lemma agentTeardown_replaced id p w now s :
  agents s !! id ≠ Some p → agentTeardown id p w now s = (tt, upd_open_ws (λ o, o ∖ {[w]}) s).
Proof.
  intros Hne. unfold agentTeardown, removeAgent, unlinkAgent, whenM.
  unfold mbind, stateM_bind. simpl. by rewrite bool_decide_false.
Qed.

Lemma agentFrame_replaced id p msg metric now s :
  agents s !! id ≠ Some p → agentFrame id p msg metric now s = (false, s).
Proof.
  intros Hne. unfold agentFrame. rewrite bind_run. simpl. unfold getAgent.
  by rewrite bool_decide_false.
Qed.

(** Connections below the allocator *)
Definition agents_wf (s : Server) : Prop :=
  ∀ id p, agents s !! id = Some p → (p < next_ref s)%nat.

(** ** Theorems *)

(** C10: devices are isolated from each other's sessions: whatever message a device
    sends, every frame the server writes in response goes to the browser of a
    session with that id on that very device, to the other end of a tunnel the
    device is a party of, or back to the device itself. *)
Theorem device_reaches_only_its_sessions d msg metric now s :
  ∃ out, wire (routeAgentMessage d msg metric now s).2 = wire s ++ out ∧
    Forall (λ e, reaches d (SessionID msg) s e.1) out.
Proof.
  change (writes_to (reaches d (SessionID msg) s) s (routeAgentMessage d msg metric now s).2).
  unfold routeAgentMessage.
  destruct (String.eqb (Type_ msg) TypeStatus).
  { rewrite bind_run. simpl. destruct (getAgent d s); by apply emits_same. }
  destruct (String.eqb (Type_ msg) TypePong); [by apply emits_same|].
  destruct (is_type msg _); [apply routeTerm_writes|].
  destruct (is_type msg _); [apply routeFile_writes|].
  destruct (is_type msg _); [apply routeManager_writes|].
  destruct (String.eqb (Type_ msg) TypeForwardConnect).
  { rewrite bind_run. etrans; [apply (connect_writes d msg metric now)|].
    destruct (handleForwardConnect d msg metric now s) as [[p|] s1]; simpl; [|by apply emits_same].
    apply emits_same.
    assert (keeps (λ s s', wire s' = wire s) (armFallback d msg p now)) as K; [|apply K].
    unfold armFallback, fresh, timerStop, onForward. frame. }
  destruct (String.eqb (Type_ msg) TypeForwardDirectOK).
  { apply emits_same.
    assert (keeps (λ s s', wire s' = wire s) (handleDirectOK d msg now)) as K; [|apply K].
    unfold handleDirectOK, timerStop, onForward. frame. }
  destruct (is_type msg _); [apply relayForward_writes|].
  destruct (is_type msg _); [apply routeBrowserRTC_writes|].
  destruct (String.eqb (Type_ msg) TypeScreenError); [apply routeScreenError_writes|].
  by apply emits_same.
Qed.

Section agent_theorems.
Context `{Crypto} `{UrlParser}.

(** A device connects only with its own key: the hello is accepted exactly
    when it names a device and carries a valid credential for that device; then
    the new connection is the device's one, and otherwise no device's state
    changes, the error is the only frame written, and the socket is closed. *)
Theorem agent_needs_device_key r w hello remote local now s :
  let '(res, s') := agentHello r w hello remote local now s in
  (is_Some res ↔ hello_ok r hello now s = true) ∧
  (∀ h p, hello = Some h → res = Some p → agents s' !! DeviceID h = Some p ∧
     ValidateDeviceKey (DeviceID h) (agentToken r) now (reg s) = true) ∧
  (res = None → agents s' = agents s ∧ devices (reg s') = devices (reg s) ∧ w ∉ open_ws s' ∧
     writes_to (λ x, x = w) s s').
Proof.
  destruct (hello_ok r hello now s) eqn:Hh.
  - destruct hello as [h|]; [|done].
    destruct (agentHello_accepted r w h remote local now s Hh) as (p & s' & -> & _ & Ha & _).
    split_and!; [naive_solver| |done]. intros h' p' [= <-] [= <-]. rewrite Ha, lookup_insert_eq.
    split; [done|]. unfold hello_ok in Hh. by bools.
  - pose proof (agentHello_refused r w hello remote local now s Hh) as Hr.
    destruct (agentHello _ _ _ _ _ _ _) as [res s']. destruct Hr as (-> & ? & ? & ? & ? & ?).
    split_and!; [|done|done]. split; [by intros []|done].
Qed.

(** C38: a reconnect is never undone by the connection it replaces: once a device's
    new connection is registered, frames still arriving on the old one are not
    acted on, and the old handler's teardown only closes its own socket: the new
    connection stays registered, and the device's tunnels, desktops and registry
    row are untouched. *)
Theorem reconnect_survives_old_teardown r w h remote local now s old w_old s' p msg metric t1 t2 :
  agents_wf s → agents s !! DeviceID h = Some old →
  agentHello r w (Some h) remote local now s = (Some p, s') →
  agentFrame (DeviceID h) old msg metric t1 s' = (false, s') ∧
  agentTeardown (DeviceID h) old w_old t2 s' = (tt, upd_open_ws (λ o, o ∖ {[w_old]}) s') ∧
  agents s' !! DeviceID h = Some p.
Proof.
  intros Hwf Hold Hhello.
  assert (hello_ok r (Some h) now s = true) as Hh.
  { destruct (hello_ok r (Some h) now s) eqn:E; [done|].
    pose proof (agentHello_refused r w (Some h) remote local now s E) as Hr.
    rewrite Hhello in Hr. naive_solver. }
  destruct (agentHello_accepted r w h remote local now s Hh)
    as (p' & s1 & E & Hp & Ha & _). rewrite Hhello in E. simplify_eq.
  specialize (Hwf _ _ Hold).
  assert (agents s1 !! DeviceID h = Some p') as Hnew by (by rewrite Ha, lookup_insert_eq).
  assert (agents s1 !! DeviceID h ≠ Some old) as Hne by (rewrite Hnew; intros [= ->]; lia).
  split_and!; auto using agentFrame_replaced, agentTeardown_replaced.
Qed.

(** The last-seen write is throttled: a frame refreshes the device's row only
    when ten seconds have passed since the previous refresh, and then the row is
    online with the current time and the next refresh is ten seconds away. *)
Theorem touch_agent_throttled id now s p a :
  agents s !! id = Some p → agentH s !! p = Some a →
  (now - ac_lastSync a < agentOnlineSyncInterval → touchAgent id now s = (tt, s)) ∧
  (agentOnlineSyncInterval ≤ now - ac_lastSync a →
     reg (touchAgent id now s).2 = (SetOnline id true now (reg s)).2 ∧
     ∀ t, t - now < agentOnlineSyncInterval →
       touchAgent id t (touchAgent id now s).2 = (tt, (touchAgent id now s).2)).
Proof.
  intros Hp Ha.
  assert (∀ t b s0, agents s0 !! id = Some p → agentH s0 !! p = Some b →
    t - ac_lastSync b < agentOnlineSyncInterval → touchAgent id t s0 = (tt, s0)) as Hearly.
  { intros t b s0 Hp0 Hb Hlt. unfold touchAgent. rewrite bind_run. simpl. unfold getAgent.
    rewrite Hp0. simpl. rewrite Hb. simpl.
    destruct (Z.leb_spec agentOnlineSyncInterval (t - ac_lastSync b)); [lia|done]. }
  split; [by apply Hearly with (b := a)|]. intros Hge.
  assert (touchAgent id now s =
    (tt, upd_reg (λ _, (SetOnline id true now (reg s)).2)
           (upd_agentH (alter (set_lastSync now) p) s))) as ->.
  { unfold touchAgent. rewrite bind_run. simpl. unfold getAgent. rewrite Hp. simpl. rewrite Ha. simpl.
    destruct (Z.leb_spec agentOnlineSyncInterval (now - ac_lastSync a)); [|lia]. simpl.
    unfold mbind, stateM_bind, regM. simpl. by destruct (SetOnline id true now (reg s)). }
  split; [done|]. intros t Ht. apply Hearly with (b := set_lastSync now a); [done| |done].
  simpl. by rewrite lookup_alter_eq, Ha.
Qed.
End agent_theorems.

(** ** Witnesses *)

Module AgentDemo.
Import Toy.
Definition conf : Config := mkConfig "root-token" "/data" "" "" "" 0 "".
Definition req : Request :=
  mkRequest "GET" "/ws/agent" [] "" [("Authorization", "Bearer 31")] [] "relay" true "10.0.0.3:99".
Definition hello : Message :=
  mkMessage TypeHello "dev-30" "box" "host" "linux" "amd64" ["10.0.0.3"] 0 None "" "" 0 0 0 "" 0 ""
    "" 0 "" "" [].
(** The key of device ["dev-30"] is in the registry; sockets 1 and 2 are open. *)
Definition srv : Server := upd_open_ws (λ _, {[1%nat; 2%nat]}) (empty_server conf Toy.reg1).
Definition first : option ref * Server := agentHello req 1 (Some hello) "10.0.0.3:99" [] 150 srv.
Definition second : option ref * Server := agentHello req 2 (Some hello) "10.0.0.3:98" [] 160 first.2.
Lemma first_wf : agents_wf first.2.
Proof.
  unfold agents_wf. intros id p. assert (agents first.2 = {["dev-30" := 0%nat]}) as -> by by vm_compute.
  intros [<- <-]%lookup_singleton_Some. vm_compute. lia.
Qed.
End AgentDemo.
Import Toy AgentDemo.

Lemma reconnect_survives_old_teardown_witness :
  agentTeardown "dev-30" 0 1 170 second.2 = (tt, upd_open_ws (λ o, o ∖ {[1%nat]}) second.2) ∧
  agents second.2 !! "dev-30" = Some 1%nat.
Proof.
  apply (reconnect_survives_old_teardown req 2 hello "10.0.0.3:98" [] 160 first.2 0%nat 1%nat
    second.2 1%nat hello "m" 165 170 first_wf); [by vm_compute|].
  rewrite (surjective_pairing (agentHello _ _ _ _ _ _ _)). f_equal; by vm_compute.
Defined.

Lemma touch_agent_throttled_witness : touchAgent "dev-30" 151 first.2 = (tt, first.2).
Proof.
  refine (proj1 (touch_agent_throttled "dev-30" 151 first.2 0%nat
    (mkAgentConn "dev-30" "10.0.0.3" 0 1%nat 150 None) _ _) _); by vm_compute.
Defined.

(** Between the two halves of [removeAgent] another connection of the device can
    register: the device is then connected and yet recorded as offline, until the
    next refresh. *)
Example reconnect_race :
  let '(removed, s1) := unlinkAgent "dev-30" 0 first.2 in
  let '(conn, s2) := agentHello req 2 (Some hello) "10.0.0.3:98" [] 160 s1 in
  let s3 := (regM (SetOnline "dev-30" false 161) s2).2 in
  removed = true ∧ conn = Some 1%nat ∧ agents s3 !! "dev-30" = Some 1%nat ∧
  (d_online <$> devices (reg s3) !! "dev-30") = Some 0.
Proof. by vm_compute. Qed.
