(* ===== verification/Browser.v ===== *)
(** * Browser sessions ([terminal.go], [file.go], [filesmanager.go], [screen.go])

    Each handler is cut at its blocking reads: an [...Open] step (authorisation,
    the upgrade, the session's registration and the first message to the device),
    one step per event of the browser's socket, and the deferred teardown in its
    LIFO order.  [metric] and [sid] are the random ids the handler draws, [w] the
    upgraded connection ([None] when the upgrade failed and was answered by the
    upgrader). *)
From Stdlib Require Import ZArith Lia String.
From S2P Require Import Prelude GoStrings Protocol Registry Tickets Traffic Http Server Auth.
From S2P Require Import Forward AgentWS.
Open Scope string_scope.
Open Scope list_scope.
Open Scope Z_scope.

(** What [ws.ReadMessage] returns to the upload loop.  The other loops use
    [ws.ReadJSON], which decodes a frame of either kind: they get an
    [option Message], [None] when the read or the decoding failed. *)
Inductive event :=
| EText (m : Message)        (* a text frame holding a message *)
| EBadText                   (* a text frame that is not one *)
| EBinary (raw : bytes)      (* a binary frame *)
| EGone.                     (* the read failed: the peer is gone *)

(** Read on, or return (and run the deferred calls) *)
Inductive next := Continue | Return.

(** What a handler keeps in its local variables *)
Record session := mkSession {
  ses_id : string; ses_agent : ref; ses_ref : ref; ses_ws : WS; ses_traffic : option ref
}.

Section browser.
Context `{Crypto} `{UrlParser}.

(** ** Messages to the device *)

Definition term_start_msg (sid : string) (cols rows : Z) : Message :=
  mkMessage TypeTermStart "" "" "" "" "" [] 0 None sid "" cols rows 0 "" 0 "" "" 0 "" "" [].
Definition upload_msg (sid name : string) (size : Z) (path : string) : Message :=
  mkMessage TypeFileUpload "" name "" "" "" [] 0 None sid "" 0 0 0 "" size path "" 0 "" "" [].
Definition download_msg (sid path : string) : Message :=
  mkMessage TypeFileDownload "" "" "" "" "" [] 0 None sid "" 0 0 0 "" 0 path "" 0 "" "" [].

(** ** The common beginning of the four handlers *)

(** [authorizeWS], then the device's connection *)
Definition openOn (r : Request) (kind : string) (now : Time)
    : stateM Server (Response + (string * ref)) :=
  auth ← authorizeWS r kind now;
  match auth with
  | inl resp => mret (inl resp)
  | inr actor =>
      s ← getS;
      match getAgent (QueryGet r "device") s with
      | None => mret (inl (writeError StatusConflict "device offline"))
      | Some agent => mret (inr (actor, agent))
      end
  end.

(** The connection row and its recorder.  [StartConnection] returns the id it drew
    with an error too; only the recorder depends on the error. *)
Definition startMetric (r : Request) (actor service transport metric : string) (now : Time)
    : stateM Server (string * option ref) :=
  m ← regM (StartConnection metric actor (QueryGet r "device") "" service transport (clientIP r) now);
  traffic ← startTraffic m now;
  mret (metric, traffic).

(** ** Terminal *)

Definition terminalOpen (r : Request) (w : option WS) (sid metric : string) (now : Time)
    : stateM Server (option Response * option session) :=
  o ← openOn r "terminal" now;
  match o, w with
  | inl resp, _ => mret (Some resp, None)
  | inr _, None => mret (None, None)
  | inr (actor, agent), Some w =>
      m ← startMetric r actor "terminal" "negotiating" metric now;
      p ← fresh;
      _ ← modifyS (upd_termH (<[p := mkTermSession (QueryGet r "device") w m.2 m.1 "negotiating" false]>));
      _ ← modifyS (upd_terms (<[sid := p]>));
      _ ← audit actor "terminal.start" (QueryGet r "device") "" now;
      mret (None, Some (mkSession sid agent p w m.2))
  end.

(** The first message to the device; [Return] when it cannot be written *)
Definition terminalStart (r : Request) (c : session) (now : Time) : stateM Server next :=
  ok ← agentWrite (ses_agent c) (term_start_msg (ses_id c) (queryInt r "cols" 120) (queryInt r "rows" 30));
  if negb ok then _ ← trafficClose (ses_traffic c) "failed" now; mret Return else mret Continue.

Definition set_term_relay (t : termSession) : termSession :=
  mkTermSession (ts_deviceID t) (ts_browser t) (ts_traffic t) (ts_connection t) "relay" false.

Definition term_transport (p : ref) (s : Server) : string :=
  match termH s !! p with Some t => ts_transport t | None => "" end.

Definition terminalEvent (c : session) (e : option Message) (now : Time) : stateM Server next :=
  match e with
  | None =>
      _ ← agentWrite (ses_agent c) (session_msg TypeTermStop (ses_id c)); mret Return
  | Some msg =>
      s ← getS;
      let relay := String.eqb (term_transport (ses_ref c) s) "relay" in
      if is_type msg [TypeRTCOffer; TypeRTCICE] then
        if relay then mret Continue
        else
          ok ← agentWrite (ses_agent c) (with_service (with_session msg (ses_id c)) "terminal");
          mret (if ok : bool then Continue else Return)
      else if String.eqb (Type_ msg) TypeRTCFallback then
        _ ← modifyS (upd_termH (alter set_term_relay (ses_ref c)));
        if relay then mret Continue
        else
          match termH s !! ses_ref c with
          | None => mret Continue
          | Some t =>
              _ ← (if bool_decide (is_Some (ts_traffic t)) then
                     _ ← regM (SetConnectionTransport (ts_connection t) "relay"); mret tt
                   else mret tt);
              _ ← agentWrite (ses_agent c) (session_msg TypeRTCRelay (ses_id c));
              _ ← wsWrite (ts_browser t) (Text (session_msg TypeRTCRelay (ses_id c)));
              mret Continue
          end
      else if is_type msg [TypeTermInput; TypeTermResize; TypeTermStop] then
        ok ← agentWrite (ses_agent c) (with_session msg (ses_id c));
        if negb ok then _ ← trafficClose (ses_traffic c) "failed" now; mret Return
        else
          _ ← whenM (String.eqb (Type_ msg) TypeTermInput && relay)
                (trafficAdd (ses_traffic c) (Z.of_nat (String.length (Data msg))) 0 now);
          mret (if String.eqb (Type_ msg) TypeTermStop then Return else Continue)
      else mret Continue
  end.

Definition terminalClose (c : session) (now : Time) : stateM Server unit :=
  _ ← modifyS (upd_terms (delete (ses_id c)));
  _ ← agentWrite (ses_agent c) (session_msg TypeRTCStop (ses_id c));
  _ ← trafficClose (ses_traffic c) "closed" now;
  wsClose (ses_ws c).

(** ** File transfers *)

Definition fileOpen (r : Request) (w : option WS) (sid metric : string) (now : Time)
    : stateM Server (option Response * option (session * string)) :=
  auth ← authorizeWS r "files" now;
  match auth with
  | inl resp => mret (Some resp, None)
  | inr actor =>
      let op := QueryGet r "op" in
      if negb (String.eqb op "upload") && negb (String.eqb op "download") then
        mret (Some (writeError StatusBadRequest "op (upload|download) is required"), None)
      else
        s ← getS;
        match getAgent (QueryGet r "device") s, w with
        | None, _ => mret (Some (writeError StatusConflict "device offline"), None)
        | Some _, None => mret (None, None)
        | Some agent, Some w =>
            m ← startMetric r actor ("files-" +:+ op) "relay" metric now;
            p ← fresh;
            _ ← modifyS (upd_fileH (<[p := mkFileSession (QueryGet r "device") w op m.2]>));
            _ ← modifyS (upd_files (<[sid := p]>));
            mret (None, Some (mkSession sid agent p w m.2, actor))
        end
  end.

(** The validation of the parameters and the request to the device; [actor] is the
    authorised one *)
Definition fileStart (r : Request) (c : session) (actor : string) (now : Time)
    : stateM Server next :=
  let name := sanitizeName (QueryGet r "name") in
  let path := QueryGet r "path" in
  if String.eqb (QueryGet r "op") "upload" then
    if String.eqb name "" then
      _ ← wsWrite (ses_ws c) (Text (error_msg TypeFileError (ses_id c) "missing file name"));
      mret Return
    else
      _ ← audit actor "file.upload" (QueryGet r "device") name now;
      ok ← agentWrite (ses_agent c) (upload_msg (ses_id c) name (queryInt64 r "size" 0) path);
      mret (if ok : bool then Continue else Return)
  else
    if String.eqb path "" then
      _ ← wsWrite (ses_ws c) (Text (error_msg TypeFileError (ses_id c) "missing path"));
      mret Return
    else
      _ ← audit actor "file.download" (QueryGet r "device") path now;
      ok ← agentWrite (ses_agent c) (download_msg (ses_id c) path);
      mret (if ok : bool then Continue else Return).

(** The locals of the upload loop *)
Record upload := mkUpload { up_ended : bool; up_state : string }.

Definition uploadEvent (c : session) (u : upload) (e : event) (now : Time)
    : stateM Server (next * upload) :=
  match e with
  | EGone =>
      _ ← agentWrite (ses_agent c) (error_msg TypeFileError (ses_id c) "upload aborted");
      mret (Return, u)
  | EBadText => mret (Continue, u)
  | EText msg =>
      let msg := with_session msg (ses_id c) in
      if String.eqb (Type_ msg) TypeFileError then
        _ ← agentWrite (ses_agent c) msg; mret (Return, mkUpload (up_ended u) "failed")
      else if String.eqb (Type_ msg) TypeFileUploadEnd && negb (up_ended u) then
        ok ← agentWrite (ses_agent c) msg;
        mret (if negb ok then (Return, mkUpload true "failed")
              else (Continue, mkUpload true (up_state u)))
      else mret (Continue, u)
  | EBinary raw =>
      if up_ended u then
        _ ← agentWrite (ses_agent c) (error_msg TypeFileError (ses_id c) "data after upload completion");
        _ ← wsWrite (ses_ws c) (Text (error_msg TypeFileError (ses_id c) "data after upload completion"));
        mret (Return, mkUpload true "failed")
      else
        ok ← agentWrite (ses_agent c) (data_msg TypeFileChunk (ses_id c) (EncodeData raw));
        if negb ok then mret (Return, mkUpload (up_ended u) "failed")
        else
          _ ← trafficAdd (ses_traffic c) (Z.of_nat (length raw)) 0 now;
          mret (Continue, u)
  end.

Definition downloadEvent (c : session) (e : option Message) : stateM Server next :=
  match e with
  | None =>
      _ ← agentWrite (ses_agent c) (error_msg TypeFileError (ses_id c) "download aborted");
      mret Return
  | Some msg => mret (if String.eqb (Type_ msg) TypeFileError then Return else Continue)
  end.

Definition fileClose (c : session) (endState : string) (now : Time) : stateM Server unit :=
  _ ← modifyS (upd_files (delete (ses_id c)));
  _ ← trafficClose (ses_traffic c) endState now;
  wsClose (ses_ws c).

(** ** File manager *)

Definition managerAllowedTypes : list string :=
  [TypeFileList; TypeFileRoots; TypeFileMkdir; TypeFileDelete; TypeFileRename; TypeFileDownload].

Definition filesOpen (r : Request) (w : option WS) (sid : string) (now : Time)
    : stateM Server (option Response * option session) :=
  o ← openOn r "files" now;
  match o, w with
  | inl resp, _ => mret (Some resp, None)
  | inr _, None => mret (None, None)
  | inr (_, agent), Some w =>
      p ← fresh;
      _ ← modifyS (upd_managerH (<[p := mkManagerSession (QueryGet r "device") w]>));
      _ ← modifyS (upd_managers (<[sid := p]>));
      mret (None, Some (mkSession sid agent p w None))
  end.

Definition filesEvent (c : session) (e : option Message) : stateM Server next :=
  match e with
  | None => mret Return
  | Some msg =>
      if negb (is_type msg managerAllowedTypes) then
        _ ← wsWrite (ses_ws c) (Text (error_msg TypeFileError (ses_id c) "operation not allowed"));
        mret Continue
      else
        ok ← agentWrite (ses_agent c) (with_session msg (ses_id c));
        mret (if ok : bool then Continue else Return)
  end.

Definition filesClose (c : session) : stateM Server unit :=
  _ ← modifyS (upd_managers (delete (ses_id c))); wsClose (ses_ws c).

(** ** Desktop *)

Definition screenOpen (r : Request) (w : option WS) (sid metric : string) (now : Time)
    : stateM Server (option Response * option session) :=
  o ← openOn r "desktop" now;
  match o, w with
  | inl resp, _ => mret (Some resp, None)
  | inr _, None => mret (None, None)
  | inr (actor, agent), Some w =>
      m ← startMetric r actor "desktop" "negotiating" metric now;
      p ← fresh;
      _ ← modifyS (upd_screenH (<[p := mkScreenSession sid (QueryGet r "device") w None false false
            m.2 m.1 "negotiating" false]>));
      _ ← modifyS (upd_screens (<[sid := p]>));
      _ ← audit actor "screen.start" (QueryGet r "device") "" now;
      mret (None, Some (mkSession sid agent p w m.2))
  end.

(** The desktop loop may also stop to wait for the device's link. *)
Inductive screen_next := SContinue | SReturn (endState : string) | SWaitLink.

Definition set_screen_relay (t : screenSession) : screenSession :=
  mkScreenSession (sc_sessionID t) (sc_deviceID t) (sc_browser t) (sc_link t) (sc_linkSet t)
    (sc_done t) (sc_traffic t) (sc_connection t) "relay" false.

Definition screen_transport (p : ref) (s : Server) : string :=
  match screenH s !! p with Some t => sc_transport t | None => "" end.

Definition screenEvent (c : session) (e : option Message) : stateM Server screen_next :=
  match e with
  | None => mret (SReturn "closed")
  | Some msg =>
      s ← getS;
      let relay := String.eqb (screen_transport (ses_ref c) s) "relay" in
      if is_type msg [TypeRTCOffer; TypeRTCICE] then
        if relay then mret SContinue
        else
          ok ← agentWrite (ses_agent c) (with_service (with_session msg (ses_id c)) "desktop");
          mret (if ok : bool then SContinue else SReturn "failed")
      else if String.eqb (Type_ msg) TypeRTCReady then
        ok ← agentWrite (ses_agent c) (session_msg TypeRTCReady (ses_id c));
        mret (if ok : bool then SContinue else SReturn "failed")
      else if String.eqb (Type_ msg) TypeRTCFallback then
        _ ← modifyS (upd_screenH (alter set_screen_relay (ses_ref c)));
        if relay then mret SContinue
        else
          match screenH s !! ses_ref c with
          | None => mret SContinue
          | Some t =>
              _ ← (if bool_decide (is_Some (sc_traffic t)) then
                     _ ← regM (SetConnectionTransport (sc_connection t) "relay"); mret tt
                   else mret tt);
              ok ← agentWrite (ses_agent c) (session_msg TypeRTCRelay (ses_id c));
              if negb ok then mret (SReturn "failed")
              else
                ok ← agentWrite (ses_agent c) (session_msg TypeScreenStart (ses_id c));
                mret (if negb ok then SReturn "failed" else SWaitLink)
          end
      else if String.eqb (Type_ msg) TypeRTCStop then mret (SReturn "closed")
      else mret SContinue
  end.

(** The select: the link is ready, or ten seconds have passed. *)
Definition screenLinked (c : session) : stateM Server (option WS) :=
  s ← getS;
  match screenH s !! ses_ref c with
  | Some t =>
      if sc_linkSet t then
        _ ← wsWrite (sc_browser t) (Text (session_msg TypeRTCRelay (ses_id c)));
        mret (sc_link t)
      else mret None
  | None => mret None
  end.
Definition screenTimeout (c : session) : stateM Server screen_next :=
  _ ← wsWrite (ses_ws c) (Text (error_msg TypeScreenError (ses_id c) "screen relay link timeout"));
  mret (SReturn "failed").

(** [relayScreen]: one frame (is it text? and its bytes) copied from the browser [a]
    to the link [b] or back; [None] is a failed read.  When either side fails,
    both are closed. *)
Definition relayScreenFrame (a b : WS) (traffic : option ref) (fromBrowser : bool)
    (e : option (bool * bytes)) (now : Time) : stateM Server next :=
  let shutdown := _ ← wsClose a; _ ← wsClose b; mret Return in
  match e with
  | None => shutdown
  | Some (text, data) =>
      ok ← wsWrite (if fromBrowser then b else a) (if text : bool then RawText data else Binary data);
      if negb ok then shutdown
      else
        let n := Z.of_nat (length data) in
        _ ← (if fromBrowser then trafficAdd traffic n 0 now else trafficAdd traffic 0 n now);
        mret Continue
  end.

Definition set_done (t : screenSession) : screenSession :=
  mkScreenSession (sc_sessionID t) (sc_deviceID t) (sc_browser t) (sc_link t) (sc_linkSet t)
    true (sc_traffic t) (sc_connection t) (sc_transport t) (sc_direct t).

Definition screenClose (c : session) (endState : string) (now : Time) : stateM Server unit :=
  _ ← modifyS (upd_screens (delete (ses_id c)));
  _ ← modifyS (upd_screenH (alter set_done (ses_ref c)));
  _ ← agentWrite (ses_agent c) (session_msg TypeRTCStop (ses_id c));
  _ ← trafficClose (ses_traffic c) endState now;
  wsClose (ses_ws c).

Definition set_link (w : WS) (t : screenSession) : screenSession :=
  mkScreenSession (sc_sessionID t) (sc_deviceID t) (sc_browser t) (Some w) true
    (sc_done t) (sc_traffic t) (sc_connection t) (sc_transport t) (sc_direct t).

(** [handleScreenLinkWS]: [inr true] when the link was attached (the handler then
    waits for the session's end), [inr false] when it was refused after the
    upgrade. *)
Definition screenLink (r : Request) (w : option WS) (now : Time) : stateM Server (Response + bool) :=
  let deviceID := QueryGet r "device" in
  let sessionID := QueryGet r "session" in
  s ← getS;
  if negb (authorizeAgent deviceID (agentToken r) now s) then
    mret (inl (writeError StatusUnauthorized "unauthorized"))
  else if String.eqb deviceID "" || String.eqb sessionID "" then
    mret (inl (writeError StatusBadRequest "device and session are required"))
  else match w with
  | None => mret (inr false)
  | Some w =>
      match screens s !! sessionID ≫= (λ p, (λ t, (p, t)) <$> screenH s !! p) with
      | None => _ ← wsClose w; mret (inr false)
      | Some (p, t) =>
          if negb (String.eqb (sc_deviceID t) deviceID) || sc_linkSet t then
            _ ← wsClose w; mret (inr false)
          else
            _ ← modifyS (upd_screenH (alter (set_link w) p)); mret (inr true)
      end
  end.

End browser.
