(* ===== verification/BrowserProps.v ===== *)
(** * Properties of browser sessions

    Rights at the door, messages only in the session's own name, uploads that
    arrive unchanged, a relay fallback that is final, one link per desktop, and
    complete teardown. *)
From Stdlib Require Import ZArith Lia Ascii String.
From S2P Require Import Prelude GoStrings Protocol Registry RegistryProps Tickets Traffic Http.
From S2P Require Import Server Auth AuthProps Forward AgentWS Browser.
Open Scope string_scope.
Open Scope list_scope.
Open Scope Z_scope.

(** ** Specifications *)

(** A message in the name of session [c], to its device or to its browser *)
Definition in_name_of (c : session) (b : WS) (s : Server) (e : WS * frame) : Prop :=
  ∃ m, e.2 = Text m ∧ SessionID m = ses_id c ∧
    (e.1 = b ∨ ∃ a, agentH s !! ses_agent c = Some a ∧ e.1 = ac_ws a).

(** The upload loop over a sequence of reads *)
Fixpoint run_upload (c : session) (u : upload) (evs : list event) (now : Time)
    : stateM Server (next * upload) :=
  match evs with
  | [] => mret (Continue, u)
  | e :: evs =>
      r ← uploadEvent c u e now;
      match r.1 with
      | Return => mret r
      | Continue => run_upload c r.2 evs now
      end
  end.

(** The terminal session [p] is carried by the relay. *)
Definition term_relayed (p : ref) (s : Server) : Prop :=
  ∃ t, termH s !! p = Some t ∧ ts_transport t = "relay".

(** ** Lemmas *)

(** A walk that remembers the agents' sockets, which these handlers do not change *)
Definition emits_named (c : session) (b : WS) (h : gmap ref agentConn) (s s' : Server) : Prop :=
  agentH s = h → agentH s' = h ∧
  emits (λ e, ∃ m, e.2 = Text m ∧ SessionID m = ses_id c ∧
    (e.1 = b ∨ ∃ a, h !! ses_agent c = Some a ∧ e.1 = ac_ws a)) s s'.
#[export] Instance emits_named_preorder c b h : PreOrder (emits_named c b h).
Proof.
  split.
  - intros s E. split; [done|reflexivity].
  - intros x y z H1 H2 E. destruct (H1 E) as [E1 ?]. destruct (H2 E1) as [E2 ?].
    split; [done|]. by etrans.
Qed.

Lemma named_same c b h s s' : wire s' = wire s → agentH s' = agentH s → emits_named c b h s s'.
Proof. intros E1 E2 E. split; [congruence|]. by apply emits_same. Qed.

Lemma named_browser c b h m :
  SessionID m = ses_id c → keeps (emits_named c b h) (wsWrite b (Text m)).
Proof.
  intros Hm. apply keeps_wsWrite; [apply _|]. intros s E. split; [done|].
  eapply emits_one; [reflexivity|]. exists m. auto.
Qed.

Lemma named_agent c b h m :
  SessionID m = ses_id c → keeps (emits_named c b h) (agentWrite (ses_agent c) m).
Proof.
  intros Hm s. rewrite agentWrite_run. destruct (agentH s !! ses_agent c) as [a|] eqn:Ha;
    [|reflexivity]. case_bool_decide; [|reflexivity]. simpl. intros <-. split; [done|].
  eapply emits_one; [reflexivity|]. simpl. exists m. eauto 10.
Qed.

Ltac named_walk :=
  frame_with ltac:(first
    [ by apply named_same | by apply named_browser | by apply named_agent
    | apply named_agent; first [reflexivity | assumption] ]).

Section browser_lemmas.
Context `{Crypto} `{UrlParser}.

Lemma upload_named c h u e now : keeps (emits_named c (ses_ws c) h) (uploadEvent c u e now).
Proof. unfold uploadEvent, trafficAdd. destruct e; named_walk. Qed.

Lemma download_named c h e : keeps (emits_named c (ses_ws c) h) (downloadEvent c e).
Proof. unfold downloadEvent. destruct e; named_walk. Qed.

Lemma files_named c h e : keeps (emits_named c (ses_ws c) h) (filesEvent c e).
Proof. unfold filesEvent. destruct e; named_walk. Qed.

Lemma screen_named c h e : keeps (emits_named c (ses_ws c) h) (screenEvent c e).
Proof. unfold screenEvent. destruct e; named_walk. Qed.

Lemma terminal_named c e now s :
  (∀ t, termH s !! ses_ref c = Some t → ts_browser t = ses_ws c) →
  emits_named c (ses_ws c) (agentH s) s (terminalEvent c e now s).2.
Proof.
  intros Hb. unfold terminalEvent. destruct e as [m|].
  - rewrite bind_run. cbn [getS fst snd].
    match goal with |- emits_named ?c ?b ?h s (?m s).2 =>
      assert (keeps (emits_named c b h) m) as K; [|apply K] end.
    unfold trafficAdd, trafficClose.
    destruct (termH s !! ses_ref c) as [t|]; [rewrite (Hb t eq_refl)|]; named_walk.
  - match goal with |- emits_named ?c ?b ?h s (?m s).2 =>
      assert (keeps (emits_named c b h) m) as K; [|apply K] end.
    named_walk.
Qed.

(** *** The upload loop *)

(** Writing to the device of a connected session *)
Lemma agentWrite_open p a m s :
  agentH s !! p = Some a → ac_ws a ∈ open_ws s →
  agentWrite p m s = (true, upd_wire (λ l, l ++ [(ac_ws a, Text m)]) s).
Proof. intros Ha Ho. rewrite agentWrite_run, Ha. by rewrite bool_decide_true. Qed.

Lemma trafficAdd_frame t n k now :
  keeps (λ s s', (wire s', agentH s', open_ws s') = (wire s, agentH s, open_ws s)) (trafficAdd t n k now).
Proof. unfold trafficAdd. frame. Qed.

Lemma upload_chunk c st raw now s a :
  agentH s !! ses_agent c = Some a → ac_ws a ∈ open_ws s →
  let '(r, s') := uploadEvent c (mkUpload false st) (EBinary raw) now s in
  r = (Continue, mkUpload false st) ∧ agentH s' = agentH s ∧ open_ws s' = open_ws s ∧
  wire s' = wire s ++ [(ac_ws a, Text (data_msg TypeFileChunk (ses_id c) (EncodeData raw)))].
Proof.
  intros Ha Ho. unfold uploadEvent. simpl. rewrite bind_run, (agentWrite_open _ a) by done. simpl.
  rewrite bind_run. pose proof (trafficAdd_frame (ses_traffic c) (Z.of_nat (length raw)) 0 now
    (upd_wire (λ l, l ++ [(ac_ws a, Text (data_msg TypeFileChunk (ses_id c) (EncodeData raw)))]) s)) as K.
  simpl in K. destruct (trafficAdd _ _ _ _ _) as [[] s1]. simpl in *. by injection K as -> -> ->.
Qed.

Lemma upload_chunks c st chunks rest now s a :
  agentH s !! ses_agent c = Some a → ac_ws a ∈ open_ws s →
  ∃ s', run_upload c (mkUpload false st) (map EBinary chunks ++ rest) now s =
      run_upload c (mkUpload false st) rest now s' ∧
    agentH s' !! ses_agent c = Some a ∧ ac_ws a ∈ open_ws s' ∧
    wire s' = wire s ++
      map (λ raw, (ac_ws a, Text (data_msg TypeFileChunk (ses_id c) (EncodeData raw)))) chunks.
Proof.
  revert s. induction chunks as [|raw chunks IH]; intros s Ha Ho.
  - exists s. simpl. by rewrite app_nil_r.
  - cbn [map app run_upload]. rewrite bind_run. pose proof (upload_chunk c st raw now s a Ha Ho) as Hc.
    destruct (uploadEvent c _ _ now s) as [r s1]. destruct Hc as (-> & Eh & Eo & Ew). simpl.
    destruct (IH s1) as (s' & -> & Ha' & Ho' & Ew'); [by rewrite Eh|by rewrite Eo|].
    exists s'. split_and!; try done. rewrite Ew', Ew. by rewrite <- app_assoc.
Qed.

Lemma upload_relayed c st chunks fin now s a :
  agentH s !! ses_agent c = Some a → ac_ws a ∈ open_ws s → Type_ fin = TypeFileUploadEnd →
  let msgs := map (λ raw, data_msg TypeFileChunk (ses_id c) (EncodeData raw)) chunks in
  let '(r, s') := run_upload c (mkUpload false st) (map EBinary chunks ++ [EText fin]) now s in
  r = (Continue, mkUpload true st) ∧
  wire s' = wire s ++ map (λ m, (ac_ws a, Text m)) (msgs ++ [with_session fin (ses_id c)]) ∧
  map (λ m, DecodeData (Data m)) msgs = map Ok chunks.
Proof.
  intros Ha Ho Hfin msgs.
  destruct (upload_chunks c st chunks [EText fin] now s a Ha Ho) as (s' & -> & Ha' & Ho' & Ew).
  cbn [run_upload]. rewrite bind_run.
  assert (uploadEvent c (mkUpload false st) (EText fin) now s' =
    ((Continue, mkUpload true st),
     upd_wire (λ l, l ++ [(ac_ws a, Text (with_session fin (ses_id c)))]) s')) as ->.
  { unfold uploadEvent. simpl. rewrite Hfin. simpl. rewrite bind_run, (agentWrite_open _ a) by done.
    done. }
  simpl. split_and!; [done| |].
  - rewrite Ew. unfold msgs. rewrite map_app, map_map, <- app_assoc. done.
  - unfold msgs. rewrite map_map. apply map_ext. intros raw. apply DecodeData_EncodeData_ok.
Qed.

(** *** Rights *)

Lemma authorizeWS_grants r kind now s actor s' :
  authorizeWS r kind now s = (inr actor, s') →
  canAccessDevice actor (QueryGet r "device") now s' = true ∧ agents s' = agents s.
Proof.
  intros E. split.
  - unfold authorizeWS in E. destruct (String.eqb _ ""); [done|]. destruct (negb _).
    + rewrite bind_run in E. destruct (ticketM _ s) as [[e|] s1]; simpl in E; [|done].
      rewrite bind_run in E. simpl in E. destruct (canAccessDevice _ _ _ s1) eqn:Hc; simpl in E; [|done].
      by injection E as <- <-.
    + rewrite bind_run in E. destruct (authenticate r now s) as [[a|] s1]; simpl in E; [|done].
      rewrite bind_run in E. simpl in E. destruct (canAccessDevice _ _ _ s1) eqn:Hc; simpl in E; [|done].
      by injection E as <- <-.
  - pose proof (keeps_auth_handlers (λ s s', agents s' = agents s)) as (_ & _ & K); [done..|].
    specialize (K r kind now s). simpl in K. by rewrite E in K.
Qed.

Lemma openOn_grants r kind now s actor agent s' :
  openOn r kind now s = (inr (actor, agent), s') →
  canAccessDevice actor (QueryGet r "device") now s' = true ∧
  agents s !! QueryGet r "device" = Some agent ∧ authorizeWS r kind now s = (inr actor, s').
Proof.
  unfold openOn. rewrite bind_run. destruct (authorizeWS r kind now s) as [[resp|a] s1] eqn:E; simpl; [done|].
  rewrite bind_run. simpl. destruct (authorizeWS_grants _ _ _ _ _ _ E) as [Hc Ha].
  unfold getAgent. rewrite Ha. destruct (agents s !! _); [|done]. intros Hx. injection Hx as <- <- <-. done.
Qed.
End browser_lemmas.

(** A handler opened the session [c] for the request: who was authorised, and how
    the session is wired. *)
Section openings.
Context `{Crypto} `{UrlParser}.

Definition opened_for (r : Request) (w : option WS) (sid kind : string) (now : Time) (s : Server)
    (c : session) (actor : string) : Prop :=
  ses_id c = sid ∧ Some (ses_ws c) = w ∧
  agents s !! QueryGet r "device" = Some (ses_agent c) ∧
  ∃ s1, authorizeWS r kind now s = (inr actor, s1) ∧
    canAccessDevice actor (QueryGet r "device") now s1 = true.

Ltac open_inv :=
  let E := fresh "E" in
  intros E; unfold terminalOpen, screenOpen, filesOpen in E; rewrite bind_run in E;
  match type of E with context [openOn ?r ?k ?n ?s] =>
    destruct (openOn r k n s) as [[?|[? ?]] ?] eqn:?
  end; cbn [fst snd] in E; [done|];
  match goal with w : option nat |- _ => destruct w; [|done] end;
  rewrite ?bind_run in E; simpl in E; injection E as <- _;
  match goal with Ho : openOn _ _ _ _ = (inr (?actor, _), ?s1) |- _ =>
    destruct (openOn_grants _ _ _ _ _ _ _ Ho) as (? & ? & ?);
    exists actor; split_and!; [done..|by exists s1]
  end.

Lemma terminalOpen_inv r w sid metric now s c s' :
  terminalOpen r w sid metric now s = ((None, Some c), s') →
  ∃ actor, opened_for r w sid "terminal" now s c actor.
Proof. open_inv. Qed.

Lemma screenOpen_inv r w sid metric now s c s' :
  screenOpen r w sid metric now s = ((None, Some c), s') →
  ∃ actor, opened_for r w sid "desktop" now s c actor.
Proof. open_inv. Qed.

Lemma filesOpen_inv r w sid now s c s' :
  filesOpen r w sid now s = ((None, Some c), s') →
  ∃ actor, opened_for r w sid "files" now s c actor.
Proof. open_inv. Qed.

Lemma fileOpen_inv r w sid metric now s c actor s' :
  fileOpen r w sid metric now s = ((None, Some (c, actor)), s') →
  opened_for r w sid "files" now s c actor.
Proof.
  unfold fileOpen. rewrite bind_run.
  destruct (authorizeWS r "files" now s) as [[resp|a] s1] eqn:Hau; cbn [fst snd]; [done|].
  destruct (_ && _); [done|]. rewrite bind_run. cbn [getS fst snd].
  destruct (authorizeWS_grants _ _ _ _ _ _ Hau) as [Hc Ha]. unfold getAgent. rewrite Ha.
  destruct (agents s !! QueryGet r "device") as [agent|] eqn:Hag; [|done].
  destruct w as [x|]; [|done]. intros E. rewrite ?bind_run in E. simpl in E.
  injection E as <- <- _. split_and!; [done..|by exists s1].
Qed.
End openings.

(** *** Teardown *)

(** The common end of the teardowns: a last message, the recorder, the socket *)
Definition closing (c : session) (last : option Message) (state : string) (now : Time)
    : stateM Server unit :=
  _ ← match last with Some m => agentWrite (ses_agent c) m | None => mret true end;
  _ ← trafficClose (ses_traffic c) state now;
  wsClose (ses_ws c).

Lemma close_tail c last state now s :
  let s' := (closing c last state now s).2 in
  terms s' = terms s ∧ files s' = files s ∧ screens s' = screens s ∧ ses_ws c ∉ open_ws s' ∧
  (∀ t rc row, ses_traffic c = Some t → recorderH s !! t = Some rc → tr_closed rc = false →
     db_up (reg s) = true → connection_sessions (reg s) !! tr_id rc = Some row →
     connection_sessions (reg s') !! tr_id rc =
       Some (end_row (end_state state) now (add_bytes (tr_toDevice rc) (tr_fromDevice rc) row))).
Proof.
  simpl. unfold closing. rewrite bind_run.
  set (m1 := match last with Some m => _ | None => _ end).
  assert (keeps (λ s s', (terms s', files s', screens s', recorderH s', reg s') =
    (terms s, files s, screens s, recorderH s, reg s)) m1) as K1.
  { subst m1. unfold agentWrite. frame. }
  specialize (K1 s). destruct (m1 s) as [x s1]. simpl in K1. injection K1 as E1 E2 E3 E4 E5.
  cbn [fst snd]. rewrite bind_run.
  assert (keeps (λ s s', (terms s', files s', screens s') = (terms s, files s, screens s))
    (trafficClose (ses_traffic c) state now)) as K2 by (unfold trafficClose; frame).
  specialize (K2 s1). simpl in K2. injection K2 as D1 D2 D3. simpl.
  rewrite D1, D2, D3. split_and!; try done; [set_solver|].
  intros t rc row -> Hrc Hcl Hup Hrow. rewrite <- E4 in Hrc. rewrite <- E5 in Hup, Hrow.
  by apply trafficClose_row.
Qed.

(** ** Theorems *)

Section browser_theorems.
Context `{Crypto} `{UrlParser}.

(** C20: a browser session opens only with a right to the device: whenever one of
    the four session kinds is opened, an actor was authorised for that kind who
    may reach the device at that moment, the device is connected, and the
    session's messages go to its current connection. *)
Theorem session_needs_grant r w sid metric now s c s' :
  (terminalOpen r w sid metric now s = ((None, Some c), s') →
     ∃ actor, opened_for r w sid "terminal" now s c actor) ∧
  (screenOpen r w sid metric now s = ((None, Some c), s') →
     ∃ actor, opened_for r w sid "desktop" now s c actor) ∧
  (filesOpen r w sid now s = ((None, Some c), s') →
     ∃ actor, opened_for r w sid "files" now s c actor) ∧
  (∀ actor, fileOpen r w sid metric now s = ((None, Some (c, actor)), s') →
     opened_for r w sid "files" now s c actor).
Proof.
  split_and!; eauto using terminalOpen_inv, screenOpen_inv, filesOpen_inv, fileOpen_inv.
Qed.

(** C37: a browser speaks only in the name of its own session: whatever it sends on
    a terminal, transfer, file-manager or desktop socket, each message the server
    writes in response carries that session's id and goes to the session's device
    or back to the browser. *)
Theorem browser_speaks_for_its_session c s e u ev now :
  (∀ t, termH s !! ses_ref c = Some t → ts_browser t = ses_ws c) →
  emits (in_name_of c (ses_ws c) s) s (terminalEvent c e now s).2 ∧
  emits (in_name_of c (ses_ws c) s) s (uploadEvent c u ev now s).2 ∧
  emits (in_name_of c (ses_ws c) s) s (downloadEvent c e s).2 ∧
  emits (in_name_of c (ses_ws c) s) s (filesEvent c e s).2 ∧
  emits (in_name_of c (ses_ws c) s) s (screenEvent c e s).2.
Proof.
  intros Hb. split_and!.
  - by apply terminal_named.
  - by apply (upload_named c (agentH s)).
  - by apply (download_named c (agentH s)).
  - by apply (files_named c (agentH s)).
  - by apply (screen_named c (agentH s)).
Qed.

(** The file manager is confined to file operations: a message of any other
    type is answered with an error on the browser's socket, leaves the rest of
    the server alone and does not reach the device; an allowed one is forwarded
    under the session's id. *)
Theorem manager_channel_confined c m s a :
  agentH s !! ses_agent c = Some a → ac_ws a ∈ open_ws s →
  filesEvent c (Some m) s =
    if bool_decide (Type_ m ∈ managerAllowedTypes) then
      (Continue, upd_wire (λ l, l ++ [(ac_ws a, Text (with_session m (ses_id c)))]) s)
    else
      (Continue, (wsWrite (ses_ws c)
         (Text (error_msg TypeFileError (ses_id c) "operation not allowed")) s).2).
Proof.
  intros Ha Ho. unfold filesEvent.
  assert (is_type m managerAllowedTypes = bool_decide (Type_ m ∈ managerAllowedTypes)) as ->.
  { unfold is_type. case_bool_decide as Hm.
    - apply existsb_exists. exists (Type_ m). rewrite String.eqb_refl.
      by apply list_elem_of_In in Hm.
    - apply not_true_iff_false. rewrite existsb_exists. intros (t & Ht & Heq%String.eqb_eq).
      apply Hm, list_elem_of_In. by rewrite Heq. }
  case_bool_decide; simpl; rewrite bind_run; [|done].
  by rewrite (agentWrite_open _ a).
Qed.

(** An upload arrives unchanged: for any chunks the browser sends and then
    completes, the device gets them one message each, in order, followed by the
    completion, under the session's id; decoding the chunks gives back exactly
    the bytes sent. *)
Theorem upload_relays_content c st chunks fin now s a :
  agentH s !! ses_agent c = Some a → ac_ws a ∈ open_ws s → Type_ fin = TypeFileUploadEnd →
  let msgs := map (λ raw, data_msg TypeFileChunk (ses_id c) (EncodeData raw)) chunks in
  let '(r, s') := run_upload c (mkUpload false st) (map EBinary chunks ++ [EText fin]) now s in
  r = (Continue, mkUpload true st) ∧
  wire s' = wire s ++ map (λ m, (ac_ws a, Text m)) (msgs ++ [with_session fin (ses_id c)]) ∧
  map (λ m, DecodeData (Data m)) msgs = map Ok chunks.
Proof. apply upload_relayed. Qed.

(** Data after completion is refused: once the upload is complete, a further
    chunk never reaches the device as data; the transfer fails and both ends are
    told. *)
Theorem no_data_after_completion c st raw now s :
  let '(r, s') := uploadEvent c (mkUpload true st) (EBinary raw) now s in
  r = (Return, mkUpload true "failed") ∧
  emits (λ e, e.2 = Text (error_msg TypeFileError (ses_id c) "data after upload completion")) s s'.
Proof.
  unfold uploadEvent. simpl. rewrite bind_run, bind_run. simpl. split; [done|].
  rewrite agentWrite_run, wsWrite_run.
  assert (∀ s0, emits (λ e, e.2 = Text (error_msg TypeFileError (ses_id c)
            "data after upload completion")) s0
     (if bool_decide (ses_ws c ∈ open_ws s0)
      then (true, upd_wire (λ l, l ++ [(ses_ws c, Text (error_msg TypeFileError (ses_id c)
              "data after upload completion"))]) s0)
      else (false, s0)).2) as Hb.
  { intros s0. case_bool_decide; [by eapply emits_one|by apply emits_same]. }
  etrans; [|apply Hb]. destruct (agentH s !! ses_agent c); [|by apply emits_same].
  case_bool_decide; [by eapply emits_one|by apply emits_same].
Qed.

(** Falling back to the relay is final for a terminal: from then on the
    browser's connection attempts are dropped, the device's signals (a late
    [direct-ok] included) are dropped and do not change the path, and no browser
    message changes it either. *)
Theorem terminal_fallback_final c p msg d s :
  term_relayed p s → ses_ref c = p →
  (is_type msg [TypeRTCOffer; TypeRTCICE] = true →
     ∀ now, terminalEvent c (Some msg) now s = (Continue, s)) ∧
  (terms s !! SessionID msg = Some p → Service msg = "terminal" →
     routeBrowserRTC d msg s = (tt, s)) ∧
  (∀ e now, term_relayed p (terminalEvent c e now s).2).
Proof.
  intros (t & Ht & Hr) Hp. split_and!.
  - intros Hty now. unfold terminalEvent. rewrite bind_run. cbn [getS fst snd]. rewrite Hty.
    unfold term_transport. rewrite Hp, Ht, Hr. done.
  - intros Hs Hsv. unfold routeBrowserRTC. rewrite bind_run. simpl. rewrite Hsv, Hs. simpl.
    rewrite Ht. simpl. destruct (String.eqb (ts_deviceID t) d); [|done].
    unfold deliverRTC, whenM. rewrite Hr. simpl. rewrite andb_false_r. by rewrite bind_run.
  - intros e now.
    assert (keeps (λ s s', term_relayed p s → term_relayed p s') (terminalEvent c e now)) as K;
      [|apply K; by exists t].
    assert (PreOrder (λ s s', term_relayed p s → term_relayed p s')) as Hpre.
    { split; [by intros ? ?|]. intros x y z. naive_solver. }
    unfold terminalEvent, trafficAdd, trafficClose, agentWrite.
    frame_with ltac:(idtac; match goal with
      | Hr : term_relayed p ?x |- term_relayed p _ =>
          first [ exact Hr
                | destruct Hr as (t' & Ht' & Hr'); unfold term_relayed; simpl; rewrite lookup_alter;
                  case_decide; [subst; rewrite Ht'; simpl; by eauto | by eauto] ]
      end).
Qed.

(** A desktop has one link, attached by its own device: a link is attached
    only with a valid key for the session's device, on a session that has none;
    it is then the session's link, and every further attempt is refused. *)
Theorem screen_link_once r w now s r' w' now' s' :
  screenLink r w now s = (inr true, s') →
  ∃ p t x, w = Some x ∧ screens s !! QueryGet r "session" = Some p ∧ screenH s !! p = Some t ∧
    sc_deviceID t = QueryGet r "device" ∧ sc_linkSet t = false ∧
    ValidateDeviceKey (QueryGet r "device") (agentToken r) now (reg s) = true ∧
    screenH s' !! p = Some (set_link x t) ∧
    (QueryGet r' "session" = QueryGet r "session" →
       (screenLink r' w' now' s').1 ≠ inr true).
Proof.
  unfold screenLink at 1. rewrite bind_run. simpl. unfold authorizeAgent at 1.
  destruct (ValidateDeviceKey _ _ now (reg s)) eqn:Hk; simpl; [|done].
  destruct (_ || _); [done|]. destruct w as [x|]; [|done].
  destruct (screens s !! QueryGet r "session") as [p|] eqn:Hp; simpl; [|done].
  destruct (screenH s !! p) as [t|] eqn:Ht; simpl; [|done].
  destruct (negb _ || sc_linkSet t) eqn:E; [done|]. rewrite bind_run. intros Hx. simpl in Hx.
  injection Hx as <-. bools. exists p, t, x. split_and!; try done.
  - simpl. by rewrite lookup_alter_eq, Ht.
  - intros Hs. unfold screenLink. rewrite bind_run. simpl.
    destruct (negb _); [done|]. destruct (_ || _); [done|]. destruct w' as [x'|]; [|done].
    rewrite Hs, Hp. simpl. rewrite lookup_alter_eq, Ht. simpl. rewrite orb_true_r.
    rewrite bind_run. done.
Qed.

(** Every session ends completely: the teardown of each kind removes the
    session from the server's tables and closes the browser's socket, and an
    unfinished connection row gets its end time, the final state and the bytes
    still held by the recorder. *)
Theorem session_teardown_complete c endState now s :
  let st := terminalClose c now s in
  let sf := fileClose c endState now s in
  let ss := screenClose c endState now s in
  let sm := filesClose c s in
  (terms st.2 !! ses_id c = None ∧ files sf.2 !! ses_id c = None ∧
   screens ss.2 !! ses_id c = None ∧ managers sm.2 !! ses_id c = None) ∧
  (ses_ws c ∉ open_ws st.2 ∧ ses_ws c ∉ open_ws sf.2 ∧ ses_ws c ∉ open_ws ss.2 ∧
   ses_ws c ∉ open_ws sm.2) ∧
  (∀ t rc row, ses_traffic c = Some t → recorderH s !! t = Some rc → tr_closed rc = false →
     db_up (reg s) = true → connection_sessions (reg s) !! tr_id rc = Some row →
     let row' state := Some (end_row (end_state state) now
                              (add_bytes (tr_toDevice rc) (tr_fromDevice rc) row)) in
     connection_sessions (reg st.2) !! tr_id rc = row' "closed" ∧
     connection_sessions (reg sf.2) !! tr_id rc = row' endState ∧
     connection_sessions (reg ss.2) !! tr_id rc = row' endState).
Proof.
  intros st sf ss sm.
  destruct (close_tail c (Some (session_msg TypeRTCStop (ses_id c))) "closed" now
    (upd_terms (delete (ses_id c)) s)) as (T1 & _ & _ & T4 & T5).
  destruct (close_tail c None endState now (upd_files (delete (ses_id c)) s)) as (_ & F2 & _ & F4 & F5).
  destruct (close_tail c (Some (session_msg TypeRTCStop (ses_id c))) endState now
    (upd_screenH (alter set_done (ses_ref c)) (upd_screens (delete (ses_id c)) s)))
    as (_ & _ & S3 & S4 & S5).
  assert (st = closing c (Some (session_msg TypeRTCStop (ses_id c))) "closed" now
    (upd_terms (delete (ses_id c)) s)) as -> by reflexivity.
  assert (sf = closing c None endState now (upd_files (delete (ses_id c)) s)) as -> by reflexivity.
  assert (ss = closing c (Some (session_msg TypeRTCStop (ses_id c))) endState now
    (upd_screenH (alter set_done (ses_ref c)) (upd_screens (delete (ses_id c)) s))) as ->
    by reflexivity.
  split_and!; try done.
  - rewrite T1. apply lookup_delete_eq.
  - rewrite F2. apply lookup_delete_eq.
  - rewrite S3. apply lookup_delete_eq.
  - subst sm. unfold filesClose. rewrite bind_run. simpl. apply lookup_delete_eq.
  - subst sm. unfold filesClose. rewrite bind_run. simpl. set_solver.
  - intros t rc row Ht Hrc Hcl Hup Hrow. simpl. split_and!; eauto.
Qed.
End browser_theorems.

(** ** Witnesses *)

Module BrowserDemo.
Import Toy.
#[export] Existing Instance AuthDemo.url.
Definition conf : Config := mkConfig "root-token" "/data" "" "" "" 0 "".
(** The device ["dev-30"] on socket 1, a browser on socket 2, a link on socket 3;
    a relayed terminal ["t"] and a desktop ["x"] *)
Definition srv : Server :=
  mkServer conf Toy.reg1 {["dev-30" := 0%nat]} {["t" := 1%nat]} ∅ ∅ ∅ {["x" := 2%nat]} ∅ ∅ ∅
    {[0%nat := mkAgentConn "dev-30" "10.0.0.1" 0 1%nat 0 None]}
    {[1%nat := mkTermSession "dev-30" 2%nat None "m" "relay" false]} ∅ ∅ ∅
    {[2%nat := mkScreenSession "x" "dev-30" 2%nat None false false None "" "relay" false]}
    ∅ ∅ {[1%nat; 2%nat; 3%nat]} [] 3%nat.
Definition term : session := mkSession "t" 0 1 2 None.
Definition offer : Message := session_msg TypeRTCOffer "other".
Definition link_req : Request :=
  mkRequest "GET" "/ws/screen-link" [("device", "dev-30"); ("session", "x")] ""
    [("Authorization", "Bearer 31")] [] "relay" true "10.0.0.3:99".
Definition linked : (Response + bool) * Server := screenLink link_req (Some 3%nat) 150 srv.
End BrowserDemo.
Import Toy BrowserDemo.

Lemma browser_speaks_for_its_session_witness :
  emits (in_name_of term 2 srv) srv (terminalEvent term (Some offer) 5 srv).2.
Proof.
  refine (proj1 (browser_speaks_for_its_session term srv (Some offer) (mkUpload false "closed")
    EGone 5 _)).
  intros t Ht. assert (Some t = Some (mkTermSession "dev-30" 2%nat None "m" "relay" false)) as [= ->]
    by (rewrite <- Ht; by vm_compute). done.
Defined.

Lemma manager_channel_confined_witness :
  (filesEvent term (Some offer) srv).1 = Continue ∧
  wire (filesEvent term (Some offer) srv).2 =
    [(2%nat, Text (error_msg TypeFileError "t" "operation not allowed"))].
Proof.
  rewrite (manager_channel_confined term offer srv (mkAgentConn "dev-30" "10.0.0.1" 0 1%nat 0 None));
    [by vm_compute | by vm_compute | apply (bool_decide_unpack _); by vm_compute].
Defined.

Lemma upload_relays_content_witness :
  (run_upload term (mkUpload false "closed") (map EBinary [["a"%char]; ["b"%char; "c"%char]] ++
     [EText (msg_of TypeFileUploadEnd)]) 5 srv).1 = (Continue, mkUpload true "closed").
Proof.
  pose proof (upload_relays_content term "closed" [["a"%char]; ["b"%char; "c"%char]]
    (msg_of TypeFileUploadEnd) 5 srv (mkAgentConn "dev-30" "10.0.0.1" 0 1%nat 0 None)) as Hu.
  cbv zeta in Hu. destruct (run_upload _ _ _ _ _) as [r s']. simpl.
  refine (proj1 (Hu _ _ _)); [by vm_compute | apply (bool_decide_unpack _); by vm_compute | done].
Defined.

Lemma terminal_fallback_final_witness : terminalEvent term (Some offer) 5 srv = (Continue, srv).
Proof.
  refine (proj1 (terminal_fallback_final term 1%nat offer "dev-30" srv _ eq_refl) _ 5); [|done].
  exists (mkTermSession "dev-30" 2%nat None "m" "relay" false). by vm_compute.
Defined.

Lemma screen_link_once_witness : (screenLink link_req (Some 3%nat) 160 linked.2).1 ≠ inr true.
Proof.
  destruct (screen_link_once link_req (Some 3%nat) 150 srv link_req (Some 3%nat) 160 linked.2)
    as (p & t & x & _ & _ & _ & _ & _ & _ & _ & Hno).
  - rewrite (surjective_pairing (screenLink _ _ _ _)). by f_equal.
  - by apply Hno.
Defined.

(** The console's operator opens a terminal on ["dev-30"] with the admin token. *)
Lemma session_needs_grant_witness :
  let r := mkRequest "GET" "/ws/terminal" [("device", "dev-30")] "" [("Authorization", "Bearer root-token")]
             [] "relay" true "10.0.0.3:99" in
  let o := terminalOpen r (Some 2%nat) "t2" "m2" 150 srv in
  ∃ c, o.1 = (None, Some c) ∧ ∃ actor, opened_for r (Some 2%nat) "t2" "terminal" 150 srv c actor.
Proof.
  intros r o. destruct o.1 as [[?|] [c|]] eqn:E; try (vm_compute in E; discriminate E).
  exists c. split; [done|].
  apply (proj1 (session_needs_grant r (Some 2%nat) "t2" "m2" 150 srv c o.2)).
  rewrite <- E. subst o. by destruct (terminalOpen _ _ _ _ _ _).
Defined.

(** The row ["c1"] of the registry, open, with ten bytes still in the recorder *)
Lemma session_teardown_complete_witness :
  let rec := mkRecorder "c1" 10 0 0 false in
  let s := upd_recorderH (λ _, {[7%nat := rec]}) srv in
  let c := mkSession "t" 0 1 2 (Some 7%nat) in
  terms (terminalClose c 200 s).2 !! "t" = None ∧
  ∀ row, connection_sessions (reg s) !! "c1" = Some row →
    connection_sessions (reg (terminalClose c 200 s).2) !! "c1" =
      Some (end_row "closed" 200 (add_bytes 10 0 row)).
Proof.
  intros rec s c. destruct (session_teardown_complete c "closed" 200 s) as ((Ht & _) & _ & Hrow).
  split; [exact Ht|]. intros row Hr.
  exact (proj1 (Hrow 7%nat rec row eq_refl eq_refl eq_refl eq_refl Hr)).
Defined.
