(* ===== verification/Api.v ===== *)
(** * The console API ([api.go], [users.go], [downloads.go])

    Every handler: authentication, role check, method, body, the registry calls
    and the audit record, in the order of the source.  A decoded JSON body is a
    [res]: [Err] carries the decoder's message. *)
From Stdlib Require Import ZArith Lia Ascii String.
From stdpp Require Import sorting.
From S2P Require Import Prelude GoStrings Protocol Registry Tickets Traffic Http Server Auth.
Open Scope string_scope.
Open Scope list_scope.
Open Scope Z_scope.

Section api.
Context `{Crypto} `{UrlParser}.

(** The RFC 3339 rendering that orders the listings, and what the download handler
    asks of the file system *)
Context (stamp_text : Time → string).
Context (filepath_Join : string → string → string) (is_regular : string → bool).

(** ** Guards shared by the handlers *)

(** [actor, ok := s.authenticate(r); if !ok { 401 }] *)
Definition asActor (r : Request) (now : Time) (k : string → stateM Server Response)
    : stateM Server Response :=
  a ← authenticate r now;
  match a with
  | None => mret (writeError StatusUnauthorized "unauthorized")
  | Some actor => k actor
  end.

(** [if !s.isAdmin(actor) { 403 }] *)
Definition adminOnly (actor : string) (now : Time) (k : stateM Server Response)
    : stateM Server Response :=
  s ← getS;
  if negb (isAdmin actor now s) then mret (writeError StatusForbidden "admin only") else k.

Definition asAdmin (r : Request) (now : Time) (k : string → stateM Server Response)
    : stateM Server Response :=
  asActor r now (λ actor, adminOnly actor now (k actor)).

Definition has_method (r : Request) (m : string) : bool := String.eqb (r_Method r) m.

(** ** Devices *)

Definition with_caps (d : Device) (c : option DeviceCapabilities) : Device :=
  mkDevice (dev_ID d) (dev_Name d) (dev_Hostname d) (dev_OS d) (dev_Arch d) (dev_LANIPs d)
    (dev_Group d) (dev_ForwardPolicy d) (dev_CreatedAt d) (dev_LastSeen d) (dev_Online d) c.

Definition attachCapabilities (s : Server) (d : Device) : Device :=
  match getAgent (dev_ID d) s ≫= (λ p, agentH s !! p) with
  | None => d
  | Some conn =>
      match ac_capabilities conn with
      | Some c => with_caps d (Some c)
      | None => d
      end
  end.

(** The devices an actor sees *)
Definition visible (actor : string) (now : Time) (s : Server) (devices : list Device) : list Device :=
  if isAdmin actor now s then devices
  else
    let ids := match actorInfo actor now s with Some u => user_DeviceIDs u | None => [] end in
    List.filter (λ d, existsb (String.eqb (dev_ID d)) ids) devices.

Definition handleDevices (r : Request) (now : Time) : stateM Server Response :=
  asActor r now (λ actor,
    if negb (has_method r "GET") then mret (writeHeader StatusMethodNotAllowed)
    else
      s ← getS;
      mret (writeJSON StatusOK (JArr (map JDevice
        (visible actor now s (map (attachCapabilities s) (List (reg s)))))))).

Record device_patch := mkDevicePatch {
  dp_Name : string; dp_Group : option string; dp_ForwardPolicy : string
}.

(** A registry update whose error is answered with [status], then its audit record *)
Definition updateOr (status : Z) (m : Registry → res unit * Registry)
    (actor action target detail : string) (now : Time) (k : stateM Server Response)
    : stateM Server Response :=
  e ← regM m;
  match e with
  | Err e => mret (writeError status e)
  | Ok _ => _ ← audit actor action target detail now; k
  end.

Definition zero_device : Device :=
  mkDevice "" "" "" "" "" [] "" "" zeroTime zeroTime false None.

Definition handleDeviceByID (r : Request) (body : res device_patch) (now : Time)
    : stateM Server Response :=
  asActor r now (λ actor,
    let id := TrimPrefix (r_Path r) "/api/devices/" in
    if String.eqb id "" || str_mem "/" id then
      mret (writeError StatusBadRequest "missing device id")
    else if has_method r "GET" then
      s ← getS;
      if negb (canAccessDevice actor id now s) then
        mret (writeError StatusForbidden "device not granted")
      else match Get id (reg s) with
           | None => mret (writeError StatusNotFound "device not found")
           | Some d => mret (writeJSON StatusOK (JDevice (attachCapabilities s d)))
           end
    else if has_method r "PATCH" then
      adminOnly actor now (
        match body with
        | Err e => mret (writeError StatusBadRequest e)
        | Ok req =>
            let last :=
              s ← getS;
              mret (writeJSON StatusOK (JDevice (attachCapabilities s
                (match Get id (reg s) with Some d => d | None => zero_device end)))) in
            let policy :=
              if negb (String.eqb (dp_ForwardPolicy req) "") then
                if negb (ValidForwardPolicy (dp_ForwardPolicy req)) then
                  mret (writeError StatusBadRequest "forwardPolicy must be 'any' or 'restricted'")
                else updateOr StatusNotFound (SetForwardPolicy id (dp_ForwardPolicy req))
                       actor "device.forward-policy" id (dp_ForwardPolicy req) now last
              else last in
            let group :=
              match dp_Group req with
              | Some g => updateOr StatusNotFound (SetGroup id g) actor "device.group" id g now policy
              | None => policy
              end in
            if negb (String.eqb (dp_Name req) "") then
              updateOr StatusNotFound (Rename id (dp_Name req)) actor "device.rename" id (dp_Name req)
                now group
            else group
        end)
    else if has_method r "DELETE" then
      adminOnly actor now (
        updateOr StatusNotFound (Delete id) actor "device.delete" id "" now
          (mret (writeHeader StatusNoContent)))
    else mret (writeHeader StatusMethodNotAllowed)).

(** ** Forwarding policy *)

Record forwardGrantRequest := mkGrantRequest {
  gr_SourceDevice : string; gr_TargetDevice : string; gr_PortMin : Z; gr_PortMax : Z
}.

Definition grant_valid (g : forwardGrantRequest) : bool :=
  negb (String.eqb (gr_SourceDevice g) "") && negb (String.eqb (gr_TargetDevice g) "") &&
  (0 <? gr_PortMin g) && (0 <? gr_PortMax g).

Definition grant_detail (g : forwardGrantRequest) : string :=
  gr_TargetDevice g +:+ ":" +:+ Itoa (gr_PortMin g) +:+ "-" +:+ Itoa (gr_PortMax g).

(** [forwardGrantTarget]: the query first; the body is decoded over it ([decode]
    gives the decoded request from the one read so far). *)
Definition forwardGrantTarget (r : Request)
    (decode : forwardGrantRequest → res forwardGrantRequest) : option forwardGrantRequest :=
  let req := mkGrantRequest (QueryGet r "sourceDevice") (QueryGet r "targetDevice")
               (Atoi (QueryGet r "portMin")).1 (Atoi (QueryGet r "portMax")).1 in
  if grant_valid req then Some req
  else match decode req with
       | Err _ => None
       | Ok req => if grant_valid req then Some req else None
       end.

Definition handleForwardPolicy (r : Request) (now : Time) : stateM Server Response :=
  asAdmin r now (λ actor,
    if negb (has_method r "GET") then mret (writeHeader StatusMethodNotAllowed)
    else s ← getS; mret (writeJSON StatusOK (JArr (map JPolicy (ListForwardPolicies (reg s)))))).

Definition handleForwardGrants (r : Request) (body : res forwardGrantRequest)
    (decode : forwardGrantRequest → res forwardGrantRequest) (now : Time) : stateM Server Response :=
  asAdmin r now (λ actor,
    s ← getS;
    if has_method r "GET" then
      let source := QueryGet r "sourceDevice" in
      if negb (String.eqb source "") then
        mret (writeJSON StatusOK (JArr (map JGrant (ListForwardGrantsFor source (reg s)))))
      else mret (writeJSON StatusOK (JArr (map JGrant (ListForwardGrants (reg s)))))
    else if has_method r "POST" then
      match body with
      | Err e => mret (writeError StatusBadRequest e)
      | Ok req =>
          updateOr StatusBadRequest
            (AddForwardGrant (gr_SourceDevice req) (gr_TargetDevice req) (gr_PortMin req)
               (gr_PortMax req) now)
            actor "forward-grant.create" (gr_SourceDevice req) (grant_detail req) now
            (s ← getS;
             mret (writeJSON StatusCreated
               (match GetForwardGrant (gr_SourceDevice req) (gr_TargetDevice req) (gr_PortMin req)
                        (gr_PortMax req) (reg s) with
                | Some g => JGrant g
                | None => JGrant (mkForwardGrant "" "" 0 0 zeroTime)
                end)))
      end
    else if has_method r "DELETE" then
      match forwardGrantTarget r decode with
      | None => mret (writeError StatusBadRequest
                  "sourceDevice, targetDevice, portMin and portMax are required")
      | Some req =>
          updateOr StatusNotFound
            (DeleteForwardGrant (gr_SourceDevice req) (gr_TargetDevice req) (gr_PortMin req)
               (gr_PortMax req))
            actor "forward-grant.delete" (gr_SourceDevice req) (grant_detail req) now
            (mret (writeHeader StatusNoContent))
      end
    else mret (writeHeader StatusMethodNotAllowed)).

(** ** Statistics *)

(** [byOS[d.OS]++] over the list *)
Definition count_os (devices : list Device) : gmap string Z :=
  foldl (λ m d, <[dev_OS d := default 0 (m !! dev_OS d) + 1]> m) ∅ devices.

Definition count_online (devices : list Device) : Z :=
  foldl (λ n d, if dev_Online d then n + 1 else n) 0 devices.

(** The groups in order of first appearance, without the empty one *)
Fixpoint first_groups (seen : list string) (devices : list Device) : list string :=
  match devices with
  | [] => []
  | d :: devices =>
      if negb (String.eqb (dev_Group d) "") && negb (existsb (String.eqb (dev_Group d)) seen)
      then dev_Group d :: first_groups (dev_Group d :: seen) devices
      else first_groups seen devices
  end.

Definition handleStats (r : Request) (now : Time) : stateM Server Response :=
  asActor r now (λ actor,
    s ← getS;
    let devices := visible actor now s (List (reg s)) in
    let activity := if isAdmin actor now s then ListAudit 10 (reg s) else [] in
    mret (writeJSON StatusOK (JObj
      [("total", JNum (Z.of_nat (length devices))); ("online", JNum (count_online devices));
       ("groups", JArr (map JStr (merge_sort String.le (first_groups [] devices))));
       ("byOS", JObj (map (λ kv, (kv.1, JNum kv.2)) (map_to_list (count_os devices))));
       ("recentActivity", JArr (map JAudit activity))]))).

(** ** Device keys and invites *)

(** [key, err := ...] answered with [status] on error, then the audit record *)
Definition createOr {A} (status : Z) (m : Registry → res A * Registry)
    (actor action : string) (target detail : A → string) (now : Time) (k : A → Response)
    : stateM Server Response :=
  e ← regM m;
  match e with
  | Err e => mret (writeError status e)
  | Ok a => _ ← audit actor action (target a) (detail a) now; mret (k a)
  end.

Definition handleDeviceKeys (r : Request) (body : res string) (idBytes tokenBytes : option bytes)
    (now : Time) : stateM Server Response :=
  asAdmin r now (λ actor,
    s ← getS;
    if has_method r "GET" then
      mret (writeJSON StatusOK (JArr (map JKey (ListDeviceKeys stamp_text (reg s)))))
    else if has_method r "POST" then
      match body with
      | Err e => mret (writeError StatusBadRequest e)
      | Ok name =>
          if String.eqb name "" then mret (writeError StatusBadRequest "name is required")
          else createOr StatusInternalServerError
                 (CreateDeviceKey idBytes tokenBytes name (KeyTTL (cfg s)) now)
                 actor "device-key.create" key_DeviceID (λ _, name) now
                 (λ key, writeJSON StatusCreated (JKey key))
      end
    else mret (writeHeader StatusMethodNotAllowed)).

Definition handleDeviceKeyByID (r : Request) (tokenBytes : option bytes) (now : Time)
    : stateM Server Response :=
  asAdmin r now (λ actor,
    s ← getS;
    let rest := TrimByte (TrimPrefix (r_Path r) "/api/device-keys/") "/" in
    let segments := Split rest "/" in
    let id := match segments with x :: _ => x | [] => "" end in
    if String.eqb id "" then mret (writeError StatusBadRequest "missing device id")
    else match segments with
    | [] | [_] =>
        if negb (has_method r "DELETE") then
          mret (writeError StatusMethodNotAllowed "method not allowed")
        else updateOr StatusNotFound (RevokeDeviceKey id) actor "device-key.revoke" id "" now
               (mret (writeHeader StatusNoContent))
    | [_; op] =>
        if negb (String.eqb op "rotate") then
          mret (writeError StatusNotFound "unknown device key operation")
        else if negb (has_method r "POST") then
          mret (writeError StatusMethodNotAllowed "rotate requires POST")
        else createOr StatusNotFound (RotateDeviceKey id tokenBytes (KeyTTL (cfg s)) now)
               actor "device-key.rotate" (λ _, id) (λ _, "") now
               (λ key, writeJSON StatusOK (JKey key))
    | _ => mret (writeError StatusNotFound "unknown device key operation")
    end).

Definition handleInvites (r : Request) (body : res string) (rnd : option bytes) (now : Time)
    : stateM Server Response :=
  asAdmin r now (λ actor,
    s ← getS;
    if has_method r "GET" then
      mret (writeJSON StatusOK (JArr (map JInvite (ListInvites stamp_text (reg s)))))
    else if has_method r "POST" then
      match body with
      | Err e => mret (writeError StatusBadRequest e)
      | Ok name =>
          createOr StatusInternalServerError (CreateInvite rnd name (KeyTTL (cfg s)) now)
            actor "invite.create" inv_Code (λ _, name) now
            (λ inv, writeJSON StatusCreated (JInvite inv))
      end
    else mret (writeHeader StatusMethodNotAllowed)).

Definition handleInviteByCode (r : Request) (now : Time) : stateM Server Response :=
  asAdmin r now (λ actor,
    let code := TrimPrefix (r_Path r) "/api/invites/" in
    if negb (has_method r "DELETE") || String.eqb code "" || str_mem "/" code then
      mret (writeHeader StatusMethodNotAllowed)
    else updateOr StatusNotFound (UseInvite code) actor "invite.delete" code "" now
           (mret (writeHeader StatusNoContent))).

(** [handleEnroll]: the three registry calls are separate statements *)
Definition handleEnroll (r : Request) (body : option (string * string))
    (idBytes tokenBytes : option bytes) (now : Time) : stateM Server Response :=
  if negb (has_method r "POST") then mret (writeHeader StatusMethodNotAllowed)
  else match body with
  | None => mret (writeError StatusBadRequest "invalid request")
  | Some (code, reqName) =>
      s ← getS;
      match ValidateInvite code now (reg s) with
      | Err e => mret (writeError StatusUnauthorized e)
      | Ok inv =>
          let name := if String.eqb reqName "" then inv_Name inv else reqName in
          key ← regM (CreateDeviceKey idBytes tokenBytes name (KeyTTL (cfg s)) now);
          match key with
          | Err e => mret (writeError StatusInternalServerError e)
          | Ok key =>
              used ← regM (UseInvite code);
              match used with
              | Err e => mret (writeError StatusInternalServerError e)
              | Ok _ =>
                  _ ← audit ("enroll:" +:+ code) "device.enroll" (key_DeviceID key) name now;
                  mret (writeJSON StatusCreated (JKey key))
              end
          end
      end
  end.

Definition handleAudit (r : Request) (now : Time) : stateM Server Response :=
  asAdmin r now (λ actor,
    let raw := QueryGet r "limit" in
    let limit := if negb (String.eqb raw "") then
                   (let '(n, ok) := Atoi raw in if ok : bool then n else 50)
                 else 50 in
    s ← getS; mret (writeJSON StatusOK (JArr (map JAudit (ListAudit limit (reg s)))))).

(** ** Users *)

Record user_create := mkUserCreate {
  uc_Username : string; uc_Password : string; uc_Role : string; uc_DeviceIDs : list string;
  uc_ExpiresAt : Time
}.

Definition handleUsers (r : Request) (body : res user_create) (salt : string) (now : Time)
    : stateM Server Response :=
  asAdmin r now (λ actor,
    s ← getS;
    if has_method r "GET" then
      mret (writeJSON StatusOK (JArr (map JUser (ListUsers (reg s)))))
    else if has_method r "POST" then
      match body with
      | Err e => mret (writeError StatusBadRequest e)
      | Ok req =>
          let role := if String.eqb (uc_Role req) "" then "operator" else uc_Role req in
          if negb (String.eqb role "admin") && negb (String.eqb role "operator") then
            mret (writeError StatusBadRequest "role must be admin or operator")
          else
            updateOr StatusConflict
              (CreateUser (uc_Username req) (uc_Password req) role (uc_DeviceIDs req)
                 (uc_ExpiresAt req) salt now)
              actor "user.create" (uc_Username req) role now
              (mret (writeJSON StatusCreated (JObj [("username", JStr (uc_Username req))])))
      end
    else mret (writeHeader StatusMethodNotAllowed)).

(** The [expiresAt] field of a user update *)
Inductive expiry_field := XOmitted | XNull | XTime (t : Time) | XMalformed.

Record user_patch := mkUserPatch {
  pt_Password : option string; pt_Role : option string; pt_DeviceIDs : option (list string);
  pt_ExpiresAt : expiry_field
}.

(** The check of the DELETE branch: [None] to go on *)
Definition lastAdminCheck (username : string) (g : Registry) : option Response :=
  match GetUser username g with
  | Err _ => Some (writeError StatusNotFound "user not found")
  | Ok user =>
      if String.eqb (user_Role user) "admin" then
        let admins := length (List.filter (λ u, String.eqb (user_Role u) "admin") (ListUsers g)) in
        if (Z.of_nat admins <=? 1) then Some (writeError StatusConflict "cannot delete the last admin")
        else None
      else None
  end.

Definition handleUserByUsername (r : Request) (body : res user_patch) (salt : string) (now : Time)
    : stateM Server Response :=
  asAdmin r now (λ actor,
    let username := TrimPrefix (r_Path r) "/api/users/" in
    if String.eqb username "" || str_mem "/" username then
      mret (writeError StatusBadRequest "missing username")
    else
      s ← getS;
      if has_method r "GET" then
        match GetUser username (reg s) with
        | Err _ => mret (writeError StatusNotFound "user not found")
        | Ok user => mret (writeJSON StatusOK (JUser user))
        end
      else if has_method r "PATCH" then
        match body with
        | Err e => mret (writeError StatusBadRequest e)
        | Ok req =>
            let go expiresAt :=
              e ← regM (UpdateUser username (pt_Password req) (pt_Role req) (pt_DeviceIDs req)
                    expiresAt salt);
              match e with
              | Err e =>
                  let status := StatusBadRequest in
                  let status := if String.eqb e "user not found" then StatusNotFound else status in
                  let status := if String.eqb e "cannot demote the last admin" then StatusConflict
                                else status in
                  mret (writeError status e)
              | Ok _ =>
                  _ ← audit actor "user.update" username "" now;
                  mret (writeJSON StatusOK (JObj [("username", JStr username)]))
              end in
            match pt_ExpiresAt req with
            | XOmitted => go None
            | XNull => go (Some zeroTime)
            | XTime t => go (Some t)
            | XMalformed =>
                mret (writeError StatusBadRequest "expiresAt must be an RFC3339 timestamp or null")
            end
        end
      else if has_method r "DELETE" then
        match lastAdminCheck username (reg s) with
        | Some resp => mret resp
        | None =>
            updateOr StatusNotFound (DeleteUser username) actor "user.delete" username "" now
              (mret (writeHeader StatusNoContent))
        end
      else mret (writeHeader StatusMethodNotAllowed)).

(** ** Agent downloads *)

Definition agentPlatforms : list string :=
  ["linux-amd64"; "linux-arm64"; "darwin-amd64"; "darwin-arm64"; "windows-amd64"].

(** [agentBinary]: the path and whether it is an available build *)
Fixpoint find_platform (dir platform : string) (l : list string) : string * bool :=
  match l with
  | [] => ("", false)
  | allowed :: l =>
      if negb (String.eqb platform allowed) then find_platform dir platform l
      else
        let name := "warpmesh-agent-" +:+ allowed in
        let name := if HasPrefix platform "windows-" then name +:+ ".exe" else name in
        let path := filepath_Join dir name in
        (path, is_regular path)
  end.

Definition agentBinary (platform : string) (s : Server) : string * bool :=
  if String.eqb (AgentDir (cfg s)) "" then ("", false)
  else find_platform (AgentDir (cfg s)) platform agentPlatforms.

(** The listing, an error, or the file to serve *)
Inductive download := DResponse (resp : Response) | DFile (path filename : string).

Definition handleAgentDownloads (r : Request) (now : Time) : stateM Server download :=
  a ← authenticate r now;
  match a with
  | None => mret (DResponse (writeError StatusUnauthorized "unauthorized"))
  | Some _ =>
      if negb (has_method r "GET") && negb (has_method r "HEAD") then
        mret (DResponse (writeHeader StatusMethodNotAllowed))
      else
        s ← getS;
        let platform := TrimPrefix (r_Path r) "/api/agent-downloads" in
        if String.eqb platform "" || String.eqb platform "/" then
          mret (DResponse (writeJSON StatusOK (JArr (map (λ name,
            JObj [("platform", JStr name); ("available", JBool (agentBinary name s).2)])
            agentPlatforms))))
        else
          let platform := TrimPrefix platform "/" in
          let '(path, ok) := agentBinary platform s in
          if negb ok then
            mret (DResponse (writeError StatusNotFound
              "Agent build is not available for this platform."))
          else
            mret (DFile path (if HasPrefix platform "windows-" then "warpmesh-agent.exe"
                              else "warpmesh-agent"))
  end.

End api.
