(* ===== verification/ApiProps.v ===== *)
(** * Properties of the console API

    Changes need an administrator, an operator sees its own devices, an
    administrator always remains, an invite enrols one device, and the download
    endpoint serves nothing but agent builds. *)
From stdpp Require Import sorting.
From Stdlib Require Import ZArith Lia Ascii String.
From S2P Require Import Prelude GoStrings Protocol Registry RegistryProps Tickets Traffic Http.
From S2P Require Import Server Auth AuthProps Api.
Open Scope string_scope.
Open Scope list_scope.
Open Scope Z_scope.

(** ** Requests *)

Inductive api_op :=
| ADevices (r : Request) (now : Time)
| ADeviceByID (r : Request) (body : res device_patch) (now : Time)
| AForwardPolicy (r : Request) (now : Time)
| AForwardGrants (r : Request) (body : res forwardGrantRequest)
    (decode : forwardGrantRequest → res forwardGrantRequest) (now : Time)
| AStats (r : Request) (now : Time)
| ADeviceKeys (r : Request) (body : res string) (ib tb : option bytes) (now : Time)
| ADeviceKeyByID (r : Request) (tb : option bytes) (now : Time)
| AInvites (r : Request) (body : res string) (rnd : option bytes) (now : Time)
| AInviteByCode (r : Request) (now : Time)
| AAudit (r : Request) (now : Time)
| AUsers (r : Request) (body : res user_create) (salt : string) (now : Time)
| AUserByUsername (r : Request) (body : res user_patch) (salt : string) (now : Time).

Definition op_request (op : api_op) : Request * Time :=
  match op with
  | ADevices r now | AForwardPolicy r now | AStats r now | AInviteByCode r now | AAudit r now
  | ADeviceByID r _ now | AForwardGrants r _ _ now | ADeviceKeys r _ _ _ now
  | ADeviceKeyByID r _ now | AInvites r _ _ now | AUsers r _ _ now | AUserByUsername r _ _ now => (r, now)
  end.

Section api_lemmas.
Context `{Crypto} `{UrlParser} (stamp_text : Time → string).

Definition run_api (op : api_op) : stateM Server Response :=
  match op with
  | ADevices r now => handleDevices r now
  | ADeviceByID r body now => handleDeviceByID r body now
  | AForwardPolicy r now => handleForwardPolicy r now
  | AForwardGrants r body decode now => handleForwardGrants r body decode now
  | AStats r now => handleStats r now
  | ADeviceKeys r body ib tb now => handleDeviceKeys stamp_text r body ib tb now
  | ADeviceKeyByID r tb now => handleDeviceKeyByID r tb now
  | AInvites r body rnd now => handleInvites stamp_text r body rnd now
  | AInviteByCode r now => handleInviteByCode r now
  | AAudit r now => handleAudit r now
  | AUsers r body salt now => handleUsers r body salt now
  | AUserByUsername r body salt now => handleUserByUsername r body salt now
  end.

(** The request was made by an administrator. *)
Definition by_admin (r : Request) (now : Time) (s : Server) : Prop :=
  ∃ actor, (authenticate r now s).1 = Some actor ∧ isAdmin actor now s = true.

Lemma isAdmin_reg actor now s s' : reg s' = reg s → isAdmin actor now s' = isAdmin actor now s.
Proof. intros E. unfold isAdmin, actorInfo. by rewrite E. Qed.

Lemma asActor_reg r now k s :
  (∀ actor s0, reg s0 = reg s → (authenticate r now s).1 = Some actor →
     reg (k actor s0).2 = reg s ∨ by_admin r now s) →
  reg (asActor r now k s).2 = reg s ∨ by_admin r now s.
Proof.
  intros Hk. unfold asActor. rewrite bind_run.
  destruct (authenticate_keeps r now s) as (E & _).
  destruct (authenticate r now s) as [[actor|] s1] eqn:Ha; simpl in *; [|by left].
  destruct (Hk actor s1 E eq_refl); auto.
Qed.

Lemma adminOnly_reg r actor now k s s0 :
  reg s0 = reg s → (authenticate r now s).1 = Some actor →
  reg (adminOnly actor now k s0).2 = reg s ∨ by_admin r now s.
Proof.
  intros E Ha. unfold adminOnly. rewrite bind_run. simpl. rewrite (isAdmin_reg _ _ s s0 E).
  destruct (isAdmin actor now s) eqn:Hadm; simpl; [|by left]. right. by exists actor.
Qed.

Lemma asAdmin_reg r now k s : reg (asAdmin r now k s).2 = reg s ∨ by_admin r now s.
Proof. apply asActor_reg. intros. by apply adminOnly_reg with (actor := actor). Qed.

(** *** The number of administrators *)

Definition keeps_admin (s s' : Server) : Prop :=
  1 ≤ count_admins (reg s) → 1 ≤ count_admins (reg s').
#[export] Instance keeps_admin_preorder : PreOrder keeps_admin.
Proof. split; [by intros ? ?|]. intros x y z. unfold keeps_admin. auto. Qed.

Lemma keeps_admin_users s s' : users (reg s') = users (reg s) → keeps_admin s s'.
Proof. unfold keeps_admin, count_admins. by intros ->. Qed.

Lemma keeps_admin_op op s :
  match op with
  | OpEnsureUser _ _ _ _ _ | OpCreateUser _ _ _ _ _ _ _ | OpUpdateUser _ _ _ _ _ _
  | OpDeleteUser _ => False
  | _ => True
  end → keeps_admin s (upd_reg (run_op op) s).
Proof.
  intros Hop. apply keeps_admin_users. simpl. pose proof (users_untouched op (reg s)) as Hu.
  by destruct op.
Qed.

Lemma keeps_admin_authenticate r now : keeps keeps_admin (authenticate r now).
Proof. apply keeps_authenticate; [apply _|]. intros. by apply keeps_admin_users. Qed.

Lemma keeps_admin_audit a b c d now : keeps keeps_admin (audit a b c d now).
Proof.
  unfold audit. frame_with ltac:(apply keeps_admin_users; simpl; unfold RecordAudit, sql_exec;
    case_match; reflexivity).
Qed.

(** A registry call that leaves the accounts alone *)
Ltac untouched :=
  lazymatch goal with |- keeps_admin _ _ => idtac end;
  apply keeps_admin_users; simpl;
  unfold Rename, SetGroup, SetForwardPolicy, updateField, Delete, AddForwardGrant,
    DeleteForwardGrant, CreateDeviceKey, RotateDeviceKey, RevokeDeviceKey, CreateInvite, UseInvite,
    sql_exec; repeat case_match; reflexivity.

Ltac admin_walk :=
  unfold asAdmin, asActor, adminOnly, updateOr, createOr;
  frame_with ltac:(first
    [ apply keeps_admin_authenticate | apply keeps_admin_audit
    | untouched
    | lazymatch goal with |- keeps _ _ => fail | _ => idtac end;
      first [ intros ?; by apply UpdateUser_keeps_admin
            | intros ?; unfold CreateUser; repeat case_match; simpl; try done;
              by apply insert_user_keeps_admin ] ]).

Lemma keeps_admin_devices r body now : keeps keeps_admin (handleDeviceByID r body now).
Proof. unfold handleDeviceByID. admin_walk. Qed.
Lemma filter_length_perm {A} (f : A → bool) l l' :
  l ≡ₚ l' → length (List.filter f l) = length (List.filter f l').
Proof.
  induction 1; simpl; repeat case_match; simpl; congruence.
Qed.

(** Counting the administrators of the listing is counting them in the table. *)
Lemma count_admins_listing (m : gmap string user_row) :
  length (List.filter (λ u, String.eqb (user_Role u) "admin")
            (map (λ kv, user_of kv.1 kv.2) (map_to_list m))) =
  size (filter (λ kv, u_role kv.2 = "admin") m).
Proof.
  induction m as [|k u m Hk IH] using map_ind.
  - by rewrite map_to_list_empty, map_filter_empty, map_size_empty.
  - assert (map (λ kv, user_of kv.1 kv.2) (map_to_list (<[k := u]> m)) ≡ₚ
      user_of k u :: map (λ kv, user_of kv.1 kv.2) (map_to_list m)) as Hp
      by (by rewrite map_to_list_insert).
    rewrite (filter_length_perm _ _ _ Hp). simpl.
    destruct (String.eqb_spec (u_role u) "admin") as [Hr|Hr]; simpl; rewrite IH.
    + rewrite map_filter_insert_True by done. rewrite map_size_insert_None; [done|].
      apply map_lookup_filter_None. by left.
    + rewrite map_filter_insert_False by done. by rewrite delete_id.
Qed.

(** The check of the DELETE branch finds another administrator. *)
Lemma lastAdminCheck_other username g :
  lastAdminCheck username g = None → 1 ≤ count_admins g → 1 ≤ count_admins (DeleteUser username g).2.
Proof.
  intros Hc Hadm. unfold lastAdminCheck in Hc. unfold DeleteUser.
  destruct (db_up g) eqn:Hup; [|done]. simpl. destruct (users g !! username) as [row|] eqn:Hu; [|done].
  assert (GetUser username g = Ok (user_of username row)) as Hg
    by (unfold GetUser, getUserLocked; by rewrite Hup, Hu).
  rewrite Hg in Hc. apply count_admins_set_users.
  assert (∃ n' u', n' ≠ username ∧ users g !! n' = Some u' ∧ u_role u' = "admin")
    as (n' & u' & Hne & Hn' & Hr').
  { simpl in Hc. destruct (String.eqb_spec (u_role row) "admin") as [Hr|Hr].
    - apply count_admins_two. destruct (_ <=? 1) eqn:E; [done|].
      assert (Z.of_nat (length (List.filter (λ u, String.eqb (user_Role u) "admin") (ListUsers g)))
              = count_admins g) as <-; [|lia].
      unfold count_admins. f_equal. unfold ListUsers. rewrite Hup. unfold order_by_nocase.
      rewrite <- count_admins_listing. apply filter_length_perm, merge_sort_Permutation.
    - apply count_admins_witness in Hadm as (n' & u' & ? & ?). exists n', u'.
      split_and!; [|done..]. intros ->. congruence. }
  exists n', u'. rewrite lookup_delete_ne; done.
Qed.

Lemma keeps_admin_user r body salt now : keeps keeps_admin (handleUserByUsername r body salt now).
Proof.
  unfold handleUserByUsername, asAdmin, asActor, adminOnly.
  apply keeps_bind; [apply _|apply keeps_admin_authenticate|]. intros [actor|]; [|admin_walk].
  apply keeps_bind; [apply _|admin_walk|]. intros s0. destruct (negb _); [admin_walk|].
  destruct (_ || _); [admin_walk|]. intros s. rewrite bind_run. cbn [getS fst snd].
  destruct (has_method r "GET"); [by case_match|].
  destruct (has_method r "PATCH").
  { match goal with |- keeps_admin s (?m s).2 => assert (keeps keeps_admin m) as K; [|apply K] end.
    admin_walk. }
  destruct (has_method r "DELETE"); [|done].
  destruct (lastAdminCheck _ (reg s)) as [resp|] eqn:Hc; [done|].
  unfold updateOr. rewrite bind_run. unfold regM.
  pose proof (lastAdminCheck_other _ _ Hc) as Hl.
  destruct (DeleteUser _ (reg s)) as [[[]|e] g]; simpl; [|done].
  etrans; [|match goal with |- keeps_admin _ (?m _).2 =>
    assert (keeps keeps_admin m) as K; [admin_walk | apply K] end]. done.
Qed.

Lemma keeps_admin_api op : keeps keeps_admin (run_api op).
Proof.
  destruct op; cbn [run_api].
  - unfold handleDevices. admin_walk.
  - apply keeps_admin_devices.
  - unfold handleForwardPolicy. admin_walk.
  - unfold handleForwardGrants. admin_walk.
  - unfold handleStats. admin_walk.
  - unfold handleDeviceKeys. admin_walk.
  - unfold handleDeviceKeyByID. admin_walk.
  - unfold handleInvites. admin_walk.
  - unfold handleInviteByCode. admin_walk.
  - unfold handleAudit. admin_walk.
  - unfold handleUsers. admin_walk.
  - apply keeps_admin_user.
Qed.
End api_lemmas.

(** ** Concurrent enrolments

    [handleEnroll] makes three separate registry calls, so any number of requests
    may interleave between them, and other handlers may change the registry. *)
Inductive enroll :=
| EnStart (code reqName : string)                  (* the request is decoded *)
| EnValidated (code name : string)                 (* ValidateInvite returned *)
| EnKeyed (code : string) (key : DeviceKey)        (* CreateDeviceKey returned *)
| EnDone (code : string) (answer : res DeviceKey). (* the response *)

Section enrolment.
Context `{Crypto}.

(** One call of one of the requests, or a change by someone else that does not
    bring an invite code (back) into existence *)
Inductive enroll_step : Registry * list enroll → Registry * list enroll → Prop :=
| es_valid i code reqName now inv r ts :
    ts !! i = Some (EnStart code reqName) → ValidateInvite code now r = Ok inv →
    enroll_step (r, ts)
      (r, <[i := EnValidated code (if String.eqb reqName "" then inv_Name inv else reqName)]> ts)
| es_invalid i code reqName now e r ts :
    ts !! i = Some (EnStart code reqName) → ValidateInvite code now r = Err e →
    enroll_step (r, ts) (r, <[i := EnDone code (Err e)]> ts)
| es_key i code name ib tb ttl now key r r' ts :
    ts !! i = Some (EnValidated code name) →
    CreateDeviceKey ib tb name ttl now r = (Ok key, r') →
    enroll_step (r, ts) (r', <[i := EnKeyed code key]> ts)
| es_nokey i code name ib tb ttl now e r r' ts :
    ts !! i = Some (EnValidated code name) →
    CreateDeviceKey ib tb name ttl now r = (Err e, r') →
    enroll_step (r, ts) (r', <[i := EnDone code (Err e)]> ts)
| es_used i code key r r' ts :
    ts !! i = Some (EnKeyed code key) → UseInvite code r = (Ok tt, r') →
    enroll_step (r, ts) (r', <[i := EnDone code (Ok key)]> ts)
| es_unused i code key e r r' ts :
    ts !! i = Some (EnKeyed code key) → UseInvite code r = (Err e, r') →
    enroll_step (r, ts) (r', <[i := EnDone code (Err e)]> ts)
| es_other r r' ts :
    (∀ c, is_Some (invite_codes r' !! c) → is_Some (invite_codes r !! c)) →
    enroll_step (r, ts) (r', ts).

Definition succeeded (code : string) (t : enroll) : bool :=
  match t with EnDone c (Ok _) => String.eqb c code | _ => false end.
Definition successes (code : string) (ts : list enroll) : nat :=
  length (List.filter (succeeded code) ts).
Definition invites (code : string) (r : Registry) : nat :=
  match invite_codes r !! code with Some _ => 1 | None => 0 end.

Lemma successes_insert code i x y ts :
  ts !! i = Some x →
  (successes code (<[i := y]> ts) + Nat.b2n (succeeded code x) =
   successes code ts + Nat.b2n (succeeded code y))%nat.
Proof.
  unfold successes. revert i. induction ts as [|t ts IH]; intros [|i] Hi; simpl in *; try done.
  - injection Hi as ->. destruct (succeeded code x), (succeeded code y); simpl; lia.
  - specialize (IH i Hi). destruct (succeeded code t); simpl; lia.
Qed.

Lemma enroll_step_balance code r ts r' ts' :
  enroll_step (r, ts) (r', ts') →
  (successes code ts' + invites code r' ≤ successes code ts + invites code r)%nat.
Proof.
  inversion 1 as [i c n now inv ? ? Hi Hv|i c n now e ? ? Hi Hv|i c n ib tb ttl now key ? ? ? Hi Hk|
    i c n ib tb ttl now e ? ? ? Hi Hk|i c key ? ? ? Hi Hu|i c key e ? ? ? Hi Hu|? ? ? Hsub];
    simplify_eq.
  - pose proof (successes_insert code i _
      (EnValidated c (if String.eqb n "" then inv_Name inv else n)) ts Hi) as E. simpl in E. lia.
  - pose proof (successes_insert code i _ (EnDone c (Err e)) ts Hi) as E. simpl in E. lia.
  - pose proof (successes_insert code i _ (EnKeyed c key) ts Hi) as E. simpl in E.
    assert (invite_codes r' = invite_codes r) as Hinv
      by (unfold CreateDeviceKey in Hk; repeat case_match; by simplify_eq).
    unfold invites. rewrite Hinv. lia.
  - pose proof (successes_insert code i _ (EnDone c (Err e)) ts Hi) as E. simpl in E.
    assert (invite_codes r' = invite_codes r) as Hinv
      by (unfold CreateDeviceKey in Hk; repeat case_match; by simplify_eq).
    unfold invites. rewrite Hinv. lia.
  - pose proof (successes_insert code i _ (EnDone c (Ok key)) ts Hi) as E. simpl in E.
    unfold UseInvite in Hu. destruct (db_up r); simpl in Hu; [|done].
    destruct (invite_codes r !! c) as [row|] eqn:Hc; [|done]. injection Hu as <-.
    unfold invites. simpl. rewrite lookup_delete.
    destruct (String.eqb_spec c code) as [->|Hne]; simpl in E.
    + rewrite decide_True by done. rewrite Hc. lia.
    + rewrite decide_False by done. lia.
  - pose proof (successes_insert code i _ (EnDone c (Err e)) ts Hi) as E. simpl in E.
    assert (r' = r) as -> by (unfold UseInvite in Hu; repeat case_match; by simplify_eq). lia.
  - unfold invites. specialize (Hsub code).
    destruct (invite_codes r' !! code); [|lia]. destruct (Hsub ltac:(eauto)) as [? ->]. lia.
Qed.
End enrolment.

(** ** Theorems *)

Section api_theorems.
Context `{Crypto} `{UrlParser} (stamp_text : Time → string).

(** C11: the console's data changes only at an administrator's request: whatever
    API request is made, either the whole registry is as before, or the request
    authenticated as an actor that is an administrator at that moment. *)
Theorem changes_need_admin op s :
  reg (run_api stamp_text op s).2 = reg s ∨
  by_admin (op_request op).1 (op_request op).2 s.
Proof.
  destruct op; cbn [run_api op_request fst snd]; try apply asAdmin_reg.
  - apply asActor_reg. intros actor s0 E _. left. destruct (negb _); [done|]. by rewrite bind_run.
  - apply asActor_reg. intros actor s0 E Ha. cbv beta zeta. destruct (_ || _); [by left|].
    destruct (has_method r "GET").
    { left. rewrite bind_run. simpl. destruct (negb _); [done|]. by case_match. }
    destruct (has_method r "PATCH"); [by apply adminOnly_reg with (actor := actor)|].
    destruct (has_method r "DELETE"); [by apply adminOnly_reg with (actor := actor)|by left].
  - apply asActor_reg. intros actor s0 E _. left. by rewrite bind_run.
Qed.

(** C34: the console cannot be locked out: if there is an administrator, there
    still is one after any sequence of API requests, each run to completion
    before the next (demotions and deletions of administrators included). *)
Theorem an_admin_remains ops s :
  1 ≤ count_admins (reg s) →
  1 ≤ count_admins (reg (foldl (λ s op, (run_api stamp_text op s).2) s ops)).
Proof.
  revert s. induction ops as [|op ops IH]; intros s Hs; simpl; [done|].
  apply IH. by apply keeps_admin_api.
Qed.

End api_theorems.

Section visibility_theorems.
Context `{Crypto} `{UrlParser}.

(** An operator sees its devices and no others: the device list of a non-admin
    holds exactly the registered devices granted to its account, with their live
    capabilities; an administrator gets all of them. *)
Theorem operator_sees_its_devices r now s actor :
  r_Method r = "GET" → (authenticate r now s).1 = Some actor →
  ∃ l, (handleDevices r now s).1 = writeJSON StatusOK (JArr (map JDevice l)) ∧
    ∀ d, d ∈ l ↔
      (∃ d0, d0 ∈ List (reg s) ∧ d = attachCapabilities s d0) ∧
      (isAdmin actor now s = true ∨
       ∃ u, actorInfo actor now s = Some u ∧ dev_ID d ∈ user_DeviceIDs u).
Proof.
  intros Hm Ha. unfold handleDevices, asActor. rewrite bind_run, Ha.
  destruct (authenticate_keeps r now s) as (E & _).
  assert (agents (authenticate r now s).2 = agents s ∧ agentH (authenticate r now s).2 = agentH s)
    as [Eag Eah].
  { pose proof (keeps_authenticate (λ s s', (agents s', agentH s') = (agents s, agentH s)) r now
      ltac:(done) s) as K. simpl in K. by injection K as -> ->. }
  set (s1 := (authenticate r now s).2) in *. unfold has_method. rewrite Hm. simpl.
  eexists. split; [reflexivity|]. intros d.
  assert (∀ d0, attachCapabilities s1 d0 = attachCapabilities s d0) as Hcap.
  { intros d0. unfold attachCapabilities, getAgent. by rewrite Eag, Eah. }
  assert (d ∈ map (attachCapabilities s1) (List (reg s1)) ↔
    ∃ d0, d0 ∈ List (reg s) ∧ d = attachCapabilities s d0) as Hin.
  { rewrite E. rewrite list_elem_of_fmap. setoid_rewrite Hcap. naive_solver. }
  unfold visible. rewrite (isAdmin_reg actor now s s1 E). destruct (isAdmin actor now s) eqn:Hadm.
  { rewrite Hin. naive_solver. }
  assert (actorInfo actor now s1 = actorInfo actor now s) as -> by (unfold actorInfo; by rewrite E).
  rewrite list_elem_of_In, filter_In, <- list_elem_of_In, Hin, existsb_exists.
  split.
  - intros [? (x & Hx & Heq%String.eqb_eq)]. split; [done|]. right.
    destruct (actorInfo actor now s) as [u|] eqn:Hu; [|done]. exists u. split; [done|].
    apply list_elem_of_In. congruence.
  - intros [? [?|(u & Hu & Hd)]]; [done|]. split; [done|]. rewrite Hu. exists (dev_ID d).
    rewrite String.eqb_refl. by apply list_elem_of_In in Hd.
Qed.


(** The download endpoint serves agent builds and nothing else: whatever the
    request path, a file is served only to an authenticated caller, and it is the
    configured directory's build of one of the supported platforms, present as a
    regular file. *)
Theorem downloads_only_agent_builds join regular r now s path filename :
  (handleAgentDownloads join regular r now s).1 = DFile path filename →
  ∃ actor platform, (authenticate r now s).1 = Some actor ∧ platform ∈ agentPlatforms ∧
    AgentDir (cfg s) ≠ "" ∧ regular path = true ∧
    path = join (AgentDir (cfg s))
             ("warpmesh-agent-" +:+ platform +:+ (if HasPrefix platform "windows-" then ".exe" else "")).
Proof.
  unfold handleAgentDownloads. rewrite bind_run.
  destruct (authenticate_keeps r now s) as (_ & Ec & _).
  destruct (authenticate r now s) as [[actor|] s1]; cbn [fst snd] in *; [|done].
  destruct (_ && _); [done|]. rewrite bind_run. cbn [getS fst snd].
  destruct (_ || _); [done|]. set (p := TrimPrefix (TrimPrefix _ _) _).
  unfold agentBinary. rewrite Ec. destruct (String.eqb_spec (AgentDir (cfg s)) ""); [done|].
  assert (∀ l, match find_platform join regular (AgentDir (cfg s)) p l with
    | (q, true) => p ∈ l ∧ regular q = true ∧ q = join (AgentDir (cfg s))
             ("warpmesh-agent-" +:+ p +:+ (if HasPrefix p "windows-" then ".exe" else ""))
    | _ => True end) as Hfind.
  { induction l as [|a l IH]; cbn [find_platform]; [done|].
    destruct (String.eqb_spec p a) as [<-|Hne]; cbn [negb].
    - assert ((if HasPrefix p "windows-" then ("warpmesh-agent-" +:+ p) +:+ ".exe"
               else "warpmesh-agent-" +:+ p) =
        "warpmesh-agent-" +:+ p +:+ (if HasPrefix p "windows-" then ".exe" else "")) as ->.
      { destruct (HasPrefix p "windows-"); [by rewrite str_app_assoc|by rewrite str_app_nil_r]. }
      destruct (regular _) eqn:Hreg; [|done]. split_and!; try done. apply elem_of_cons. by left.
    - destruct (find_platform _ _ _ _ l) as [q [|]]; [|done].
      destruct IH as (? & ? & ?). split_and!; try done. apply elem_of_cons. by right. }
  specialize (Hfind agentPlatforms).
  destruct (find_platform _ _ _ p agentPlatforms) as [q [|]]; simpl; [|done].
  intros [= <- _]. destruct Hfind as (? & ? & ?). exists actor, p. done.
Qed.
End visibility_theorems.

Section enrol_refinement.
Context `{Crypto}.

(** C39: the enrolment handler is the step system: run on its own, it makes the
    registry calls of [enroll_step] in order from the decoded request to an
    answer, and responds with exactly that answer: 201 and the key, or an error
    status with the error. *)
Theorem enroll_handler_refines_steps r code reqName ib tb now s :
  r_Method r = "POST" →
  let '(resp, s') := handleEnroll r (Some (code, reqName)) ib tb now s in
  ∃ answer,
    steps enroll_step (reg s, [EnStart code reqName]) (reg s', [EnDone code answer]) ∧
    match answer with
    | Ok key => resp = writeJSON StatusCreated (JKey key)
    | Err e => resp = writeError StatusUnauthorized e ∨ resp = writeError StatusInternalServerError e
    end.
Proof.
  intros Hm. unfold handleEnroll, has_method. rewrite Hm. simpl. rewrite bind_run. simpl.
  destruct (ValidateInvite code now (reg s)) as [inv|e] eqn:Hv.
  2: { exists (Err e). split; [|by left].
       eapply steps_snoc; [apply steps_refl|].
       by eapply (es_invalid 0 code reqName now e (reg s) [EnStart code reqName]). }
  set (name := if String.eqb reqName "" then inv_Name inv else reqName).
  assert (steps enroll_step (reg s, [EnStart code reqName]) (reg s, [EnValidated code name])) as S1.
  { eapply steps_snoc; [apply steps_refl|].
    by eapply (es_valid 0 code reqName now inv (reg s) [EnStart code reqName]). }
  rewrite bind_run. unfold regM.
  destruct (CreateDeviceKey ib tb name (KeyTTL (cfg s)) now (reg s)) as [[key|e] r1] eqn:Hk; simpl.
  2: { exists (Err e). split; [|by right]. eapply steps_snoc; [exact S1|].
       by eapply (es_nokey 0 code name ib tb (KeyTTL (cfg s)) now e (reg s) r1 [EnValidated code name]). }
  assert (steps enroll_step (reg s, [EnStart code reqName]) (r1, [EnKeyed code key])) as S2.
  { eapply steps_snoc; [exact S1|].
    by eapply (es_key 0 code name ib tb (KeyTTL (cfg s)) now key (reg s) r1 [EnValidated code name]). }
  rewrite bind_run. simpl. destruct (UseInvite code r1) as [[[]|e] r2] eqn:Hu; simpl.
  2: { exists (Err e). split; [|by right]. eapply steps_snoc; [exact S2|].
       by eapply (es_unused 0 code key e r1 r2 [EnKeyed code key]). }
  rewrite bind_run, audit_run. simpl. exists (Ok key). split; [|done].
  eapply steps_snoc; [eapply steps_snoc; [exact S2|]|].
  - by eapply (es_used 0 code key r1 r2 [EnKeyed code key]).
  - apply es_other. intros c. unfold RecordAudit, sql_exec. by destruct (db_up r2).
Qed.
End enrol_refinement.

(** ** Witnesses *)

Module ApiDemo.
Import Toy.
#[export] Instance url : UrlParser := {|
url_Host o := Some (TrimPrefix (TrimPrefix o "https://") "http://")
|}.
Definition stamp (t : Time) : string := Itoa t.
Definition conf : Config := mkConfig "root-token" "/data" "" "" "" 0 "/agents".
Definition srv : Server := empty_server conf Toy.reg0.
Definition req (m path : string) : Request :=
mkRequest m path [] "" [("Authorization", "Bearer root-token")] [] "relay" true "10.0.0.7:4000".
Definition del : api_op := AUserByUsername (req "DELETE" "/api/users/admin") (Err "EOF") "" 60.
Definition join (dir name : string) : string := dir +:+ "/" +:+ name.
(** The invite of [Toy.reg0] *)
Definition code : string := "inv-" +:+ hex_encode Toy.key_bytes.
Definition two : list enroll := [EnStart code "a"; EnStart code "b"].
(** Two administrators *)
Definition reg_two : Registry := (CreateUser "root" "pw" "admin" [] zeroTime "" 20 Toy.reg0).2.
(** An operator whose account is called like the token's actor *)
Definition reg_evil : Registry :=
(CreateUser "admin-token" "pw" "operator" [] zeroTime "" 20 Toy.reg0).2.
End ApiDemo.
Import Toy ApiDemo.

Lemma an_admin_remains_witness :
  rs_Status (run_api stamp del srv).1 = 409 ∧
  1 ≤ count_admins (reg (foldl (λ s op, (run_api stamp op s).2) srv [del; del])).
Proof.
  split; [by vm_compute|]. apply (an_admin_remains stamp [del; del] srv). by vm_compute.
Defined.

Lemma operator_sees_its_devices_witness :
  ∃ l, (handleDevices (req "GET" "/api/devices") 60 srv).1 = writeJSON StatusOK (JArr (map JDevice l)).
Proof.
  destruct (operator_sees_its_devices (req "GET" "/api/devices") 60 srv "admin-token")
    as (l & Hl & _); [done|by vm_compute|]. by exists l.
Defined.


Lemma downloads_only_agent_builds_witness :
  ∃ actor platform,
    (authenticate (req "GET" "/api/agent-downloads/linux-arm64") 60 srv).1 = Some actor ∧
    platform ∈ agentPlatforms ∧ "/agents/warpmesh-agent-linux-arm64" =
      join "/agents" ("warpmesh-agent-" +:+ platform +:+ (if HasPrefix platform "windows-" then ".exe" else "")).
Proof.
  destruct (downloads_only_agent_builds join (λ _, true)
    (req "GET" "/api/agent-downloads/linux-arm64") 60 srv "/agents/warpmesh-agent-linux-arm64"
    "warpmesh-agent") as (actor & platform & H1 & H2 & _ & _ & H3); [by vm_compute|].
  by exists actor, platform.
Defined.

Lemma enroll_handler_refines_steps_witness :
  ∃ answer, steps enroll_step (Toy.reg0, [EnStart code "a"])
    (reg (handleEnroll (req "POST" "/api/enroll") (Some (code, "a")) None None 60 srv).2,
     [EnDone code answer]).
Proof.
  pose proof (enroll_handler_refines_steps (req "POST" "/api/enroll") code "a" None None 60 srv eq_refl)
    as Hr.
  destruct (handleEnroll _ _ _ _ _ _) as [resp s']. destruct Hr as (answer & Hs & _). by exists answer.
Defined.

(** ** Observations *)

(** The check for the last administrator and the deletion are two calls: two
    requests that delete the two administrators can both pass the check first, and
    then no administrator is left. *)
Example concurrent_deletes_remove_all_admins :
  lastAdminCheck "admin" reg_two = None ∧ lastAdminCheck "root" reg_two = None ∧
  count_admins (DeleteUser "root" (DeleteUser "admin" reg_two).2).2 = 0.
Proof. by vm_compute. Qed.

(** An enrolment that loses the race for its invite has already stored a key. *)
Example lost_enrolment_leaves_a_key :
  let r1 := (UseInvite code Toy.reg0).2 in
  (∃ inv, ValidateInvite code 60 Toy.reg0 = Ok inv) ∧
  is_ok (UseInvite code (CreateDeviceKey (Some ["x"%char]) (Some ["y"%char]) "a" 0 61 r1).2).1 = false ∧
  size (device_keys (CreateDeviceKey (Some ["x"%char]) (Some ["y"%char]) "a" 0 61 r1).2) =
    S (size (device_keys r1)).
Proof. split_and!; [eexists; by vm_compute | by vm_compute | by vm_compute]. Qed.

(** The user name [admin-token] is not reserved: an operator account of that name is
    taken for the operator's token and has every right. *)
Example admin_token_account_is_admin :
  (u_role <$> users reg_evil !! "admin-token") = Some "operator" ∧
  isAdmin "admin-token" 60 (empty_server conf reg_evil) = true ∧
  is_ok (ValidateUser "admin-token" "pw" 60 reg_evil) = true.
Proof. by vm_compute. Qed.
