(* ===== verification/ForwardConn.v ===== *)
(** * The write side of a tunnel on a device ([internal/agent/agent.go])

    [forwardConn] decouples the agent's control loop from a local TCP peer: the
    loop enqueues the frames of a tunnel into a bounded channel, one writer
    goroutine moves them to the connection.  The methods are the functions of the
    first part; each holds [mu] once, so the second part interleaves them as atomic
    steps with the steps of the writer, of [Close] (which marks the session under
    the lock and releases its resources after it), of the drain timer and of the
    network.  What the control loop had accepted and what reached the peer are
    recorded as ghost state. *)
From Stdlib Require Import ZArith Lia Ascii String.
From S2P Require Import Prelude Protocol.
Open Scope list_scope.
Open Scope Z_scope.

(** ** Data *)

(** The local TCP connection: what was written to it, and whether it is open *)
Record tcp := mkTcp { tcp_out : bytes; tcp_open : bool }.

Record forwardWrite := mkForwardWrite { wr_data : bytes; wr_close : bool }.

(** [ctx]/[cancel] are the flag [fc_cancelled]; [fc_drainTimer] says that the timer
    is armed.  The [ws] of the session plays no part here. *)
Record forwardConn := mkForwardConn {
  fc_conn : option tcp; fc_closed : bool; fc_cancelled : bool; fc_writes : list forwardWrite;
  fc_writing : bool; fc_draining : bool; fc_drainTimer : bool
}.

(** [cap(f.writes)] *)
Definition writes_cap : nat := 65.

Definition forwardDrainTimeout : Duration := 5 * Second.

Definition newForwardConn (conn : option tcp) : forwardConn :=
  mkForwardConn conn false false [] false false false.

(** ** Methods *)

Definition connection (f : forwardConn) : option tcp := if fc_closed f then None else fc_conn f.

(** The new session, and whether the connection was attached; a refused connection
    is closed by the method. *)
Definition attach (conn : tcp) (f : forwardConn) : bool * forwardConn :=
  if fc_closed f then (false, f)
  else (true, mkForwardConn (Some conn) (fc_closed f) (fc_cancelled f) (fc_writes f)
                (fc_writing f) (fc_draining f) (fc_drainTimer f)).

(** [Close] up to the unlock: [false] when it was closed already ... *)
Definition markClosed (f : forwardConn) : bool * forwardConn :=
  if fc_closed f then (false, f)
  else (true, mkForwardConn (fc_conn f) true (fc_cancelled f) (fc_writes f) (fc_writing f)
                (fc_draining f) (fc_drainTimer f)).

Definition tcp_close (c : tcp) : tcp := mkTcp (tcp_out c) false.

(** ... and after it: the timer, the context and the connection. *)
Definition releaseClosed (f : forwardConn) : forwardConn :=
  mkForwardConn (tcp_close <$> fc_conn f) (fc_closed f) true (fc_writes f) (fc_writing f)
    (fc_draining f) false.

Definition Close (f : forwardConn) : forwardConn :=
  let '(first, f') := markClosed f in if first then releaseClosed f' else f'.

(** [f.writes <- item] *)
Definition push (item : forwardWrite) (f : forwardConn) : forwardConn :=
  mkForwardConn (fc_conn f) (fc_closed f) (fc_cancelled f) (fc_writes f ++ [item]) (fc_writing f)
    (fc_draining f) (fc_drainTimer f).

(** What [enqueue] decides under the lock *)
Inductive enqueued := Ignored | Overflow | Queued.

Definition enqueueLocked (data : bytes) (f : forwardConn) : enqueued * forwardConn :=
  if fc_closed f || fc_draining f then (Ignored, f)
  else if (writes_cap - 1 <=? length (fc_writes f))%nat then (Overflow, f)
  else (Queued, push (mkForwardWrite data false) f).

Definition enqueue (data : bytes) (f : forwardConn) : forwardConn :=
  match enqueueLocked data f with
  | (Overflow, f') => Close f'
  | (_, f') => f'
  end.

(** [startWriter]: [true] when the writer goroutine is started *)
Definition startWriter (f : forwardConn) : bool * forwardConn :=
  if fc_closed f || fc_writing f then (false, f)
  else (true, mkForwardConn (fc_conn f) (fc_closed f) (fc_cancelled f) (fc_writes f) true
                (fc_draining f) (fc_drainTimer f)).

Definition isDraining (f : forwardConn) : bool := fc_draining f.

(** What [gracefulClose] decides under the lock *)
Inductive draining := NothingToDo | CloseNow | Draining.

Definition gracefulCloseLocked (f : forwardConn) : draining * forwardConn :=
  if fc_closed f || fc_draining f then (NothingToDo, f)
  else if negb (fc_writing f) || bool_decide (fc_conn f = None) then (CloseNow, f)
  else (Draining,
        push (mkForwardWrite [] true)
          (mkForwardConn (fc_conn f) (fc_closed f) (fc_cancelled f) (fc_writes f) (fc_writing f)
             true true)).

Definition gracefulClose (f : forwardConn) : forwardConn :=
  match gracefulCloseLocked f with
  | (CloseNow, f') => Close f'
  | (_, f') => f'
  end.

(** ** The concurrent system *)

(** Where the writer goroutine of [writeLoop] is: not started, at the [select],
    holding an item ([f.Write] not yet called, or past its [connection()] check),
    about to call [Close], or returned.  The flag of the last two says whether it
    stopped at the EOF marker. *)
Inductive writer :=
| WOff | WSelect | WHave (data : bytes) | WWrite (data : bytes)
| WClose (eof : bool) | WDone (eof : bool).

(** [sy_control]: the control loop is about to call [Close]; [sy_release]: some
    goroutine is between the two halves of [Close]; [sy_accepted]: the frames
    [enqueue] took, in order. *)
Record sys := mkSys {
  sy_fc : forwardConn; sy_writer : writer; sy_control : bool; sy_release : bool;
  sy_accepted : list bytes
}.

Inductive action :=
| AEnqueue (data : bytes)      (* the control loop: [enqueue] *)
| AGraceful                    (* the control loop: [gracefulClose] *)
| AControlClose                (* the control loop: the [Close] it decided on *)
| AClose                       (* any other goroutine or the drain timer: [Close] *)
| ARelease                     (* the second half of a [Close] *)
| AAttach                      (* the dial succeeded: [attach] *)
| AStart                       (* [startWriter] *)
| AReceive                     (* the writer's [select] takes an item *)
| ACancelled                   (* the writer's [select] takes [ctx.Done()] *)
| AStop                        (* the writer's final [Close] *)
| ACheck                       (* the writer's [connection()] *)
| AWriteOk                     (* [conn.Write] succeeds *)
| AWriteFail (n : nat).        (* [conn.Write] fails after [n] bytes *)

Definition set_fc (f : forwardConn) (s : sys) : sys :=
  mkSys f (sy_writer s) (sy_control s) (sy_release s) (sy_accepted s).
Definition set_writer (w : writer) (s : sys) : sys :=
  mkSys (sy_fc s) w (sy_control s) (sy_release s) (sy_accepted s).
Definition set_control (b : bool) (s : sys) : sys :=
  mkSys (sy_fc s) (sy_writer s) b (sy_release s) (sy_accepted s).

(** The first half of [Close] by some goroutine *)
Definition beginClose (s : sys) : sys :=
  let '(first, f) := markClosed (sy_fc s) in
  mkSys f (sy_writer s) (sy_control s) (sy_release s || first) (sy_accepted s).

Definition tcp_write (data : bytes) (f : forwardConn) : forwardConn :=
  mkForwardConn ((λ c, mkTcp (tcp_out c ++ data) (tcp_open c)) <$> fc_conn f) (fc_closed f)
    (fc_cancelled f) (fc_writes f) (fc_writing f) (fc_draining f) (fc_drainTimer f).

Definition tail_writes (rest : list forwardWrite) (f : forwardConn) : forwardConn :=
  mkForwardConn (fc_conn f) (fc_closed f) (fc_cancelled f) rest (fc_writing f)
    (fc_draining f) (fc_drainTimer f).

Definition conn_open (f : forwardConn) : bool :=
  match fc_conn f with Some c => tcp_open c | None => false end.

(** One action; [None] when it is not enabled. *)
Definition act (a : action) (s : sys) : option sys :=
  let f := sy_fc s in
  match a with
  | AEnqueue data =>
      if sy_control s then None
      else match enqueueLocked data f with
           | (Queued, f') =>
               Some (mkSys f' (sy_writer s) false (sy_release s) (sy_accepted s ++ [data]))
           | (Overflow, f') => Some (set_control true (set_fc f' s))
           | (Ignored, f') => Some (set_fc f' s)
           end
  | AGraceful =>
      if sy_control s then None
      else match gracefulCloseLocked f with
           | (CloseNow, f') => Some (set_control true (set_fc f' s))
           | (_, f') => Some (set_fc f' s)
           end
  | AControlClose => if sy_control s then Some (set_control false (beginClose s)) else None
  | AClose => Some (beginClose s)
  | ARelease =>
      if sy_release s
      then Some (mkSys (releaseClosed f) (sy_writer s) (sy_control s) false (sy_accepted s))
      else None
  | AAttach =>
      if bool_decide (fc_conn f = None) then Some (set_fc (attach (mkTcp [] true) f).2 s) else None
  | AStart =>
      match startWriter f with
      | (true, f') => Some (set_writer WSelect (set_fc f' s))
      | (false, _) => Some s
      end
  | AReceive =>
      match sy_writer s, fc_writes f with
      | WSelect, item :: rest =>
          Some (set_writer (if wr_close item then WClose true else WHave (wr_data item))
                  (set_fc (tail_writes rest f) s))
      | _, _ => None
      end
  | ACancelled =>
      match sy_writer s with
      | WSelect => if fc_cancelled f then Some (set_writer (WDone false) s) else None
      | _ => None
      end
  | AStop =>
      match sy_writer s with
      | WClose eof => Some (set_writer (WDone eof) (beginClose s))
      | _ => None
      end
  | ACheck =>
      match sy_writer s with
      | WHave data =>
          Some (set_writer (if bool_decide (is_Some (connection f)) then WWrite data
                            else WClose false) s)
      | _ => None
      end
  | AWriteOk =>
      match sy_writer s with
      | WWrite data =>
          if conn_open f then Some (set_writer WSelect (set_fc (tcp_write data f) s)) else None
      | _ => None
      end
  | AWriteFail n =>
      match sy_writer s with
      | WWrite data =>
          Some (set_writer (WClose false)
                  (set_fc (tcp_write (if conn_open f then take n data else []) f) s))
      | _ => None
      end
  end.

(** A schedule: an action that is not enabled when its turn comes is skipped. *)
Definition perform (s : sys) (a : action) : sys := default s (act a s).
Definition run (acts : list action) (s : sys) : sys := foldl perform s acts.

(** A session of the connecting side starts with its connection, one of the target
    side waits for the dial. *)
Definition start_client : sys := mkSys (newForwardConn (Some (mkTcp [] true))) WOff false false [].
Definition start_target : sys := mkSys (newForwardConn None) WOff false false [].

(** What the local peer received *)
Definition received (s : sys) : bytes := default [] (tcp_out <$> fc_conn (sy_fc s)).

(** ** Invariant *)

Definition in_flight (w : writer) : bytes :=
  match w with WHave d | WWrite d => d | _ => [] end.

Definition queued (f : forwardConn) : bytes := concat (map wr_data (fc_writes f)).

(** Accepted bytes are at the peer, with the writer or in the channel, in that
    order; a writer that failed or was cancelled leaves a prefix at the peer, one
    that met the EOF marker leaves everything. *)
Definition flow (s : sys) : Prop :=
  match sy_writer s with
  | WClose false | WDone false => received s `prefix_of` concat (sy_accepted s)
  | WClose true | WDone true =>
      received s = concat (sy_accepted s) ∧ fc_writes (sy_fc s) = [] ∧ fc_draining (sy_fc s) = true
  | w => received s ++ in_flight w ++ queued (sy_fc s) = concat (sy_accepted s)
  end.

Definition met_eof (w : writer) : bool := match w with WClose b | WDone b => b | _ => false end.

(** The channel holds data, and behind it the marker of a drain that is under way *)
Definition channel_ok (s : sys) : Prop :=
  ∃ ds, Forall (λ w, wr_close w = false) ds ∧ (length ds ≤ writes_cap - 1)%nat ∧
    fc_writes (sy_fc s) =
      ds ++ (if fc_draining (sy_fc s) && negb (met_eof (sy_writer s))
             then [mkForwardWrite [] true] else []).

Record sys_ok (s : sys) : Prop := {
  ok_flow : flow s;
  ok_channel : channel_ok s;
  ok_writing : fc_writing (sy_fc s) = false ↔ sy_writer s = WOff;
  ok_conn : ∀ d, sy_writer s = WWrite d → is_Some (fc_conn (sy_fc s));
  ok_release : sy_release s = true → fc_closed (sy_fc s) = true
}.

(** ** Lemmas *)

(** [Close] touches neither the channel nor what the peer received. *)
Lemma beginClose_eq s :
  ∃ f b, beginClose s = mkSys f (sy_writer s) (sy_control s) b (sy_accepted s) ∧
    fc_conn f = fc_conn (sy_fc s) ∧ fc_writes f = fc_writes (sy_fc s) ∧
    fc_writing f = fc_writing (sy_fc s) ∧ fc_draining f = fc_draining (sy_fc s) ∧
    fc_closed f = true ∧ fc_cancelled f = fc_cancelled (sy_fc s).
Proof.
  unfold beginClose, markClosed. destruct (fc_closed (sy_fc s)) eqn:E.
  - eexists _, _. split; [done|]. by split_and!.
  - eexists _, _. split; [done|]. by split_and!.
Qed.

(** The invariant depends on the parts [Close] leaves alone. *)
Lemma sys_ok_ext s s' :
  sys_ok s → received s' = received s → sy_writer s' = sy_writer s →
  sy_accepted s' = sy_accepted s → fc_writes (sy_fc s') = fc_writes (sy_fc s) →
  fc_writing (sy_fc s') = fc_writing (sy_fc s) → fc_draining (sy_fc s') = fc_draining (sy_fc s) →
  (is_Some (fc_conn (sy_fc s)) → is_Some (fc_conn (sy_fc s'))) →
  (sy_release s' = true → fc_closed (sy_fc s') = true) → sys_ok s'.
Proof.
  intros [Hf Hc Hw Hn Hr] Hrec Hwr Hacc Hq Hwi Hd Hco Hre. split.
  - unfold flow, queued in *. by rewrite Hrec, Hwr, Hacc, Hq, Hd.
  - unfold channel_ok in *. by rewrite Hwr, Hq, Hd.
  - by rewrite Hwi, Hwr.
  - intros d. rewrite Hwr. eauto.
  - done.
Qed.

Lemma sys_ok_beginClose s : sys_ok s → sys_ok (beginClose s).
Proof.
  intros Hs. destruct (beginClose_eq s) as (f & b & -> & Hc & Hq & Hwi & Hd & Hcl & _).
  apply (sys_ok_ext s); try done.
  - unfold received. simpl. by rewrite Hc.
  - simpl. by rewrite Hc.
Qed.

Lemma sys_ok_enqueue data s s' : sys_ok s → act (AEnqueue data) s = Some s' → sys_ok s'.
Proof.
  intros Hs. simpl. destruct (sy_control s); [done|]. unfold enqueueLocked.
  destruct (fc_closed _ || fc_draining _) eqn:Hcd.
  { intros [= <-]. apply (sys_ok_ext s); try done. apply Hs. }
  destruct (Nat.leb_spec (writes_cap - 1) (length (fc_writes (sy_fc s)))) as [Hl|Hl].
  { intros [= <-]. apply (sys_ok_ext s); try done. apply Hs. }
  intros [= <-]. apply orb_false_iff in Hcd as [Hcl Hdr]. destruct Hs as [Hf Hc Hw Hn Hr]. split.
  - unfold flow, queued, received in *. simpl. rewrite concat_app, map_app, concat_app. simpl.
    rewrite !app_nil_r, Hdr in *.
    destruct (sy_writer s) as [| | | |[]|[]]; simpl in *;
      try (by rewrite <- Hf, !app_assoc); try (by destruct Hf as (_ & _ & ?)); by apply prefix_app_r.
  - destruct Hc as (ds & Hds & Hlen & Heq). rewrite Hdr in Heq. simpl in Heq.
    rewrite app_nil_r in Heq. exists (ds ++ [mkForwardWrite data false]). simpl. rewrite Hdr. simpl.
    rewrite app_nil_r, Heq. split_and!; [by apply Forall_app; auto| |done].
    rewrite length_app. simpl. rewrite Heq in Hl. unfold writes_cap in *. lia.
  - done.
  - done.
  - simpl. intros H. rewrite Hr in Hcl; done.
Qed.

Lemma sys_ok_graceful s s' : sys_ok s → act AGraceful s = Some s' → sys_ok s'.
Proof.
  intros Hs. simpl. destruct (sy_control s); [done|]. unfold gracefulCloseLocked.
  destruct (fc_closed _ || fc_draining _) eqn:Hcd.
  { intros [= <-]. apply (sys_ok_ext s); try done. apply Hs. }
  destruct (negb _ || _) eqn:Hn'.
  { intros [= <-]. apply (sys_ok_ext s); try done. apply Hs. }
  intros [= <-]. apply orb_false_iff in Hcd as [Hcl Hdr]. destruct Hs as [Hf Hc Hw Hn Hr]. split.
  - unfold flow, queued, received in *. simpl. rewrite map_app, concat_app. simpl.
    rewrite !app_nil_r, Hdr in *. destruct (sy_writer s) as [| | | |[]|[]]; simpl in *; naive_solver.
  - destruct Hc as (ds & Hds & Hlen & Heq). rewrite Hdr in Heq. simpl in Heq.
    rewrite app_nil_r in Heq. exists ds. simpl. rewrite Heq.
    assert (met_eof (sy_writer s) = false) as ->; [|done].
    unfold flow in Hf. rewrite Hdr in Hf. by destruct (sy_writer s) as [| | | |[]|[]]; simpl; naive_solver.
  - done.
  - done.
  - simpl. intros H. rewrite Hr in Hcl; done.
Qed.

Lemma sys_ok_release s s' : sys_ok s → act ARelease s = Some s' → sys_ok s'.
Proof.
  intros Hs. simpl. destruct (sy_release s); [|done]. intros [= <-].
  apply (sys_ok_ext s); try done.
  - unfold received. simpl. by destruct (fc_conn (sy_fc s)).
  - simpl. intros [c ->]. by eexists.
Qed.

Lemma sys_ok_attach s s' : sys_ok s → act AAttach s = Some s' → sys_ok s'.
Proof.
  intros Hs. simpl. case_bool_decide as Hn; [|done]. intros [= <-]. unfold attach.
  destruct (fc_closed (sy_fc s)) eqn:Hc; simpl.
  { by apply (sys_ok_ext s). }
  apply (sys_ok_ext s); try done.
  - unfold received. simpl. by rewrite Hn.
  - simpl. intros H. apply Hs in H. congruence.
Qed.

Lemma sys_ok_start s s' : sys_ok s → act AStart s = Some s' → sys_ok s'.
Proof.
  intros Hs. simpl. unfold startWriter. destruct (fc_closed _ || fc_writing _) eqn:E.
  { by intros [= <-]. }
  intros [= <-]. apply orb_false_iff in E as [Hcl Hwi]. destruct Hs as [Hf Hc Hw Hn Hr].
  pose proof (proj1 Hw Hwi) as Hoff. split; simpl.
  - unfold flow in *. simpl. by rewrite Hoff in Hf.
  - unfold channel_ok in *. simpl. by rewrite Hoff in Hc.
  - done.
  - done.
  - intros H. apply Hr in H. simpl in *. congruence.
Qed.

Lemma sys_ok_receive s s' : sys_ok s → act AReceive s = Some s' → sys_ok s'.
Proof.
  intros [Hf Hc Hw Hn Hr]. simpl. destruct (sy_writer s) eqn:Ewr; try done.
  destruct (fc_writes (sy_fc s)) as [|item rest] eqn:Eq; [done|]. intros [= <-].
  destruct Hc as (ds & Hds & Hlen & Heq). rewrite Eq, Ewr in Heq. simpl in Heq.
  unfold flow, queued in Hf. rewrite Ewr, Eq in Hf. simpl in Hf.
  destruct ds as [|d ds]; simpl in Heq.
  - (* the marker *)
    destruct (fc_draining (sy_fc s)) eqn:Hdr; simpl in Heq; [|done].
    injection Heq as -> ->. simpl in *. rewrite !app_nil_r in Hf. split; simpl; try done.
    + unfold channel_ok. simpl. exists []. rewrite andb_false_r. split_and!; [done|simpl; lia|done].
    + rewrite Hw. by split.
  - injection Heq as -> ->. apply Forall_cons in Hds as [Hd Hds]. rewrite Hd. split; simpl.
    + unfold flow, received, queued in *. simpl. done.
    + exists ds. simpl. rewrite ?andb_true_r in *. split_and!; [done|simpl in Hlen; lia|done].
    + rewrite Hw. by split.
    + done.
    + done.
Qed.

Lemma sys_ok_writer_ends s w :
  sys_ok s → sy_writer s ≠ WOff → met_eof (sy_writer s) = met_eof w → w ≠ WOff →
  (∀ d, w ≠ WWrite d) → flow (set_writer w s) → sys_ok (set_writer w s).
Proof.
  intros [Hf Hc Hw Hn Hr] Hoff Heof Hw' Hww Hflow. split; simpl; try done.
  - unfold channel_ok in *. simpl. by rewrite <- Heof.
  - rewrite Hw. by split.
  - intros d ->. by destruct (Hww d).
Qed.

Lemma sys_ok_writer a s s' :
  a ∈ [ACancelled; AStop; ACheck] → sys_ok s → act a s = Some s' → sys_ok s'.
Proof.
  intros Ha Hs. pose proof (ok_flow _ Hs) as Hf. unfold flow in Hf.
  set_unfold in Ha. destruct Ha as [-> |[-> |[-> |[]]]]; simpl; destruct (sy_writer s) as [| |d| |b|] eqn:Ew; try done.
  - destruct (fc_cancelled (sy_fc s)); [|done]. intros [= <-].
    apply sys_ok_writer_ends; try done; [by rewrite Ew|by rewrite Ew|]. unfold flow. simpl.
    rewrite <- Hf. by apply prefix_app_r.
  - intros [= <-]. pose proof (sys_ok_beginClose s Hs) as Hs'.
    destruct (beginClose_eq s) as (f & rel & E & Hc & Hq & Hwi & Hd & _). rewrite E in *.
    apply sys_ok_writer_ends; try done; simpl; [by rewrite Ew|by rewrite Ew|].
    unfold flow, received in *. simpl. by rewrite Hc, Hq, Hd.
  - intros [= <-]. case_bool_decide as Hcon.
    + destruct Hs as [_ Hc Hw Hn Hr]. split; simpl; try done.
      * unfold channel_ok in *. simpl. by rewrite Ew in Hc.
      * rewrite Hw, Ew. by split.
      * intros d' [= <-]. unfold connection in Hcon. destruct (fc_closed (sy_fc s)); [by destruct Hcon|done].
    + apply sys_ok_writer_ends; try done; [by rewrite Ew|by rewrite Ew|]. unfold flow. simpl.
      rewrite <- Hf. by apply prefix_app_r.
Qed.

(** A write puts a prefix of the item in flight at the peer, all of it when the
    writer goes on. *)
Lemma act_write a s s' :
  (a = AWriteOk ∨ ∃ n, a = AWriteFail n) → act a s = Some s' →
  ∃ d n w, sy_writer s = WWrite d ∧
    s' = set_writer w (set_fc (tcp_write (take n d) (sy_fc s)) s) ∧
    (w = WSelect ∧ take n d = d ∨ w = WClose false) ∧
    (conn_open (sy_fc s) = false → take n d = []).
Proof.
  intros [->|[n ->]]; simpl; destruct (sy_writer s) as [| | |d| |] eqn:Ew; try done.
  - destruct (conn_open (sy_fc s)) eqn:Ho; [|done]. intros [= <-].
    exists d, (length d), WSelect. rewrite firstn_all. by split_and!; auto.
  - intros [= <-]. destruct (conn_open (sy_fc s)).
    + exists d, n, (WClose false). by split_and!; auto.
    + exists d, O, (WClose false). split_and!; auto.
Qed.

Lemma sys_ok_write a s s' :
  (a = AWriteOk ∨ ∃ n, a = AWriteFail n) → sys_ok s → act a s = Some s' → sys_ok s'.
Proof.
  intros Ha [Hf Hc Hw Hn Hr] (d & n & w & Ew & -> & Hcase & _)%act_write; [|done].
  destruct (Hn d Ew) as [c Hcon]. unfold flow, received in Hf. rewrite Ew, Hcon in Hf. simpl in Hf.
  split; simpl.
  - unfold flow, received, queued in *. simpl. rewrite Hcon. simpl.
    destruct Hcase as [[-> ->]| ->]; simpl; [by rewrite <- app_assoc|].
    rewrite <- Hf. apply prefix_app, prefix_app_r. exists (drop n d). by rewrite take_drop.
  - unfold channel_ok in *. rewrite Ew in Hc. by destruct Hcase as [[-> _]| ->].
  - rewrite Hw, Ew. by destruct Hcase as [[-> _]| ->].
  - intros d' ->. by destruct Hcase as [[? _]|?].
  - done.
Qed.

Lemma sys_ok_act a s s' : sys_ok s → act a s = Some s' → sys_ok s'.
Proof.
  intros Hs. destruct a.
  - by apply sys_ok_enqueue.
  - by apply sys_ok_graceful.
  - simpl. destruct (sy_control s); [|done]. intros [= <-].
    pose proof (sys_ok_beginClose s Hs) as Hb. by apply (sys_ok_ext (beginClose s)); try done; apply Hb.
  - intros [= <-]. by apply sys_ok_beginClose.
  - by apply sys_ok_release.
  - by apply sys_ok_attach.
  - by apply sys_ok_start.
  - by apply sys_ok_receive.
  - apply sys_ok_writer; [set_solver|done].
  - apply sys_ok_writer; [set_solver|done].
  - apply sys_ok_writer; [set_solver|done].
  - apply sys_ok_write; auto.
  - apply sys_ok_write; eauto.
Qed.

Lemma sys_ok_run acts s : sys_ok s → sys_ok (run acts s).
Proof.
  revert s. induction acts as [|a acts IH]; intros s Hs; [done|]. simpl. apply IH.
  unfold perform. destruct (act a s) eqn:E; simpl; [|done]. by apply (sys_ok_act a s).
Qed.

Lemma start_ok s : s = start_client ∨ s = start_target → sys_ok s.
Proof.
  intros [->| ->]; split; try done; exists []; split_and!; try done; simpl; lia.
Qed.

(** *** Closed sessions *)

(** A session that was closed and released stays silent. *)
Definition silent (s : sys) : Prop :=
  fc_closed (sy_fc s) = true ∧ sy_release s = false ∧ fc_cancelled (sy_fc s) = true ∧
  conn_open (sy_fc s) = false.

(** [Close] releases the connection: between its halves [sy_release] is set. *)
Definition closed_released (s : sys) : Prop :=
  fc_closed (sy_fc s) = true → sy_release s = true ∨ silent s.

Lemma conn_open_write d f : conn_open (tcp_write d f) = conn_open f.
Proof. unfold conn_open, tcp_write. simpl. by destruct (fc_conn f). Qed.

Lemma conn_open_tail rest f : conn_open (tail_writes rest f) = conn_open f.
Proof. done. Qed.

Lemma beginClose_closed s :
  fc_closed (sy_fc s) = true → beginClose s = mkSys (sy_fc s) (sy_writer s) (sy_control s)
    (sy_release s) (sy_accepted s).
Proof. intros H. unfold beginClose, markClosed. rewrite H. by rewrite orb_false_r. Qed.

Lemma beginClose_open s : fc_closed (sy_fc s) = false → sy_release (beginClose s) = true.
Proof. intros H. unfold beginClose, markClosed. rewrite H. apply orb_true_r. Qed.

Lemma enqueueLocked_closed data f : fc_closed (enqueueLocked data f).2 = fc_closed f.
Proof. unfold enqueueLocked. by repeat case_match. Qed.

Lemma gracefulCloseLocked_closed f : fc_closed (gracefulCloseLocked f).2 = fc_closed f.
Proof. unfold gracefulCloseLocked. by repeat case_match. Qed.

Lemma closed_released_act a s s' : closed_released s → act a s = Some s' → closed_released s'.
Proof.
  unfold closed_released, silent. intros Hs Ha.
  destruct (fc_closed (sy_fc s)) eqn:Hc.
  - specialize (Hs eq_refl). destruct a; simpl in Ha;
      unfold enqueueLocked, gracefulCloseLocked, attach, startWriter in Ha; rewrite ?Hc in Ha;
      simpl in Ha; repeat case_match; simplify_eq; simpl; rewrite ?beginClose_closed by done; simpl;
      rewrite ?Hc, ?conn_open_write, ?conn_open_tail;
      try (intros _; destruct Hs as [?|(_ & ? & ? & ?)]; [by left|right; split_and!; congruence]).
    right. split_and!; try done. unfold conn_open. simpl. by destruct (fc_conn (sy_fc s)).
  - clear Hs. assert (fc_closed (sy_fc s') = false ∨ sy_release s' = true) as [->|]; [|done|auto].
    destruct a; simpl in Ha.
    + destruct (sy_control s); [done|]. pose proof (enqueueLocked_closed data (sy_fc s)) as E.
      destruct (enqueueLocked data (sy_fc s)) as [[] f]; injection Ha as <-; left; simpl in *; congruence.
    + destruct (sy_control s); [done|]. pose proof (gracefulCloseLocked_closed (sy_fc s)) as E.
      destruct (gracefulCloseLocked (sy_fc s)) as [[] f]; injection Ha as <-; left; simpl in *; congruence.
    + destruct (sy_control s); [|done]. injection Ha as <-. right. by apply beginClose_open.
    + injection Ha as <-. right. by apply beginClose_open.
    + destruct (sy_release s); [|done]. injection Ha as <-. by left.
    + case_match; [|done]. injection Ha as <-. unfold attach. rewrite Hc. by left.
    + unfold startWriter in Ha. rewrite Hc in Ha. simpl in Ha.
      destruct (fc_writing (sy_fc s)); injection Ha as <-; by left.
    + repeat case_match; try done; injection Ha as <-; by left.
    + repeat case_match; try done; injection Ha as <-; by left.
    + case_match; try done; injection Ha as <-. right. by apply beginClose_open.
    + repeat case_match; try done; injection Ha as <-; by left.
    + repeat case_match; try done; injection Ha as <-; by left.
    + repeat case_match; try done; injection Ha as <-; by left.
Qed.

Lemma closed_released_run acts s : closed_released s → closed_released (run acts s).
Proof.
  revert s. induction acts as [|a acts IH]; intros s Hs; [done|]. simpl. apply IH.
  unfold perform. destruct (act a s) eqn:E; simpl; [|done]. by apply (closed_released_act a s).
Qed.

Lemma silent_act a s s' :
  silent s → act a s = Some s' →
  silent s' ∧ received s' = received s ∧ sy_accepted s' = sy_accepted s.
Proof.
  unfold silent. intros (Hc & Hr & Hx & Ho) Ha.
  assert (∀ d, (if conn_open (sy_fc s) then d else []) = @nil ascii) as Hd by (by rewrite Ho).
  destruct a; simpl in Ha;
    unfold enqueueLocked, gracefulCloseLocked, attach, startWriter in Ha; rewrite ?Hc, ?Hr, ?Ho in Ha;
    simpl in Ha; repeat case_match; simplify_eq; simpl; rewrite ?beginClose_closed by done; simpl;
    rewrite ?Hc, ?Hr, ?conn_open_write, ?conn_open_tail; auto.
  split_and!; auto. unfold received. simpl. destruct (fc_conn (sy_fc s)); simpl; [|done].
  by rewrite app_nil_r.
Qed.

Lemma silent_run acts s :
  silent s → received (run acts s) = received s ∧ sy_accepted (run acts s) = sy_accepted s.
Proof.
  revert s. induction acts as [|a acts IH]; intros s Hs; [done|]. simpl.
  unfold perform. destruct (act a s) as [s'|] eqn:E; simpl; [|by apply IH].
  destruct (silent_act a s s' Hs E) as (Hs' & <- & <-). by apply IH.
Qed.

(** *** Draining *)

(** One item: received, checked, written *)
Definition one_item : list action := [AReceive; ACheck; AWriteOk].
(** The writer's schedule for a backlog of [n] items and the marker *)
Definition drain_schedule (n : nat) : list action :=
  concat (replicate n one_item) ++ [AReceive; AStop; ARelease].

Lemma run_app xs ys s : run (xs ++ ys) s = run ys (run xs s).
Proof. unfold run. apply foldl_app. Qed.

Lemma run_one_item s d rest c :
  sy_writer s = WSelect → fc_writes (sy_fc s) = mkForwardWrite d false :: rest →
  fc_closed (sy_fc s) = false → fc_conn (sy_fc s) = Some c → tcp_open c = true →
  run one_item s =
    set_fc (tail_writes rest (tcp_write d (sy_fc s))) s.
Proof.
  intros Hw Hq Hcl Hc Ho. destruct s as [[conn cl ca ws wr dr dt] w ctl rel acc]. simpl in *. subst.
  destruct c as [out op]. simpl in *. by subst.
Qed.

(** The writer empties the channel up to the marker and closes the connection. *)
Lemma run_drain ds s c :
  Forall (λ w, wr_close w = false) ds → fc_writes (sy_fc s) = ds ++ [mkForwardWrite [] true] →
  sy_writer s = WSelect → fc_closed (sy_fc s) = false → fc_conn (sy_fc s) = Some c →
  tcp_open c = true →
  let s' := run (drain_schedule (length ds)) s in
  sy_writer s' = WDone true ∧ fc_closed (sy_fc s') = true ∧ fc_cancelled (sy_fc s') = true ∧
  conn_open (sy_fc s') = false ∧ received s' = received s ++ concat (map wr_data ds) ∧
  sy_accepted s' = sy_accepted s.
Proof.
  intros Hds. revert s c. induction Hds as [|[d b] ds Hb Hds IH]; intros s c Hq Hw Hcl Hc Ho.
  - simpl in *. destruct s as [[conn cl ca ws wr dr dt] w ctl rel acc]. simpl in *. subst.
    unfold run, perform, beginClose, markClosed, received, conn_open. simpl.
    rewrite orb_true_r. simpl. by rewrite app_nil_r.
  - simpl in Hb. subst b. unfold drain_schedule. simpl length. rewrite replicate_S.
    cbn [concat]. rewrite <- app_assoc, run_app. simpl in Hq.
    rewrite (run_one_item s d _ c) by done.
    set (s1 := set_fc _ s).
    destruct (IH s1 (mkTcp (tcp_out c ++ d) (tcp_open c))) as (H1 & H2 & H3 & H4 & H5 & H6);
      try done; [simpl; by rewrite Hc|].
    unfold drain_schedule in *. split_and!; try done.
    rewrite H5. subst s1. unfold received. simpl. rewrite Hc. simpl. by rewrite app_assoc.
Qed.

(** ** Theorems *)

Definition start (client : bool) : sys := if client then start_client else start_target.

Lemma start_sys_ok client acts : sys_ok (run acts (start client)).
Proof. apply sys_ok_run, start_ok. destruct client; auto. Qed.

(** C21: A tunnel delivers its bytes in order: under every interleaving of the control
    loop, the writer, timers, closes and network errors, what the local peer has
    received is a prefix of what the control loop accepted, nothing lost in the
    middle, duplicated or reordered; and a writer that stopped at the EOF marker
    has delivered all of it. *)
Theorem tunnel_bytes_in_order client acts :
  let s := run acts (start client) in
  received s `prefix_of` concat (sy_accepted s) ∧
  (met_eof (sy_writer s) = true → received s = concat (sy_accepted s)).
Proof.
  intros s. pose proof (ok_flow _ (start_sys_ok client acts)) as Hf. fold s in Hf. unfold flow in Hf.
  destruct (sy_writer s) as [| | | |[]|[]]; simpl in *; split; try done;
    try (destruct Hf as (-> & _); done); rewrite <- Hf; by apply prefix_app_r.
Qed.

(** The control loop never blocks on a tunnel and its memory is bounded: in every
    reachable state the channel holds at most 65 items, there is room whenever
    [enqueue] or [gracefulClose] sends (so the send under the lock returns at
    once), and a frame beyond the backlog of 64 closes the session instead. *)
Theorem tunnel_backlog_never_blocks client acts data :
  let f := sy_fc (run acts (start client)) in
  (length (fc_writes f) ≤ writes_cap)%nat ∧
  ((enqueueLocked data f).1 = Queued → (length (fc_writes f) < writes_cap)%nat) ∧
  ((gracefulCloseLocked f).1 = Draining → (length (fc_writes f) < writes_cap)%nat) ∧
  (fc_closed f = false → fc_draining f = false →
     if decide (length (fc_writes f) = writes_cap - 1)%nat then fc_closed (enqueue data f) = true
     else enqueue data f = push (mkForwardWrite data false) f).
Proof.
  intros f. pose proof (ok_channel _ (start_sys_ok client acts)) as (ds & _ & Hlen & Heq).
  fold f in Heq.
  assert (length (fc_writes f) = (length ds + if fc_draining f && negb
     (met_eof (sy_writer (run acts (start client)))) then 1 else 0)%nat) as Hl.
  { rewrite Heq, length_app. by destruct (_ && _). }
  unfold writes_cap in *. split_and!.
  - rewrite Hl. destruct (_ && _); lia.
  - unfold enqueueLocked, writes_cap. destruct (_ || _); [done|].
    destruct (Nat.leb_spec (65 - 1) (length (fc_writes f))); [done|]. lia.
  - unfold gracefulCloseLocked. destruct (fc_draining f); [by rewrite orb_true_r|].
    simpl in Hl. intros _. rewrite Hl. lia.
  - intros Hc Hd. unfold enqueue, enqueueLocked, writes_cap. rewrite Hc, Hd. simpl "||".
    rewrite Hd in Hl. simpl in Hl.
    case_decide; destruct (Nat.leb_spec (65 - 1) (length (fc_writes f))); try lia; [|done].
    unfold Close, markClosed. by rewrite Hc.
Qed.

(** A closed tunnel is silent: after [Close] has run, whatever happens next,
    nothing more reaches the local peer and nothing more is accepted. *)
Theorem closed_tunnel_is_silent client acts later :
  let s := run acts (start client) in
  fc_closed (sy_fc s) = true → sy_release s = false →
  received (run later s) = received s ∧ sy_accepted (run later s) = sy_accepted s.
Proof.
  intros s Hc Hr. apply silent_run.
  assert (closed_released s) as Hs.
  { apply closed_released_run. by destruct client. }
  destruct (Hs Hc) as [?|?]; [congruence|done].
Qed.

(** C23: A graceful close drains: from any reachable state with a working writer and
    connection, [gracefulClose] followed by the writer's own steps (three per
    queued frame, and three more) delivers every accepted byte and then closes the
    connection. *)
Theorem graceful_close_drains client acts c :
  let s := run acts (start client) in
  sy_writer s = WSelect → sy_control s = false → fc_closed (sy_fc s) = false →
  fc_draining (sy_fc s) = false → fc_conn (sy_fc s) = Some c → tcp_open c = true →
  let s' := run (AGraceful :: drain_schedule (length (fc_writes (sy_fc s)))) s in
  received s' = concat (sy_accepted s) ∧ sy_accepted s' = sy_accepted s ∧
  sy_writer s' = WDone true ∧ fc_closed (sy_fc s') = true ∧ conn_open (sy_fc s') = false.
Proof.
  intros s Hw Hctl Hcl Hdr Hc Ho s'.
  destruct (start_sys_ok client acts) as [Hf (ds & Hds & _ & Heq) Hwr _ _]. fold s in Hf, Heq, Hwr.
  rewrite Hdr in Heq. simpl in Heq. rewrite app_nil_r in Heq.
  assert (fc_writing (sy_fc s) = true) as Hwi.
  { destruct (fc_writing (sy_fc s)); [done|]. rewrite (proj1 Hwr) in Hw; done. }
  set (f1 := push (mkForwardWrite [] true) (mkForwardConn (fc_conn (sy_fc s)) (fc_closed (sy_fc s))
    (fc_cancelled (sy_fc s)) (fc_writes (sy_fc s)) (fc_writing (sy_fc s)) true true)).
  assert (perform s AGraceful = set_fc f1 s) as Hg.
  { unfold perform. simpl. rewrite Hctl. unfold gracefulCloseLocked. rewrite Hcl, Hdr, Hwi, Hc. simpl.
    subst f1. by rewrite Hcl, Hwi, Hc. }
  assert (s' = run (drain_schedule (length ds)) (set_fc f1 s)) as ->.
  { subst s'. simpl. by rewrite Hg, Heq. }
  destruct (run_drain ds (set_fc f1 s) c) as (H1 & H2 & _ & H4 & H5 & H6); try done.
  { simpl. by rewrite Heq. }
  split_and!; try done. rewrite H5. unfold flow in Hf. rewrite Hw in Hf. rewrite <- Hf.
  unfold queued. by rewrite Heq.
Qed.

(** ** Witnesses *)

(** Two frames queued on a session of the connecting side, the first one written *)
Definition demo_acts : list action :=
  [AStart; AEnqueue ["a"%char]; AEnqueue ["b"%char; "c"%char]; AReceive; ACheck; AWriteOk].

Lemma closed_tunnel_is_silent_witness :
  received (run [AReceive; AEnqueue ["d"%char]; ACancelled] (run (demo_acts ++ [AClose; ARelease])
     (start true))) = ["a"%char].
Proof.
  refine (proj1 (closed_tunnel_is_silent true (demo_acts ++ [AClose; ARelease])
    [AReceive; AEnqueue ["d"%char]; ACancelled] _ _)); by vm_compute.
Defined.

Lemma graceful_close_drains_witness :
  received (run (AGraceful :: drain_schedule 1) (run demo_acts (start true))) =
    ["a"%char; "b"%char; "c"%char].
Proof.
  refine (proj1 (graceful_close_drains true demo_acts (mkTcp ["a"%char] true) _ _ _ _ _ _));
    by vm_compute.
Defined.
