(* ===== verification/Paths.v ===== *)
(** * File access of the agent ([internal/agent/agent.go], [internal/agent/files.go])

    Which paths a console session may reach on a device: [pathAllowed] guards the
    listing, creation, removal and renaming of files, [fileRoot] anchors uploads
    and downloads in a directory handle.  The lexical functions of Go's
    [path/filepath] are those of Unix (the separator is ["/"]); symbolic links,
    the working directory and the outcome of opening a directory are arguments. *)
From Stdlib Require Import ZArith Lia Ascii String.
From S2P Require Import Prelude GoStrings.
Open Scope string_scope.
Open Scope list_scope.
Open Scope Z_scope.

(** ** [path/filepath] on Unix *)

(** One component of [Clean]: the stack holds the components kept so far, the last
    one first. *)
Definition clean_step (rooted : bool) (stack : list string) (c : string) : list string :=
  if String.eqb c "" || String.eqb c "." then stack
  else if String.eqb c ".." then
    match stack with
    | top :: rest => if String.eqb top ".." then c :: stack else rest
    | [] => if rooted then [] else [c]
    end
  else c :: stack.

Definition clean_comps (rooted : bool) (cs : list string) : list string :=
  reverse (foldl (clean_step rooted) [] cs).

Definition IsAbs (path : string) : bool := HasPrefix path "/".

(** [filepath.Clean] *)
Definition Clean (path : string) : string :=
  let cs := clean_comps (IsAbs path) (Split path "/") in
  if IsAbs path then "/" +:+ Join cs "/"
  else match cs with [] => "." | _ => Join cs "/" end.

(** [filepath.Join]: leading empty elements are ignored. *)
Fixpoint JoinPath (elems : list string) : string :=
  match elems with
  | [] => ""
  | e :: rest => if String.eqb e "" then JoinPath rest else Clean (Join elems "/")
  end.

(** [filepath.Dir]: what precedes the last separator, cleaned *)
Definition Dir (path : string) : string :=
  match removelast (Split path "/") with
  | [] => Clean ""
  | cs => Clean (Join cs "/" +:+ "/")
  end.

(** [filepath.Base] *)
Definition Base (path : string) : string :=
  if String.eqb path "" then "."
  else
    let p := TrimRightByte path "/" in
    if String.eqb p "" then "/" else List.last (Split p "/") "".

(** [filepath.IsLocal] *)
Definition IsLocal (path : string) : bool :=
  if IsAbs path || String.eqb path "" then false
  else
    let p := Clean path in
    negb (String.eqb p ".." || HasPrefix p "../").

(** The components of a path *)
Definition components (path : string) : list string :=
  List.filter (λ c, negb (String.eqb c "")) (Split path "/").

(** What is left of two component lists after their common prefix *)
Fixpoint strip_common (bs ts : list string) : list string * list string :=
  match bs, ts with
  | b :: bs', t :: ts' => if String.eqb b t then strip_common bs' ts' else (bs, ts)
  | _, _ => (bs, ts)
  end.

(** [filepath.Rel]: [None] for its error *)
Definition Rel (base target : string) : option string :=
  let base := Clean base in
  let target := Clean target in
  if String.eqb base target then Some "."
  else
    let base := if String.eqb base "." then "" else base in
    if negb (Bool.eqb (IsAbs base) (IsAbs target)) then None
    else
      let '(b, t) := strip_common (components base) (components target) in
      if match b with c :: _ => String.eqb c ".." | [] => false end then None
      else Some (Join (map (λ _, "..") b ++ t) "/").

(** ** Definitions *)

(** What [filepath.EvalSymlinks] returns *)
Inductive evaluated := Resolved (path : string) | NotExist | OtherError.

Section files.
Context (EvalSymlinks : string → evaluated) (Getwd : option string) (OpenRoot : string → bool).
Context (AllowPaths : list string).

(** [filepath.Abs] *)
Definition Abs (path : string) : option string :=
  if IsAbs path then Some (Clean path) else (λ wd, JoinPath [wd; path]) <$> Getwd.

(** The loop of [resolvePath]; [None] when the fuel runs out *)
Fixpoint resolve_loop (fuel : nat) (abs current : string) (suffix : list string) : option string :=
  match fuel with
  | O => None
  | S fuel' =>
      match EvalSymlinks current with
      | Resolved r => Some (match suffix with [] => r | _ => JoinPath (r :: suffix) end)
      | OtherError => Some abs
      | NotExist =>
          let parent := Dir current in
          if String.eqb parent current then Some abs
          else resolve_loop fuel' abs parent (Base current :: suffix)
      end
  end.

(** Every round removes a component, so one round per component and one for the
    root are enough. *)
Definition resolvePath (abs : string) : string :=
  default abs (resolve_loop (S (length (components abs))) abs abs []).

(** [strings.HasPrefix(resolved, realRoot+"/")] or equality *)
Definition under (realRoot resolved : string) : bool :=
  String.eqb resolved realRoot || HasPrefix resolved (realRoot +:+ "/").

Definition pathAllowed (path : string) : bool :=
  match AllowPaths with
  | [] => true
  | _ =>
      match Abs (Clean path) with
      | None => false
      | Some abs =>
          let resolved := resolvePath abs in
          existsb (λ root,
            match Abs (Clean root) with
            | None => false
            | Some r => under (resolvePath r) resolved
            end) AllowPaths
      end
  end.

(** The loop of [fileRoot] over the configured roots *)
Fixpoint find_root (roots : list string) (candidate : string) : res (string * string) :=
  match roots with
  | [] => Err "path is outside the allowed directories"
  | configured :: rest =>
      match Abs configured with
      | None => find_root rest candidate
      | Some base =>
          let base := resolvePath base in
          match Rel base candidate with
          | Some rel =>
              if String.eqb rel "." || IsLocal rel then
                if OpenRoot base then Ok (base, rel) else Err "open root"
              else find_root rest candidate
          | None => find_root rest candidate
          end
      end
  end.

(** [fileRoot]: the directory that is opened as a root, and the path inside it *)
Definition fileRoot (path : string) : res (string * string) :=
  match Abs path with
  | None => Err "getwd"
  | Some abs =>
      let roots := match AllowPaths with [] => ["/"] | _ => AllowPaths end in
      find_root roots (resolvePath abs)
  end.

(** [openUpload]: the file that is created, as a root and the path inside it;
    [root_open] is the outcome of [MkdirAll] and [OpenFile] on the root. *)
Definition openUpload (root_open : string → string → res unit) (dir name : string)
    : res (string * string) :=
  if String.eqb name "." || String.eqb name "/" || negb (IsLocal name) then
    Err "invalid upload name"
  else match fileRoot (JoinPath [dir; name]) with
       | Err e => Err e
       | Ok (base, rel) =>
           match root_open base rel with
           | Ok _ => Ok (base, rel)
           | Err e => Err e
           end
       end.
End files.

(** ** Absolute clean paths *)

(** A file name *)
Definition name_ok (c : string) : Prop :=
  c ≠ "" ∧ c ≠ "." ∧ c ≠ ".." ∧ str_mem "/" c = false.

(** The path of the components [cs] below the root *)
Definition abs_path (cs : list string) : string := "/" +:+ Join cs "/".

Lemma names_no_sep cs : Forall name_ok cs → Forall (λ w, str_mem "/" w = false) cs.
Proof. intros H. eapply Forall_impl; [exact H|]. by intros c (_ & _ & _ & ?). Qed.

Lemma Join_app xs ys sep :
  xs ≠ [] → ys ≠ [] → Join (xs ++ ys) sep = Join xs sep +:+ sep +:+ Join ys sep.
Proof.
  intros Hx Hy. induction xs as [|x xs IH]; [done|]. destruct xs as [|x' xs].
  - simpl. by destruct ys.
  - rewrite <- app_comm_cons, !Join_cons by done. rewrite IH by done. by rewrite !str_app_assoc.
Qed.

Lemma IsAbs_abs_path cs : IsAbs (abs_path cs) = true.
Proof. unfold IsAbs, abs_path. apply HasPrefix_app. Qed.

Lemma IsAbs_inv p : IsAbs p = true → ∃ q, p = String "/" q.
Proof. unfold IsAbs. intros H%HasPrefix_inv. eauto. Qed.

Lemma Split_abs_path cs :
  Forall name_ok cs → Split (abs_path cs) "/" = "" :: match cs with [] => [""] | _ => cs end.
Proof.
  intros Hcs. unfold abs_path. simpl. f_equal. destruct cs as [|c cs]; [done|].
  apply Split_Join; [done|]. by apply names_no_sep.
Qed.

Lemma components_abs_path cs : Forall name_ok cs → components (abs_path cs) = cs.
Proof.
  intros Hcs. unfold components. rewrite Split_abs_path by done. simpl.
  assert (List.filter (λ c, negb (String.eqb c "")) cs = cs) as Hf.
  { induction Hcs as [|c cs (Hc & _) _ IH]; [done|]. simpl.
    apply String.eqb_neq in Hc. rewrite Hc. simpl. by rewrite IH. }
  by destruct cs.
Qed.

Lemma abs_path_inj cs ds :
  Forall name_ok cs → Forall name_ok ds → abs_path cs = abs_path ds → cs = ds.
Proof.
  intros Hc Hd E. rewrite <- (components_abs_path cs), <- (components_abs_path ds) by done.
  by rewrite E.
Qed.

(** *** [Clean] *)

Lemma foldl_names rooted cs stack :
  Forall name_ok cs → foldl (clean_step rooted) stack cs = reverse cs ++ stack.
Proof.
  intros Hcs. revert stack. induction Hcs as [|c cs (H1 & H2 & H3 & _) _ IH]; intros stack; [done|].
  simpl. unfold clean_step at 2. apply String.eqb_neq in H1, H2, H3. rewrite H1, H2, H3. simpl.
  by rewrite IH, reverse_cons, <- app_assoc.
Qed.

Lemma clean_comps_id cs : Forall name_ok cs → clean_comps true cs = cs.
Proof. intros Hcs. unfold clean_comps. by rewrite foldl_names, app_nil_r, reverse_involutive. Qed.

Lemma clean_comps_empty cs : clean_comps true ("" :: cs) = clean_comps true cs.
Proof. done. Qed.

Lemma clean_comps_snoc cs : clean_comps true (cs ++ [""]) = clean_comps true cs.
Proof. unfold clean_comps. by rewrite foldl_app. Qed.

Lemma clean_comps_names cs :
  Forall (λ w, str_mem "/" w = false) cs → Forall name_ok (clean_comps true cs).
Proof.
  intros Hcs. unfold clean_comps. apply Forall_reverse.
  assert (∀ stack, Forall name_ok stack → Forall name_ok (foldl (clean_step true) stack cs)) as Hg;
    [|by apply Hg].
  induction Hcs as [|c cs Hc _ IH]; intros stack Hs; [done|]. simpl. apply IH. unfold clean_step.
  destruct (String.eqb_spec c ""); [done|]. destruct (String.eqb_spec c "."); [done|]. simpl.
  destruct (String.eqb_spec c "..") as [->|]; [|by constructor; [split_and!|]].
  destruct Hs as [|top rest Ht Hs]; [done|]. destruct (String.eqb_spec top "..") as [->|]; [|done].
  by destruct Ht as (_ & _ & ? & _).
Qed.

Lemma Clean_abs p : IsAbs p = true → ∃ cs, Forall name_ok cs ∧ Clean p = abs_path cs.
Proof.
  intros Hp. unfold Clean. rewrite Hp. eexists. split; [|done].
  apply clean_comps_names, Split_no_sep.
Qed.

Lemma Clean_abs_path cs : Forall name_ok cs → Clean (abs_path cs) = abs_path cs.
Proof.
  intros Hcs. unfold Clean. rewrite IsAbs_abs_path, Split_abs_path by done.
  destruct cs as [|c cs]; [done|]. by rewrite clean_comps_empty, clean_comps_id.
Qed.

(** Joining a clean root with names *)
Lemma JoinPath_abs cs ds :
  Forall name_ok cs → Forall name_ok ds → ds ≠ [] →
  JoinPath (abs_path cs :: ds) = abs_path (cs ++ ds).
Proof.
  intros Hc Hd Hne. cbn [JoinPath]. assert (String.eqb (abs_path cs) "" = false) as -> by done.
  destruct cs as [|c cs].
  - rewrite (Join_cons _ ds) by done. unfold Clean. simpl Split.
    rewrite Split_Join by (by auto using names_no_sep).
    by rewrite !clean_comps_empty, clean_comps_id.
  - rewrite (Join_cons _ ds) by done.
    rewrite <- (Clean_abs_path ((c :: cs) ++ ds)) by (by apply Forall_app).
    f_equal. unfold abs_path. rewrite (Join_app (c :: cs) ds) by done. by rewrite !str_app_assoc.
Qed.

(** *** [Dir] and [Base] *)

Lemma Dir_abs_path cs c : Forall name_ok (cs ++ [c]) → Dir (abs_path (cs ++ [c])) = abs_path cs.
Proof.
  intros Hcs. unfold Dir. rewrite Split_abs_path by done.
  assert (∃ d ds, cs ++ [c] = d :: ds) as (d & ds & E) by (destruct cs; eauto).
  rewrite E, <- E. change ("" :: cs ++ [c]) with (("" :: cs) ++ [c]). rewrite removelast_last.
  apply Forall_app in Hcs as [Hcs _]. destruct cs as [|d' cs]; [done|].
  set (ns := d' :: cs) in *.
  assert (Join ("" :: ns) "/" +:+ "/" = Join ("" :: ns ++ [""]) "/") as ->.
  { rewrite app_comm_cons, Join_app by done. done. }
  unfold Clean. assert (IsAbs (Join ("" :: ns ++ [""]) "/") = true) as -> by (rewrite Join_cons by done; exact (HasPrefix_app "/" _)).
  rewrite Split_Join; [|done|].
  - rewrite clean_comps_empty, clean_comps_snoc, clean_comps_id by done. done.
  - constructor; [done|]. apply Forall_app. split; [by apply names_no_sep|by repeat constructor].
Qed.

Lemma last_default {A} (l : list A) x d : List.last (l ++ [x]) d = x.
Proof. induction l as [|y l IH]; [done|]. simpl. rewrite IH. by destruct (l ++ [x]) eqn:E; [destruct l|]. Qed.

Lemma Base_abs_path cs c : Forall name_ok (cs ++ [c]) → Base (abs_path (cs ++ [c])) = c.
Proof.
  intros Hcs. pose proof Hcs as Hall. apply Forall_app in Hcs as [_ [(Hc & _ & _ & Hs) _]%Forall_cons].
  assert (TrimRightByte (abs_path (cs ++ [c])) "/" = abs_path (cs ++ [c])) as Ht.
  { unfold abs_path. destruct cs as [|d cs]; [by apply (TrimRightByte_id "/" c)|].
    rewrite Join_app by done. rewrite !str_app_assoc. by apply TrimRightByte_id. }
  unfold Base. assert (String.eqb (abs_path (cs ++ [c])) "" = false) as -> by done. rewrite Ht.
  assert (String.eqb (abs_path (cs ++ [c])) "" = false) as -> by done.
  rewrite Split_abs_path by done.
  assert (∃ d ds, cs ++ [c] = d :: ds) as (d & ds & E) by (destruct cs; eauto).
  rewrite E, <- E. change ("" :: cs ++ [c]) with (("" :: cs) ++ [c]). apply last_default.
Qed.

Lemma abs_path_nil_iff cs : Forall name_ok cs → abs_path cs = "/" → cs = [].
Proof. intros Hcs E. by apply (abs_path_inj cs []). Qed.

(** *** [Rel] *)

Lemma strip_common_app cs ds : strip_common cs (cs ++ ds) = ([], ds).
Proof. induction cs as [|c cs IH]; [by destruct ds|]. simpl. by rewrite String.eqb_refl. Qed.

Lemma strip_common_spec bs ts b t :
  strip_common bs ts = (b, t) → ∃ cs, bs = cs ++ b ∧ ts = cs ++ t.
Proof.
  revert ts. induction bs as [|x bs IH]; intros [|y ts]; simpl;
    try (intros [= <- <-]; by exists []).
  destruct (String.eqb_spec x y) as [->|].
  - intros (cs & -> & ->)%IH. by exists (y :: cs).
  - intros [= <- <-]. by exists [].
Qed.

(** The path from a clean root to a clean path below it *)
Lemma Rel_below bs ds :
  Forall name_ok bs → Forall name_ok ds →
  Rel (abs_path bs) (abs_path (bs ++ ds)) = Some (match ds with [] => "." | _ => Join ds "/" end).
Proof.
  intros Hb Hd. assert (Forall name_ok (bs ++ ds)) as Hbd by (by apply Forall_app).
  unfold Rel. rewrite !Clean_abs_path by done. destruct ds as [|d ds].
  { by rewrite app_nil_r, String.eqb_refl. }
  destruct (String.eqb_spec (abs_path bs) (abs_path (bs ++ d :: ds))) as [E|E].
  { apply abs_path_inj in E; [|done..]. by apply (f_equal length) in E; rewrite length_app in E; simpl in E; lia. }
  assert (String.eqb (abs_path bs) "." = false) as -> by done.
  rewrite !IsAbs_abs_path. simpl negb. cbv iota.
  by rewrite !components_abs_path, strip_common_app.
Qed.

(** A relative path that starts by climbing is not local. *)
Lemma climbing_not_local (b : list string) x bs ts :
  bs = x :: b → Forall name_ok ts → IsLocal (Join (map (λ _, "..") bs ++ ts) "/") = false.
Proof.
  intros Hbs Hts.
  assert (∀ n stack, Forall (λ c, c = "..") stack →
    foldl (clean_step false) stack (replicate n "..") = replicate n ".." ++ stack) as Hup.
  { induction n as [|n IH]; intros stack Hs; [done|]. simpl.
    assert (clean_step false stack ".." = ".." :: stack) as ->.
    { destruct Hs as [|? ? -> _]; done. }
    rewrite IH by (by constructor). rewrite (app_comm_cons _ _ ".."), <- replicate_S, replicate_S_end.
    by rewrite <- app_assoc. }
  assert (map (λ _ : string, "..") bs = replicate (length bs) "..") as ->.
  { clear. induction bs; simpl; congruence. }
  set (l := replicate (length bs) ".." ++ ts).
  assert (Split (Join l "/") "/" = l) as Hsp.
  { apply Split_Join; [by subst l bs|]. apply Forall_app. split; [by apply Forall_replicate|].
    by apply names_no_sep. }
  assert (IsAbs (Join l "/") = false) as Hrel.
  { subst l bs. simpl. destruct (replicate (length b) ".." ++ ts); done. }
  assert (clean_comps false l = l) as Hcl.
  { unfold clean_comps. subst l. rewrite foldl_app, Hup by done. rewrite app_nil_r, foldl_names by done.
    rewrite reverse_app, reverse_involutive, reverse_replicate. done. }
  unfold IsLocal. rewrite Hrel. destruct (String.eqb (Join l "/") ""); [done|]. cbn [orb].
  unfold Clean. rewrite Hrel, Hsp, Hcl. subst l bs. simpl.
  destruct (replicate (length b) ".." ++ ts) as [|y l']; [done|].
  change (String "." (String "." (String "/" (Join (y :: l') "/")))) with ("../" +:+ Join (y :: l') "/").
  rewrite HasPrefix_app, orb_true_r. done.
Qed.

(** What [Rel] calls local is below the base. *)
Lemma Rel_local bs cs rel :
  Forall name_ok bs → Forall name_ok cs → Rel (abs_path bs) (abs_path cs) = Some rel →
  (String.eqb rel "." || IsLocal rel) = true → ∃ ds, cs = bs ++ ds.
Proof.
  intros Hb Hc. unfold Rel. rewrite !Clean_abs_path by done.
  destruct (String.eqb_spec (abs_path bs) (abs_path cs)) as [E|E].
  { apply abs_path_inj in E as ->; [|done..]. intros _ _. exists []. by rewrite app_nil_r. }
  assert (String.eqb (abs_path bs) "." = false) as -> by done.
  rewrite !IsAbs_abs_path. simpl negb. cbv iota. rewrite !components_abs_path by done.
  destruct (strip_common bs cs) as [b t] eqn:Es. apply strip_common_spec in Es as (ks & -> & ->).
  intros Hrel Hloc. destruct b as [|x b]; [exists t; by rewrite app_nil_r|]. exfalso.
  apply Forall_app in Hb as [_ [(_ & _ & Hx & _) _]%Forall_cons]. apply Forall_app in Hc as [_ Ht].
  apply String.eqb_neq in Hx. rewrite Hx in Hrel.
  assert (rel = Join (map (λ _, "..") (x :: b) ++ t) "/") as -> by congruence.
  rewrite (climbing_not_local b x) in Hloc by done. rewrite orb_false_r in Hloc.
  apply String.eqb_eq in Hloc. simpl in Hloc. by destruct (map _ b ++ t).
Qed.

(** *** Below a root *)

Lemma abs_path_double cs x : Forall name_ok cs → abs_path cs ≠ "//" +:+ x.
Proof.
  intros Hcs E. apply (f_equal (λ p, Split p "/")) in E. rewrite Split_abs_path in E by done.
  simpl in E. injection E as E. destruct Hcs as [|c cs (Hne & _) _].
  - injection E as E. by apply (Split_not_nil x "/").
  - by injection E as -> _.
Qed.

(** The textual test of [pathAllowed] is the one on components, except that the
    root directory itself has nothing below it. *)
Lemma under_iff bs cs :
  Forall name_ok bs → Forall name_ok cs →
  under (abs_path bs) (abs_path cs) = true ↔ ∃ ds, cs = bs ++ ds ∧ (bs ≠ [] ∨ ds = []).
Proof.
  intros Hb Hc. unfold under. rewrite orb_true_iff, String.eqb_eq. split.
  - intros [E|Hp].
    { apply abs_path_inj in E as ->; [|done..]. exists []. rewrite app_nil_r. auto. }
    apply HasPrefix_inv in Hp. remember (str_drop _ _) as x. clear Heqx.
    destruct bs as [|b bs]; [by apply abs_path_double in Hp|].
    assert (abs_path cs = Join (("" :: b :: bs) ++ Split x "/") "/") as E.
    { rewrite Join_app by (done || apply Split_not_nil).
      rewrite Join_Split, Hp, (Join_cons "") by done. by rewrite !str_app_assoc. }
    pose proof (Split_abs_path cs Hc) as Hs. rewrite E, Split_Join in Hs; [|done|].
    + exists (Split x "/"). split; [|left; done]. simpl in Hs. injection Hs as Hs.
      destruct cs as [|c cs]; [|by rewrite <- Hs]. injection Hs as -> _.
      by apply Forall_cons in Hb as [(? & _) _].
    + apply Forall_app. split; [constructor; [done|by apply names_no_sep]|apply Split_no_sep].
  - intros (ds & -> & Hne). destruct ds as [|d ds]; [left; by rewrite app_nil_r|].
    destruct Hne as [Hne|?]; [|done]. right. unfold abs_path.
    rewrite (Join_app bs (d :: ds)) by done. rewrite !str_app_assoc. apply HasPrefix_app.
Qed.

(** ** Symbolic links *)

(** What the documentation promises: [EvalSymlinks] returns a clean path, absolute
    for an absolute argument, and the working directory is absolute. *)
Class FileSystemLaws (EvalSymlinks : string → evaluated) (Getwd : option string) : Prop := {
  eval_clean cs r : Forall name_ok cs → EvalSymlinks (abs_path cs) = Resolved r →
    ∃ ds, Forall name_ok ds ∧ r = abs_path ds;
  getwd_abs wd : Getwd = Some wd → IsAbs wd = true
}.

Section file_lemmas.
Context (ev : string → evaluated) (wd : option string).

(** The loop stops at the nearest ancestor that is not missing. *)
Lemma resolve_loop_spec abs cs suffix fuel :
  Forall name_ok cs → (length cs < fuel)%nat →
  ∃ k, (k ≤ length cs)%nat ∧
    (∀ j, (k < j ≤ length cs)%nat → ev (abs_path (take j cs)) = NotExist) ∧
    resolve_loop ev fuel abs (abs_path cs) suffix =
      match ev (abs_path (take k cs)) with
      | Resolved r => Some (match drop k cs ++ suffix with [] => r | l => JoinPath (r :: l) end)
      | _ => Some abs
      end ∧
    (ev (abs_path (take k cs)) = NotExist → k = 0%nat).
Proof.
  revert suffix fuel. induction cs as [|c cs IH] using rev_ind; intros suffix fuel Hcs Hf.
  - exists 0%nat. destruct fuel as [|fuel]; [simpl in Hf; lia|].
    cbn [resolve_loop length take drop app].
    split_and!; [lia|intros; lia| |done]. by destruct (ev (abs_path [])); [destruct suffix|..].
  - destruct fuel as [|fuel]; [lia|]. rewrite length_app in *. simpl in Hf.
    cbn [resolve_loop]. destruct (ev (abs_path (cs ++ [c]))) as [r| |] eqn:E.
    + exists (length cs + 1)%nat. rewrite take_ge, drop_ge by (rewrite length_app; simpl; lia).
      rewrite E. split_and!; [simpl; lia|intros; simpl in *; lia|by destruct suffix|done].
    + rewrite Dir_abs_path, Base_abs_path by done.
      destruct (String.eqb_spec (abs_path cs) (abs_path (cs ++ [c]))) as [Eq|_].
      { apply abs_path_inj in Eq; [|by apply Forall_app in Hcs as [? _]|done].
        apply (f_equal length) in Eq. rewrite length_app in Eq. simpl in Eq. lia. }
      destruct (IH (c :: suffix) fuel) as (k & Hk & Hne & Heq & H0); [by apply Forall_app in Hcs as [? _]|lia|].
      exists k. rewrite take_app_le, drop_app_le, <- app_assoc by lia.
      split_and!; [simpl; lia| |done|done]. intros j [Hj1 Hj2].
      destruct (decide (j ≤ length cs)%nat); [rewrite take_app_le by lia; apply Hne; lia|].
      rewrite take_ge by (rewrite length_app; simpl; lia). done.
    + exists (length cs + 1)%nat. rewrite take_ge by (rewrite length_app; simpl; lia). rewrite E.
      split_and!; [simpl; lia|intros; simpl in *; lia|done|done].
Qed.

Context `{!FileSystemLaws ev wd}.

Lemma resolvePath_spec cs :
  Forall name_ok cs →
  ∃ k, (k ≤ length cs)%nat ∧
    (∀ j, (k < j ≤ length cs)%nat → ev (abs_path (take j cs)) = NotExist) ∧
    ((∃ ds, Forall name_ok ds ∧ ev (abs_path (take k cs)) = Resolved (abs_path ds) ∧
        resolvePath ev (abs_path cs) = abs_path (ds ++ drop k cs)) ∨
     ((∀ r, ev (abs_path (take k cs)) ≠ Resolved r) ∧
      (ev (abs_path (take k cs)) = NotExist → k = 0%nat) ∧
      resolvePath ev (abs_path cs) = abs_path cs)).
Proof.
  intros Hcs. unfold resolvePath. rewrite components_abs_path by done.
  destruct (resolve_loop_spec (abs_path cs) cs [] (S (length cs))) as (k & Hk & Hne & Heq & H0);
    [done|lia|]. exists k. split_and!; [done..|]. rewrite Heq.
  destruct (ev (abs_path (take k cs))) as [r| |] eqn:E; [left|right; naive_solver..].
  destruct (eval_clean _ _ (Forall_take _ _ _ Hcs) E) as (ds & Hds & ->).
  exists ds. split_and!; [done..|]. rewrite app_nil_r.
  destruct (drop k cs) as [|x l] eqn:Ed; [simpl; by rewrite app_nil_r|].
  change (JoinPath (abs_path ds :: x :: l) = abs_path (ds ++ x :: l)).
  apply JoinPath_abs; [done| |done]. rewrite <- Ed. by apply Forall_drop.
Qed.

Lemma resolvePath_clean cs :
  Forall name_ok cs → ∃ ds, Forall name_ok ds ∧ resolvePath ev (abs_path cs) = abs_path ds.
Proof.
  intros Hcs. destruct (resolvePath_spec cs Hcs) as (k & _ & _ & [(ds & Hds & _ & E)|(_ & _ & E)]).
  - exists (ds ++ drop k cs). split; [|done]. apply Forall_app. by auto using Forall_drop.
  - eauto.
Qed.

Lemma Abs_clean p a : Abs wd p = Some a → ∃ cs, Forall name_ok cs ∧ a = abs_path cs.
Proof.
  unfold Abs. destruct (IsAbs p) eqn:Hp; [intros [= <-]; by apply Clean_abs|].
  destruct wd as [d|] eqn:Ewd; simpl; [|done]. intros [= <-].
  assert (IsAbs d = true) as Hd by (by apply (@getwd_abs ev (Some d) _ d)).
  destruct (IsAbs_inv d Hd) as [q ->]. cbn [JoinPath String.eqb]. apply Clean_abs.
  exact (HasPrefix_app "/" _).
Qed.

Lemma resolved_clean p a : Abs wd p = Some a → ∃ cs, Forall name_ok cs ∧ resolvePath ev a = abs_path cs.
Proof. intros (cs & Hcs & ->)%Abs_clean. by apply resolvePath_clean. Qed.
End file_lemmas.

(** ** Theorems *)

Section file_theorems.
Context (ev : string → evaluated) (wd : option string) `{!FileSystemLaws ev wd}.
Context (AllowPaths : list string).

(** The real location [p] lies in the directory with the real location [base]. *)
Definition inside (base p : string) (ds : list string) : Prop :=
  ∃ bs, Forall name_ok (bs ++ ds) ∧ base = abs_path bs ∧ p = abs_path (bs ++ ds).

Lemma inside_app bs ds :
  Forall name_ok bs → Forall name_ok ds → inside (abs_path bs) (abs_path (bs ++ ds)) ds.
Proof. intros. exists bs. split_and!; [by apply Forall_app|done..]. Qed.

(** Resolving a path terminates and follows symbolic links through the nearest
    existing ancestor: for every clean absolute path there is a split into the
    longest prefix that is not missing and the rest; when the prefix resolves, the
    result is its real location followed by the rest, otherwise (the prefix cannot
    be examined, or nothing exists) the path itself. *)
Theorem resolve_path_nearest_ancestor cs :
  Forall name_ok cs →
  ∃ k, (k ≤ length cs)%nat ∧
    (∀ j, (k < j ≤ length cs)%nat → ev (abs_path (take j cs)) = NotExist) ∧
    is_Some (resolve_loop ev (S (length cs)) (abs_path cs) (abs_path cs) []) ∧
    ((∃ ds, Forall name_ok ds ∧ ev (abs_path (take k cs)) = Resolved (abs_path ds) ∧
        resolvePath ev (abs_path cs) = abs_path (ds ++ drop k cs)) ∨
     ((∀ r, ev (abs_path (take k cs)) ≠ Resolved r) ∧
      resolvePath ev (abs_path cs) = abs_path cs)).
Proof.
  intros Hcs. destruct (resolvePath_spec ev wd cs Hcs) as (k & Hk & Hne & Hcase).
  exists k. split_and!; [done..| |naive_solver].
  destruct (resolve_loop_spec ev (abs_path cs) cs [] (S (length cs))) as (j & _ & _ & Hl & _);
    [done|lia|]. rewrite Hl. destruct (ev (abs_path (take j cs))); by eexists.
Qed.


Context (OpenRoot : string → bool).

Lemma find_root_ok roots cs base rel :
  Forall name_ok cs → find_root ev wd OpenRoot roots (abs_path cs) = Ok (base, rel) →
  ∃ root r ds, root ∈ roots ∧ Abs wd root = Some r ∧ base = resolvePath ev r ∧
    OpenRoot base = true ∧ inside base (abs_path cs) ds ∧
    rel = match ds with [] => "." | _ => Join ds "/" end.
Proof.
  intros Hcs. induction roots as [|root roots IH]; [done|]. cbn [find_root].
  assert (find_root ev wd OpenRoot roots (abs_path cs) = Ok (base, rel) →
    ∃ root0 r ds, root0 ∈ root :: roots ∧ Abs wd root0 = Some r ∧ base = resolvePath ev r ∧
    OpenRoot base = true ∧ inside base (abs_path cs) ds ∧
    rel = match ds with [] => "." | _ => Join ds "/" end) as IH'.
  { intros (root' & r & ds & Hin & H)%IH. exists root', r, ds. split; [by right|done]. }
  destruct (Abs wd root) as [r|] eqn:Ha; [|done].
  destruct (resolved_clean ev wd _ _ Ha) as (bs & Hbs & Eb). rewrite Eb.
  destruct (Rel (abs_path bs) (abs_path cs)) as [rl|] eqn:Hrel; [|done].
  destruct (_ || _) eqn:Hloc; [|done].
  destruct (OpenRoot (abs_path bs)) eqn:Ho; [|done]. intros [= <- <-].
  destruct (Rel_local bs cs rl) as [ds ->]; [done..|].
  apply Forall_app in Hcs as [_ Hds]. exists root, r, ds.
  rewrite Rel_below in Hrel by done. injection Hrel as <-.
  split_and!; [by left|done|done|done|by apply inside_app|done].
Qed.

(** C25: An upload cannot leave the configured directories: a file is created only
    through a handle on the real location of a configured directory (of "/" when
    none is configured), under a path inside it without "..", which is the real
    location of the requested file; and a file name with a separator at its
    start or a ".." that climbs is refused outright. *)
Theorem upload_stays_inside root_open dir name base rel :
  openUpload ev wd OpenRoot AllowPaths root_open dir name = Ok (base, rel) →
  IsLocal name = true ∧
  ∃ root r abs ds,
    root ∈ match AllowPaths with [] => ["/"] | _ => AllowPaths end ∧
    Abs wd root = Some r ∧ base = resolvePath ev r ∧
    Abs wd (JoinPath [dir; name]) = Some abs ∧ inside base (resolvePath ev abs) ds ∧
    rel = match ds with [] => "." | _ => Join ds "/" end ∧ Forall name_ok ds.
Proof.
  unfold openUpload. destruct (_ || negb (IsLocal name)) eqn:Hn; [done|]. bools.
  unfold fileRoot. destruct (Abs wd (JoinPath [dir; name])) as [abs|] eqn:Ha; [|done].
  destruct (resolved_clean ev wd _ _ Ha) as (cs & Hcs & Ec). rewrite Ec.
  destruct (find_root _ _ _ _ _) as [[b rl]|] eqn:Hf; [|done].
  destruct (root_open b rl); [|done]. intros [= <- <-]. split; [done|].
  apply find_root_ok in Hf as (root & r & ds & Hin & Hr & Hb & _ & Hi & Hrl); [|done].
  exists root, r, abs, ds. rewrite Ec. split_and!; try done.
  destruct Hi as (bs & Hbd & _). by apply Forall_app in Hbd as [_ ?].
Qed.
End file_theorems.

(** ** Witnesses *)

Module PathsDemo.
(** "/srv/link" points to "/etc"; "/srv" and "/srv/a" exist. *)
Definition ev (p : string) : evaluated :=
  if String.eqb p "/srv/link" then Resolved "/etc"
  else if existsb (String.eqb p) ["/"; "/srv"; "/srv/a"; "/etc"] then Resolved p
  else NotExist.
#[global] Instance laws : FileSystemLaws ev (Some "/srv").
Proof.
  split; [|by intros wd [= <-]]. intros cs r Hcs. unfold ev.
  destruct (String.eqb_spec (abs_path cs) "/srv/link") as [E|_].
  { intros [= <-]. exists ["etc"]. split; [by repeat constructor|done]. }
  case_match; [|done]. intros [= <-]. eauto.
Qed.
End PathsDemo.

Lemma resolve_path_nearest_ancestor_witness :
  ∃ k, (k ≤ 3)%nat ∧
    (∀ j, (k < j ≤ 3)%nat → PathsDemo.ev (abs_path (take j ["srv"; "link"; "x"])) = NotExist).
Proof.
  destruct (resolve_path_nearest_ancestor PathsDemo.ev (Some "/srv") ["srv"; "link"; "x"])
    as (k & Hk & Hj & _); [by repeat constructor|]. by exists k.
Defined.


Lemma upload_stays_inside_witness :
  IsLocal "f" = true ∧
  openUpload PathsDemo.ev (Some "/srv") (λ _, true) ["/srv"] (λ _ _, Ok tt) "a" "f" =
    Ok ("/srv", "a/f").
Proof.
  split; [|by vm_compute].
  refine (proj1 (upload_stays_inside PathsDemo.ev (Some "/srv") ["/srv"] (λ _, true)
    (λ _ _, Ok tt) "a" "f" "/srv" "a/f" _)). by vm_compute.
Defined.

(** A configured root "/" allows nothing below it. *)
Example slash_root_allows_nothing :
  pathAllowed PathsDemo.ev (Some "/srv") ["/"] "/srv/a" = false ∧
  fileRoot PathsDemo.ev (Some "/srv") (λ _, true) ["/"] "/srv/a" = Ok ("/", "srv/a").
Proof. by vm_compute. Qed.
