(* ===== verification/Agent.v ===== *)
(** * The agent's control loop ([internal/agent/agent.go])

    The state one agent keeps per control connection, and what it does with each
    message of the server.  Objects shared by pointer (open files, tunnels) live in
    heaps.  The disk holds the contents of files by real location; an open file has
    its own offset.  What the operating system answers to one message is an
    argument ([env]); the calls that change the file tree are recorded in
    [ag_calls].  [ag_open] is the set of control connections still open and
    [ag_out] what was written to them.

    The messages of the WebRTC paths ([direct.go], [browser_direct.go]) are handled
    by [handleNode] of [Direct], which extends this state: [handleMessage] is [None]
    for them, and for the start of a desktop link ([Screen]). *)
From stdpp Require Import sorting.
From Stdlib Require Import ZArith Lia Ascii String.
From S2P Require Import Prelude GoStrings Protocol Paths ForwardConn.
Open Scope string_scope.
Open Scope list_scope.
Open Scope Z_scope.

(** ** Data *)

(** The fields of [Config] the modelled code reads *)
Record AgentConfig := mkAgentConfig {
  cf_DeviceID : string; cf_Name : string; DataDir : string; AllowPaths : list string
}.

Record ForwardSpec := mkForwardSpec {
  LocalPort : Z; TargetDeviceID : string; TargetPort : Z
}.

(** An [*os.File] opened for writing *)
Record handle := mkHandle { h_location : string; h_offset : nat; h_open : bool }.

(** A tunnel, the control connection it belongs to, and the buffer of the channel
    [relayReady] of the client that waits for the tunnel to open (a tunnel for a
    remote client has no use for it) *)
Record tunnel := mkTunnel { tn_conn : forwardConn; tn_ws : option WS; tn_ready : list Message }.

(** A terminal: whether its shell was closed *)
Record TermSession := mkTermSession { tm_closed : bool }.

(** Calls into the operating system that change or list the file tree, or reach a
    terminal *)
Inductive oscall :=
| ReadDir (path : string)
| MkdirAll (path : string)
| RemoveAll (path : string)
| Rename (from to : string)
| PtyInput (p : ref) (data : string)
| PtyResize (p : ref) (cols rows : Z)
| PtyClose (p : ref).

Record Agent := mkAgent {
  ag_cfg : AgentConfig;
  ag_ws : option WS;
  ag_sessions : gmap string ref;
  ag_uploads : gmap string ref;
  ag_forwards : gmap string ref;
  ag_forwardPending : gmap string ref;
  ag_listeners : gmap string ForwardSpec;
  ag_handles : gmap ref handle;
  ag_tunnels : gmap ref tunnel;
  ag_terms : gmap ref TermSession;
  ag_disk : gmap string bytes;
  ag_calls : list oscall;
  ag_open : gset WS;
  ag_out : list (WS * Message);
  ag_next : ref
}.

(** A directory entry; its size and time are [None] when they cannot be read. *)
Record dirent := mkDirent { de_name : string; de_isDir : bool; de_info : option (Z * string) }.

(** What the operating system answers while one message is handled: the symbolic
    links and the working directory, opening a directory and a file in it, the
    write and close of an upload, starting a terminal, and the file operations *)
Record env := mkEnv {
  env_symlinks : string → evaluated;
  env_wd : option string;
  env_root : string → bool;
  env_create : string → string → res unit;
  env_write : option (nat * string);   (* [Some (n, e)]: [n] bytes, then the error *)
  env_close : res unit;
  env_terminal : res unit;
  env_operation : res unit;
  env_entries : res (list dirent)
}.

Definition upd_ws (w : option WS) (a : Agent) : Agent :=
  mkAgent (ag_cfg a) w (ag_sessions a) (ag_uploads a) (ag_forwards a) (ag_forwardPending a)
    (ag_listeners a) (ag_handles a) (ag_tunnels a) (ag_terms a) (ag_disk a) (ag_calls a) (ag_open a)
    (ag_out a) (ag_next a).
Definition upd_sessions (f : gmap string ref → gmap string ref) (a : Agent) : Agent :=
  mkAgent (ag_cfg a) (ag_ws a) (f (ag_sessions a)) (ag_uploads a) (ag_forwards a)
    (ag_forwardPending a) (ag_listeners a) (ag_handles a) (ag_tunnels a) (ag_terms a) (ag_disk a)
    (ag_calls a) (ag_open a) (ag_out a) (ag_next a).
Definition upd_uploads (f : gmap string ref → gmap string ref) (a : Agent) : Agent :=
  mkAgent (ag_cfg a) (ag_ws a) (ag_sessions a) (f (ag_uploads a)) (ag_forwards a)
    (ag_forwardPending a) (ag_listeners a) (ag_handles a) (ag_tunnels a) (ag_terms a) (ag_disk a)
    (ag_calls a) (ag_open a) (ag_out a) (ag_next a).
Definition upd_forwards (f : gmap string ref → gmap string ref) (a : Agent) : Agent :=
  mkAgent (ag_cfg a) (ag_ws a) (ag_sessions a) (ag_uploads a) (f (ag_forwards a))
    (ag_forwardPending a) (ag_listeners a) (ag_handles a) (ag_tunnels a) (ag_terms a) (ag_disk a)
    (ag_calls a) (ag_open a) (ag_out a) (ag_next a).
Definition upd_pending (f : gmap string ref → gmap string ref) (a : Agent) : Agent :=
  mkAgent (ag_cfg a) (ag_ws a) (ag_sessions a) (ag_uploads a) (ag_forwards a)
    (f (ag_forwardPending a)) (ag_listeners a) (ag_handles a) (ag_tunnels a) (ag_terms a)
    (ag_disk a) (ag_calls a) (ag_open a) (ag_out a) (ag_next a).
Definition upd_listeners (f : gmap string ForwardSpec → gmap string ForwardSpec)
    (a : Agent) : Agent :=
  mkAgent (ag_cfg a) (ag_ws a) (ag_sessions a) (ag_uploads a) (ag_forwards a)
    (ag_forwardPending a) (f (ag_listeners a)) (ag_handles a) (ag_tunnels a) (ag_terms a)
    (ag_disk a) (ag_calls a) (ag_open a) (ag_out a) (ag_next a).
Definition upd_handles (f : gmap ref handle → gmap ref handle) (a : Agent) : Agent :=
  mkAgent (ag_cfg a) (ag_ws a) (ag_sessions a) (ag_uploads a) (ag_forwards a)
    (ag_forwardPending a) (ag_listeners a) (f (ag_handles a)) (ag_tunnels a) (ag_terms a)
    (ag_disk a) (ag_calls a) (ag_open a) (ag_out a) (ag_next a).
Definition upd_tunnels (f : gmap ref tunnel → gmap ref tunnel) (a : Agent) : Agent :=
  mkAgent (ag_cfg a) (ag_ws a) (ag_sessions a) (ag_uploads a) (ag_forwards a)
    (ag_forwardPending a) (ag_listeners a) (ag_handles a) (f (ag_tunnels a)) (ag_terms a)
    (ag_disk a) (ag_calls a) (ag_open a) (ag_out a) (ag_next a).
Definition upd_terms (f : gmap ref TermSession → gmap ref TermSession) (a : Agent) : Agent :=
  mkAgent (ag_cfg a) (ag_ws a) (ag_sessions a) (ag_uploads a) (ag_forwards a)
    (ag_forwardPending a) (ag_listeners a) (ag_handles a) (ag_tunnels a) (f (ag_terms a))
    (ag_disk a) (ag_calls a) (ag_open a) (ag_out a) (ag_next a).
Definition upd_disk (f : gmap string bytes → gmap string bytes) (a : Agent) : Agent :=
  mkAgent (ag_cfg a) (ag_ws a) (ag_sessions a) (ag_uploads a) (ag_forwards a)
    (ag_forwardPending a) (ag_listeners a) (ag_handles a) (ag_tunnels a) (ag_terms a)
    (f (ag_disk a)) (ag_calls a) (ag_open a) (ag_out a) (ag_next a).
Definition upd_calls (f : list oscall → list oscall) (a : Agent) : Agent :=
  mkAgent (ag_cfg a) (ag_ws a) (ag_sessions a) (ag_uploads a) (ag_forwards a)
    (ag_forwardPending a) (ag_listeners a) (ag_handles a) (ag_tunnels a) (ag_terms a) (ag_disk a)
    (f (ag_calls a)) (ag_open a) (ag_out a) (ag_next a).
Definition upd_open (f : gset WS → gset WS) (a : Agent) : Agent :=
  mkAgent (ag_cfg a) (ag_ws a) (ag_sessions a) (ag_uploads a) (ag_forwards a)
    (ag_forwardPending a) (ag_listeners a) (ag_handles a) (ag_tunnels a) (ag_terms a) (ag_disk a)
    (ag_calls a) (f (ag_open a)) (ag_out a) (ag_next a).
Definition upd_out (f : list (WS * Message) → list (WS * Message)) (a : Agent) : Agent :=
  mkAgent (ag_cfg a) (ag_ws a) (ag_sessions a) (ag_uploads a) (ag_forwards a)
    (ag_forwardPending a) (ag_listeners a) (ag_handles a) (ag_tunnels a) (ag_terms a) (ag_disk a)
    (ag_calls a) (ag_open a) (f (ag_out a)) (ag_next a).
Definition upd_next (f : ref → ref) (a : Agent) : Agent :=
  mkAgent (ag_cfg a) (ag_ws a) (ag_sessions a) (ag_uploads a) (ag_forwards a)
    (ag_forwardPending a) (ag_listeners a) (ag_handles a) (ag_tunnels a) (ag_terms a) (ag_disk a)
    (ag_calls a) (ag_open a) (ag_out a) (f (ag_next a)).

(** The agent [New] builds from its completed configuration *)
Definition newAgent (cfg : AgentConfig) (disk : gmap string bytes) : Agent :=
  mkAgent cfg None ∅ ∅ ∅ ∅ ∅ ∅ ∅ ∅ disk [] ∅ [] 0.

(** ** Sending *)

Definition errNetClosed := "use of closed network connection".

(** [sendOn]: only the connection that is still the agent's current one is written. *)
Definition sendOn (w : option WS) (m : Message) : stateM Agent (res unit) :=
  a ← getS;
  match w with
  | Some w' =>
      if bool_decide (ag_ws a = Some w') then
        if bool_decide (w' ∈ ag_open a) then _ ← modifyS (upd_out (λ l, l ++ [(w', m)])); mret (Ok tt)
        else mret (Err errNetClosed)
      else mret (Err errNetClosed)
  | None => mret (Err errNetClosed)
  end.

Definition send (m : Message) : stateM Agent (res unit) :=
  a ← getS;
  match ag_ws a with None => mret (Err errNetClosed) | Some w => sendOn (Some w) m end.

Definition newRef : stateM Agent ref :=
  a ← getS; _ ← modifyS (upd_next S); mret (ag_next a).

Definition call (c : oscall) : stateM Agent unit := modifyS (upd_calls (λ l, l ++ [c])).

(** ** Files *)

(** [write(2)] at an offset: a gap is filled with zero bytes. *)
Definition write_at (off : nat) (raw content : bytes) : bytes :=
  take off content ++ replicate (off - length content) (ascii_of_nat 0) ++ raw ++
  drop (off + length raw) content.

(** [f.Write(raw)] of an open handle: all of it, or the first [n] bytes and an error *)
Definition fileWrite (p : ref) (raw : bytes) (outcome : option (nat * string))
    : stateM Agent (res unit) :=
  a ← getS;
  match ag_handles a !! p with
  | Some h =>
      if h_open h then
        let done := match outcome with None => raw | Some (n, _) => take n raw end in
        _ ← modifyS (upd_disk (λ d, <[h_location h :=
              write_at (h_offset h) done (default [] (d !! h_location h))]> d));
        _ ← modifyS (upd_handles (<[p := mkHandle (h_location h) (h_offset h + length done) true]>));
        mret (match outcome with None => Ok tt | Some (_, e) => Err e end)
      else mret (Err "file already closed")
  | None => mret (Err "invalid argument")
  end.

(** [f.Close()]: the handle is gone whatever the outcome. *)
Definition fileClose (p : ref) (outcome : res unit) : stateM Agent (res unit) :=
  _ ← modifyS (upd_handles (alter (λ h, mkHandle (h_location h) (h_offset h) false) p));
  mret outcome.

Definition location (base rel : string) : string := JoinPath [base; rel].

(** [openUpload], with the effect of [O_CREATE|O_TRUNC] *)
Definition openFile (e : env) (dir name : string) : stateM Agent (res ref) :=
  a ← getS;
  match openUpload (env_symlinks e) (env_wd e) (env_root e) (AllowPaths (ag_cfg a)) (env_create e)
          dir name with
  | Err err => mret (Err err)
  | Ok (base, rel) =>
      p ← newRef;
      _ ← modifyS (upd_disk (<[location base rel := []]>));
      _ ← modifyS (upd_handles (<[p := mkHandle (location base rel) 0 true]>));
      mret (Ok p)
  end.

(** [TypeFileUpload] *)
Definition handleUpload (e : env) (msg : Message) : stateM Agent (res unit) :=
  a ← getS;
  let name := Base (Name msg) in
  let dir := if negb (String.eqb (Path msg) "") then Path msg
             else JoinPath [DataDir (ag_cfg a); "uploads"] in
  f ← openFile e dir name;
  match f with
  | Err err => send (error_msg TypeFileError (SessionID msg) err)
  | Ok p =>
      a ← getS;
      let previous := ag_uploads a !! SessionID msg in
      _ ← modifyS (upd_uploads (<[SessionID msg := p]>));
      _ ← match previous with Some q => _ ← fileClose q (Ok tt); mret tt | None => mret tt end;
      mret (Ok tt)
  end.

(** [TypeFileChunk] *)
Definition handleChunk (e : env) (msg : Message) : stateM Agent (res unit) :=
  a ← getS;
  let f := ag_uploads a !! SessionID msg in
  match DecodeData (Data msg) with
  | Err err =>
      _ ← modifyS (upd_uploads (delete (SessionID msg)));
      _ ← match f with Some p => _ ← fileClose p (Ok tt); mret tt | None => mret tt end;
      send (error_msg TypeFileError (SessionID msg) err)
  | Ok raw =>
      match f with
      | None => mret (Ok tt)
      | Some p =>
          w ← fileWrite p raw (env_write e);
          match w with
          | Ok _ => mret (Ok tt)
          | Err err =>
              a ← getS;
              _ ← whenM (bool_decide (ag_uploads a !! SessionID msg = Some p))
                    (modifyS (upd_uploads (delete (SessionID msg))));
              _ ← fileClose p (Ok tt);
              send (error_msg TypeFileError (SessionID msg) err)
          end
      end
  end.

(** [TypeFileUploadEnd], [TypeFileError] *)
Definition handleUploadEnd (e : env) (msg : Message) : stateM Agent (res unit) :=
  a ← getS;
  let f := ag_uploads a !! SessionID msg in
  _ ← modifyS (upd_uploads (delete (SessionID msg)));
  match f with
  | None =>
      if String.eqb (Type_ msg) TypeFileUploadEnd
      then send (error_msg TypeFileError (SessionID msg) "upload session not found")
      else mret (Ok tt)
  | Some p =>
      c ← fileClose p (env_close e);
      if String.eqb (Type_ msg) TypeFileError then mret c
      else match c with
           | Err err => send (error_msg TypeFileError (SessionID msg) err)
           | Ok _ => send (session_msg TypeFileDone (SessionID msg))
           end
  end.

(** ** The file manager *)

Definition outside_error := "path is outside the allowed directories".

Definition list_result (sid path : string) (entries : list FileEntry) : Message :=
  mkMessage TypeFileListResult "" "" "" "" "" [] 0 None sid "" 0 0 0 "" 0 path "" 0 "" "" entries.
Definition roots_result (sid : string) (entries : list FileEntry) : Message :=
  mkMessage TypeFileRootsResult "" "" "" "" "" [] 0 None sid "" 0 0 0 "" 0 "" "" 0 "" "" entries.

Definition allowed (e : env) (a : Agent) (path : string) : bool :=
  pathAllowed (env_symlinks e) (env_wd e) (AllowPaths (ag_cfg a)) path.

(** The order of [sort.Slice] in [listDir]: directories first, then by name *)
Definition entry_less (x y : FileEntry) : bool :=
  if negb (Bool.eqb (fe_IsDir x) (fe_IsDir y)) then fe_IsDir x
  else String.ltb (ToLower (fe_Name x)) (ToLower (fe_Name y)).
Definition entry_le (x y : FileEntry) : Prop := entry_less y x = false.
#[export] Instance entry_le_dec : RelDecision entry_le.
Proof. intros x y. unfold entry_le. apply _. Defined.

(** [listDir] on the entries [os.ReadDir] returned (entries that compare equal may
    come in either order in the source) *)
Definition listDir (path : string) (raw : list dirent) : list FileEntry :=
  merge_sort entry_le
    (omap (λ d, (λ info, mkFileEntry (de_name d) (JoinPath [path; de_name d]) (de_isDir d)
                           info.1 info.2) <$> de_info d) raw).

Definition handleFileList (e : env) (msg : Message) : stateM Agent (res unit) :=
  a ← getS;
  if negb (allowed e a (Path msg)) then send (error_msg TypeFileError (SessionID msg) outside_error)
  else
    _ ← call (ReadDir (Path msg));
    match env_entries e with
    | Err err => send (error_msg TypeFileError (SessionID msg) err)
    | Ok raw => send (list_result (SessionID msg) (Path msg) (listDir (Path msg) raw))
    end.

(** The answer to an operation on the file tree *)
Definition operation (c : oscall) (e : env) (sid : string) : stateM Agent (res unit) :=
  _ ← call c;
  match env_operation e with
  | Err err => send (error_msg TypeFileError sid err)
  | Ok _ => send (session_msg TypeFileDone sid)
  end.

Definition handleFileMkdir (e : env) (msg : Message) : stateM Agent (res unit) :=
  a ← getS;
  if negb (allowed e a (Path msg)) then send (error_msg TypeFileError (SessionID msg) outside_error)
  else operation (MkdirAll (Path msg)) e (SessionID msg).

Definition handleFileDelete (e : env) (msg : Message) : stateM Agent (res unit) :=
  a ← getS;
  if negb (allowed e a (Path msg)) then send (error_msg TypeFileError (SessionID msg) outside_error)
  else operation (RemoveAll (Path msg)) e (SessionID msg).

Definition handleFileRename (e : env) (msg : Message) : stateM Agent (res unit) :=
  a ← getS;
  if negb (allowed e a (Path msg)) || negb (allowed e a (Target msg)) then
    send (error_msg TypeFileError (SessionID msg) outside_error)
  else operation (Rename (Path msg) (Target msg)) e (SessionID msg).

Definition handleFileRoots (msg : Message) : stateM Agent (res unit) :=
  a ← getS;
  send (roots_result (SessionID msg)
          (map (λ root, mkFileEntry root root true 0 "") (AllowPaths (ag_cfg a)))).

(** ** Downloads *)

(** [if n > 0]: what a read returned is sent on *)
Definition sendData (w : option WS) (ty sid : string) (data : bytes) : stateM Agent (res unit) :=
  match data with
  | [] => mret (Ok tt)
  | _ => sendOn w (data_msg ty sid (EncodeData data))
  end.

(** One [f.Read]: some bytes, and what ended the reads ([None]: not yet,
    [Some (Ok tt)]: the end of the file) *)
Record readResult := mkRead { rd_data : bytes; rd_end : option (res unit) }.

(** The loop of [streamFileOn] over the results of its reads.  The reads of a file
    that does not end with the list are the longer list. *)
Fixpoint streamLoop (w : option WS) (sid : string) (reads : list readResult)
    : stateM Agent (res unit) :=
  match reads with
  | [] => mret (Ok tt)
  | r :: rest =>
      s ← sendData w TypeFileChunk sid (rd_data r);
      match s with
      | Err err => mret (Err err)
      | Ok _ =>
          match rd_end r with
          | None => streamLoop w sid rest
          | Some (Ok _) => sendOn w (session_msg TypeFileDone sid)
          | Some (Err err) => sendOn w (error_msg TypeFileError sid err)
          end
      end
  end.

(** [streamFileOn]: [opened] is the outcome of opening the file in its root,
    [Ok true] for a directory. *)
Definition streamFileOn (e : env) (msg : Message) (w : option WS) (opened : res bool)
    (reads : list readResult) : stateM Agent (res unit) :=
  a ← getS;
  match fileRoot (env_symlinks e) (env_wd e) (env_root e) (AllowPaths (ag_cfg a)) (Path msg) with
  | Err err => sendOn w (error_msg TypeFileError (SessionID msg) err)
  | Ok _ =>
      match opened with
      | Err err => sendOn w (error_msg TypeFileError (SessionID msg) err)
      | Ok true => sendOn w (error_msg TypeFileError (SessionID msg) "path is a directory")
      | Ok false => streamLoop w (SessionID msg) reads
      end
  end.

(** ** Terminals *)

(** [TypeTermStart]; [env_terminal] is the outcome of starting the shell. *)
Definition handleTermStart (e : env) (msg : Message) : stateM Agent (res unit) :=
  match env_terminal e with
  | Err err => send (error_msg TypeTermError (SessionID msg) err)
  | Ok _ =>
      p ← newRef;
      _ ← modifyS (upd_terms (<[p := mkTermSession false]>));
      _ ← modifyS (upd_sessions (<[SessionID msg := p]>)); mret (Ok tt)
  end.

(** [TermSession.Input] and [TermSession.Resize]: a closed terminal ignores them. *)
Definition termCall (outcome : res unit) (c : oscall) (p : ref) : stateM Agent (res unit) :=
  a ← getS;
  match ag_terms a !! p with
  | Some (mkTermSession false) => _ ← call c; mret outcome
  | _ => mret (Ok tt)
  end.

Definition Input (outcome : res unit) (data : string) (p : ref) : stateM Agent (res unit) :=
  termCall outcome (PtyInput p data) p.
Definition Resize (outcome : res unit) (cols rows : Z) (p : ref) : stateM Agent (res unit) :=
  termCall outcome (PtyResize p (cols mod 2 ^ 16) (rows mod 2 ^ 16)) p.

(** [TermSession.Close]: the first one kills the shell. *)
Definition termClose (outcome : res unit) (p : ref) : stateM Agent (res unit) :=
  a ← getS;
  match ag_terms a !! p with
  | Some (mkTermSession false) =>
      _ ← modifyS (upd_terms (<[p := mkTermSession true]>));
      _ ← call (PtyClose p); mret outcome
  | _ => mret (Ok tt)
  end.

(** [writeSession] *)
Definition writeSession (sid : string) (fn : ref → stateM Agent (res unit)) : stateM Agent (res unit) :=
  a ← getS;
  match ag_sessions a !! sid with
  | None => mret (Ok tt)
  | Some p => fn p
  end.

(** [TypeTermStop] *)
Definition handleTermStop (e : env) (msg : Message) : stateM Agent (res unit) :=
  a ← getS;
  let session := ag_sessions a !! SessionID msg in
  _ ← modifyS (upd_sessions (delete (SessionID msg)));
  match session with
  | None => mret (Ok tt)
  | Some p => termClose (env_operation e) p
  end.

(** ** Tunnels *)

(** Run a method on the tunnel [p] points to *)
Definition onTunnel (p : ref) (g : forwardConn → forwardConn) : stateM Agent unit :=
  modifyS (upd_tunnels (alter (λ t, mkTunnel (g (tn_conn t)) (tn_ws t) (tn_ready t)) p)).

Definition onReady (p : ref) (g : list Message → list Message) : stateM Agent unit :=
  modifyS (upd_tunnels (alter (λ t, mkTunnel (tn_conn t) (tn_ws t) (g (tn_ready t))) p)).

(** [pending <- msg] of a channel with two slots, or nothing when it is full *)
Definition offer (msg : Message) (buffered : list Message) : list Message :=
  if (length buffered <? 2)%nat then buffered ++ [msg] else buffered.

(** [TypeForwardOpen], [TypeForwardError] *)
Definition handleForwardReply (msg : Message) : stateM Agent (res unit) :=
  a ← getS;
  _ ← (if String.eqb (Type_ msg) TypeForwardError then
         _ ← modifyS (upd_forwards (delete (SessionID msg)));
         match ag_forwards a !! SessionID msg with
         | Some p => onTunnel p Close
         | None => mret tt
         end
       else mret tt);
  _ ← match ag_forwardPending a !! SessionID msg with
      | Some q => onReady q (offer msg)
      | None => mret tt
      end;
  mret (Ok tt).

(** [TypeForwardData] *)
Definition handleForwardData (msg : Message) : stateM Agent (res unit) :=
  match DecodeData (Data msg) with
  | Err err => mret (Err err)
  | Ok raw =>
      a ← getS;
      _ ← match ag_forwards a !! SessionID msg with
          | Some p => onTunnel p (enqueue raw)
          | None => mret tt
          end;
      mret (Ok tt)
  end.

(** [TypeForwardClose] *)
Definition handleForwardClose (msg : Message) : stateM Agent (res unit) :=
  a ← getS;
  _ ← match ag_forwards a !! SessionID msg with
      | Some p => onTunnel p gracefulClose
      | None => mret tt
      end;
  mret (Ok tt).

(** [handleForwardTarget] up to the goroutine it starts: the reservation *)
Definition handleForwardTarget (msg : Message) : stateM Agent (res unit) :=
  if String.eqb (SessionID msg) "" || (Port msg <=? 0) || (65535 <? Port msg) then
    send (error_msg TypeForwardError (SessionID msg) "invalid forward request")
  else
    p ← newRef;
    a ← getS;
    _ ← modifyS (upd_tunnels (<[p := mkTunnel (newForwardConn None) (ag_ws a) []]>));
    let previous := ag_forwards a !! SessionID msg in
    _ ← modifyS (upd_forwards (<[SessionID msg := p]>));
    _ ← match previous with Some q => onTunnel q Close | None => mret tt end;
    mret (Ok tt).

(** [finishForward] *)
Definition finishForward (sid : string) (p : ref) : stateM Agent unit :=
  a ← getS;
  _ ← whenM (bool_decide (ag_forwards a !! sid = Some p)) (modifyS (upd_forwards (delete sid)));
  onTunnel p Close.

(** The goroutine of [handleForwardTarget] once the dial has returned: [None] when
    it failed.  [true] when it goes on to read from the connection. *)
Definition targetDialed (sid : string) (p : ref) (dial : res tcp) : stateM Agent bool :=
  a ← getS;
  match ag_tunnels a !! p with
  | None => mret false
  | Some t =>
      match dial with
      | Err err =>
          _ ← (if fc_cancelled (tn_conn t) then mret (Ok tt)
               else sendOn (tn_ws t) (error_msg TypeForwardError sid err));
          _ ← finishForward sid p; mret false
      | Ok conn =>
          let '(attached, f) := attach conn (tn_conn t) in
          _ ← onTunnel p (λ _, f);
          if negb attached then _ ← finishForward sid p; mret false
          else
            _ ← onTunnel p (λ f, (startWriter f).2);
            s ← sendOn (tn_ws t) (session_msg TypeForwardOpen sid);
            if is_ok s then mret true else _ ← finishForward sid p; mret false
      end
  end.

(** One round of [readForward]: the read returned [data] and possibly an error.
    [true] to read on, [false] to leave the loop. *)
Definition readRound (sid : string) (p : ref) (data : bytes) (failed : bool)
    : stateM Agent bool :=
  a ← getS;
  match ag_tunnels a !! p with
  | None => mret false
  | Some t =>
      if fc_cancelled (tn_conn t) then mret false
      else if isDraining (tn_conn t) then mret (negb failed)
      else
        s ← sendData (tn_ws t) TypeForwardData sid data;
        mret (is_ok s && negb failed)
  end.

(** After the loop: a session that is not draining and still registered tells the
    relay (a draining one waits for its context first). *)
Definition readDone (sid : string) (p : ref) : stateM Agent unit :=
  a ← getS;
  match ag_tunnels a !! p with
  | None => mret tt
  | Some t =>
      if isDraining (tn_conn t) then mret tt
      else
        _ ← (if bool_decide (ag_forwards a !! sid = Some p)
             then sendOn (tn_ws t) (session_msg TypeForwardClose sid) else mret (Ok tt));
        mret tt
  end.

(** [readForward] over the results of its reads, each some bytes and whether there
    was an error.  A list that ends without an error stands for a read that does not
    return. *)
Fixpoint readForward (sid : string) (p : ref) (reads : list (bytes * bool)) : stateM Agent unit :=
  match reads with
  | [] => mret tt
  | (data, failed) :: rest =>
      on ← readRound sid p data failed;
      if on : bool then readForward sid p rest else readDone sid p
  end.

(** ** Local listeners *)

(** [StartForward]; [listen] is the outcome of [net.Listen]. *)
Definition StartForward (listen : res unit) (spec : ForwardSpec) : stateM Agent (res unit) :=
  let key := Itoa (LocalPort spec) in
  a ← getS;
  match ag_listeners a !! key with
  | Some _ => mret (Err ("forward " ++ Itoa (LocalPort spec) ++ " already exists"))
  | None =>
      match listen with
      | Err err => mret (Err err)
      | Ok _ => _ ← modifyS (upd_listeners (<[key := spec]>)); mret (Ok tt)
      end
  end.

(** [StopForward]; [close] is the outcome of closing the listener. *)
Definition StopForward (close : res unit) (localPort : Z) : stateM Agent (res unit) :=
  let key := Itoa localPort in
  a ← getS;
  match ag_listeners a !! key with
  | None => mret (Err ("forward " ++ Itoa localPort ++ " not found"))
  | Some _ => _ ← modifyS (upd_listeners (delete key)); mret close
  end.

Definition ListForwards (a : Agent) : list ForwardSpec := map snd (map_to_list (ag_listeners a)).

(** [protocol.Message{Type: TypeForwardConnect, SessionID, Target, Port}] *)
Definition connect_msg (sid : string) (spec : ForwardSpec) : Message :=
  mkMessage TypeForwardConnect "" "" "" "" "" [] 0 None sid "" 0 0 0 "" 0 ""
    (TargetDeviceID spec) (TargetPort spec) "" "" [].

(** What [handleForwardClient] defers: its registrations are withdrawn and the
    tunnel is closed. *)
Definition clientDone (sid : string) (p : ref) : stateM Agent unit :=
  _ ← modifyS (upd_pending (delete sid));
  finishForward sid p.

(** [handleForwardClient] up to its [select]: the connection accepted by a listener
    becomes a tunnel with the id [newSessionID] drew, whose target is asked for on
    the control connection.  [Some p]: it goes on to wait for the answer. *)
Definition handleForwardClient (sid : string) (conn : tcp) (spec : ForwardSpec)
    : stateM Agent (option ref) :=
  p ← newRef;
  a ← getS;
  _ ← modifyS (upd_tunnels
        (<[p := mkTunnel (startWriter (newForwardConn (Some conn))).2 (ag_ws a) []]>));
  _ ← modifyS (upd_forwards (<[sid := p]>));
  _ ← modifyS (upd_pending (<[sid := p]>));
  s ← sendOn (ag_ws a) (connect_msg sid spec);
  if is_ok s then mret (Some p) else _ ← clientDone sid p; mret None.

(** The cases of the [select] that do not take a direct channel *)
Inductive clientEvent := ContextDone | RelayReady | Timeout.

(** [true] when the client goes on to [readForward]; a case that is not ready is no
    step ([None]). *)
Definition clientSelect (sid : string) (p : ref) (ev : clientEvent) : stateM Agent (option bool) :=
  a ← getS;
  match ag_tunnels a !! p with
  | None => mret None
  | Some t =>
      match ev with
      | ContextDone =>
          if fc_cancelled (tn_conn t) then _ ← clientDone sid p; mret (Some false) else mret None
      | RelayReady =>
          match tn_ready t with
          | [] => mret None
          | msg :: rest =>
              _ ← onReady p (λ _, rest);
              if String.eqb (Type_ msg) TypeForwardError || String.eqb (Type_ msg) TypeForwardClose
              then _ ← clientDone sid p; mret (Some false)
              else _ ← onTunnel p (λ f, (startWriter f).2); mret (Some true)
          end
      | Timeout => _ ← clientDone sid p; mret (Some false)
      end
  end.

(** ** The control loop *)

(** [handleMessage]; a download is streamed by a goroutine of its own
    ([streamFileOn] on the connection current at this point). *)
Definition handleMessage (e : env) (msg : Message) : option (stateM Agent (res unit)) :=
  let ty t := String.eqb (Type_ msg) t in
  if ty TypePing then Some (send (msg_of TypePong))
  else if ty TypeTermStart then Some (handleTermStart e msg)
  else if ty TypeTermInput then Some (writeSession (SessionID msg) (Input (env_operation e) (Data msg)))
  else if ty TypeTermResize then
    Some (writeSession (SessionID msg) (Resize (env_operation e) (Cols msg) (Rows msg)))
  else if ty TypeTermStop then Some (handleTermStop e msg)
  else if ty TypeFileUpload then Some (handleUpload e msg)
  else if ty TypeFileChunk then Some (handleChunk e msg)
  else if ty TypeFileUploadEnd || ty TypeFileError then Some (handleUploadEnd e msg)
  else if ty TypeFileDownload then Some (mret (Ok tt))
  else if ty TypeFileList then Some (handleFileList e msg)
  else if ty TypeFileMkdir then Some (handleFileMkdir e msg)
  else if ty TypeFileDelete then Some (handleFileDelete e msg)
  else if ty TypeFileRename then Some (handleFileRename e msg)
  else if ty TypeFileRoots then Some (handleFileRoots msg)
  else if ty TypeForwardConnect then Some (handleForwardTarget msg)
  else if ty TypeForwardDirectOK then Some (mret (Ok tt))
  else if ty TypeForwardOpen || ty TypeForwardError then Some (handleForwardReply msg)
  else if ty TypeForwardData then Some (handleForwardData msg)
  else if ty TypeForwardClose then Some (handleForwardClose msg)
  else if existsb ty [TypeForwardOffer; TypeForwardAnswer; TypeForwardICE; TypeRTCOffer;
                      TypeRTCRelay; TypeRTCReady; TypeRTCStop; TypeRTCICE; TypeScreenStart]
       then None
  else Some (mret (Ok tt)).

(** [for _, session := range sessions { _ = session.Close() }] *)
Fixpoint closeTerms (ps : list ref) : stateM Agent unit :=
  match ps with
  | [] => mret tt
  | p :: ps => _ ← termClose (Ok tt) p; closeTerms ps
  end.

(** [cleanupSessions]: everything that belonged to the lost connection is closed
    and forgotten. *)
Definition cleanupSessions : stateM Agent unit :=
  a ← getS;
  _ ← modifyS (upd_sessions (λ _, ∅));
  _ ← modifyS (upd_uploads (λ _, ∅));
  _ ← modifyS (upd_forwards (λ _, ∅));
  _ ← modifyS (upd_pending (λ _, ∅));
  _ ← closeTerms (map snd (map_to_list (ag_sessions a)));
  _ ← modifyS (upd_handles (λ hs, foldr (λ p hs,
        alter (λ h, mkHandle (h_location h) (h_offset h) false) p hs) hs
        (map snd (map_to_list (ag_uploads a)))));
  modifyS (upd_tunnels (λ ts, foldr (λ p ts,
        alter (λ t, mkTunnel (Close (tn_conn t)) (tn_ws t) (tn_ready t)) p ts) ts
        (map snd (map_to_list (ag_forwards a))))).

(** The hello message; what the platform reports is an argument. *)
Definition hello (cfg : AgentConfig) (goos goarch : string) (lan : list string)
    (caps : DeviceCapabilities) : Message :=
  mkMessage TypeHello (cf_DeviceID cfg) (cf_Name cfg) (cf_Name cfg) goos goarch lan 0 (Some caps)
    "" "" 0 0 0 "" 0 "" "" 0 "" "" [].

(** The start of [connectOnce], once the dial has returned the connection [w] *)
Definition connected (w : WS) (goos goarch : string) (lan : list string)
    (caps : DeviceCapabilities) : stateM Agent (res unit) :=
  _ ← modifyS (upd_open (λ o, {[w]} ∪ o));
  _ ← modifyS (upd_ws (Some w));
  a ← getS;
  send (hello (ag_cfg a) goos goarch lan caps).

(** The function [connectOnce] defers *)
Definition disconnected (w : WS) : stateM Agent unit :=
  _ ← modifyS (upd_ws None);
  _ ← modifyS (upd_open (λ o, o ∖ {[w]}));
  cleanupSessions.

(** ** Reconnecting ([Run]) *)

(** One round: how long the connection lasted and the backoff so far give the sleep
    before the next attempt and the next backoff. *)
Definition backoff_round (backoff lasted : Duration) : Duration * Duration :=
  let backoff := if 60 * Second <? lasted then Second else backoff in
  (backoff + Z.quot backoff 5, if backoff <? 30 * Second then backoff * 2 else backoff).

(** The sleeps of a sequence of connections *)
Fixpoint sleeps (backoff : Duration) (lasted : list Duration) : list Duration :=
  match lasted with
  | [] => []
  | d :: rest => let '(s, b) := backoff_round backoff d in s :: sleeps b rest
  end.
