(* ===== verification/AgentInv.v ===== *)
(** * The invariant of the agent's maps

    What holds of the uploads, tunnels and listeners an agent has registered after
    any sequence of messages, connections, tunnel events and local requests. *)
From Stdlib Require Import ZArith Lia Ascii String.
From S2P Require Import Prelude GoStrings Protocol Paths ForwardConn Agent.
Open Scope string_scope.
Open Scope list_scope.
Open Scope Z_scope.

(** Walk over the text of a handler of the agent. *)
Ltac frame_agent :=
  repeat first
    [ match goal with |- PreOrder _ => apply _ end
    | progress intros
    | apply keeps_ret
    | apply keeps_get
    | apply keeps_bind
    | apply keeps_modify; intros; done
    | progress unfold whenM
    | progress case_match ].

(** ** Sending *)

Lemma sendOn_run w m a :
  ag_ws a = Some w → w ∈ ag_open a →
  sendOn (Some w) m a = (Ok tt, upd_out (λ l, l ++ [(w, m)]) a).
Proof.
  intros Hw Ho. unfold sendOn. rewrite bind_run. simpl.
  by rewrite bool_decide_true, bool_decide_true by done.
Qed.

Lemma send_run w m a :
  ag_ws a = Some w → w ∈ ag_open a → send m a = (Ok tt, upd_out (λ l, l ++ [(w, m)]) a).
Proof. intros Hw Ho. unfold send. rewrite bind_run. simpl. rewrite Hw. by apply sendOn_run. Qed.

Lemma keeps_sendOn {B} (f : Agent → B) w m :
  (∀ g a, f (upd_out g a) = f a) → keeps (λ a a', f a' = f a) (sendOn w m).
Proof.
  intros Hf. unfold sendOn.
  repeat first [ match goal with |- PreOrder _ => apply _ end | progress intros
    | apply keeps_ret | apply keeps_get | apply keeps_bind
    | apply keeps_modify; intros; by rewrite Hf | progress case_match ].
Qed.

Lemma keeps_send {B} (f : Agent → B) m :
  (∀ g a, f (upd_out g a) = f a) → keeps (λ a a', f a' = f a) (send m).
Proof.
  intros Hf. unfold send. apply keeps_bind; [apply _|apply keeps_get, _|]. intros a.
  case_match; [by apply keeps_sendOn|apply keeps_ret, _].
Qed.

(** ** The invariant of the agent's maps *)

(** Every registered upload is an open file and no two sessions share one; every
    registered tunnel exists, is registered once and belongs to the current control
    connection (or to none, when it was accepted while there was no connection);
    the listeners are filed under their ports. *)
Record agent_wf (a : Agent) : Prop := mkAgentWf {
  wf_uploads : ∀ sid p, ag_uploads a !! sid = Some p →
    ∃ h, ag_handles a !! p = Some h ∧ h_open h = true;
  wf_uploads_inj : ∀ s1 s2 p, ag_uploads a !! s1 = Some p → ag_uploads a !! s2 = Some p → s1 = s2;
  wf_handles_fresh : ∀ p h, ag_handles a !! p = Some h → (p < ag_next a)%nat;
  wf_forwards : ∀ sid p, ag_forwards a !! sid = Some p →
    ∃ t, ag_tunnels a !! p = Some t ∧ (tn_ws t = None ∨ tn_ws t = ag_ws a);
  wf_forwards_inj : ∀ s1 s2 p,
    ag_forwards a !! s1 = Some p → ag_forwards a !! s2 = Some p → s1 = s2;
  wf_tunnels_fresh : ∀ p t, ag_tunnels a !! p = Some t → (p < ag_next a)%nat;
  wf_pending : ∀ sid p, ag_forwardPending a !! sid = Some p → is_Some (ag_tunnels a !! p);
  wf_listeners : ∀ k spec, ag_listeners a !! k = Some spec → k = Itoa (LocalPort spec);
  wf_sessions : ∀ sid p, ag_sessions a !! sid = Some p → is_Some (ag_terms a !! p);
  wf_sessions_inj : ∀ s1 s2 p,
    ag_sessions a !! s1 = Some p → ag_sessions a !! s2 = Some p → s1 = s2;
  wf_terms_fresh : ∀ p t, ag_terms a !! p = Some t → (p < ag_next a)%nat
}.

Definition wf_kept (a a' : Agent) : Prop := agent_wf a → agent_wf a'.
#[export] Instance wf_kept_preorder : PreOrder wf_kept.
Proof. split; [by intros ? ?|]. intros x y z H1 H2 H. auto. Qed.

(** *** Single updates *)

(** Fields the invariant does not mention *)
Lemma wf_other a a' :
  ag_uploads a' = ag_uploads a → ag_handles a' = ag_handles a → ag_next a' = ag_next a →
  ag_forwards a' = ag_forwards a → ag_tunnels a' = ag_tunnels a → ag_ws a' = ag_ws a →
  ag_forwardPending a' = ag_forwardPending a → ag_listeners a' = ag_listeners a →
  ag_sessions a' = ag_sessions a → ag_terms a' = ag_terms a → wf_kept a a'.
Proof.
  intros E1 E2 E3 E4 E5 E6 E7 E8 E9 E10 [].
  by constructor; rewrite ?E1, ?E2, ?E3, ?E4, ?E5, ?E6, ?E7, ?E8, ?E9, ?E10.
Qed.

Lemma wf_delete_session sid a : wf_kept a (upd_sessions (delete sid) a).
Proof.
  intros []. constructor; simpl; try done.
  - intros s p [_ H]%lookup_delete_Some. eauto.
  - intros s1 s2 p [_ H1]%lookup_delete_Some [_ H2]%lookup_delete_Some. eauto.
Qed.

(** Closing a terminal *)
Lemma wf_mark_term p t u a :
  ag_terms a !! p = Some t → wf_kept a (upd_terms (<[p := u]>) a).
Proof.
  intros Hp []. constructor; simpl; try done.
  - intros s q Hq. destruct (decide (p = q)) as [->|]; [rewrite lookup_insert_eq; eauto|].
    rewrite lookup_insert_ne by done. eauto.
  - intros q v. rewrite lookup_insert_Some. intros [[<- _]|[_ H]]; eauto.
Qed.

(** A new terminal is registered. *)
Lemma wf_new_term sid t a :
  wf_kept a (upd_sessions (<[sid := ag_next a]>) (upd_terms (<[ag_next a := t]>) (upd_next S a))).
Proof.
  intros Hwf.
  assert (∀ s, ag_sessions a !! s ≠ Some (ag_next a)) as Hp.
  { intros s Hs. destruct (wf_sessions a Hwf s _ Hs) as [u Hu].
    apply (wf_terms_fresh a Hwf) in Hu. lia. }
  destruct Hwf. constructor; simpl; try done.
  - intros q h H. apply wf_handles_fresh0 in H. lia.
  - intros q h H. apply wf_tunnels_fresh0 in H. lia.
  - intros s q. rewrite lookup_insert_Some. intros [[<- <-]|[_ Hq]]; [rewrite lookup_insert_eq; eauto|].
    destruct (decide (ag_next a = q)) as [<-|]; [by apply Hp in Hq|].
    rewrite lookup_insert_ne by done. eauto.
  - intros s1 s2 q. rewrite !lookup_insert_Some.
    intros [[<- <-]|[_ H1]] [[<- E]|[_ H2]]; subst; try done; try (by exfalso; eapply Hp); eauto.
  - intros q v. rewrite lookup_insert_Some. intros [[<- _]|[_ H]]; [lia|].
    apply wf_terms_fresh0 in H. lia.
Qed.

Lemma wf_delete_forward sid a : wf_kept a (upd_forwards (delete sid) a).
Proof.
  intros []. constructor; simpl; try done.
  - intros s p [_ H]%lookup_delete_Some. eauto.
  - intros s1 s2 p [_ H1]%lookup_delete_Some [_ H2]%lookup_delete_Some. eauto.
Qed.

Lemma wf_delete_pending sid a : wf_kept a (upd_pending (delete sid) a).
Proof.
  intros []. constructor; simpl; try done. intros s p [_ H]%lookup_delete_Some. eauto.
Qed.

Lemma wf_alter_tunnel f p a :
  (∀ t, tn_ws (f t) = tn_ws t) → wf_kept a (upd_tunnels (alter f p) a).
Proof.
  intros Hf []. constructor; simpl; try done.
  - intros s q Hq. destruct (wf_forwards0 s q Hq) as (t & Ht & Hw).
    destruct (decide (p = q)) as [->|]; [|by rewrite lookup_alter_ne; eauto].
    rewrite lookup_alter_eq, Ht. simpl. exists (f t). by rewrite Hf.
  - intros q t. rewrite lookup_alter_Some. intros [(<- & u & Hu & _)|[_ Hu]]; eauto.
  - intros s q Hq. destruct (wf_pending0 s q Hq) as [t Ht].
    destruct (decide (p = q)) as [->|]; [|by rewrite lookup_alter_ne; eauto].
    rewrite lookup_alter_eq, Ht. simpl. eauto.
Qed.

(** A write moves the offset of a file that stays open. *)
Lemma wf_write p h off a :
  ag_handles a !! p = Some h → wf_kept a (upd_handles (<[p := mkHandle (h_location h) off true]>) a).
Proof.
  intros Hp []. constructor; simpl; try done.
  - intros s q Hq. destruct (decide (p = q)) as [->|]; [rewrite lookup_insert_eq; eauto|].
    rewrite lookup_insert_ne by done. eauto.
  - intros q k. rewrite lookup_insert_Some. intros [[<- _]|[_ H]]; eauto.
Qed.

(** *** Combined updates *)

Definition close_handle (h : handle) : handle := mkHandle (h_location h) (h_offset h) false.

(** A file no session refers to may be closed. *)
Lemma wf_close p a :
  (∀ sid, ag_uploads a !! sid ≠ Some p) → wf_kept a (upd_handles (alter close_handle p) a).
Proof.
  intros Hno []. constructor; simpl; try done.
  - intros s q Hq. rewrite lookup_alter_ne; [eauto|]. intros ->. by apply (Hno s).
  - intros q k. rewrite lookup_alter_Some. intros [(<- & u & Hu & _)|[_ Hu]]; eauto.
Qed.

Lemma wf_delete_upload sid a : wf_kept a (upd_uploads (delete sid) a).
Proof.
  intros []. constructor; simpl; try done.
  - intros s p [_ H]%lookup_delete_Some. eauto.
  - intros s1 s2 p [_ H1]%lookup_delete_Some [_ H2]%lookup_delete_Some. eauto.
Qed.

(** An upload is forgotten and its file closed. *)
Lemma wf_drop_upload sid p a :
  ag_uploads a !! sid = Some p →
  wf_kept a (upd_handles (alter close_handle p) (upd_uploads (delete sid) a)).
Proof.
  intros Hp Hwf. apply wf_close; [|by apply wf_delete_upload]. simpl. intros s [Hne Hs]%lookup_delete_Some.
  by apply Hne, (wf_uploads_inj a Hwf sid s p).
Qed.

(** A new file replaces the session's previous one, which is closed. *)
Lemma wf_new_upload sid loc a :
  let p := ag_next a in
  let a1 := upd_uploads (<[sid := p]>)
    (upd_handles (<[p := mkHandle loc 0 true]>) (upd_next S a)) in
  agent_wf a →
  agent_wf (match ag_uploads a !! sid with
            | Some q => upd_handles (alter close_handle q) a1
            | None => a1
            end).
Proof.
  intros p a1 Hwf.
  assert (∀ s, ag_uploads a !! s ≠ Some p) as Hp.
  { intros s Hs. destruct (wf_uploads a Hwf s p Hs) as (h & Hh & _).
    apply (wf_handles_fresh a Hwf) in Hh. subst p. lia. }
  assert (agent_wf a1) as Hwf1.
  { destruct Hwf. constructor; simpl; try done.
    - intros s q. rewrite lookup_insert_Some. intros [[<- <-]|[_ Hq]].
      + rewrite lookup_insert_eq. eauto.
      + destruct (wf_uploads0 s q Hq) as (h & Hh & ?). exists h. split; [|done].
        rewrite lookup_insert_ne; [done|]. intros ->. by apply (Hp s).
    - intros s1 s2 q. rewrite !lookup_insert_Some.
      intros [[<- <-]|[_ H1]] [[<- E]|[_ H2]]; subst; try done; try (by exfalso; eapply Hp); eauto.
    - intros q h. rewrite lookup_insert_Some. intros [[<- _]|[_ H]]; [subst p; lia|].
      apply wf_handles_fresh0 in H. lia.
    - intros q t H. apply wf_tunnels_fresh0 in H. lia.
    - intros q t H. apply wf_terms_fresh0 in H. lia. }
  destruct (ag_uploads a !! sid) as [q|] eqn:Hq; [|done]. apply wf_close; [|done].
  simpl. intros s. rewrite lookup_insert_Some. intros [[<- <-]|[Hne Hs]]; [by apply (Hp sid)|].
  by apply Hne, (wf_uploads_inj a Hwf sid s q).
Qed.

(** A new tunnel of the current connection is registered. *)
Lemma wf_new_tunnel sid t a :
  let p := ag_next a in
  tn_ws t = ag_ws a →
  wf_kept a (upd_forwards (<[sid := p]>) (upd_tunnels (<[p := t]>) (upd_next S a))).
Proof.
  intros p Ht Hwf.
  assert (∀ s, ag_forwards a !! s ≠ Some p) as Hp.
  { intros s Hs. destruct (wf_forwards a Hwf s p Hs) as (u & Hu & _).
    apply (wf_tunnels_fresh a Hwf) in Hu. subst p. lia. }
  destruct Hwf. constructor; simpl; try done.
  - intros q h H. apply wf_handles_fresh0 in H. lia.
  - intros s q. rewrite lookup_insert_Some. intros [[<- <-]|[_ Hq]].
    + rewrite lookup_insert_eq. eauto.
    + destruct (wf_forwards0 s q Hq) as (u & Hu & ?). exists u. split; [|done].
      rewrite lookup_insert_ne; [done|]. intros ->. by apply (Hp s).
  - intros s1 s2 q. rewrite !lookup_insert_Some.
    intros [[<- <-]|[_ H1]] [[<- E]|[_ H2]]; subst; try done; try (by exfalso; eapply Hp); eauto.
  - intros q u. rewrite lookup_insert_Some. intros [[<- _]|[_ H]]; [subst p; lia|].
    apply wf_tunnels_fresh0 in H. lia.
  - intros s q Hq. apply wf_pending0 in Hq. destruct (decide (p = q)) as [->|];
      [rewrite lookup_insert_eq|rewrite lookup_insert_ne by done]; eauto.
  - intros q u H. apply wf_terms_fresh0 in H. lia.
Qed.

Lemma wf_new_pending sid p t a :
  ag_tunnels a !! p = Some t → wf_kept a (upd_pending (<[sid := p]>) a).
Proof.
  intros Ht []. constructor; simpl; try done. intros s q.
  rewrite lookup_insert_Some. intros [[<- <-]|[_ H]]; eauto.
Qed.

(** *** Handlers *)

Ltac wf_frame :=
  repeat first
    [ match goal with |- PreOrder _ => apply _ end
    | progress intros
    | apply keeps_ret
    | apply keeps_get
    | apply keeps_bind
    | apply keeps_modify; intros;
        first [ apply wf_delete_forward | apply wf_delete_pending | apply wf_delete_session
              | apply wf_alter_tunnel; done | apply wf_other; done ]
    | progress unfold whenM
    | progress case_match ].

Lemma wf_sendOn w m : keeps wf_kept (sendOn w m).
Proof. unfold sendOn. wf_frame. Qed.

Lemma wf_send m : keeps wf_kept (send m).
Proof. unfold send. wf_frame; try apply wf_sendOn. Qed.

Ltac wf_walk := repeat first [ apply wf_send | apply wf_sendOn | progress wf_frame ].

Lemma wf_finishForward sid p : keeps wf_kept (finishForward sid p).
Proof. unfold finishForward, onTunnel. wf_walk. Qed.

Lemma wf_clientDone sid p : keeps wf_kept (clientDone sid p).
Proof. unfold clientDone. repeat first [ apply wf_finishForward | progress wf_walk ]. Qed.

Lemma wf_targetDialed sid p dial : keeps wf_kept (targetDialed sid p dial).
Proof. unfold targetDialed, onTunnel. repeat first [ apply wf_finishForward | progress wf_walk ]. Qed.

Lemma wf_readRound sid p data failed : keeps wf_kept (readRound sid p data failed).
Proof. unfold readRound, sendData. wf_walk. Qed.

Lemma wf_readDone sid p : keeps wf_kept (readDone sid p).
Proof. unfold readDone. wf_walk. Qed.

Lemma wf_streamFileOn e msg w opened reads : keeps wf_kept (streamFileOn e msg w opened reads).
Proof.
  assert (keeps wf_kept (streamLoop w (SessionID msg) reads)).
  { induction reads as [|r reads IH]; simpl; unfold sendData; wf_walk; apply IH. }
  unfold streamFileOn. wf_walk; done.
Qed.

Lemma wf_clientSelect sid p ev : keeps wf_kept (clientSelect sid p ev).
Proof.
  unfold clientSelect, onReady, onTunnel. repeat first [ apply wf_clientDone | progress wf_walk ].
Qed.

Lemma wf_handleTermStart e msg : keeps wf_kept (handleTermStart e msg).
Proof.
  intros a. unfold handleTermStart. case_match; [|apply wf_send]. rewrite !bind_run. simpl.
  apply wf_new_term.
Qed.

Lemma wf_termCall o c p : keeps wf_kept (termCall o c p).
Proof. unfold termCall, call. wf_walk. Qed.

Lemma wf_Input o d p : keeps wf_kept (Input o d p).
Proof. apply wf_termCall. Qed.
Lemma wf_Resize o c r p : keeps wf_kept (Resize o c r p).
Proof. apply wf_termCall. Qed.

Lemma wf_termClose o p : keeps wf_kept (termClose o p).
Proof.
  intros a. unfold termClose. rewrite bind_run. simpl.
  destruct (ag_terms a !! p) as [[[]]|] eqn:Hp; try done. rewrite !bind_run. simpl.
  etrans; [by eapply wf_mark_term|]. by apply wf_other.
Qed.

Lemma wf_closeTerms ps : keeps wf_kept (closeTerms ps).
Proof.
  induction ps as [|p ps IH]; simpl; [apply keeps_ret, _|].
  apply keeps_bind; [apply _|apply wf_termClose|]. by intros.
Qed.

Lemma wf_handleTermStop e msg : keeps wf_kept (handleTermStop e msg).
Proof.
  intros a. unfold handleTermStop. rewrite !bind_run. simpl. etrans; [apply (wf_delete_session (SessionID msg))|].
  destruct (ag_sessions a !! SessionID msg); [apply wf_termClose|done].
Qed.

(** The handlers that only remove registrations, or change what they point to *)
Lemma wf_simple_handlers e msg :
  Forall (keeps wf_kept)
    [handleFileList e msg; handleFileMkdir e msg;
     handleFileDelete e msg; handleFileRename e msg; handleFileRoots msg; handleForwardReply msg;
     handleForwardData msg; handleForwardClose msg].
Proof.
  rewrite !Forall_cons. split_and!; [..|by apply Forall_nil];
    unfold handleFileList, handleFileMkdir, handleFileDelete,
      handleFileRename, handleFileRoots, handleForwardReply, handleForwardData, handleForwardClose,
      operation, call, onTunnel, onReady; wf_walk.
Qed.

Lemma wf_writeSession sid fn : (∀ p, keeps wf_kept (fn p)) → keeps wf_kept (writeSession sid fn).
Proof. intros Hfn. unfold writeSession. wf_walk; apply Hfn. Qed.

Lemma wf_handleUpload e msg : keeps wf_kept (handleUpload e msg).
Proof.
  intros a Hwf. unfold handleUpload. rewrite bind_run. cbn [getS fst snd]. rewrite bind_run.
  unfold openFile. rewrite bind_run. cbn [getS fst snd].
  destruct (openUpload _ _ _ _ _ _ _) as [[base rel]|err]; [|by apply wf_send].
  rewrite !bind_run. simpl. rewrite !bind_run. simpl.
  pose proof (wf_new_upload (SessionID msg) (location base rel) a Hwf) as H.
  destruct (ag_uploads a !! SessionID msg); simpl; (eapply wf_other; [..|exact H]); done.
Qed.

Lemma wf_fileWrite p raw o : keeps wf_kept (fileWrite p raw o).
Proof.
  intros a. unfold fileWrite. rewrite bind_run. cbn [getS fst snd].
  destruct (ag_handles a !! p) as [h|] eqn:Hp; [|done]. destruct (h_open h); [|done].
  rewrite !bind_run. simpl. etrans; [|by apply wf_write]. by apply wf_other.
Qed.

Lemma fileWrite_uploads p raw o : keeps (λ a a', ag_uploads a' = ag_uploads a) (fileWrite p raw o).
Proof. unfold fileWrite. frame_agent. Qed.

Lemma wf_handleChunk e msg : keeps wf_kept (handleChunk e msg).
Proof.
  intros a Hwf. unfold handleChunk. rewrite bind_run. cbn [getS fst snd].
  destruct (DecodeData (Data msg)) as [raw|err].
  - destruct (ag_uploads a !! SessionID msg) as [p|] eqn:Hp; [|done]. rewrite bind_run.
    pose proof (wf_fileWrite p raw (env_write e) a Hwf) as Hwf1.
    pose proof (fileWrite_uploads p raw (env_write e) a) as Hu. simpl in Hu.
    destruct (fileWrite p raw (env_write e) a) as [[[]|err] a1]; simpl in *; [done|].
    rewrite bind_run. simpl. rewrite Hu, bool_decide_true by done. rewrite !bind_run. simpl.
    apply wf_send. by apply wf_drop_upload; [congruence|].
  - rewrite bind_run. simpl. destruct (ag_uploads a !! SessionID msg) as [p|] eqn:Hp; simpl;
      rewrite !bind_run; simpl; apply wf_send; [by apply wf_drop_upload|by apply wf_delete_upload].
Qed.

Lemma wf_handleUploadEnd e msg : keeps wf_kept (handleUploadEnd e msg).
Proof.
  intros a Hwf. unfold handleUploadEnd. rewrite bind_run. cbn [getS fst snd]. rewrite bind_run. simpl.
  destruct (ag_uploads a !! SessionID msg) as [p|] eqn:Hp; simpl.
  - rewrite bind_run. simpl. pose proof (wf_drop_upload (SessionID msg) p a Hp Hwf).
    repeat case_match; try done; by apply wf_send.
  - case_match; [apply wf_send|]; by apply wf_delete_upload.
Qed.

Lemma wf_handleForwardTarget msg : keeps wf_kept (handleForwardTarget msg).
Proof.
  intros a Hwf. unfold handleForwardTarget. case_match; [by apply wf_send|].
  rewrite !bind_run. simpl.
  pose proof (wf_new_tunnel (SessionID msg) (mkTunnel (newForwardConn None) (ag_ws a) []) a
    eq_refl Hwf) as H'.
  destruct (ag_forwards a !! SessionID msg); simpl; [by apply wf_alter_tunnel|done].
Qed.

Lemma wf_handleMessage e msg k : handleMessage e msg = Some k → keeps wf_kept k.
Proof.
  intros Hk. pose proof (wf_simple_handlers e msg) as H. rewrite !Forall_cons in H.
  destruct H as (? & ? & ? & ? & ? & ? & ? & ? & _).
  unfold handleMessage in Hk.
  repeat match type of Hk with
    | (if ?b then _ else _) = _ => destruct b; [first [discriminate Hk | injection Hk as <-]|]
    end; try (injection Hk as <-);
    auto using wf_send, wf_writeSession, wf_Input, wf_Resize, wf_handleTermStart, wf_handleTermStop, wf_handleUpload, wf_handleChunk, wf_handleUploadEnd, wf_handleForwardTarget;
    apply keeps_ret, _.
Qed.

Lemma wf_handleForwardClient sid conn spec : keeps wf_kept (handleForwardClient sid conn spec).
Proof.
  intros a Hwf. unfold handleForwardClient. rewrite !bind_run. simpl.
  set (t := mkTunnel _ _ _).
  pose proof (wf_new_tunnel sid t a eq_refl Hwf) as H.
  apply (wf_new_pending sid (ag_next a) t) in H; [|by simpl; rewrite lookup_insert_eq].
  apply (wf_sendOn (ag_ws a) (connect_msg sid spec)) in H.
  destruct (sendOn _ _ _) as [s a1]. simpl in *. destruct (is_ok s); [done|]. rewrite bind_run.
  by apply wf_clientDone.
Qed.

Lemma wf_listeners_ops listen close spec port :
  keeps wf_kept (StartForward listen spec) ∧ keeps wf_kept (StopForward close port).
Proof.
  split; intros a Hwf; [unfold StartForward|unfold StopForward]; rewrite bind_run; simpl;
    repeat case_match; try done; rewrite bind_run; simpl; destruct Hwf; constructor; simpl; try done;
    intros k s; rewrite ?lookup_insert_Some, ?lookup_delete_Some.
  - intros [[<- <-]|[_ Hs]]; eauto.
  - intros [_ Hs]. eauto.
Qed.

(** [closeTerms] changes terminals and makes calls, nothing else. *)
Lemma closeTerms_frame {B} (f : Agent → B) ps :
  (∀ g a, f (upd_terms g a) = f a) → (∀ g a, f (upd_calls g a) = f a) →
  keeps (λ a a', f a' = f a) (closeTerms ps).
Proof.
  intros H1 H2. induction ps as [|p ps IH]; simpl; [apply keeps_ret, _|].
  apply keeps_bind; [apply _| |by intros]. intros a. unfold termClose. rewrite bind_run. simpl.
  destruct (ag_terms a !! p) as [[[]]|]; try done. rewrite !bind_run. simpl. by rewrite H2, H1.
Qed.

(** The objects the maps point to may change when the maps are empty. *)
Lemma wf_no_maps h t a :
  ag_uploads a = ∅ → ag_forwards a = ∅ → ag_forwardPending a = ∅ → agent_wf a →
  (∀ p x, h (ag_handles a) !! p = Some x → is_Some (ag_handles a !! p)) →
  (∀ p x, t (ag_tunnels a) !! p = Some x → is_Some (ag_tunnels a !! p)) →
  agent_wf (upd_tunnels t (upd_handles h a)).
Proof.
  intros Hu Hf Hp [] Hh Ht. constructor; simpl; rewrite ?Hu, ?Hf, ?Hp; try done.
  - intros p x [y Hy]%Hh. eauto.
  - intros p x [y Hy]%Ht. eauto.
Qed.

Lemma foldr_alter_dom {V} (f : V → V) (l : list ref) (m : gmap ref V) p x :
  foldr (λ p m, alter f p m) m l !! p = Some x → is_Some (m !! p).
Proof.
  revert x. induction l as [|q l IH]; intros x; simpl; [eauto|].
  rewrite lookup_alter_Some. intros [(<- & u & Hu & _)|[_ Hu]]; eauto.
Qed.

Lemma wf_disconnected w : keeps wf_kept (disconnected w).
Proof.
  intros a Hwf. unfold disconnected, cleanupSessions. rewrite !bind_run. simpl.
  set (a1 := upd_pending _ _). set (ps := map snd (map_to_list (ag_sessions a))).
  assert (agent_wf a1) as Hwf1 by (destruct Hwf; by constructor).
  apply (wf_closeTerms ps) in Hwf1.
  pose proof (closeTerms_frame (λ a, (ag_uploads a, ag_forwards a, ag_forwardPending a)) ps) as F.
  specialize (F ltac:(done) ltac:(done) a1). injection F as F1 F2 F3.
  destruct (closeTerms ps a1) as [[] a2]. simpl in *.
  apply wf_no_maps; [by rewrite F1|by rewrite F2|by rewrite F3|done|..];
    intros p x; apply foldr_alter_dom.
Qed.

Lemma wf_connected w goos goarch lan caps a :
  ag_ws a = None → agent_wf a → agent_wf (connected w goos goarch lan caps a).2.
Proof.
  intros Hw Hwf. unfold connected. rewrite !bind_run. apply wf_send. simpl.
  destruct Hwf. constructor; simpl; try done.
  intros s p Hp. destruct (wf_forwards0 s p Hp) as (t & Ht & Hor). exists t. split; [done|].
  left. rewrite Hw in Hor. by destruct Hor.
Qed.

(** ** Steps *)

(** What can happen to an agent: a message is handled, the control connection comes
    and goes, a goroutine of a tunnel or of a download makes a step, a local
    request starts or stops a listener, a local client connects. *)
Inductive agent_step : Agent → Agent → Prop :=
| step_message e msg k a : handleMessage e msg = Some k → agent_step a (k a).2
| step_connected w goos goarch lan caps a :
    ag_ws a = None → agent_step a (connected w goos goarch lan caps a).2
| step_disconnected w a : ag_ws a = Some w → agent_step a (disconnected w a).2
| step_dialed sid p dial a : agent_step a (targetDialed sid p dial a).2
| step_round sid p data failed a : agent_step a (readRound sid p data failed a).2
| step_read_done sid p a : agent_step a (readDone sid p a).2
| step_finish sid p a : agent_step a (finishForward sid p a).2
| step_client sid conn spec a : agent_step a (handleForwardClient sid conn spec a).2
| step_select sid p ev a : agent_step a (clientSelect sid p ev a).2
| step_start listen spec a : agent_step a (StartForward listen spec a).2
| step_stop close port a : agent_step a (StopForward close port a).2
| step_stream e msg w opened reads a : agent_step a (streamFileOn e msg w opened reads a).2.

Lemma newAgent_wf cfg disk : agent_wf (newAgent cfg disk).
Proof. by constructor. Qed.

Lemma agent_step_wf a a' : agent_step a a' → agent_wf a → agent_wf a'.
Proof.
  intros [] Hwf.
  - by eapply wf_handleMessage.
  - by apply wf_connected.
  - by apply wf_disconnected.
  - by apply wf_targetDialed.
  - by apply wf_readRound.
  - by apply wf_readDone.
  - by apply wf_finishForward.
  - by apply wf_handleForwardClient.
  - by apply wf_clientSelect.
  - by apply (wf_listeners_ops listen (Ok tt) spec 0).
  - by apply (wf_listeners_ops (Ok tt) close (mkForwardSpec 0 "" 0) port).
  - by apply wf_streamFileOn.
Qed.

Lemma reachable_wf cfg disk a : steps agent_step (newAgent cfg disk) a → agent_wf a.
Proof.
  apply (steps_invariant agent_step agent_wf); [|apply newAgent_wf].
  intros x y Hx Hstep. by eapply agent_step_wf.
Qed.

(** C14: Whatever happens to an agent, its maps stay coherent: every registered upload
    is an open file that no other session writes to, every registered tunnel and
    terminal exists and is registered under one session only, no tunnel of a lost control connection
    stays registered, and the listeners are filed under their own ports. *)
Theorem agent_maps_coherent cfg disk a :
  steps agent_step (newAgent cfg disk) a →
  (∀ sid p, ag_uploads a !! sid = Some p →
     (∃ h, ag_handles a !! p = Some h ∧ h_open h = true) ∧
     ∀ sid', ag_uploads a !! sid' = Some p → sid' = sid) ∧
  (∀ sid p, ag_forwards a !! sid = Some p →
     (∃ t, ag_tunnels a !! p = Some t ∧ (tn_ws t = None ∨ tn_ws t = ag_ws a)) ∧
     ∀ sid', ag_forwards a !! sid' = Some p → sid' = sid) ∧
  (∀ sid p, ag_sessions a !! sid = Some p →
     is_Some (ag_terms a !! p) ∧ ∀ sid', ag_sessions a !! sid' = Some p → sid' = sid) ∧
  (∀ k spec, ag_listeners a !! k = Some spec → k = Itoa (LocalPort spec)).
Proof.
  intros []%reachable_wf. split_and!; [| | |done]; intros sid p Hp; eauto.
Qed.

(** ** An agent in operation *)
Module DeviceDemo.
Definition cfg : AgentConfig := mkAgentConfig "d1" "office" "/srv/data" ["/srv"].
Definition ev (p : string) : evaluated := if String.eqb p "/srv/data/uploads/a.bin" then NotExist else Resolved p.
Definition e : env :=
  mkEnv ev (Some "/") (λ _, true) (λ _ _, Ok tt) None (Ok tt) (Ok tt) (Ok tt) (Ok []).
Definition upload : Message :=
  mkMessage TypeFileUpload "" "a.bin" "" "" "" [] 0 None "s1" "" 0 0 0 "" 0 "" "" 0 "" "" [].
Definition tunnel_request : Message :=
  mkMessage TypeForwardConnect "" "" "" "" "" [] 0 None "t1" "" 0 0 0 "" 0 "" "" 80 "" "" [].
Definition caps : DeviceCapabilities := mkDeviceCapabilities true true false "".

(** Connected; then also with an upload and a tunnel *)
Definition up : Agent := (connected 3 "linux" "amd64" [] caps (newAgent cfg ∅)).2.
Definition busy : Agent := (handleForwardTarget tunnel_request (handleUpload e upload up).2).2.

Lemma up_reachable : steps agent_step (newAgent cfg ∅) up.
Proof. eapply steps_snoc; [apply steps_refl|]. by apply step_connected. Qed.

Lemma busy_reachable : steps agent_step (newAgent cfg ∅) busy.
Proof.
  eapply steps_snoc; [eapply steps_snoc; [apply up_reachable|]|].
  - by apply (step_message e upload).
  - by apply (step_message e tunnel_request).
Qed.
End DeviceDemo.

Lemma agent_maps_coherent_witness :
  (∃ p h, ag_uploads DeviceDemo.busy !! "s1" = Some p ∧
     ag_handles DeviceDemo.busy !! p = Some h ∧ h_open h = true) ∧
  (∃ p t, ag_forwards DeviceDemo.busy !! "t1" = Some p ∧
     ag_tunnels DeviceDemo.busy !! p = Some t ∧ (tn_ws t = None ∨ tn_ws t = Some 3%nat)).
Proof.
  destruct (agent_maps_coherent _ _ _ DeviceDemo.busy_reachable) as (Hu & Hf & _). split.
  - destruct (Hu "s1" 0%nat) as [(h & Hh & Ho) _]; [by vm_compute|]. by exists 0%nat, h.
  - destruct (Hf "t1" 1%nat) as [(t & Ht & Ho) _]; [by vm_compute|]. by exists 1%nat, t.
Defined.
