(* ===== verification/DeviceProps.v ===== *)
(** * Properties of the agent's control loop

    The calls into the file tree stay inside the configured directories, an upload
    puts exactly the bytes of its chunks on disk, a lost connection is cleaned up,
    and reconnecting backs off within bounds. *)
From Stdlib Require Import ZArith Lia Ascii String.
From S2P Require Import Prelude GoStrings Protocol Paths ForwardConn Agent AgentInv.
Open Scope string_scope.
Open Scope list_scope.
Open Scope Z_scope.

(** ** The file tree *)

(** The calls a message may cause in state [a]: file operations on allowed paths,
    terminal operations on the terminal of its session *)
Definition call_ok (e : env) (a : Agent) (sid : string) (c : oscall) : Prop :=
  match c with
  | ReadDir p | MkdirAll p | RemoveAll p => allowed e a p = true
  | Rename p q => allowed e a p = true ∧ allowed e a q = true
  | PtyInput r _ | PtyResize r _ _ | PtyClose r =>
      ag_sessions a !! sid = Some r ∧ ag_terms a !! r = Some (mkTermSession false)
  end.

Definition calls_only (P : oscall → Prop) (a a' : Agent) : Prop :=
  ∃ new, ag_calls a' = ag_calls a ++ new ∧ Forall P new.

Lemma calls_none P a a' : ag_calls a' = ag_calls a → calls_only P a a'.
Proof. intros E. exists []. by rewrite E, app_nil_r. Qed.

(** A recorded call followed by anything that calls nothing *)
Lemma calls_then {A} (P : oscall → Prop) c (k : unit → stateM Agent A) a :
  P c → keeps (λ a a', ag_calls a' = ag_calls a) (k tt) → calls_only P a ((call c ≫= k) a).2.
Proof.
  intros Hc Hk. rewrite bind_run. simpl. exists [c]. rewrite Hk. simpl. split; [done|by constructor].
Qed.

Lemma answer_calls {A} (r : res A) f g :
  keeps (λ a a', ag_calls a' = ag_calls a)
    (match r with Err err => send (f err) | Ok x => send (g x) end).
Proof. destruct r; by apply keeps_send. Qed.

Lemma handlers_call_nothing e msg :
  Forall (λ m, keeps (λ a a', ag_calls a' = ag_calls a) m)
    [handleTermStart e msg; handleUpload e msg; handleChunk e msg; handleUploadEnd e msg;
     handleFileRoots msg; handleForwardTarget msg; handleForwardReply msg; handleForwardData msg;
     handleForwardClose msg].
Proof.
  assert (∀ m, keeps (λ a a', ag_calls a' = ag_calls a) (send m)) as Hsend by (by intros; apply keeps_send).
  repeat constructor;
    unfold handleTermStart, handleUpload, handleChunk, handleUploadEnd, handleFileRoots,
      handleForwardTarget, handleForwardReply, handleForwardData, handleForwardClose, openFile,
      fileWrite, fileClose, newRef, onTunnel, onReady;
    repeat first [ apply Hsend | progress frame_agent ].
Qed.

Lemma file_manager_calls e msg a :
  calls_only (call_ok e a (SessionID msg)) a (handleFileList e msg a).2 ∧
  calls_only (call_ok e a (SessionID msg)) a (handleFileMkdir e msg a).2 ∧
  calls_only (call_ok e a (SessionID msg)) a (handleFileDelete e msg a).2 ∧
  calls_only (call_ok e a (SessionID msg)) a (handleFileRename e msg a).2.
Proof.
  assert (∀ m, calls_only (call_ok e a (SessionID msg)) a (send m a).2) as Hsend.
  { intros m. apply calls_none. by apply (keeps_send ag_calls). }
  split_and!.
  - unfold handleFileList. rewrite bind_run. simpl. destruct (allowed e a (Path msg)) eqn:E; simpl; [|done].
    apply calls_then; [done|apply answer_calls].
  - unfold handleFileMkdir. rewrite bind_run. simpl. destruct (allowed e a (Path msg)) eqn:E; simpl; [|done].
    apply calls_then; [done|apply answer_calls].
  - unfold handleFileDelete. rewrite bind_run. simpl. destruct (allowed e a (Path msg)) eqn:E; simpl; [|done].
    apply calls_then; [done|apply answer_calls].
  - unfold handleFileRename. rewrite bind_run. simpl.
    destruct (allowed e a (Path msg)) eqn:E, (allowed e a (Target msg)) eqn:E'; simpl; try done.
    apply calls_then; [done|apply answer_calls].
Qed.

Lemma termCall_calls e a sid o c p :
  ag_sessions a !! sid = Some p →
  (ag_terms a !! p = Some (mkTermSession false) → call_ok e a sid c) →
  calls_only (call_ok e a sid) a (termCall o c p a).2.
Proof.
  intros Hp Hc. unfold termCall. rewrite bind_run. simpl.
  destruct (ag_terms a !! p) as [[[]]|]; try (by apply calls_none).
  apply calls_then; [by apply Hc|apply keeps_ret, _].
Qed.

Lemma terminal_calls e msg a :
  calls_only (call_ok e a (SessionID msg)) a
    (writeSession (SessionID msg) (Input (env_operation e) (Data msg)) a).2 ∧
  calls_only (call_ok e a (SessionID msg)) a
    (writeSession (SessionID msg) (Resize (env_operation e) (Cols msg) (Rows msg)) a).2 ∧
  calls_only (call_ok e a (SessionID msg)) a (handleTermStop e msg a).2.
Proof.
  assert (∀ fn, (∀ p, ag_sessions a !! SessionID msg = Some p →
      calls_only (call_ok e a (SessionID msg)) a (fn p a).2) →
    calls_only (call_ok e a (SessionID msg)) a (writeSession (SessionID msg) fn a).2) as Hw.
  { intros fn Hfn. unfold writeSession. rewrite bind_run. simpl.
    destruct (ag_sessions a !! SessionID msg) eqn:E; [by apply Hfn|by apply calls_none]. }
  split_and!; [apply Hw; intros p Hp; by apply termCall_calls..|].
  unfold handleTermStop. rewrite bind_run, bind_run. simpl.
  destruct (ag_sessions a !! SessionID msg) as [p|] eqn:E; [|by apply calls_none].
  unfold termClose. rewrite bind_run. simpl.
  destruct (ag_terms a !! p) as [[[]]|] eqn:Ht; try (by apply calls_none).
  rewrite !bind_run. simpl. exists [PtyClose p]. split; [done|]. by constructor.
Qed.

(** ** Uploads *)

Lemma write_at_end raw content : write_at (length content) raw content = content ++ raw.
Proof.
  unfold write_at. rewrite take_ge, Nat.sub_diag, drop_ge by lia. simpl. by rewrite app_nil_r.
Qed.

(** Handle a sequence of messages, each with what the operating system answers *)
Fixpoint handle_all (ms : list (env * Message)) : stateM Agent unit :=
  match ms with
  | [] => mret tt
  | (e, m) :: rest =>
      _ ← (match handleMessage e m with Some k => _ ← k; mret tt | None => mret tt end);
      handle_all rest
  end.

Lemma handle_all_app xs ys a : handle_all (xs ++ ys) a = handle_all ys (handle_all xs a).2.
Proof.
  revert a. induction xs as [|[e m] xs IH]; intros a; [done|]. simpl. rewrite !bind_run. apply IH.
Qed.

Lemma handle_all_one e m k a :
  handleMessage e m = Some k → (handle_all [(e, m)] a).2 = (k a).2.
Proof. intros E. simpl. rewrite E, !bind_run. done. Qed.

(** An upload in progress: the session's file is open and its offset is the length
    of what is on disk. *)
Definition uploading (sid loc : string) (p : ref) (content : bytes) (a : Agent) : Prop :=
  ag_uploads a !! sid = Some p ∧ ag_handles a !! p = Some (mkHandle loc (length content) true) ∧
  ag_disk a !! loc = Some content.

(** What an upload leaves alone *)
Definition upload_frame (a a' : Agent) : Prop :=
  ag_ws a' = ag_ws a ∧ ag_open a' = ag_open a ∧ ag_out a' = ag_out a.

Lemma chunk_appends e sid loc p content raw a :
  env_write e = None → uploading sid loc p content a →
  let m := data_msg TypeFileChunk sid (EncodeData raw) in
  uploading sid loc p (content ++ raw) (handle_all [(e, m)] a).2 ∧
  upload_frame a (handle_all [(e, m)] a).2.
Proof.
  intros Hw (Hu & Hh & Hd) m.
  rewrite (handle_all_one e m (handleChunk e m)) by done.
  unfold handleChunk. rewrite bind_run. subst m. cbn [data_msg SessionID Data getS fst snd].
  rewrite DecodeData_EncodeData_ok, Hu.
  rewrite bind_run. unfold fileWrite. rewrite bind_run. cbn [getS fst snd]. rewrite Hh, Hw. simpl.
  unfold uploading, upload_frame. simpl. split_and!; try done.
  - rewrite lookup_insert_eq. by rewrite length_app.
  - rewrite lookup_insert_eq, Hd. simpl. by rewrite write_at_end.
Qed.

Lemma chunks_append es sid loc p chunks content a :
  length es = length chunks → Forall (λ e, env_write e = None) es →
  uploading sid loc p content a →
  let ms := map (λ raw, data_msg TypeFileChunk sid (EncodeData raw)) chunks in
  uploading sid loc p (content ++ concat chunks) (handle_all (zip es ms) a).2 ∧
  upload_frame a (handle_all (zip es ms) a).2.
Proof.
  revert es content a. induction chunks as [|raw chunks IH]; intros [|e es] content a Hlen Hes Hup ms;
    try done.
  - subst ms. simpl. by rewrite app_nil_r.
  - apply Forall_cons in Hes as [He Hes]. subst ms. simpl map. simpl zip.
    destruct (chunk_appends e sid loc p content raw a He Hup) as [Hup1 (Hw1 & Ho1 & Hout1)].
    set (a1 := (handle_all [_] a).2) in *.
    assert (∀ rest, handle_all ((e, data_msg TypeFileChunk sid (EncodeData raw)) :: rest) a =
      handle_all rest a1) as Hstep.
    { intros rest. apply (handle_all_app [_] rest). }
    rewrite Hstep. simpl concat. rewrite app_assoc.
    destruct (IH es (content ++ raw) a1) as [Hup2 (Hw2 & Ho2 & Hout2)]; [by injection Hlen|done|done|].
    split; [done|]. unfold upload_frame. by rewrite Hw2, Ho2, Hout2.
Qed.

(** Where the file of an upload message is created *)
Definition upload_dir (msg : Message) (a : Agent) : string :=
  if negb (String.eqb (Path msg) "") then Path msg else JoinPath [DataDir (ag_cfg a); "uploads"].
Definition upload_target (e : env) (msg : Message) (a : Agent) : res (string * string) :=
  openUpload (env_symlinks e) (env_wd e) (env_root e) (AllowPaths (ag_cfg a)) (env_create e)
    (upload_dir msg a) (Base (Name msg)).

Lemma upload_starts e msg base rel a :
  Type_ msg = TypeFileUpload → upload_target e msg a = Ok (base, rel) → agent_wf a →
  let a' := (handle_all [(e, msg)] a).2 in
  uploading (SessionID msg) (location base rel) (ag_next a) [] a' ∧ upload_frame a a'.
Proof.
  intros Hty Ht Hwf a'. subst a'.
  rewrite (handle_all_one e msg (handleUpload e msg)) by (unfold handleMessage; by rewrite Hty).
  unfold handleUpload. rewrite bind_run. cbn [getS fst snd]. rewrite bind_run.
  unfold openFile. rewrite bind_run. cbn [getS fst snd].
  unfold upload_target, upload_dir in Ht. rewrite Ht.
  rewrite !bind_run. simpl. rewrite !bind_run. simpl.
  destruct (ag_uploads a !! SessionID msg) as [q|] eqn:Hq; simpl; rewrite ?bind_run; simpl;
    unfold uploading, upload_frame; simpl; rewrite ?lookup_insert_eq; split_and!; try done;
    try (destruct (wf_uploads a Hwf _ q Hq) as (h & Hh%(wf_handles_fresh a Hwf) & _);
         rewrite lookup_alter_ne by lia); by rewrite lookup_insert_eq.
Qed.

Lemma upload_ends e msg sid loc p content w a :
  Type_ msg = TypeFileUploadEnd → SessionID msg = sid → env_close e = Ok tt →
  uploading sid loc p content a → ag_ws a = Some w → w ∈ ag_open a →
  let a' := (handle_all [(e, msg)] a).2 in
  ag_disk a' !! loc = Some content ∧ ag_uploads a' !! sid = None ∧
  ag_handles a' !! p = Some (mkHandle loc (length content) false) ∧
  ag_out a' = ag_out a ++ [(w, session_msg TypeFileDone sid)].
Proof.
  intros Hty Hsid Hcl (Hu & Hh & Hd) Hw Ho a'. subst a'.
  rewrite (handle_all_one e msg (handleUploadEnd e msg)) by (unfold handleMessage; by rewrite Hty).
  unfold handleUploadEnd. rewrite bind_run. cbn [getS fst snd]. rewrite Hsid, Hu, bind_run.
  cbn [modifyS fst snd]. rewrite bind_run. unfold fileClose. rewrite bind_run, Hcl, Hty. simpl.
  rewrite (send_run w) by done. simpl.
  rewrite lookup_delete_eq, lookup_alter_eq, Hh. by split_and!.
Qed.

Lemma upload_on_disk e0 start es chunks ef fin base rel w a :
  agent_wf a →
  Type_ start = TypeFileUpload → upload_target e0 start a = Ok (base, rel) →
  length es = length chunks → Forall (λ e, env_write e = None) es →
  Type_ fin = TypeFileUploadEnd → SessionID fin = SessionID start → env_close ef = Ok tt →
  ag_ws a = Some w → w ∈ ag_open a →
  let sid := SessionID start in
  let chunk_msgs := map (λ raw, data_msg TypeFileChunk sid (EncodeData raw)) chunks in
  let a' := (handle_all ((e0, start) :: zip es chunk_msgs ++ [(ef, fin)]) a).2 in
  ag_disk a' !! location base rel = Some (concat chunks) ∧
  ag_uploads a' !! sid = None ∧
  ag_out a' = ag_out a ++ [(w, session_msg TypeFileDone sid)].
Proof.
  intros Hwf Hty Ht Hlen Hes Hfin Hsid Hcl Hw Ho sid chunk_msgs a'.
  destruct (upload_starts e0 start base rel a Hty Ht Hwf) as [Hup (Hw1 & Ho1 & Hout1)].
  set (a1 := (handle_all [(e0, start)] a).2) in *.
  destruct (chunks_append es sid (location base rel) (ag_next a) chunks [] a1 Hlen Hes Hup)
    as [Hup2 (Hw2 & Ho2 & Hout2)]. fold chunk_msgs in Hup2, Hw2, Ho2, Hout2.
  set (a2 := (handle_all (zip es chunk_msgs) a1).2) in *.
  destruct (upload_ends ef fin sid (location base rel) (ag_next a) (concat chunks) w a2)
    as (Hd & Hu & _ & Hout); try done; [congruence|rewrite Ho2, Ho1; done|].
  assert (a' = (handle_all [(ef, fin)] a2).2) as ->.
  { subst a' a2 a1.
    change ((e0, start) :: zip es chunk_msgs ++ [(ef, fin)]) with
      ([(e0, start)] ++ zip es chunk_msgs ++ [(ef, fin)]).
    by rewrite !handle_all_app. }
  split_and!; try done. by rewrite Hout, Hout2, Hout1.
Qed.

(** ** Lost connections *)

(** Applying [f] through a list of references *)
Lemma foldr_alter_in {V} (f : V → V) (Q : V → Prop) (l : list ref) (m : gmap ref V) p x :
  (∀ y, Q (f y)) → p ∈ l → m !! p = Some x →
  ∃ y, foldr (λ p m, alter f p m) m l !! p = Some y ∧ Q y.
Proof.
  intros HQ Hp Hx. induction l as [|q l IH]; [by apply not_elem_of_nil in Hp|]. simpl.
  destruct (decide (q = p)) as [->|Hne].
  - rewrite lookup_alter_eq.
    assert (∃ z, foldr (λ p m, alter f p m) m l !! p = Some z) as [z ->]; [|simpl; eauto].
    clear Hp IH. induction l as [|q l IH]; [by eauto|]. simpl. destruct IH as [z Hz].
    destruct (decide (q = p)) as [->|]; [rewrite lookup_alter_eq, Hz; simpl; eauto|].
    rewrite lookup_alter_ne by done. eauto.
  - rewrite lookup_alter_ne by done. apply IH. set_solver.
Qed.

Lemma map_values_elem (m : gmap string ref) k p : m !! k = Some p → p ∈ map snd (map_to_list m).
Proof.
  intros H. apply list_elem_of_fmap. exists (k, p). split; [done|]. by apply elem_of_map_to_list.
Qed.

(** Closing a list of terminals closes each of them, once. *)
Lemma closeTerms_all ps a p t :
  p ∈ ps → ag_terms a !! p = Some t →
  ag_terms (closeTerms ps a).2 !! p = Some (mkTermSession true) ∧
  (tm_closed t = false → PtyClose p ∈ ag_calls (closeTerms ps a).2).
Proof.
  assert (∀ qs b, ag_terms b !! p = Some (mkTermSession true) →
    ag_terms (closeTerms qs b).2 !! p = Some (mkTermSession true)) as Hstay.
  { induction qs as [|q qs IH]; intros b Hb; [done|]. simpl. rewrite bind_run. apply IH.
    unfold termClose. rewrite bind_run. simpl.
    destruct (ag_terms b !! q) as [[[]]|] eqn:Hq; try done. rewrite !bind_run. simpl.
    destruct (decide (q = p)) as [->|]; [by rewrite lookup_insert_eq|by rewrite lookup_insert_ne]. }
  assert (∀ qs b c, c ∈ ag_calls b → c ∈ ag_calls (closeTerms qs b).2) as Hcalls.
  { induction qs as [|q qs IH]; intros b c Hb; [done|]. simpl. rewrite bind_run. apply IH.
    unfold termClose. rewrite bind_run. simpl.
    destruct (ag_terms b !! q) as [[[]]|]; try done. rewrite !bind_run. simpl. set_solver. }
  revert a. induction ps as [|q ps IH]; intros a Hin Ht; [by apply not_elem_of_nil in Hin|].
  simpl. rewrite bind_run. destruct (decide (q = p)) as [->|Hne].
  - destruct t as [[]].
    + split; [|done]. apply Hstay. unfold termClose. rewrite bind_run. simpl. by rewrite Ht.
    + split.
      * apply Hstay. unfold termClose. rewrite bind_run. simpl. rewrite Ht, !bind_run. simpl.
        apply lookup_insert_eq.
      * intros _. apply Hcalls. unfold termClose. rewrite bind_run. simpl. rewrite Ht, !bind_run.
        simpl. set_solver.
  - apply IH; [set_solver|]. unfold termClose. rewrite bind_run. simpl.
    destruct (ag_terms a !! q) as [[[]]|]; try done. rewrite !bind_run. simpl.
    by rewrite lookup_insert_ne.
Qed.

Lemma Close_closed f : fc_closed (Close f) = true.
Proof. unfold Close, markClosed. by destruct (fc_closed f) eqn:E. Qed.

(** ** Backoff *)

(** The delay after [n] failed attempts in a row *)
Definition backoff_after (n : nat) : Duration := Z.min (2 ^ Z.of_nat n) 32 * Second.

Lemma backoff_round_short n lasted :
  lasted ≤ 60 * Second →
  backoff_round (backoff_after n) lasted =
    (backoff_after n + Z.quot (backoff_after n) 5, backoff_after (S n)).
Proof.
  intros Hl. unfold backoff_round. destruct (Z.ltb_spec (60 * Second) lasted); [lia|]. f_equal.
  unfold backoff_after. rewrite Nat2Z.inj_succ, Z.pow_succ_r by lia.
  assert (1 ≤ 2 ^ Z.of_nat n) by (apply (Z.pow_le_mono_r 2 0); lia).
  assert (Second = 1000000000) as -> by reflexivity.
  destruct (decide (2 ^ Z.of_nat n < 32)) as [Hlt|Hge].
  - assert (2 ^ Z.of_nat n ≤ 16) as Hle.
    { assert (Z.of_nat n < 5) by (apply (Z.pow_lt_mono_r_iff 2); simpl; lia).
      replace 16 with (2 ^ 4) by reflexivity. apply Z.pow_le_mono_r; lia. }
    rewrite !Z.min_l by lia. destruct (Z.ltb_spec (2 ^ Z.of_nat n * 1000000000) (30 * 1000000000)); lia.
  - rewrite !Z.min_r by lia. done.
Qed.

Lemma sleeps_short n lasted :
  Forall (λ d, d ≤ 60 * Second) lasted →
  sleeps (backoff_after n) lasted =
    map (λ k, backoff_after k + Z.quot (backoff_after k) 5) (seq n (length lasted)).
Proof.
  intros Hl. revert n. induction Hl as [|d l Hd Hl IH]; intros n; [done|].
  cbn [sleeps]. rewrite backoff_round_short by done. by rewrite IH.
Qed.

(** ** Theorems *)


(** An upload puts exactly its bytes on disk: in every reachable state, when the file is opened and the
    operating system reports no error, handling the upload message, its chunks and
    the completion leaves the concatenation of the chunks at the real location of
    the file, closes it, forgets the session and answers "done" on the current
    connection. *)
Theorem upload_reaches_disk cfg disk e0 start es chunks ef fin base rel w a :
  steps agent_step (newAgent cfg disk) a →
  Type_ start = TypeFileUpload → upload_target e0 start a = Ok (base, rel) →
  length es = length chunks → Forall (λ e, env_write e = None) es →
  Type_ fin = TypeFileUploadEnd → SessionID fin = SessionID start → env_close ef = Ok tt →
  ag_ws a = Some w → w ∈ ag_open a →
  let sid := SessionID start in
  let chunk_msgs := map (λ raw, data_msg TypeFileChunk sid (EncodeData raw)) chunks in
  let a' := (handle_all ((e0, start) :: zip es chunk_msgs ++ [(ef, fin)]) a).2 in
  ag_disk a' !! location base rel = Some (concat chunks) ∧
  ag_uploads a' !! sid = None ∧
  ag_out a' = ag_out a ++ [(w, session_msg TypeFileDone sid)].
Proof. intros Hr%reachable_wf. by apply upload_on_disk. Qed.

(** A lost control connection leaves nothing behind: every terminal, upload and
    tunnel of the agent is closed and forgotten, no message can be written on the
    lost connection any more, and a goroutine that still holds it cannot write on
    its successor either. *)
Theorem disconnect_cleans_up w a :
  let a' := (disconnected w a).2 in
  (ag_ws a' = None ∧ ag_sessions a' = ∅ ∧ ag_uploads a' = ∅ ∧ ag_forwards a' = ∅ ∧
   ag_forwardPending a' = ∅) ∧
  (∀ sid p t, ag_sessions a !! sid = Some p → ag_terms a !! p = Some t →
     ag_terms a' !! p = Some (mkTermSession true) ∧
     (tm_closed t = false → PtyClose p ∈ ag_calls a')) ∧
  (∀ sid p h, ag_uploads a !! sid = Some p → ag_handles a !! p = Some h →
     ∃ h', ag_handles a' !! p = Some h' ∧ h_open h' = false) ∧
  (∀ sid p t, ag_forwards a !! sid = Some p → ag_tunnels a !! p = Some t →
     ∃ t', ag_tunnels a' !! p = Some t' ∧ fc_closed (tn_conn t') = true) ∧
  (∀ w' m later, w' ≠ w → ag_ws later = Some w' →
     sendOn (Some w) m later = (Err errNetClosed, later)).
Proof.
  intros a'. subst a'. unfold disconnected, cleanupSessions. rewrite !bind_run. simpl.
  set (a1 := upd_pending _ _). set (ps := map snd (map_to_list (ag_sessions a))).
  pose proof (closeTerms_frame (λ a, (ag_ws a, ag_sessions a, ag_uploads a, ag_forwards a,
    ag_forwardPending a, ag_handles a, ag_tunnels a)) ps ltac:(done) ltac:(done) a1) as F.
  injection F as F1 F2 F3 F4 F5 F6 F7.
  pose proof (closeTerms_all ps a1) as Hterms.
  destruct (closeTerms ps a1) as [[] a2]. simpl in *. rewrite F1, F2, F3, F4, F5, F6, F7. simpl.
  split_and!; try done.
  - intros sid p t Hp Ht. apply (Hterms p t); [by eapply map_values_elem|done].
  - intros sid p h Hp Hh.
    by apply (foldr_alter_in _ (λ h, h_open h = false) _ _ p h); [|eapply map_values_elem|].
  - intros sid p t Hp Ht.
    apply (foldr_alter_in _ (λ t, fc_closed (tn_conn t) = true) _ _ p t);
      [intros; apply Close_closed|by eapply map_values_elem|done].
  - intros w' m later Hne Hl. unfold sendOn. rewrite bind_run. simpl.
    rewrite bool_decide_false; [done|]. rewrite Hl. congruence.
Qed.

(** Reconnecting backs off and recovers: after [n] attempts in a row that did not
    last a minute the agent sleeps 1.2 times 1, 2, 4, ... seconds, at most 38.4, and
    one connection of more than a minute starts the series again. *)
Theorem reconnect_backoff short long more :
  Forall (λ d, d ≤ 60 * Second) short → Forall (λ d, d ≤ 60 * Second) more → 60 * Second < long →
  sleeps Second (short ++ long :: more) =
    map (λ k, backoff_after k + Z.quot (backoff_after k) 5)
      (seq 0 (length short) ++ seq 0 (S (length more))) ∧
  Forall (λ s, 1200 * Millisecond ≤ s ≤ 38400 * Millisecond)
    (sleeps Second (short ++ long :: more)).
Proof.
  intros Hs Hm Hl.
  assert (sleeps Second (short ++ long :: more) =
    map (λ k, backoff_after k + Z.quot (backoff_after k) 5)
      (seq 0 (length short) ++ seq 0 (S (length more)))) as E.
  { change Second with (backoff_after 0) at 1.
    assert (∀ n, sleeps (backoff_after n) (short ++ long :: more) =
      map (λ k, backoff_after k + Z.quot (backoff_after k) 5)
        (seq n (length short) ++ seq 0 (S (length more)))) as Hgen; [|apply Hgen].
    induction Hs as [|d short Hd Hs IH]; intros n.
    - simpl app. cbn [sleeps]. unfold backoff_round.
      destruct (Z.ltb_spec (60 * Second) long); [|lia].
      change (if Second <? 30 * Second then Second * 2 else Second) with (backoff_after 1).
      rewrite sleeps_short by done. done.
    - cbn [sleeps app]. rewrite backoff_round_short by done. by rewrite IH. }
  split; [done|]. rewrite E. apply Forall_forall. intros s (k & -> & _)%list_elem_of_fmap.
  unfold backoff_after. assert (1 ≤ 2 ^ Z.of_nat k) by (apply (Z.pow_le_mono_r 2 0); lia).
  assert (Second = 1000000000) as -> by reflexivity.
  assert (Millisecond = 1000000) as -> by reflexivity.
  set (x := Z.min (2 ^ Z.of_nat k) 32) in *. assert (1 ≤ x ≤ 32) by lia.
  replace (x * 1000000000) with (x * 200000000 * 5) at 2 4 by lia.
  rewrite Z.quot_mul by lia. lia.
Qed.

(** ** Instances *)


Lemma upload_reaches_disk_witness :
  let ms := [(DeviceDemo.e, DeviceDemo.upload);
             (DeviceDemo.e, data_msg TypeFileChunk "s1" (EncodeData ["h"%char; "i"%char]));
             (DeviceDemo.e, data_msg TypeFileChunk "s1" (EncodeData ["!"%char]));
             (DeviceDemo.e, session_msg TypeFileUploadEnd "s1")] in
  ag_disk (handle_all ms DeviceDemo.up).2 !! "/srv/data/uploads/a.bin" =
    Some ["h"%char; "i"%char; "!"%char].
Proof.
  intros ms.
  destruct (upload_reaches_disk DeviceDemo.cfg ∅ DeviceDemo.e DeviceDemo.upload
    [DeviceDemo.e; DeviceDemo.e] [["h"%char; "i"%char]; ["!"%char]] DeviceDemo.e
    (session_msg TypeFileUploadEnd "s1") "/srv" "data/uploads/a.bin" 3 DeviceDemo.up) as [H _];
    try done; [apply DeviceDemo.up_reachable|by repeat constructor].
Defined.

Lemma reconnect_backoff_witness :
  sleeps Second [0; 3 * Second; 61 * Second; 0] =
    [1200 * Millisecond; 2400 * Millisecond; 1200 * Millisecond; 2400 * Millisecond].
Proof.
  destruct (reconnect_backoff [0; 3 * Second] (61 * Second) [0]) as [H _];
    [repeat constructor; by vm_compute|repeat constructor; by vm_compute|by vm_compute|].
  change ([0; 3 * Second; 61 * Second; 0]) with ([0; 3 * Second] ++ 61 * Second :: [0]).
  rewrite H. by vm_compute.
Defined.
