(* ===== verification/EndToEnd.v ===== *)
(** * The server and a device together

    A session crosses three parties: the browser speaks to the server, the server
    to the device's agent, and the answers come back the same way.  Here the server
    ([Browser], [AgentWS], [Forward]) and the agent ([Agent]) are run against each
    other: what one writes on the control connection is what the other handles.
    The network in between is a WebSocket, which delivers the messages of one
    direction in order. *)
From Stdlib Require Import ZArith Lia Ascii String.
From S2P Require Import Prelude GoStrings Protocol Registry Tickets Traffic Http RegistryProps Server Auth AuthProps Forward ForwardProps AgentWS Browser BrowserProps.
From S2P Require Import Paths ForwardConn Agent AgentInv DeviceProps.
Open Scope string_scope.
Open Scope list_scope.
Open Scope Z_scope.

(** ** The wire between them *)

(** The messages among the frames [l] that were written on socket [w] *)
Definition messages_to (w : WS) (l : list (WS * frame)) : list Message :=
  omap (λ e, if decide (e.1 = w) then match e.2 with Text m => Some m | _ => None end else None) l.

(** The bytes of the binary frames written on socket [w] *)
Definition bytes_to (w : WS) (l : list (WS * frame)) : bytes :=
  concat (omap (λ e, if decide (e.1 = w) then match e.2 with Binary raw => Some raw | _ => None end
                     else None) l).

(** The server handles the messages of a device one after the other. *)
Fixpoint route_all (dev : string) (ms : list Message) (now : Time) : stateM Server unit :=
  match ms with
  | [] => mret tt
  | m :: ms => _ ← routeAgentMessage dev m "" now; route_all dev ms now
  end.

Lemma messages_to_app w l1 l2 : messages_to w (l1 ++ l2) = messages_to w l1 ++ messages_to w l2.
Proof. apply omap_app. Qed.

Lemma messages_to_same w ms : messages_to w (map (λ m, (w, Text m)) ms) = ms.
Proof.
  induction ms as [|m ms IH]; [done|]. unfold messages_to. simpl. rewrite decide_True by done.
  simpl. f_equal. exact IH.
Qed.

Lemma bytes_to_binary w rs : bytes_to w (map (λ raw, (w, Binary raw)) rs) = concat rs.
Proof.
  unfold bytes_to. f_equal. induction rs as [|r rs IH]; [done|]. simpl. rewrite decide_True by done.
  simpl. by f_equal.
Qed.

(** ** The server's side of a transfer *)

(** What a transfer relies on at the server, and its recorder leaves alone *)
Definition transfer_view (s : Server) := (wire s, open_ws s, agentH s, files s, fileH s).

Lemma recorder_view t m : keeps (λ s s', transfer_view s' = transfer_view s) (withRecorder t m).
Proof. unfold transfer_view. frame. Qed.

Lemma audit_view actor action target detail now :
  keeps (λ s s', transfer_view s' = transfer_view s) (audit actor action target detail now).
Proof. intros s. by rewrite audit_run. Qed.

(** What opening a session leaves alone *)
Definition conn_view (s : Server) := (agents s, wire s, open_ws s, agentH s).

Section transfers.
Context `{Crypto} `{UrlParser}.

Lemma authorizeWS_view r kind now :
  keeps (λ s s', conn_view s' = conn_view s) (authorizeWS r kind now).
Proof. by apply (keeps_auth_handlers (λ s s', conn_view s' = conn_view s)). Qed.

Lemma startMetric_view r actor service transport metric now :
  keeps (λ s s', conn_view s' = conn_view s) (startMetric r actor service transport metric now).
Proof. unfold startMetric, startTraffic, fresh. frame. Qed.

(** An accepted request: the session is registered for the device's current
    connection and the browser's socket. *)
Lemma fileOpen_session r b sid metric now s c actor s1 :
  fileOpen r (Some b) sid metric now s = ((None, Some (c, actor)), s1) →
  ses_id c = sid ∧ ses_ws c = b ∧ agents s !! QueryGet r "device" = Some (ses_agent c) ∧
  conn_view s1 = conn_view s ∧ files s1 !! sid = Some (ses_ref c) ∧
  fileH s1 !! ses_ref c =
    Some (mkFileSession (QueryGet r "device") b (QueryGet r "op") (ses_traffic c)).
Proof.
  unfold fileOpen. rewrite bind_run. pose proof (authorizeWS_view r "files" now s) as V1.
  destruct (authorizeWS r "files" now s) as [[resp|act] s2]; simpl in *; [done|].
  destruct (negb _ && negb _); [done|]. rewrite bind_run. simpl.
  destruct (getAgent (QueryGet r "device") s2) as [ag|] eqn:Eag; [|done].
  rewrite bind_run. pose proof (startMetric_view r act ("files-" +:+ QueryGet r "op") "relay" metric now s2)
    as V2. destruct (startMetric _ _ _ _ _ _ _) as [m s3]. simpl in *.
  rewrite !bind_run. simpl. intros [= <- <- <-]. simpl.
  unfold getAgent in Eag. unfold conn_view in *. simpl. rewrite !lookup_insert_eq.
  injection V1 as V1a V1b V1c V1d. injection V2 as -> -> -> ->. rewrite V1a in Eag.
  by rewrite V1a, V1b, V1c, V1d.
Qed.

(** *** Uploads *)

(** The request of an upload goes to the device first. *)
Lemma fileStart_upload r c actor now s a :
  QueryGet r "op" = "upload" → sanitizeName (QueryGet r "name") ≠ "" →
  agentH s !! ses_agent c = Some a → ac_ws a ∈ open_ws s →
  let m := upload_msg (ses_id c) (sanitizeName (QueryGet r "name")) (queryInt64 r "size" 0)
             (QueryGet r "path") in
  let s' := (fileStart r c actor now s).2 in
  (fileStart r c actor now s).1 = Continue ∧
  transfer_view s' = (wire s ++ [(ac_ws a, Text m)], open_ws s, agentH s, files s, fileH s).
Proof.
  intros Hop Hname Ha Ho m s'. subst s'. unfold fileStart. rewrite Hop. cbn [String.eqb].
  apply String.eqb_neq in Hname. rewrite Hname. simpl. rewrite bind_run.
  pose proof (audit_view actor "file.upload" (QueryGet r "device")
    (sanitizeName (QueryGet r "name")) now s) as V. unfold transfer_view in *.
  destruct (audit _ _ _ _ _ s) as [[] s1]. simpl in *. injection V as V1 V2 V3 V4 V5.
  rewrite bind_run, (agentWrite_open _ a) by (rewrite ?V2, ?V3; done). simpl.
  by rewrite V1, V2, V3, V4, V5.
Qed.

(** The request of a download goes to the device. *)
Lemma fileStart_download r c actor now s a :
  QueryGet r "op" = "download" → QueryGet r "path" ≠ "" →
  agentH s !! ses_agent c = Some a → ac_ws a ∈ open_ws s →
  let s' := (fileStart r c actor now s).2 in
  (fileStart r c actor now s).1 = Continue ∧
  transfer_view s' = (wire s ++ [(ac_ws a, Text (download_msg (ses_id c) (QueryGet r "path")))],
                      open_ws s, agentH s, files s, fileH s).
Proof.
  intros Hop Hpath Ha Ho s'. subst s'. unfold fileStart. rewrite Hop. cbn [String.eqb Ascii.eqb].
  apply String.eqb_neq in Hpath. rewrite Hpath. simpl. rewrite bind_run.
  pose proof (audit_view actor "file.download" (QueryGet r "device") (QueryGet r "path") now s) as V.
  unfold transfer_view in *.
  destruct (audit _ _ _ _ _ s) as [[] s1]. simpl in *. injection V as V1 V2 V3 V4 V5.
  rewrite bind_run, (agentWrite_open _ a) by (rewrite ?V2, ?V3; done). simpl.
  by rewrite V1, V2, V3, V4, V5.
Qed.

(** The rest of the upload, with what it leaves alone *)
Lemma run_upload_files c u evs now :
  keeps (λ s s', (open_ws s', agentH s', files s', fileH s') = (open_ws s, agentH s, files s, fileH s))
    (run_upload c u evs now).
Proof.
  revert u. induction evs as [|e evs IH]; intros u; simpl; [apply keeps_ret, _|].
  apply keeps_bind; [apply _| |].
  - unfold uploadEvent, trafficAdd, agentWrite. frame.
  - intros [[] u']; simpl; [apply IH|apply keeps_ret, _].
Qed.
End transfers.

(** *** Answers *)

(** A transfer the server has registered for device [dev] and browser [b] *)
Definition transfer (dev sid : string) (b : WS) (s : Server) : Prop :=
  ∃ p op t, files s !! sid = Some p ∧ fileH s !! p = Some (mkFileSession dev b op t) ∧ b ∈ open_ws s.

(** A chunk of the device reaches the browser as a binary frame. *)
Lemma route_chunk dev sid b raw now s :
  transfer dev sid b s →
  transfer_view (routeAgentMessage dev (data_msg TypeFileChunk sid (EncodeData raw)) "" now s).2 =
    (wire s ++ [(b, Binary raw)], open_ws s, agentH s, files s, fileH s).
Proof.
  intros (p & op & t & Hf & Hh & Ho).
  change (routeAgentMessage dev (data_msg TypeFileChunk sid (EncodeData raw)) "" now)
    with (routeFile dev (data_msg TypeFileChunk sid (EncodeData raw)) now).
  unfold routeFile. rewrite bind_run. cbn [getS fst snd data_msg SessionID Type_ Data].
  rewrite Hf. simpl. rewrite Hh. simpl. rewrite String.eqb_refl. simpl.
  rewrite DecodeData_EncodeData_ok, bind_run.
  pose proof (recorder_view t (Add 0 (Z.of_nat (length raw)) now) s) as V. unfold trafficAdd.
  destruct (withRecorder t _ s) as [[] s1]. simpl in V. unfold writeOrClose.
  unfold transfer_view in *. simpl. injection V as V1 V2 V3 V4 V5.
  rewrite bind_run, wsWrite_run, bool_decide_true by (by rewrite V2). simpl.
  by rewrite V1, V2, V3, V4, V5.
Qed.

(** The last message of a transfer reaches the browser, and the session is gone. *)
Lemma route_final dev sid b m now s :
  transfer dev sid b s → SessionID m = sid → Type_ m = TypeFileDone ∨ Type_ m = TypeFileError →
  let s' := (routeAgentMessage dev m "" now s).2 in
  wire s' = wire s ++ [(b, Text m)] ∧ files s' !! sid = None ∧ b ∉ open_ws s'.
Proof.
  intros (p & op & t & Hf & Hh & Ho) Hsid Hty s'. subst s'.
  assert (routeAgentMessage dev m "" now = routeFile dev m now) as ->.
  { unfold routeAgentMessage, is_type. by destruct Hty as [-> | ->]. }
  unfold routeFile. rewrite bind_run. cbn [getS fst snd]. rewrite Hsid, Hf. cbn [mbind option_bind].
  rewrite Hh. cbn [fs_deviceID fs_browser fs_traffic]. rewrite String.eqb_refl. cbn [negb].
  assert (String.eqb (Type_ m) TypeFileChunk = false ∧ is_type m [TypeFileDone; TypeFileError] = true)
    as [-> ->] by (unfold is_type; by destruct Hty as [-> | ->]).
  assert (writeOrClose b (Text m) s = (tt, upd_wire (λ l, l ++ [(b, Text m)]) s)) as Hwrite.
  { unfold writeOrClose. by rewrite bind_run, wsWrite_run, bool_decide_true. }
  rewrite bind_run, Hwrite. cbn [fst snd]. rewrite bind_run. set (s1 := upd_wire _ s).
  pose proof (recorder_view t (Traffic.Close (end_of m TypeFileError) now) s1) as V. unfold trafficClose.
  destruct (withRecorder t _ s1) as [[] s2]. unfold transfer_view in V. simpl in V.
  injection V as V1 V2 V3 V4 V5. simpl. rewrite V1, V2, V4. split_and!; [done| |set_solver].
  apply lookup_delete_eq.
Qed.

(** All chunks of a download, in order *)
Lemma route_chunks dev sid b chunks now s :
  transfer dev sid b s →
  transfer_view (route_all dev (map (λ raw, data_msg TypeFileChunk sid (EncodeData raw)) chunks) now s).2 =
    (wire s ++ map (λ raw, (b, Binary raw)) chunks, open_ws s, agentH s, files s, fileH s).
Proof.
  revert s. induction chunks as [|raw chunks IH]; intros s Ht.
  - simpl. unfold transfer_view. by rewrite app_nil_r.
  - cbn [map route_all]. rewrite bind_run. pose proof (route_chunk dev sid b raw now s Ht) as V.
    destruct (routeAgentMessage _ _ _ _ s) as [[] s1]. simpl in *.
    unfold transfer_view in V. injection V as V1 V2 V3 V4 V5. rewrite IH.
    + rewrite V1, V2, V3, V4, V5. simpl. by rewrite <- app_assoc.
    + destruct Ht as (p & op & t & ? & ? & ?). exists p, op, t. by rewrite V4, V5, V2.
Qed.

Lemma route_all_app dev ms1 ms2 now s :
  route_all dev (ms1 ++ ms2) now s = route_all dev ms2 now (route_all dev ms1 now s).2.
Proof.
  revert s. induction ms1 as [|m ms1 IH]; intros s; [done|]. simpl. rewrite !bind_run. apply IH.
Qed.

(** ** The device's side of a download *)

(** The results of reading a file whose contents are the given pieces in order, the
    last of them returned together with the end of the file *)
Definition file_reads (pieces : list bytes) (final : bytes) : list readResult :=
  map (λ d, mkRead d None) pieces ++ [mkRead final (Some (Ok tt))].

Definition nonempty (l : list bytes) : list bytes :=
  omap (λ d, match d with [] => None | _ => Some d end) l.

Lemma concat_nonempty l : concat (nonempty l) = concat l.
Proof. induction l as [|[|x d] l IH]; [done|exact IH|]. unfold nonempty. simpl. by f_equal; f_equal. Qed.

Lemma nonempty_app l1 l2 : nonempty (l1 ++ l2) = nonempty l1 ++ nonempty l2.
Proof. apply omap_app. Qed.

Lemma nonempty_length l : (length (nonempty l) ≤ length l)%nat.
Proof.
  induction l as [|[|x d] l IH]; [done| |].
  - change (nonempty ([] :: l)) with (nonempty l). simpl. lia.
  - change (nonempty ((x :: d) :: l)) with ((x :: d) :: nonempty l). simpl. lia.
Qed.

Lemma sendData_run w ty sid d a :
  ag_ws a = Some w → w ∈ ag_open a →
  sendData (Some w) ty sid d a =
  (Ok tt, upd_out (λ l, l ++ map (λ raw, (w, data_msg ty sid (EncodeData raw))) (nonempty [d])) a).
Proof.
  intros Hw Ho. destruct d as [|x d]; [|by apply sendOn_run].
  cbn. unfold upd_out. rewrite app_nil_r. by destruct a.
Qed.

Lemma streamLoop_run w sid pieces final a :
  ag_ws a = Some w → w ∈ ag_open a →
  streamLoop (Some w) sid (file_reads pieces final) a =
    (Ok tt, upd_out (λ l, l ++ map (λ m, (w, m))
       (map (λ raw, data_msg TypeFileChunk sid (EncodeData raw)) (nonempty (pieces ++ [final])) ++
        [session_msg TypeFileDone sid])) a).
Proof.
  revert a. induction pieces as [|d pieces IH]; intros a Hw Ho.
  - unfold file_reads. cbn [map app streamLoop rd_data rd_end]. rewrite bind_run, sendData_run by done.
    cbn [fst snd]. rewrite sendOn_run by done. unfold upd_out. simpl.
    by rewrite map_app, map_map, <- app_assoc.
  - unfold file_reads. cbn [map app streamLoop rd_data rd_end]. rewrite bind_run, sendData_run by done.
    cbn [fst snd]. fold (file_reads pieces final). rewrite IH by done.
    change (d :: pieces ++ [final]) with ([d] ++ pieces ++ [final]).
    rewrite (nonempty_app [d]). set (n := nonempty [d]). unfold upd_out. simpl.
    by rewrite !map_app, !map_map, <- !app_assoc.
Qed.

(** ** A transfer from one end to the other *)

Section end_to_end.
Context `{Crypto} `{UrlParser}.

(** An upload at the server: the request goes out, then the browser's frames, then
    the browser says it is done. *)
Definition serve_upload (r : Request) (c : session) (actor st : string) (chunks : list bytes)
    (fin : Message) (now : Time) : stateM Server unit :=
  _ ← fileStart r c actor now;
  _ ← run_upload c (mkUpload false st) (map EBinary chunks ++ [EText fin]) now;
  mret tt.

Lemma serve_upload_effect r b sid metric now s c actor s1 a st chunks fin :
  fileOpen r (Some b) sid metric now s = ((None, Some (c, actor)), s1) →
  QueryGet r "op" = "upload" → sanitizeName (QueryGet r "name") ≠ "" →
  agentH s !! ses_agent c = Some a → ac_ws a ∈ open_ws s → b ∈ open_ws s →
  Type_ fin = TypeFileUploadEnd →
  let s2 := (serve_upload r c actor st chunks fin now s1).2 in
  wire s2 = wire s ++ map (λ m, (ac_ws a, Text m))
    (upload_msg sid (sanitizeName (QueryGet r "name")) (queryInt64 r "size" 0) (QueryGet r "path") ::
     map (λ raw, data_msg TypeFileChunk sid (EncodeData raw)) chunks ++ [with_session fin sid]) ∧
  transfer (QueryGet r "device") sid b s2.
Proof.
  intros Hopen Hop Hname Ha Ho Hb Hfin s2. subst s2.
  destruct (fileOpen_session _ _ _ _ _ _ _ _ _ Hopen) as (<- & Hws & _ & V & Hf & Hh).
  unfold conn_view in V. injection V as _ Vw Vo Vh.
  unfold serve_upload. rewrite !bind_run.
  destruct (fileStart_upload r c actor now s1 a) as [_ V1]; [done|done|by rewrite Vh|by rewrite Vo|].
  destruct (fileStart r c actor now s1) as [nx s2]. simpl in V1. cbn [fst snd].
  unfold transfer_view in V1. injection V1 as V1w V1o V1h V1f V1g.
  pose proof (upload_relayed c st chunks fin now s2 a) as Hr.
  pose proof (run_upload_files c (mkUpload false st) (map EBinary chunks ++ [EText fin]) now s2) as Hk.
  destruct (run_upload _ _ _ _ s2) as [u s3]. cbn [fst snd mret stateM_ret] in *.
  destruct Hr as (_ & Hw & _); [by rewrite V1h, Vh|by rewrite V1o, Vo|done|].
  injection Hk as Ko Kh Kf Kg. split.
  - rewrite Hw, V1w, Vw. cbn [map]. by rewrite <- app_assoc.
  - exists (ses_ref c), (QueryGet r "op"), (ses_traffic c).
    rewrite Kf, Kg, V1f, V1g, Ko, V1o, Vo. done.
Qed.


(** C15: a download arrives: from an accepted request on, the device gets the one
    request for the path; the frames of the stream the agent starts for it, routed
    by the server, hand the browser exactly the contents of the file and then the
    confirmation; the session is gone and the browser's socket closed. *)
Theorem download_end_to_end r b sid metric now s c actor s1 a cfg disk d w e base rel pieces final :
  fileOpen r (Some b) sid metric now s = ((None, Some (c, actor)), s1) →
  QueryGet r "op" = "download" → QueryGet r "path" ≠ "" →
  agentH s !! ses_agent c = Some a → ac_ws a ∈ open_ws s → b ∈ open_ws s →
  steps agent_step (newAgent cfg disk) d → ag_ws d = Some w → w ∈ ag_open d →
  fileRoot (env_symlinks e) (env_wd e) (env_root e) (AllowPaths (ag_cfg d)) (QueryGet r "path") =
    Ok (base, rel) →
  let s2 := (fileStart r c actor now s1).2 in
  let request := download_msg sid (QueryGet r "path") in
  let d' := (streamFileOn e request (ag_ws d) (Ok false) (file_reads pieces final) d).2 in
  let answers := map snd (drop (length (ag_out d)) (ag_out d')) in
  let s3 := (route_all (QueryGet r "device") answers now s2).2 in
  messages_to (ac_ws a) (drop (length (wire s)) (wire s2)) = [request] ∧
  handleMessage e request = Some (mret (Ok tt)) ∧
  ∃ frames, wire s3 = wire s2 ++ frames ++ [(b, Text (session_msg TypeFileDone sid))] ∧
    bytes_to b frames = concat pieces ++ final ∧
    files s3 !! sid = None ∧ b ∉ open_ws s3.
Proof.
  intros Hopen Hop Hpath Ha Ho Hb Hd Hw Hwo Hroot s2 request d' answers s3.
  destruct (fileOpen_session _ _ _ _ _ _ _ _ _ Hopen) as (<- & Hws & _ & V & Hf & Hh).
  unfold conn_view in V. injection V as _ Vw Vo Vh.
  destruct (fileStart_download r c actor now s1 a) as [_ V1]; [done|done|by rewrite Vh|by rewrite Vo|].
  fold s2 in V1. unfold transfer_view in V1. injection V1 as V1w V1o V1h V1f V1g.
  assert (transfer (QueryGet r "device") (ses_id c) b s2) as Htr.
  { exists (ses_ref c), (QueryGet r "op"), (ses_traffic c). by rewrite V1f, V1g, V1o, Vo. }
  split; [|split; [done|]].
  { rewrite V1w, Vw, drop_app_length. apply (messages_to_same _ [_]). }
  set (chunks := nonempty (pieces ++ [final])).
  assert (answers = map (λ raw, data_msg TypeFileChunk (ses_id c) (EncodeData raw)) chunks ++
    [session_msg TypeFileDone (ses_id c)]) as Hans.
  { subst answers d'. unfold streamFileOn. rewrite bind_run. cbn [getS fst snd].
    change (Path request) with (QueryGet r "path"). rewrite Hroot, Hw, streamLoop_run by done.
    cbn [snd upd_out ag_out]. rewrite drop_app_length, map_map. apply map_id. }
  exists (map (λ raw, (b, Binary raw)) chunks). subst s3. rewrite Hans, route_all_app.
  pose proof (route_chunks (QueryGet r "device") (ses_id c) b chunks now s2 Htr) as V2.
  set (s4 := (route_all _ _ now s2).2) in *. unfold transfer_view in V2.
  injection V2 as V2w V2o V2h V2f V2g.
  assert (transfer (QueryGet r "device") (ses_id c) b s4) as Htr4.
  { destruct Htr as (p & op & t & ? & ? & ?). exists p, op, t. by rewrite V2f, V2g, V2o. }
  cbn [route_all]. rewrite bind_run.
  destruct (route_final (QueryGet r "device") (ses_id c) b (session_msg TypeFileDone (ses_id c)) now
    s4 Htr4) as (R1 & R2 & R3); [done|by left|].
  split_and!; [|..]; try done.
  - rewrite app_assoc, <- V2w. exact R1.
  - subst chunks. rewrite bytes_to_binary, concat_nonempty, concat_app. simpl. by rewrite app_nil_r.
Qed.
End end_to_end.

(** ** A tunnel from one end to the other *)

(** *** The device that reads from its local connection *)

(** A tunnel that can send: registered, on the current connection, not cancelled and
    not draining *)
Definition sending (sid : string) (p : ref) (w : WS) (a : Agent) : Prop :=
  ag_forwards a !! sid = Some p ∧ ag_ws a = Some w ∧ w ∈ ag_open a ∧
  ∃ t, ag_tunnels a !! p = Some t ∧ tn_ws t = Some w ∧ fc_cancelled (tn_conn t) = false ∧
    isDraining (tn_conn t) = false.

Lemma readRound_sends sid p w data failed a :
  sending sid p w a →
  readRound sid p data failed a =
    (negb failed, upd_out (λ l, l ++ map (λ raw, (w, data_msg TypeForwardData sid (EncodeData raw)))
                                   (nonempty [data])) a).
Proof.
  intros (_ & Hw & Ho & t & Ht & Htw & Hc & Hd). unfold readRound. rewrite bind_run.
  cbn [getS fst snd]. by rewrite Ht, Hc, Hd, Htw, bind_run, sendData_run.
Qed.

Lemma readForward_sends sid p w pieces final a :
  sending sid p w a →
  (readForward sid p (map (λ d, (d, false)) pieces ++ [(final, true)]) a).2 =
    upd_out (λ l, l ++ map (λ m, (w, m))
      (map (λ raw, data_msg TypeForwardData sid (EncodeData raw)) (nonempty (pieces ++ [final])) ++
       [session_msg TypeForwardClose sid])) a.
Proof.
  revert a. induction pieces as [|d pieces IH]; intros a Ha.
  - cbn [map app readForward]. rewrite bind_run, (readRound_sends sid p w) by done. cbn [fst snd negb].
    destruct Ha as (Hf & Hw & Ho & t & Ht & Htw & Hc & Hd). unfold readDone. rewrite bind_run.
    cbn [getS fst snd upd_out ag_tunnels ag_forwards]. rewrite Ht, Hd, Hf, bool_decide_true, bind_run by done.
    rewrite Htw, sendOn_run by done. unfold upd_out. simpl. by rewrite map_app, map_map, <- app_assoc.
  - cbn [map app readForward]. rewrite bind_run, (readRound_sends sid p w) by done. cbn [fst snd negb].
    rewrite IH by done. change (d :: pieces ++ [final]) with ([d] ++ pieces ++ [final]).
    rewrite (nonempty_app [d]). set (n := nonempty [d]). unfold upd_out. simpl.
    by rewrite !map_app, !map_map, <- !app_assoc.
Qed.

(** *** The server in between *)

Definition tunnel_view (s : Server) := (forwards s, forwardH s, agents s, agentH s, open_ws s).

Lemma relay_data from sid d now s a :
  tunnel_peer from sid s = Some a → ac_ws a ∈ open_ws s →
  let s' := (routeAgentMessage from (data_msg TypeForwardData sid d) "" now s).2 in
  tunnel_view s' = tunnel_view s ∧
  wire s' = wire s ++ [(ac_ws a, Text (data_msg TypeForwardData sid d))].
Proof.
  intros Hp Ho s'. subst s'.
  change (routeAgentMessage from (data_msg TypeForwardData sid d) "" now) with
    (relayForward from (data_msg TypeForwardData sid d) now).
  split; [|by rewrite relayForward_out; simpl; rewrite Hp, bool_decide_true].
  unfold tunnel_peer in Hp.
  apply bind_Some in Hp as (p & Hp & (f & Hf & (o & Ho' & (q & Hq & Ha)%bind_Some)%bind_Some)%bind_Some).
  unfold relayForward. rewrite bind_run. cbn [getS fst snd data_msg SessionID Type_].
  unfold getForward. rewrite Hp. cbn [mbind option_bind]. rewrite Hf, Ho'. unfold getAgent. rewrite Hq.
  rewrite bind_run. set (m1 := if _ && _ then _ else _).
  assert (keeps (λ s s', tunnel_view s' = tunnel_view s) m1) as K.
  { unfold m1, trafficAdd. frame. }
  specialize (K s). simpl in K. destruct (m1 s) as [[] s1]. cbn [fst snd] in *.
  unfold tunnel_view in *. injection K as K1 K2 K3 K4 K5.
  rewrite bind_run, (agentWrite_open _ a) by (by rewrite ?K4, ?K5). simpl. by rewrite K1, K2, K3, K4, K5.
Qed.

Lemma relay_datas from sid ds now s a :
  tunnel_peer from sid s = Some a → ac_ws a ∈ open_ws s →
  let ms := map (data_msg TypeForwardData sid) ds in
  let s' := (route_all from ms now s).2 in
  tunnel_view s' = tunnel_view s ∧ wire s' = wire s ++ map (λ m, (ac_ws a, Text m)) ms.
Proof.
  revert s. induction ds as [|d ds IH]; intros s Hp Ho ms s'; subst ms s'.
  - simpl. by rewrite app_nil_r.
  - cbn [map route_all]. rewrite bind_run. destruct (relay_data from sid d now s a Hp Ho) as [V W].
    destruct (routeAgentMessage _ _ _ _ s) as [[] s1]. cbn [fst snd] in *.
    unfold tunnel_view in V. injection V as V1 V2 V3 V4 V5.
    destruct (IH s1) as [V' W']; [unfold tunnel_peer in *; by rewrite V1, V2, V3, V4|by rewrite V5|].
    split; [unfold tunnel_view in *; by rewrite V', V1, V2, V3, V4, V5|].
    rewrite W', W. by rewrite <- app_assoc.
Qed.

Lemma relay_close_removes from sid now s a :
  tunnel_peer from sid s = Some a → ac_ws a ∈ open_ws s →
  forwards (relayForward from (session_msg TypeForwardClose sid) now s).2 !! sid = None.
Proof.
  intros Hp Ho. unfold tunnel_peer in Hp.
  apply bind_Some in Hp as (p & Hp & (f & Hf & (o & Ho' & (q & Hq & Ha)%bind_Some)%bind_Some)%bind_Some).
  unfold relayForward. rewrite bind_run. cbn [getS fst snd session_msg SessionID Type_].
  unfold getForward. rewrite Hp. cbn [mbind option_bind]. rewrite Hf, Ho'. unfold getAgent. rewrite Hq.
  rewrite bind_run. cbn [String.eqb Ascii.eqb andb]. simpl. rewrite bind_run, (agentWrite_open _ a) by done.
  simpl. apply closeForward_removes.
Qed.

(** The frames of a stream and its end are passed on, and the session is over. *)
Lemma relay_stream from sid raws now s a :
  tunnel_peer from sid s = Some a → ac_ws a ∈ open_ws s →
  let ms := map (λ raw, data_msg TypeForwardData sid (EncodeData raw)) raws ++
            [session_msg TypeForwardClose sid] in
  let s' := (route_all from ms now s).2 in
  wire s' = wire s ++ map (λ m, (ac_ws a, Text m)) ms ∧ forwards s' !! sid = None.
Proof.
  intros Hp Ho ms s'. destruct (relay_datas from sid (map EncodeData raws) now s a Hp Ho) as [V W].
  rewrite map_map in V, W. set (ds := map _ raws) in *. set (s1 := (route_all from ds now s).2) in *.
  unfold tunnel_view in V. injection V as V1 V2 V3 V4 V5.
  assert (tunnel_peer from sid s1 = Some a) as Hp1 by (unfold tunnel_peer in *; by rewrite V1, V2, V3, V4).
  assert (s' = (relayForward from (session_msg TypeForwardClose sid) now s1).2) as ->.
  { subst s' ms. rewrite route_all_app. fold s1. cbn [route_all]. by rewrite bind_run. }
  split; [|apply relay_close_removes with a; [done|by rewrite V5]].
  subst ms. rewrite relayForward_out, map_app, app_assoc, <- W. cbn [session_msg SessionID].
  by rewrite Hp1, bool_decide_true by (by rewrite V5).
Qed.

(** *** The device that writes to its local connection *)

(** A tunnel in use: registered, its writer started on the connection [c], and
    [queue] waiting for the writer *)
Definition receiving (sid : string) (q : ref) (c : tcp) (queue : list forwardWrite) (a : Agent) : Prop :=
  ag_forwards a !! sid = Some q ∧
  ∃ t, ag_tunnels a !! q = Some t ∧ fc_closed (tn_conn t) = false ∧
    fc_draining (tn_conn t) = false ∧ fc_writing (tn_conn t) = true ∧
    fc_conn (tn_conn t) = Some c ∧ fc_writes (tn_conn t) = queue.

Lemma data_enqueued e sid q c queue raw a :
  receiving sid q c queue a → (length queue < writes_cap - 1)%nat →
  receiving sid q c (queue ++ [mkForwardWrite raw false])
    (handle_all [(e, data_msg TypeForwardData sid (EncodeData raw))] a).2.
Proof.
  intros (Hf & t & Ht & Hc & Hd & Hw & Hs & <-) Hlen.
  rewrite (handle_all_one e _ (handleForwardData (data_msg TypeForwardData sid (EncodeData raw)))) by done.
  unfold handleForwardData. cbn [data_msg Data SessionID]. rewrite DecodeData_EncodeData_ok, bind_run.
  cbn [getS fst snd]. rewrite Hf, bind_run. simpl. split; [done|]. simpl.
  rewrite lookup_alter_eq, Ht. eexists. split; [reflexivity|]. simpl.
  unfold enqueue, enqueueLocked. rewrite Hc, Hd. cbn [orb].
  assert ((writes_cap - 1 <=? length (fc_writes (tn_conn t)))%nat = false) as -> by (apply Nat.leb_gt; lia).
  unfold push. simpl. done.
Qed.

Lemma datas_enqueued e sid q c raws queue a :
  receiving sid q c queue a → (length queue + length raws ≤ writes_cap - 1)%nat →
  receiving sid q c (queue ++ map (λ raw, mkForwardWrite raw false) raws)
    (handle_all (map (λ m, (e, m)) (map (λ raw, data_msg TypeForwardData sid (EncodeData raw)) raws)) a).2.
Proof.
  revert queue a. induction raws as [|raw raws IH]; intros queue a Ha Hlen.
  - simpl. by rewrite app_nil_r.
  - cbn [length] in Hlen. cbn [map].
    rewrite (cons_middle (mkForwardWrite raw false) queue), app_assoc.
    match goal with |- context [handle_all (?x :: ?r) a] => change (x :: r) with ([x] ++ r) end.
    rewrite handle_all_app.
    apply IH; [apply data_enqueued; [done|lia]|rewrite length_app; cbn [length]; lia].
Qed.

Lemma close_drains e sid q c queue a :
  receiving sid q c queue a →
  let a' := (handle_all [(e, session_msg TypeForwardClose sid)] a).2 in
  ∃ t, ag_tunnels a' !! q = Some t ∧ fc_closed (tn_conn t) = false ∧
    fc_draining (tn_conn t) = true ∧ fc_conn (tn_conn t) = Some c ∧
    fc_writes (tn_conn t) = queue ++ [mkForwardWrite [] true].
Proof.
  intros (Hf & t & Ht & Hc & Hd & Hw & Hs & <-) a'. subst a'.
  rewrite (handle_all_one e _ (handleForwardClose (session_msg TypeForwardClose sid))) by done.
  unfold handleForwardClose. rewrite bind_run. cbn [getS fst snd session_msg SessionID]. rewrite Hf, bind_run.
  simpl. rewrite lookup_alter_eq, Ht. eexists. split; [reflexivity|]. simpl.
  unfold gracefulClose, gracefulCloseLocked. rewrite Hc, Hd, Hw, Hs. simpl. done.
Qed.


(** ** Instances *)

Module EndDemo.
Import Toy.
#[export] Existing Instance AuthDemo.url.
(** The operator's requests for files of the device ["dev-30"] on socket 1, with the
    browser on socket 2 *)
Definition request (op : string) : Request :=
  mkRequest "GET" "/ws/files"
    [("device", "dev-30"); ("op", op); ("name", "a.bin"); ("path", "/srv/in")] ""
    [("Authorization", "Bearer root-token")] [] "relay" true "10.0.0.3:99".
Definition opened (op : string) := fileOpen (request op) (Some 2%nat) "f" "m" 150 BrowserDemo.srv.
Definition ses : session := mkSession "f" 0 4 2 (Some 3%nat).
Definition conn30 : agentConn := mkAgentConn "dev-30" "10.0.0.1" 0 1%nat 0 None.

(** A device with an open tunnel ["t1"], and the server between two devices *)
Definition tunnelled : Agent :=
  (targetDialed "t1" 0 (Ok (mkTcp [] true))
     (handleForwardTarget DeviceDemo.tunnel_request DeviceDemo.up).2).2.
Definition relay : Server :=
  mkServer BrowserDemo.conf Toy.reg1 {["a" := 0%nat; "b" := 1%nat]} ∅ ∅ ∅ {["t1" := 2%nat]} ∅ ∅ ∅ ∅
    {[0%nat := mkAgentConn "a" "" 0 1%nat 0 None; 1%nat := mkAgentConn "b" "" 0 2%nat 0 None]} ∅ ∅ ∅
    {[2%nat := mkForwardSession "a" "b" false "relay" None None]} ∅ ∅ ∅ {[1%nat; 2%nat]} [] 3%nat.

Lemma opened_upload : opened "upload" = ((None, Some (ses, "admin-token")), (opened "upload").2).
Proof.
  assert ((opened "upload").1 = (None, Some (ses, "admin-token"))) as <- by (by vm_compute).
  apply surjective_pairing.
Qed.
Lemma opened_download : opened "download" = ((None, Some (ses, "admin-token")), (opened "download").2).
Proof.
  assert ((opened "download").1 = (None, Some (ses, "admin-token"))) as <- by (by vm_compute).
  apply surjective_pairing.
Qed.
End EndDemo.
Import Toy EndDemo.


Lemma download_end_to_end_witness :
  let s2 := (fileStart (request "download") ses "admin-token" 150 (opened "download").2).2 in
  messages_to 1 (drop 0 (wire s2)) = [download_msg "f" "/srv/in"] ∧
  bytes_to 2 (drop (length (wire s2)) (wire (route_all "dev-30"
    (map snd (drop 1 (ag_out (streamFileOn DeviceDemo.e (download_msg "f" "/srv/in") (Some 3%nat)
       (Ok false) (file_reads [["a"%char]; []] ["b"%char]) DeviceDemo.up).2))) 150 s2).2)) =
    ["a"%char; "b"%char].
Proof.
  destruct (download_end_to_end (request "download") 2 "f" "m" 150 BrowserDemo.srv ses "admin-token"
    (opened "download").2 conn30 DeviceDemo.cfg ∅ DeviceDemo.up 3 DeviceDemo.e "/srv" "in"
    [["a"%char]; []] ["b"%char] opened_download) as (H1 & _ & frames & H2 & H3 & _).
  4, 5, 7: by apply (bool_decide_unpack _); vm_compute.
  4: apply DeviceDemo.up_reachable.
  1, 3, 4, 5: by vm_compute.
  1: by vm_compute.
  split; [exact H1|by vm_compute].
Defined.

