(* ===== verification/Direct.v ===== *)
(** * Direct connections of the agent ([internal/agent/direct.go], [browser_direct.go])

    Beside the relay, an agent talks to another device or to a browser over WebRTC
    data channels.  The WebRTC library is not modelled: a peer connection is an
    object with what the agent gave it (whether the remote description is set, the
    candidates, whether it was closed), a data channel one with what was sent on it
    and whether it is open, and the outcome of each library call is an argument
    ([rtcEnv]).  The library's callbacks are operations of their own ([onOpen],
    [onMessage], ...).  [Node] is the agent of [Agent] with the maps of its direct
    connections. *)
From Stdlib Require Import ZArith Lia Ascii String.
From S2P Require Import Prelude GoStrings Protocol Paths ForwardConn Agent.
Open Scope string_scope.
Open Scope list_scope.
Open Scope Z_scope.

(** [json.Unmarshal] into a [webrtc.SessionDescription] and a
    [webrtc.ICECandidateInit] *)
Class Signaling := {
  parseDescription : bytes → option string;
  parseCandidate : bytes → option string
}.

(** ** Data *)

(** A [*webrtc.PeerConnection] *)
Record peer := mkPeer { pc_remote : bool; pc_candidates : list string; pc_closed : bool }.

(** What the callbacks of a channel were set up with: the port of the service for a
    tunnel (0 on the connecting side), the service and its connection for a browser *)
Inductive channelUse :=
| TunnelChannel (servicePort : Z)
| BrowserChannel (service : string) (serviceConn : option ref).

(** A [*webrtc.DataChannel] *)
Record channel := mkChannel {
  dc_session : string; dc_use : channelUse; dc_out : list bytes; dc_open : bool
}.

(** The local end of a direct connection: the connection of a tunnel that this
    device's client opened, or one dialled to a local service *)
Inductive localConn := TunnelConn (p : ref) | ServiceConn (r : ref).

(** The maps of [Agent] that belong to direct connections, and their objects;
    [dr_directPending] counts the signals in the channel (one slot). *)
Record direct := mkDirect {
  dr_directPending : gmap string nat;
  dr_peerConns : gmap string ref;
  dr_dataChannels : gmap string ref;
  dr_browserChannels : gmap string ref;
  dr_browserDirect : gset string;
  dr_pendingCandidates : gmap string (list string);
  dr_localConns : gmap string localConn;
  dr_pendingData : gmap string (list bytes);
  dr_peers : gmap ref peer;
  dr_channels : gmap ref channel;
  dr_services : gmap ref tcp;
  dr_next : ref
}.

Definition set_directPending (f : gmap string nat → gmap string nat) (d : direct) : direct :=
  mkDirect (f (dr_directPending d)) (dr_peerConns d) (dr_dataChannels d) (dr_browserChannels d)
    (dr_browserDirect d) (dr_pendingCandidates d) (dr_localConns d) (dr_pendingData d) (dr_peers d)
    (dr_channels d) (dr_services d) (dr_next d).
Definition set_peerConns (f : gmap string ref → gmap string ref) (d : direct) : direct :=
  mkDirect (dr_directPending d) (f (dr_peerConns d)) (dr_dataChannels d) (dr_browserChannels d)
    (dr_browserDirect d) (dr_pendingCandidates d) (dr_localConns d) (dr_pendingData d) (dr_peers d)
    (dr_channels d) (dr_services d) (dr_next d).
Definition set_dataChannels (f : gmap string ref → gmap string ref) (d : direct) : direct :=
  mkDirect (dr_directPending d) (dr_peerConns d) (f (dr_dataChannels d)) (dr_browserChannels d)
    (dr_browserDirect d) (dr_pendingCandidates d) (dr_localConns d) (dr_pendingData d) (dr_peers d)
    (dr_channels d) (dr_services d) (dr_next d).
Definition set_browserChannels (f : gmap string ref → gmap string ref) (d : direct) : direct :=
  mkDirect (dr_directPending d) (dr_peerConns d) (dr_dataChannels d) (f (dr_browserChannels d))
    (dr_browserDirect d) (dr_pendingCandidates d) (dr_localConns d) (dr_pendingData d) (dr_peers d)
    (dr_channels d) (dr_services d) (dr_next d).
Definition set_browserDirect (f : gset string → gset string) (d : direct) : direct :=
  mkDirect (dr_directPending d) (dr_peerConns d) (dr_dataChannels d) (dr_browserChannels d)
    (f (dr_browserDirect d)) (dr_pendingCandidates d) (dr_localConns d) (dr_pendingData d)
    (dr_peers d) (dr_channels d) (dr_services d) (dr_next d).
Definition set_pendingCandidates (f : gmap string (list string) → gmap string (list string))
    (d : direct) : direct :=
  mkDirect (dr_directPending d) (dr_peerConns d) (dr_dataChannels d) (dr_browserChannels d)
    (dr_browserDirect d) (f (dr_pendingCandidates d)) (dr_localConns d) (dr_pendingData d)
    (dr_peers d) (dr_channels d) (dr_services d) (dr_next d).
Definition set_localConns (f : gmap string localConn → gmap string localConn)
    (d : direct) : direct :=
  mkDirect (dr_directPending d) (dr_peerConns d) (dr_dataChannels d) (dr_browserChannels d)
    (dr_browserDirect d) (dr_pendingCandidates d) (f (dr_localConns d)) (dr_pendingData d)
    (dr_peers d) (dr_channels d) (dr_services d) (dr_next d).
Definition set_pendingData (f : gmap string (list bytes) → gmap string (list bytes))
    (d : direct) : direct :=
  mkDirect (dr_directPending d) (dr_peerConns d) (dr_dataChannels d) (dr_browserChannels d)
    (dr_browserDirect d) (dr_pendingCandidates d) (dr_localConns d) (f (dr_pendingData d))
    (dr_peers d) (dr_channels d) (dr_services d) (dr_next d).
Definition set_peers (f : gmap ref peer → gmap ref peer) (d : direct) : direct :=
  mkDirect (dr_directPending d) (dr_peerConns d) (dr_dataChannels d) (dr_browserChannels d)
    (dr_browserDirect d) (dr_pendingCandidates d) (dr_localConns d) (dr_pendingData d)
    (f (dr_peers d)) (dr_channels d) (dr_services d) (dr_next d).
Definition set_channels (f : gmap ref channel → gmap ref channel) (d : direct) : direct :=
  mkDirect (dr_directPending d) (dr_peerConns d) (dr_dataChannels d) (dr_browserChannels d)
    (dr_browserDirect d) (dr_pendingCandidates d) (dr_localConns d) (dr_pendingData d) (dr_peers d)
    (f (dr_channels d)) (dr_services d) (dr_next d).
Definition set_services (f : gmap ref tcp → gmap ref tcp) (d : direct) : direct :=
  mkDirect (dr_directPending d) (dr_peerConns d) (dr_dataChannels d) (dr_browserChannels d)
    (dr_browserDirect d) (dr_pendingCandidates d) (dr_localConns d) (dr_pendingData d) (dr_peers d)
    (dr_channels d) (f (dr_services d)) (dr_next d).
Definition set_next (f : ref → ref) (d : direct) : direct :=
  mkDirect (dr_directPending d) (dr_peerConns d) (dr_dataChannels d) (dr_browserChannels d)
    (dr_browserDirect d) (dr_pendingCandidates d) (dr_localConns d) (dr_pendingData d) (dr_peers d)
    (dr_channels d) (dr_services d) (f (dr_next d)).

Definition newDirect : direct := mkDirect ∅ ∅ ∅ ∅ ∅ ∅ ∅ ∅ ∅ ∅ ∅ 0.

Record Node := mkNode { nd_agent : Agent; nd_direct : direct }.

(** Outcomes of the library and of the local network: a new peer connection, its
    data channel, the description ([CreateOffer] or [CreateAnswer], then
    [SetLocalDescription]), whether [LocalDescription] is set, [json.Marshal] of it,
    [SetRemoteDescription], and the dial of a local service *)
Record rtcEnv := mkRtc {
  rt_peer : res unit; rt_channel : res unit; rt_create : res unit; rt_local : res unit;
  rt_hasLocal : bool; rt_marshal : res bytes; rt_remote : res unit; rt_dial : res unit
}.

(** ** Primitives *)

Definition onAgent {A} (m : stateM Agent A) : stateM Node A :=
  λ n, let '(x, a) := m (nd_agent n) in (x, mkNode a (nd_direct n)).
Definition onDirect (f : direct → direct) : stateM Node unit :=
  λ n, (tt, mkNode (nd_agent n) (f (nd_direct n))).
Definition getD : stateM Node direct := λ n, (nd_direct n, n).

Definition newObject : stateM Node ref :=
  d ← getD; _ ← onDirect (set_next S); mret (dr_next d).

Definition close_peer (x : peer) : peer := mkPeer (pc_remote x) (pc_candidates x) true.
Definition close_channel (c : channel) : channel :=
  mkChannel (dc_session c) (dc_use c) (dc_out c) false.

Definition pcClose (p : ref) : stateM Node unit := onDirect (set_peers (alter close_peer p)).
Definition dcClose (p : ref) : stateM Node unit := onDirect (set_channels (alter close_channel p)).

(** [pc.AddICECandidate]: the library refuses a candidate while there is no remote
    description; the callers only log the error. *)
Definition add_candidate (c : string) (x : peer) : peer :=
  if pc_remote x then mkPeer true (pc_candidates x ++ [c]) (pc_closed x) else x.
Definition addCandidate (p : ref) (c : string) : stateM Node unit :=
  onDirect (set_peers (alter (add_candidate c) p)).

(** [pc.SetRemoteDescription] *)
Definition setRemote (p : ref) (outcome : res unit) : stateM Node (res unit) :=
  _ ← (if is_ok outcome
       then onDirect (set_peers (alter (λ x, mkPeer true (pc_candidates x) (pc_closed x)) p))
       else mret tt);
  mret outcome.

(** [dc.Send]: a channel that is not open refuses; [outcome] is what the library
    reports for an open one. *)
Definition dcSend (p : ref) (data : bytes) (outcome : res unit) : stateM Node (res unit) :=
  d ← getD;
  match dr_channels d !! p with
  | Some c =>
      if negb (dc_open c) then mret (Err "channel not open")
      else match outcome with
           | Ok _ => _ ← onDirect (set_channels (alter (λ c,
                       mkChannel (dc_session c) (dc_use c) (dc_out c ++ [data]) (dc_open c)) p));
                     mret (Ok tt)
           | Err e => mret (Err e)
           end
  | None => mret (Err "no channel")
  end.

(** [dc.ReadyState() == DataChannelStateOpen] *)
Definition channelOpen (d : direct) (p : ref) : bool :=
  match dr_channels d !! p with Some c => dc_open c | None => false end.

(** [conn.Write(data)] and [conn.Close()] on a local connection *)
Definition add_out (data : bytes) (c : tcp) : tcp := mkTcp (tcp_out c ++ data) (tcp_open c).
Definition connWrite (c : localConn) (data : bytes) : stateM Node (res unit) :=
  match c with
  | TunnelConn p =>
      n ← (λ n, (n, n));
      match ag_tunnels (nd_agent n) !! p with
      | Some t =>
          if conn_open (tn_conn t)
          then _ ← onAgent (onTunnel p (tcp_write data)); mret (Ok tt)
          else mret (Err "use of closed network connection")
      | None => mret (Err "use of closed network connection")
      end
  | ServiceConn r =>
      d ← getD;
      match dr_services d !! r with
      | Some k => if tcp_open k
                  then _ ← onDirect (set_services (<[r := add_out data k]>)); mret (Ok tt)
                  else mret (Err "use of closed network connection")
      | None => mret (Err "use of closed network connection")
      end
  end.
Definition connClose (c : localConn) : stateM Node unit :=
  match c with
  | TunnelConn p => onAgent (onTunnel p (λ f, mkForwardConn (tcp_close <$> fc_conn f) (fc_closed f)
                     (fc_cancelled f) (fc_writes f) (fc_writing f) (fc_draining f) (fc_drainTimer f)))
  | ServiceConn r => onDirect (set_services (alter tcp_close r))
  end.

(** A dialled local service *)
Definition newService : stateM Node ref :=
  r ← newObject; _ ← onDirect (set_services (<[r := mkTcp [] true]>)); mret r.

Definition newPeer : stateM Node ref :=
  p ← newObject; _ ← onDirect (set_peers (<[p := mkPeer false [] false]>)); mret p.

(** ** Direct tunnels ([direct.go]) *)

(** [setupDataChannel] on a channel the library handed over *)
Definition setupDataChannel (sid : string) (servicePort : Z) : stateM Node ref :=
  p ← newObject;
  _ ← onDirect (set_channels (<[p := mkChannel sid (TunnelChannel servicePort) [] false]>));
  _ ← onDirect (set_dataChannels (<[sid := p]>)); mret p.

Definition offer_msg (sid : string) (port : Z) (raw : bytes) : Message :=
  mkMessage TypeForwardOffer "" "" "" "" "" [] 0 None sid (EncodeData raw) 0 0 0 "" 0 "" "" port "" "" [].

Definition startDirectOffer (e : rtcEnv) (sid : string) (servicePort : Z) : stateM Node (res unit) :=
  match rt_peer e with
  | Err err => mret (Err err)
  | Ok _ =>
      pc ← newPeer;
      _ ← onDirect (set_peerConns (<[sid := pc]>));
      match rt_channel e with
      | Err err => mret (Err err)
      | Ok _ =>
          _ ← setupDataChannel sid 0;
          match rt_create e, rt_local e, rt_marshal e with
          | Err err, _, _ => mret (Err err)
          | Ok _, Err err, _ => mret (Err err)
          | Ok _, Ok _, Err err => mret (Err err)
          | Ok _, Ok _, Ok raw => onAgent (send (offer_msg sid servicePort raw))
          end
      end
  end.

Section signaling.
Context `{Signaling}.

(** [base64] and [json.Unmarshal] of a message's payload *)
Definition described (msg : Message) : option string :=
  match DecodeData (Data msg) with Ok raw => parseDescription raw | Err _ => None end.
Definition candidate_of (msg : Message) : option string :=
  match DecodeData (Data msg) with Ok raw => parseCandidate raw | Err _ => None end.

(** [handleDirectOffer] (the channel itself arrives later, see [channelArrived]) *)
Definition handleDirectOffer (e : rtcEnv) (msg : Message) : stateM Node unit :=
  let fail err := _ ← onAgent (send (error_msg TypeForwardError (SessionID msg) err)); mret tt in
  match rt_peer e with
  | Err err => fail err
  | Ok _ =>
      pc ← newPeer;
      _ ← onDirect (set_peerConns (<[SessionID msg := pc]>));
      match described msg with
      | None => fail "invalid offer"
      | Some _ =>
          r ← setRemote pc (rt_remote e);
          match r, rt_create e, rt_local e with
          | Err err, _, _ => fail err
          | Ok _, Err err, _ => fail err
          | Ok _, Ok _, Err err => fail err
          | Ok _, Ok _, Ok _ =>
              match rt_marshal e with
              | Err _ => mret tt
              | Ok raw =>
                  _ ← onAgent (send (data_msg TypeForwardAnswer (SessionID msg) (EncodeData raw)));
                  mret tt
              end
          end
      end
  end.

Definition handleDirectAnswer (e : rtcEnv) (msg : Message) : stateM Node unit :=
  d ← getD;
  match dr_peerConns d !! SessionID msg, described msg with
  | Some pc, Some _ => _ ← setRemote pc (rt_remote e); mret tt
  | _, _ => mret tt
  end.

Definition handleDirectICE (msg : Message) : stateM Node unit :=
  d ← getD;
  match dr_peerConns d !! SessionID msg, candidate_of msg with
  | Some pc, Some c => addCandidate pc c
  | _, _ => mret tt
  end.

(** The local end of a candidate: [sendICE] *)
Definition sendICE (sid : string) (raw : bytes) : stateM Node unit :=
  _ ← onAgent (send (data_msg TypeForwardICE sid (EncodeData raw))); mret tt.

(** *** Callbacks of a tunnel's channel *)

(** [OnOpen]: [true] when the bridge to the service is started.  The signal goes into
    a channel with one slot; the library opens a channel once. *)
Definition tunnelOpen (p : ref) : stateM Node bool :=
  d ← getD;
  match dr_channels d !! p with
  | Some (mkChannel sid (TunnelChannel port) out _) =>
      _ ← onDirect (set_channels (<[p := mkChannel sid (TunnelChannel port) out true]>));
      _ ← onAgent (send (session_msg TypeForwardDirectOK sid));
      _ ← onDirect (set_directPending (alter (λ n, Nat.min 1 (S n)) sid));
      mret (0 <? port)
  | _ => mret false
  end.

(** [OnMessage] *)
Definition tunnelMessage (sid : string) (data : bytes) : stateM Node unit :=
  d ← getD;
  match dr_localConns d !! sid with
  | None => onDirect (set_pendingData (partial_alter (λ l, Some (default [] l ++ [data])) sid))
  | Some c => _ ← connWrite c data; mret tt
  end.

(** *** [bridgeTargetChannel] *)

(** The dial returned.  [Some]: the connection, and what had arrived before it *)
Definition bridgeAttach (sid : string) (dial : res unit) : stateM Node (option (ref * list bytes)) :=
  match dial with
  | Err _ => _ ← onAgent (send (session_msg TypeForwardClose sid)); mret None
  | Ok _ =>
      r ← newService;
      d ← getD;
      let pending := default [] (dr_pendingData d !! sid) in
      _ ← onDirect (set_localConns (<[sid := ServiceConn r]>));
      _ ← onDirect (set_pendingData (delete sid));
      mret (Some (r, pending))
  end.

(** The loop over what had arrived *)
Fixpoint bridgeFlush (r : ref) (pending : list bytes) : stateM Node unit :=
  match pending with
  | [] => mret tt
  | chunk :: rest => _ ← connWrite (ServiceConn r) chunk; bridgeFlush r rest
  end.

(** After them the channel is looked up; without one the service is closed. *)
Definition bridgeChannel (sid : string) (r : ref) : stateM Node (option ref) :=
  d ← getD;
  match dr_dataChannels d !! sid with
  | None => _ ← connClose (ServiceConn r); mret None
  | Some dc => mret (Some dc)
  end.

(** One round of the copy loops ([bridgeTargetChannel], [copyLocalToChannel]): a read
    returned [data] and maybe an error; [true] to read on *)
Definition copyRound (dc : ref) (data : bytes) (failed : bool) (sent : res unit) : stateM Node bool :=
  s ← match data with [] => mret (Ok tt) | _ => dcSend dc data sent end;
  mret (is_ok s && negb failed).

(** After the loop of [bridgeTargetChannel]: the relay is told, the service closed *)
Definition bridgeDone (sid : string) (r : ref) : stateM Node unit :=
  _ ← onAgent (send (session_msg TypeForwardClose sid)); connClose (ServiceConn r).

(** After the loop of [copyLocalToChannel] *)
Definition copyDone (sid : string) (dc : ref) : stateM Node unit :=
  _ ← onAgent (send (session_msg TypeForwardClose sid)); dcClose dc.

(** *** The client of a tunnel ([handleForwardClient]) *)

(** Up to the [select]: beside the relay request a direct offer is made. *)
Definition forwardClient (e : rtcEnv) (sid : string) (conn : tcp) (spec : ForwardSpec)
    : stateM Node (option ref) :=
  _ ← onDirect (set_directPending (<[sid := 0%nat]>));
  p ← onAgent (handleForwardClient sid conn spec);
  match p with
  | None => _ ← onDirect (set_directPending (delete sid)); mret None
  | Some p => _ ← startDirectOffer e sid (TargetPort spec); mret (Some p)
  end.

(** What [handleForwardClient] defers *)
Definition forwardClientDone (sid : string) (p : ref) : stateM Node unit :=
  _ ← onDirect (set_directPending (delete sid));
  onAgent (clientDone sid p).

(** The case [<-directReady].  [Some dc]: it goes on to [copyLocalToChannel]; [None]
    when the signal is not there or the client is finished. *)
Definition directReady (sid : string) (p : ref) : stateM Node (option ref) :=
  n ← (λ n, (n, n));
  match dr_directPending (nd_direct n) !! sid, ag_tunnels (nd_agent n) !! p with
  | Some (S k), Some t =>
      _ ← onDirect (set_directPending (<[sid := k]>));
      if fc_cancelled (tn_conn t) || negb (bool_decide (ag_forwards (nd_agent n) !! sid = Some p))
      then _ ← forwardClientDone sid p; mret None
      else
        _ ← onDirect (set_localConns (<[sid := TunnelConn p]>));
        match dr_dataChannels (nd_direct n) !! sid with
        | None => _ ← connClose (TunnelConn p); _ ← forwardClientDone sid p; mret None
        | Some dc => mret (Some dc)
        end
  | _, _ => mret None
  end.

(** ** Browsers ([browser_direct.go]) *)

Definition rtc_msg (ty sid service data err : string) : Message :=
  mkMessage ty "" "" "" "" "" [] 0 None sid data 0 0 0 err 0 "" "" 0 "" service [].

Definition sendBrowserRTCError (sid service reason : string) : stateM Node (res unit) :=
  onAgent (send (rtc_msg TypeRTCDirectError sid service "" reason)).

Definition closeBrowserDirect (sid : string) : stateM Node unit :=
  d ← getD;
  _ ← onDirect (set_peerConns (delete sid));
  _ ← onDirect (set_browserChannels (delete sid));
  _ ← onDirect (set_browserDirect (λ s, s ∖ {[sid]}));
  _ ← onDirect (set_localConns (delete sid));
  _ ← onDirect (set_pendingCandidates (delete sid));
  _ ← match dr_browserChannels d !! sid with Some dc => dcClose dc | None => mret tt end;
  _ ← match dr_peerConns d !! sid with Some pc => pcClose pc | None => mret tt end;
  match dr_localConns d !! sid with Some c => connClose c | None => mret tt end.

Definition failBrowserDirect (sid service reason : string) : stateM Node unit :=
  d ← getD;
  match dr_peerConns d !! sid with
  | None => mret tt
  | Some _ => _ ← sendBrowserRTCError sid service reason; closeBrowserDirect sid
  end.

Definition isBrowserDirect (sid : string) (d : direct) : bool := bool_decide (sid ∈ dr_browserDirect d).

(** [flushPendingCandidates] *)
Fixpoint addCandidates (pc : ref) (cs : list string) : stateM Node unit :=
  match cs with
  | [] => mret tt
  | c :: cs => _ ← addCandidate pc c; addCandidates pc cs
  end.
Definition flushPendingCandidates (sid : string) (pc : ref) : stateM Node unit :=
  d ← getD;
  _ ← onDirect (set_pendingCandidates (delete sid));
  addCandidates pc (default [] (dr_pendingCandidates d !! sid)).

(** [handleBrowserOffer] up to the registered peer connection; [None] when it was
    refused *)
Definition browserOfferBegin (e : rtcEnv) (msg : Message) : stateM Node (option (ref * option ref)) :=
  let sid := SessionID msg in
  let service := Service msg in
  if negb (String.eqb service "terminal") && negb (String.eqb service "desktop") then
    _ ← sendBrowserRTCError sid service "unsupported browser service"; mret None
  else
    n ← (λ n, (n, n));
    if String.eqb service "terminal" && bool_decide (ag_sessions (nd_agent n) !! sid = None) then
      _ ← sendBrowserRTCError sid service "terminal session is unavailable"; mret None
    else
      dialled ← (if String.eqb service "desktop" then
                   match rt_dial e with
                   | Err err => mret (Err err)
                   | Ok _ => r ← newService; mret (Ok (Some r))
                   end
                 else mret (Ok None));
      match dialled with
      | Err err =>
          _ ← sendBrowserRTCError sid service ("VNC service is unavailable: " +:+ err); mret None
      | Ok conn =>
          match rt_peer e with
          | Err err =>
              _ ← match conn with Some r => connClose (ServiceConn r) | None => mret tt end;
              _ ← sendBrowserRTCError sid service err; mret None
          | Ok _ =>
              pc ← newPeer;
              d ← getD;
              let previous := dr_peerConns d !! sid in
              _ ← onDirect (set_peerConns (<[sid := pc]>));
              _ ← match conn with
                  | Some r => onDirect (set_localConns (<[sid := ServiceConn r]>))
                  | None => mret tt
                  end;
              _ ← match previous with Some q => pcClose q | None => mret tt end;
              mret (Some (pc, conn))
          end
      end.

(** The rest of [handleBrowserOffer]: the descriptions are exchanged. *)
Definition browserOfferAnswer (e : rtcEnv) (msg : Message) (pc : ref) : stateM Node unit :=
  let sid := SessionID msg in
  let service := Service msg in
  match described msg with
  | None => failBrowserDirect sid service "invalid browser offer"
  | Some _ =>
      r ← setRemote pc (rt_remote e);
      match r with
      | Err err => failBrowserDirect sid service ("invalid browser offer: " +:+ err)
      | Ok _ =>
          _ ← flushPendingCandidates sid pc;
          match rt_create e, rt_local e with
          | Err err, _ | Ok _, Err err =>
              failBrowserDirect sid service ("could not create WebRTC answer: " +:+ err)
          | Ok _, Ok _ =>
              if negb (rt_hasLocal e) then
                failBrowserDirect sid service "WebRTC answer was not created"
              else match rt_marshal e with
                   | Err err => failBrowserDirect sid service err
                   | Ok raw =>
                       s ← onAgent (send (rtc_msg TypeRTCAnswer sid service (EncodeData raw) ""));
                       match s with
                       | Err err => failBrowserDirect sid service err
                       | Ok _ => mret tt
                       end
                   end
          end
      end
  end.

Definition handleBrowserOffer (e : rtcEnv) (msg : Message) : stateM Node unit :=
  begun ← browserOfferBegin e msg;
  match begun with None => mret tt | Some (pc, _) => browserOfferAnswer e msg pc end.

(** [handleBrowserICE]: the check under the lock ... *)
Definition iceReady (sid : string) (d : direct) : option ref :=
  match dr_peerConns d !! sid with
  | Some pc => match dr_peers d !! pc with
               | Some x => if pc_remote x then Some pc else None
               | None => None
               end
  | None => None
  end.
(** ... and what follows it *)
Definition iceStore (sid : string) (c : string) (ready : option ref) : stateM Node unit :=
  match ready with
  | None => onDirect (set_pendingCandidates (partial_alter (λ l, Some (default [] l ++ [c])) sid))
  | Some pc => addCandidate pc c
  end.
Definition handleBrowserICE (msg : Message) : stateM Node unit :=
  match candidate_of msg with
  | None => mret tt
  | Some c => d ← getD; iceStore (SessionID msg) c (iceReady (SessionID msg) d)
  end.

(** [OnICECandidate] of a browser's peer connection *)
Definition browserCandidate (sid service : string) (raw : bytes) : stateM Node unit :=
  r ← onAgent (send (rtc_msg TypeRTCICE sid service (EncodeData raw) ""));
  match r with Err err => failBrowserDirect sid service err | Ok _ => mret tt end.

(** *** Callbacks of a browser's channel *)

(** [OnDataChannel]: the library hands over the channel. *)
Definition channelArrived (sid : string) (use : channelUse) : stateM Node ref :=
  match use with
  | TunnelChannel port => setupDataChannel sid port
  | BrowserChannel _ _ =>
      p ← newObject; _ ← onDirect (set_channels (<[p := mkChannel sid use [] false]>)); mret p
  end.

(** [OnOpen] *)
Definition browserOpen (p : ref) : stateM Node unit :=
  n ← (λ n, (n, n));
  match dr_channels (nd_direct n) !! p with
  | Some (mkChannel sid (BrowserChannel service conn) out _) =>
      _ ← onDirect (set_channels (<[p := mkChannel sid (BrowserChannel service conn) out true]>));
      let attach :=
        _ ← onDirect (set_browserChannels (<[sid := p]>));
        _ ← onDirect (set_browserDirect (λ s, {[sid]} ∪ s));
        r ← onAgent (send (rtc_msg TypeRTCDirectOK sid service "" ""));
        match r with Err err => failBrowserDirect sid service err | Ok _ => mret tt end in
      if String.eqb service "terminal" then
        if bool_decide (ag_sessions (nd_agent n) !! sid = None)
        then failBrowserDirect sid service "terminal session ended during connection"
        else attach
      else match conn with
           | None => failBrowserDirect sid service "VNC service is unavailable"
           | Some _ => attach
           end
  | _ => mret tt
  end.

(** [OnMessage]; [outcome] is what writing to the terminal returns. *)
Definition browserMessage (p : ref) (data : bytes) (outcome : res unit) : stateM Node unit :=
  d ← getD;
  match dr_channels d !! p with
  | Some (mkChannel sid (BrowserChannel service conn) _ _) =>
      if String.eqb service "terminal" then
        _ ← onAgent (writeSession sid (Input outcome (string_of_list_ascii data))); mret tt
      else match conn with
           | None => mret tt
           | Some r =>
               w ← connWrite (ServiceConn r) data;
               match w with
               | Err err => failBrowserDirect sid service ("VNC write failed: " +:+ err)
               | Ok _ => mret tt
               end
           end
  | _ => mret tt
  end.

(** [OnClose] *)
Definition browserClosed (p : ref) : stateM Node unit :=
  d ← getD;
  match dr_channels d !! p with
  | Some c =>
      let sid := dc_session c in
      _ ← dcClose p;
      if bool_decide (dr_browserChannels d !! sid = Some p) then
        _ ← onDirect (set_browserChannels (delete sid));
        onDirect (set_browserDirect (λ s, s ∖ {[sid]}))
      else mret tt
  | None => mret tt
  end.

(** [OnError], and a failed ICE state *)
Definition browserError (sid service reason : string) : stateM Node unit :=
  failBrowserDirect sid service reason.

(** *** Data of a browser session *)

(** [startBrowserDesktop]: [Some] when the bridge is started *)
Definition startBrowserDesktop (sid : string) (d : direct) : option (localConn * ref) :=
  match dr_browserChannels d !! sid, dr_localConns d !! sid with
  | Some dc, Some conn =>
      if isBrowserDirect sid d && channelOpen d dc then Some (conn, dc) else None
  | _, _ => None
  end.

(** One round of [bridgeBrowserDesktop] *)
Definition desktopRound (sid : string) (dc : ref) (data : bytes) (failed : option string)
    (sent : res unit) : stateM Node bool :=
  s ← match data with [] => mret (Ok tt) | _ => dcSend dc data sent end;
  match s with
  | Err err =>
      _ ← failBrowserDirect sid "desktop" ("VNC data channel failed: " +:+ err); mret false
  | Ok _ =>
      match failed with
      | None => mret true
      | Some err =>
          d ← getD;
          _ ← (if isBrowserDirect sid d
               then failBrowserDirect sid "desktop" ("VNC connection closed: " +:+ err)
               else mret tt);
          mret false
      end
  end.

(** [sendTerminalOutput]; [sent] is the outcome of sending on an open channel. *)
Definition sendTerminalOutput (sid : string) (data : bytes) (sent : res unit) : stateM Node unit :=
  d ← getD;
  direct_sent ← match dr_browserChannels d !! sid with
                | Some dc =>
                    if isBrowserDirect sid d && channelOpen d dc then
                      s ← dcSend dc data sent;
                      match s with
                      | Ok _ => mret true
                      | Err err =>
                          _ ← failBrowserDirect sid "terminal" ("terminal data channel failed: " +:+ err);
                          mret false
                      end
                    else mret false
                | None => mret false
                end;
  if direct_sent : bool then mret tt
  else _ ← onAgent (send (data_msg TypeTermOutput sid (EncodeData data))); mret tt.

(** One round of [TermSession.readLoop]: what the shell printed, and whether it is
    gone; [true] to read on *)
Definition exit_msg (sid : string) : Message := session_msg TypeTermExit sid.
Definition termRound (sid : string) (p : ref) (data : bytes) (gone : bool) (sent : res unit)
    : stateM Node bool :=
  _ ← match data with [] => mret tt | _ => sendTerminalOutput sid data sent end;
  if gone then
    _ ← onAgent (send (exit_msg sid)); _ ← onAgent (termClose (Ok tt) p); mret false
  else mret true.

(** ** The whole control loop *)

(** [handleMessage] with the branches of direct connections.  [startScreenLink], which
    opens a connection of its own to the server, is left out. *)
Definition handleNode (env : env) (e : rtcEnv) (msg : Message) : stateM Node unit :=
  let ty t := String.eqb (Type_ msg) t in
  if ty TypeForwardOffer then handleDirectOffer e msg
  else if ty TypeForwardAnswer then handleDirectAnswer e msg
  else if ty TypeForwardICE then handleDirectICE msg
  else if ty TypeRTCOffer then handleBrowserOffer e msg
  else if ty TypeRTCRelay || ty TypeRTCStop then closeBrowserDirect (SessionID msg)
  else if ty TypeRTCReady then mret tt
  else if ty TypeRTCICE then handleBrowserICE msg
  else match handleMessage env msg with
       | Some k => _ ← onAgent k; mret tt
       | None => mret tt
       end.
End signaling.

(** [cleanupSessions], all of it, after the connection is gone *)
Fixpoint closeConns (cs : list localConn) : stateM Node unit :=
  match cs with
  | [] => mret tt
  | c :: cs => _ ← connClose c; closeConns cs
  end.
Definition nodeDisconnected (w : WS) : stateM Node unit :=
  d ← getD;
  _ ← onAgent (disconnected w);
  _ ← onDirect (λ d, mkDirect ∅ ∅ ∅ ∅ ∅ ∅ ∅ ∅ (dr_peers d) (dr_channels d) (dr_services d) (dr_next d));
  _ ← onDirect (set_peers (λ ps, foldr (λ p m, alter close_peer p m) ps
        (map snd (map_to_list (dr_peerConns d)))));
  _ ← onDirect (set_channels (λ cs, foldr (λ p m, alter close_channel p m) cs
        (map snd (map_to_list (dr_dataChannels d)) ++ map snd (map_to_list (dr_browserChannels d)))));
  closeConns (map snd (map_to_list (dr_localConns d))).
