(* ===== verification/DirectProps.v ===== *)
(** * Properties of direct connections

    Candidates of a browser's connection are not lost, terminal output reaches the
    browser once and in order across a failing channel, a failed or stopped direct
    session leaves nothing behind, and what a tunnel's channel delivers before its
    local end is attached.  The last section shows interleavings in which the code
    loses or reorders data. *)
From Stdlib Require Import ZArith Lia Ascii String.
From S2P Require Import Prelude GoStrings Protocol Paths ForwardConn Agent AgentInv DeviceProps Direct.
Open Scope string_scope.
Open Scope list_scope.
Open Scope Z_scope.

(** ** Running the primitives *)

Lemma onAgent_run {A} (m : stateM Agent A) n :
  onAgent m n = ((m (nd_agent n)).1, mkNode (m (nd_agent n)).2 (nd_direct n)).
Proof. unfold onAgent. by destruct (m (nd_agent n)). Qed.

Lemma onAgent_send w m n :
  ag_ws (nd_agent n) = Some w → w ∈ ag_open (nd_agent n) →
  onAgent (send m) n = (Ok tt, mkNode (upd_out (λ l, l ++ [(w, m)]) (nd_agent n)) (nd_direct n)).
Proof. intros Hw Ho. by rewrite onAgent_run, (send_run w). Qed.

(** ** Candidates *)

Section candidates.
Context `{Signaling}.

Fixpoint run_ice (ms : list Message) : stateM Node unit :=
  match ms with
  | [] => mret tt
  | m :: ms => _ ← handleBrowserICE m; run_ice ms
  end.

(** The messages [ms] carry the candidates [cs] of session [sid]. *)
Definition carries (sid : string) (ms : list Message) (cs : list string) : Prop :=
  Forall2 (λ m c, SessionID m = sid ∧ candidate_of m = Some c) ms cs.

Definition buffered (sid : string) (n : Node) : list string :=
  default [] (dr_pendingCandidates (nd_direct n) !! sid).

(** Before the remote description is set, candidates are buffered in order. *)
Lemma ice_buffered sid ms cs n :
  carries sid ms cs → iceReady sid (nd_direct n) = None →
  let n' := (run_ice ms n).2 in
  buffered sid n' = buffered sid n ++ cs ∧ nd_agent n' = nd_agent n ∧
  (dr_peerConns (nd_direct n'), dr_peers (nd_direct n'), dr_next (nd_direct n')) =
    (dr_peerConns (nd_direct n), dr_peers (nd_direct n), dr_next (nd_direct n)).
Proof.
  intros Hc. revert n. induction Hc as [|m c ms cs [Hs Hm] _ IH]; intros n Hr; simpl.
  - by rewrite app_nil_r.
  - rewrite bind_run. unfold handleBrowserICE. rewrite Hm, bind_run. cbn [getD fst snd].
    rewrite Hs, Hr. simpl.
    destruct (IH (mkNode (nd_agent n) (set_pendingCandidates (partial_alter
      (λ l, Some (default [] l ++ [c])) sid) (nd_direct n)))) as (E1 & E2 & E3); [done|].
    split_and!; [|done|done]. rewrite E1. unfold buffered. simpl. rewrite lookup_partial_alter_eq. simpl.
    by rewrite <- app_assoc.
Qed.

(** Once it is set they are added at once. *)
Lemma ice_added sid pc x ms cs n :
  carries sid ms cs → dr_peerConns (nd_direct n) !! sid = Some pc →
  dr_peers (nd_direct n) !! pc = Some x → pc_remote x = true →
  let n' := (run_ice ms n).2 in
  dr_peers (nd_direct n') !! pc = Some (mkPeer true (pc_candidates x ++ cs) (pc_closed x)) ∧
  buffered sid n' = buffered sid n.
Proof.
  intros Hc. revert n x. induction Hc as [|m c ms cs [Hs Hm] _ IH]; intros n x Hp Hx Hr; simpl.
  - rewrite app_nil_r. destruct x. simpl in *. by subst.
  - rewrite bind_run. unfold handleBrowserICE. rewrite Hm, bind_run. cbn [getD fst snd].
    assert (iceReady (SessionID m) (nd_direct n) = Some pc) as ->.
    { unfold iceReady. by rewrite Hs, Hp, Hx, Hr. }
    simpl.
    destruct (IH (mkNode (nd_agent n) (set_peers (alter (add_candidate c) pc) (nd_direct n)))
      (mkPeer true (pc_candidates x ++ [c]) (pc_closed x))) as [E1 E2]; [done| |done|].
    + simpl. rewrite lookup_alter_eq, Hx. simpl. unfold add_candidate. by rewrite Hr.
    + split; [|done]. rewrite E1. simpl. by rewrite <- app_assoc.
Qed.

Lemma addCandidates_run pc x cs n :
  dr_peers (nd_direct n) !! pc = Some x → pc_remote x = true →
  let n' := (addCandidates pc cs n).2 in
  dr_peers (nd_direct n') !! pc = Some (mkPeer true (pc_candidates x ++ cs) (pc_closed x)) ∧
  nd_agent n' = nd_agent n ∧ dr_peerConns (nd_direct n') = dr_peerConns (nd_direct n) ∧
  dr_pendingCandidates (nd_direct n') = dr_pendingCandidates (nd_direct n).
Proof.
  revert n x. induction cs as [|c cs IH]; intros n x Hx Hr; simpl.
  - rewrite app_nil_r. destruct x. simpl in *. by subst.
  - rewrite bind_run. simpl.
    destruct (IH (mkNode (nd_agent n) (set_peers (alter (add_candidate c) pc) (nd_direct n)))
      (mkPeer true (pc_candidates x ++ [c]) (pc_closed x))) as (E1 & E2 & E3 & E4); [|done|].
    + simpl. rewrite lookup_alter_eq, Hx. simpl. unfold add_candidate. by rewrite Hr.
    + split_and!; try done. rewrite E1. simpl. by rewrite <- app_assoc.
Qed.

(** An accepted offer registers a fresh peer connection. *)
Lemma offer_begun e msg n pc conn n' :
  browserOfferBegin e msg n = (Some (pc, conn), n') → dr_peerConns (nd_direct n) !! SessionID msg = None →
  dr_peerConns (nd_direct n') !! SessionID msg = Some pc ∧
  dr_peers (nd_direct n') !! pc = Some (mkPeer false [] false) ∧
  nd_agent n' = nd_agent n ∧
  dr_pendingCandidates (nd_direct n') = dr_pendingCandidates (nd_direct n).
Proof.
  intros Hb Hno. unfold browserOfferBegin in Hb.
  destruct (negb _ && negb _); [by rewrite bind_run in Hb|].
  rewrite bind_run in Hb. cbn [fst snd] in Hb.
  destruct (_ && bool_decide _); [by rewrite bind_run in Hb|].
  rewrite bind_run in Hb.
  destruct (String.eqb (Service msg) "desktop").
  - destruct (rt_dial e); [|by simpl in Hb; rewrite bind_run in Hb].
    rewrite !bind_run in Hb. simpl in Hb.
    destruct (rt_peer e); [|by rewrite !bind_run in Hb; simpl in Hb; rewrite ?bind_run in Hb].
    rewrite !bind_run in Hb. simpl in Hb. rewrite Hno in Hb. simpl in Hb. injection Hb as <- <- <-.
    simpl. by rewrite !lookup_insert_eq.
  - cbn [fst snd mret stateM_ret] in Hb.
    destruct (rt_peer e); [|by rewrite !bind_run in Hb; simpl in Hb; rewrite ?bind_run in Hb].
    rewrite !bind_run in Hb. simpl in Hb. rewrite Hno in Hb. simpl in Hb. injection Hb as <- <- <-.
    simpl. by rewrite !lookup_insert_eq.
Qed.

(** The answer: the description is set, what was buffered is added, the answer sent. *)
Lemma offer_answered e msg n pc w desc raw :
  dr_peerConns (nd_direct n) !! SessionID msg = Some pc →
  dr_peers (nd_direct n) !! pc = Some (mkPeer false [] false) →
  ag_ws (nd_agent n) = Some w → w ∈ ag_open (nd_agent n) →
  described msg = Some desc → rt_remote e = Ok tt → rt_create e = Ok tt → rt_local e = Ok tt →
  rt_hasLocal e = true → rt_marshal e = Ok raw →
  let n' := (browserOfferAnswer e msg pc n).2 in
  dr_peerConns (nd_direct n') !! SessionID msg = Some pc ∧
  dr_peers (nd_direct n') !! pc = Some (mkPeer true (buffered (SessionID msg) n) false) ∧
  buffered (SessionID msg) n' = [] ∧
  nd_agent n' = upd_out (λ l, l ++
    [(w, rtc_msg TypeRTCAnswer (SessionID msg) (Service msg) (EncodeData raw) "")]) (nd_agent n).
Proof.
  intros Hp Hx Hw Ho Hd H1 H2 H3 H4 H5 n'. subst n'. unfold browserOfferAnswer.
  rewrite Hd, H1, H2, H3, H4, H5. simpl. rewrite bind_run. unfold setRemote. simpl. rewrite bind_run.
  simpl. rewrite bind_run. unfold flushPendingCandidates. rewrite bind_run. cbn [getD fst snd].
  rewrite bind_run. simpl. set (n1 := mkNode _ _).
  destruct (addCandidates_run pc (mkPeer true [] false)
    (default [] (dr_pendingCandidates (nd_direct n) !! SessionID msg)) n1) as (E1 & E2 & E3 & E4);
    [simpl; by rewrite lookup_alter_eq, Hx|done|].
  destruct (addCandidates pc _ n1) as [[] n2]. simpl in E1, E2, E3, E4 |- *.
  rewrite !(onAgent_send w) by (by rewrite E2). simpl. rewrite E3, E1, E2. simpl.
  split_and!; try done. unfold buffered. simpl. rewrite E4. simpl. by rewrite lookup_delete_eq.
Qed.

(** No candidate of a browser is lost: candidates that arrive before the offer,
    while it is being processed or after it was answered are all given to the
    session's peer connection, in the order of arrival, and none stays buffered. *)
Theorem candidates_all_added e offer ms1 ms2 ms3 cs1 cs2 cs3 n n2 pc conn w desc raw :
  let sid := SessionID offer in
  carries sid ms1 cs1 → carries sid ms2 cs2 → carries sid ms3 cs3 →
  dr_peerConns (nd_direct n) !! sid = None → buffered sid n = [] →
  ag_ws (nd_agent n) = Some w → w ∈ ag_open (nd_agent n) →
  browserOfferBegin e offer (run_ice ms1 n).2 = (Some (pc, conn), n2) →
  described offer = Some desc → rt_remote e = Ok tt → rt_create e = Ok tt → rt_local e = Ok tt →
  rt_hasLocal e = true → rt_marshal e = Ok raw →
  let n4 := (browserOfferAnswer e offer pc (run_ice ms2 n2).2).2 in
  let n5 := (run_ice ms3 n4).2 in
  dr_peers (nd_direct n5) !! pc = Some (mkPeer true (cs1 ++ cs2 ++ cs3) false) ∧ buffered sid n5 = [].
Proof.
  intros sid C1 C2 C3 Hno Hbuf Hw Ho Hb Hd H1 H2 H3 H4 H5 n4 n5. subst sid. set (sid := SessionID offer) in *.
  assert (∀ d, dr_peerConns d !! sid = None → iceReady sid d = None) as Hready.
  { intros d E. unfold iceReady. by rewrite E. }
  destruct (ice_buffered sid ms1 cs1 n C1 (Hready _ Hno)) as (B1 & A1 & [=P1 Q1 _]).
  destruct (offer_begun _ _ _ _ _ _ Hb) as (P2 & X2 & A2 & B2); [by rewrite P1|]. fold sid in P2.
  assert (iceReady sid (nd_direct n2) = None) as R2 by (unfold iceReady; by rewrite P2, X2).
  destruct (ice_buffered sid ms2 cs2 n2 C2 R2) as (B3 & A3 & [=P3 Q3 _]).
  destruct (offer_answered e offer (run_ice ms2 n2).2 pc w desc raw) as (P4 & X4 & B4 & _);
    try done; [by rewrite P3|by rewrite Q3|by rewrite A3, A2, A1..|].
  fold n4 sid in P4, X4, B4.
  destruct (ice_added sid pc (mkPeer true (buffered sid (run_ice ms2 n2).2) false) ms3 cs3 n4 C3 P4 X4 eq_refl)
    as [X5 B5]. fold n5 in X5, B5. simpl in X5.
  assert (buffered sid n2 = cs1) as Hc1.
  { unfold buffered. rewrite B2. unfold buffered in B1, Hbuf. by rewrite B1, Hbuf. }
  rewrite B3, Hc1, <- app_assoc in X5. by rewrite B5.
Qed.
End candidates.

(** ** Teardown *)

(** What closing a local connection does not touch *)
Definition node_view (n : Node) :=
  let d := nd_direct n in let a := nd_agent n in
  (dr_peerConns d, dr_browserChannels d, dr_browserDirect d, dr_localConns d, dr_pendingCandidates d,
   dr_peers d, dr_channels d, (ag_ws a, ag_open a, ag_out a, ag_sessions a)).

Lemma connClose_view c n : node_view (connClose c n).2 = node_view n.
Proof. by destruct c; simpl; rewrite ?onAgent_run. Qed.

(** After a close: the entries of the session are gone, its objects closed, and
    every other session is as it was. *)
Definition direct_gone (sid : string) (n n' : Node) : Prop :=
  let d := nd_direct n in let d' := nd_direct n' in
  dr_peerConns d' = delete sid (dr_peerConns d) ∧
  dr_browserChannels d' = delete sid (dr_browserChannels d) ∧
  dr_browserDirect d' = dr_browserDirect d ∖ {[sid]} ∧
  dr_localConns d' = delete sid (dr_localConns d) ∧
  dr_pendingCandidates d' = delete sid (dr_pendingCandidates d) ∧
  dr_peers d' = (match dr_peerConns d !! sid with
                 | Some pc => alter close_peer pc (dr_peers d) | None => dr_peers d end) ∧
  dr_channels d' = (match dr_browserChannels d !! sid with
                    | Some dc => alter close_channel dc (dr_channels d) | None => dr_channels d end).

Definition relay_view (n : Node) :=
  let a := nd_agent n in (ag_ws a, ag_open a, ag_sessions a).

Lemma closeBrowserDirect_gone sid n :
  let n' := (closeBrowserDirect sid n).2 in
  direct_gone sid n n' ∧ relay_view n' = relay_view n ∧ ag_out (nd_agent n') = ag_out (nd_agent n).
Proof.
  intros n'. subst n'. unfold closeBrowserDirect, direct_gone. rewrite !bind_run. cbn [getD fst snd].
  match goal with |- context [match dr_localConns (nd_direct n) !! sid with
      Some c => connClose c | None => mret tt end ?n0] => set (n1 := n0) end.
  assert (node_view (match dr_localConns (nd_direct n) !! sid with
      | Some c => connClose c | None => mret tt end n1).2 = node_view n1) as V.
  { destruct (dr_localConns _ !! sid); [apply connClose_view|done]. }
  set (n2 := (match dr_localConns (nd_direct n) !! sid with
      | Some c => connClose c | None => mret tt end n1).2) in *.
  unfold node_view in V. injection V as -> -> -> -> -> -> -> V8 V9 V10 V11.
  unfold relay_view. rewrite V8, V9, V10, V11. subst n1. simpl.
  by destruct (dr_browserChannels (nd_direct n) !! sid), (dr_peerConns (nd_direct n) !! sid).
Qed.

(** What a failure sends, and leaves *)
Lemma failBrowserDirect_gone sid service reason n pc w :
  dr_peerConns (nd_direct n) !! sid = Some pc → ag_ws (nd_agent n) = Some w → w ∈ ag_open (nd_agent n) →
  let n' := (failBrowserDirect sid service reason n).2 in
  direct_gone sid n n' ∧ relay_view n' = relay_view n ∧
  ag_out (nd_agent n') = ag_out (nd_agent n) ++ [(w, rtc_msg TypeRTCDirectError sid service "" reason)].
Proof.
  intros Hp Hw Ho n'. subst n'. unfold failBrowserDirect. rewrite bind_run. cbn [getD fst snd].
  rewrite Hp, bind_run. unfold sendBrowserRTCError. rewrite (onAgent_send w) by done. cbn [fst snd].
  set (n1 := mkNode _ _). destruct (closeBrowserDirect_gone sid n1) as (G & R & O).
  split_and!; [exact G|exact R|]. by rewrite O.
Qed.

(** The end of a direct browser session leaves nothing behind: its peer connection
    and data channel are closed and forgotten together with the buffered candidates
    and the local connection, no other session is touched, and a second failure of
    the session is silent; the first one tells the server, which falls back to the
    relay. *)
Theorem browser_direct_teardown sid service reason n pc w :
  dr_peerConns (nd_direct n) !! sid = Some pc → ag_ws (nd_agent n) = Some w → w ∈ ag_open (nd_agent n) →
  let n' := (failBrowserDirect sid service reason n).2 in
  direct_gone sid n n' ∧
  (∀ x, dr_peers (nd_direct n) !! pc = Some x → dr_peers (nd_direct n') !! pc = Some (close_peer x)) ∧
  (∀ dc c, dr_browserChannels (nd_direct n) !! sid = Some dc → dr_channels (nd_direct n) !! dc = Some c →
     dr_channels (nd_direct n') !! dc = Some (close_channel c)) ∧
  ag_out (nd_agent n') = ag_out (nd_agent n) ++ [(w, rtc_msg TypeRTCDirectError sid service "" reason)] ∧
  (∀ service' reason', failBrowserDirect sid service' reason' n' = (tt, n')).
Proof.
  intros Hp Hw Ho n'. destruct (failBrowserDirect_gone sid service reason n pc w Hp Hw Ho) as (G & _ & O).
  fold n' in G, O. split_and!; try done.
  - intros x Hx. destruct G as (_ & _ & _ & _ & _ & -> & _). by rewrite Hp, lookup_alter_eq, Hx.
  - intros dc c Hdc Hc. destruct G as (_ & _ & _ & _ & _ & _ & ->). by rewrite Hdc, lookup_alter_eq, Hc.
  - intros service' reason'. unfold failBrowserDirect. rewrite bind_run. cbn [getD fst snd].
    destruct G as (-> & _). by rewrite lookup_delete_eq.
Qed.

(** ** Terminal output *)

Fixpoint run_output (sid : string) (outs : list (bytes * res unit)) : stateM Node unit :=
  match outs with
  | [] => mret tt
  | (data, sent) :: outs => _ ← sendTerminalOutput sid data sent; run_output sid outs
  end.

(** The output of terminal [sid] among the messages sent to the relay *)
Definition relayed_output (sid : string) (l : list (WS * Message)) : list bytes :=
  omap (λ e, if String.eqb (Type_ e.2) TypeTermOutput && String.eqb (SessionID e.2) sid
             then match DecodeData (Data e.2) with Ok raw => Some raw | Err _ => None end
             else None) l.

Lemma relayed_output_app sid l1 l2 :
  relayed_output sid (l1 ++ l2) = relayed_output sid l1 ++ relayed_output sid l2.
Proof. apply omap_app. Qed.

Lemma relayed_output_one sid w data :
  relayed_output sid [(w, data_msg TypeTermOutput sid (EncodeData data))] = [data].
Proof. unfold relayed_output. simpl. by rewrite String.eqb_refl, DecodeData_EncodeData_ok. Qed.

(** Without a direct channel every output is relayed. *)
Lemma output_relayed sid outs n w :
  dr_browserChannels (nd_direct n) !! sid = None → ag_ws (nd_agent n) = Some w → w ∈ ag_open (nd_agent n) →
  let n' := (run_output sid outs n).2 in
  nd_direct n' = nd_direct n ∧
  ∃ l, ag_out (nd_agent n') = ag_out (nd_agent n) ++ l ∧ relayed_output sid l = map fst outs.
Proof.
  revert n. induction outs as [|[data sent] outs IH]; intros n Hb Hw Ho; simpl.
  - split; [done|]. exists []. by rewrite app_nil_r.
  - rewrite bind_run. unfold sendTerminalOutput. rewrite bind_run. cbn [getD fst snd]. rewrite Hb, bind_run.
    simpl. rewrite bind_run, (onAgent_send w) by done. simpl. set (n1 := mkNode _ _).
    destruct (IH n1) as (D & l & E & R); [done..|]. split; [by rewrite D|].
    exists ([(w, data_msg TypeTermOutput sid (EncodeData data))] ++ l).
    rewrite E. simpl. split; [by rewrite <- app_assoc|].
    change (relayed_output sid ([(w, data_msg TypeTermOutput sid (EncodeData data))] ++ l) = data :: map fst outs).
    by rewrite relayed_output_app, relayed_output_one, R.
Qed.

(** A session with an open direct channel *)
Definition direct_terminal (sid : string) (dc : ref) (ch : channel) (n : Node) : Prop :=
  dr_browserChannels (nd_direct n) !! sid = Some dc ∧ sid ∈ dr_browserDirect (nd_direct n) ∧
  dr_channels (nd_direct n) !! dc = Some ch ∧ dc_open ch = true.

Lemma output_sent sid data sent dc ch n :
  direct_terminal sid dc ch n →
  (sendTerminalOutput sid data sent n).2 =
    match sent with
    | Ok _ => mkNode (nd_agent n) (set_channels (alter (λ c,
                mkChannel (dc_session c) (dc_use c) (dc_out c ++ [data]) (dc_open c)) dc) (nd_direct n))
    | Err err =>
        (onAgent (send (data_msg TypeTermOutput sid (EncodeData data)))
           (failBrowserDirect sid "terminal" ("terminal data channel failed: " +:+ err) n).2).2
    end.
Proof.
  intros (Hb & Hd & Hc & Hopen). unfold sendTerminalOutput. rewrite bind_run. cbn [getD fst snd].
  assert (isBrowserDirect sid (nd_direct n) && channelOpen (nd_direct n) dc = true) as Hyes.
  { unfold isBrowserDirect, channelOpen. by rewrite bool_decide_true, Hc. }
  rewrite Hb, Hyes, bind_run.
  assert (dcSend dc data sent n = match sent with
    | Ok _ => (Ok tt, mkNode (nd_agent n) (set_channels (alter (λ c,
                mkChannel (dc_session c) (dc_use c) (dc_out c ++ [data]) (dc_open c)) dc) (nd_direct n)))
    | Err err => (Err err, n) end) as Hsend.
  { unfold dcSend. rewrite bind_run. cbn [getD fst snd]. rewrite Hc, Hopen. cbn [negb].
    destruct sent as [[]|]; [by rewrite bind_run|done]. }
  rewrite bind_run, Hsend. destruct sent as [[]|err]; cbn [fst snd mret stateM_ret]; [done|].
  rewrite bind_run. cbn [fst snd mret stateM_ret]. by rewrite bind_run.
Qed.


(** ** The channel of a tunnel *)

Fixpoint run_messages (sid : string) (ms : list bytes) : stateM Node unit :=
  match ms with
  | [] => mret tt
  | m :: ms => _ ← tunnelMessage sid m; run_messages sid ms
  end.

Definition pending (sid : string) (n : Node) : list bytes := default [] (dr_pendingData (nd_direct n) !! sid).

(** Without a local end, what arrives is kept in order. *)
Lemma messages_pending sid ms n :
  dr_localConns (nd_direct n) !! sid = None →
  let n' := (run_messages sid ms n).2 in
  pending sid n' = pending sid n ++ ms ∧ nd_agent n' = nd_agent n ∧
  (dr_localConns (nd_direct n'), dr_services (nd_direct n'), dr_next (nd_direct n')) =
    (dr_localConns (nd_direct n), dr_services (nd_direct n), dr_next (nd_direct n)).
Proof.
  revert n. induction ms as [|m ms IH]; intros n Hl; simpl; [by rewrite app_nil_r|].
  rewrite bind_run. unfold tunnelMessage. rewrite bind_run. cbn [getD fst snd]. rewrite Hl. simpl.
  set (n1 := mkNode _ _). destruct (IH n1 Hl) as (E1 & E2 & E3). split_and!; [|done|done].
  rewrite E1. subst n1. unfold pending. simpl. rewrite lookup_partial_alter_eq. simpl.
  by rewrite <- app_assoc.
Qed.

(** With an open service it is written at once. *)
Lemma messages_written sid r k ms n :
  dr_localConns (nd_direct n) !! sid = Some (ServiceConn r) → dr_services (nd_direct n) !! r = Some k →
  tcp_open k = true →
  let n' := (run_messages sid ms n).2 in
  dr_services (nd_direct n') !! r = Some (mkTcp (tcp_out k ++ concat ms) true) ∧
  dr_localConns (nd_direct n') = dr_localConns (nd_direct n) ∧
  dr_pendingData (nd_direct n') = dr_pendingData (nd_direct n).
Proof.
  revert n k. induction ms as [|m ms IH]; intros n k Hl Hk Ho; simpl.
  - rewrite app_nil_r. destruct k. simpl in *. by subst.
  - rewrite bind_run. unfold tunnelMessage. rewrite bind_run. cbn [getD fst snd]. rewrite Hl, bind_run.
    unfold connWrite. rewrite bind_run. cbn [getD fst snd]. rewrite Hk, Ho, bind_run. simpl.
    set (n1 := mkNode _ _). destruct (IH n1 (add_out m k)) as (E1 & E2 & E3); [done| |done|].
    { simpl. apply lookup_insert_eq. }
    split_and!; [|done|done]. rewrite E1. simpl. by rewrite <- app_assoc.
Qed.

Lemma flush_written r k ms n :
  dr_services (nd_direct n) !! r = Some k → tcp_open k = true →
  let n' := (bridgeFlush r ms n).2 in
  dr_services (nd_direct n') !! r = Some (mkTcp (tcp_out k ++ concat ms) true) ∧
  dr_localConns (nd_direct n') = dr_localConns (nd_direct n) ∧
  dr_pendingData (nd_direct n') = dr_pendingData (nd_direct n).
Proof.
  revert n k. induction ms as [|m ms IH]; intros n k Hk Ho; simpl.
  - rewrite app_nil_r. destruct k. simpl in *. by subst.
  - rewrite bind_run. unfold connWrite. rewrite bind_run. cbn [getD fst snd].
    rewrite Hk, Ho, bind_run. simpl.
    set (n1 := mkNode _ _). destruct (IH n1 (add_out m k)) as (E1 & E2 & E3); [|done|].
    { simpl. apply lookup_insert_eq. }
    split_and!; [|done|done]. rewrite E1. simpl. by rewrite <- app_assoc.
Qed.

(** The dial of the service, after [early] has arrived *)
Lemma attached sid early n :
  dr_localConns (nd_direct n) !! sid = None → pending sid n = [] →
  let r := dr_next (nd_direct n) in
  let n1 := (run_messages sid early n).2 in
  ∃ n2, bridgeAttach sid (Ok tt) n1 = (Some (r, early), n2) ∧
    dr_localConns (nd_direct n2) !! sid = Some (ServiceConn r) ∧
    dr_services (nd_direct n2) !! r = Some (mkTcp [] true) ∧ pending sid n2 = [].
Proof.
  intros Hl Hp r n1. destruct (messages_pending sid early n Hl) as (E1 & _ & [=E2 E3 E4]). fold n1 in E1, E2, E3, E4.
  eexists. split; [|split_and!].
  - unfold bridgeAttach. rewrite !bind_run. simpl. unfold pending in E1, Hp. simpl. rewrite E1, Hp, E4. done.
  - simpl. apply lookup_insert_eq.
  - simpl. apply lookup_insert_eq.
  - unfold pending. simpl. by rewrite lookup_delete_eq.
Qed.

(** The target of a direct tunnel gets the bytes of the channel in order: what
    arrives before the service is dialled is kept, written when the dial has
    returned, and followed by what arrives afterwards; nothing stays behind. *)
Theorem direct_target_in_order sid early late n :
  dr_localConns (nd_direct n) !! sid = None → pending sid n = [] →
  let n1 := (run_messages sid early n).2 in
  ∃ r flush n2, bridgeAttach sid (Ok tt) n1 = (Some (r, flush), n2) ∧
    let n4 := (run_messages sid late (bridgeFlush r flush n2).2).2 in
    dr_services (nd_direct n4) !! r = Some (mkTcp (concat early ++ concat late) true) ∧
    pending sid n4 = [].
Proof.
  intros Hl Hp n1. destruct (attached sid early n Hl Hp) as (n2 & Ha & Hl2 & Hs2 & Hp2).
  exists (dr_next (nd_direct n)), early, n2. split; [done|]. intros n4.
  destruct (flush_written _ _ early n2 Hs2 eq_refl) as (F1 & F2 & F3). simpl in F1.
  destruct (messages_written sid (dr_next (nd_direct n)) (mkTcp (concat early) true) late
    (bridgeFlush (dr_next (nd_direct n)) early n2).2) as (E1 & _ & E3); [by rewrite F2|done|done|].
  split; [done|]. subst n4. unfold pending in *. by rewrite E3, F3.
Qed.

(** ** Interleavings that lose or reorder data *)

(** The bridge of a tunnel publishes its connection before it has written what had
    arrived earlier: messages handled in between overtake it. *)
Theorem flush_can_be_overtaken sid early late n :
  dr_localConns (nd_direct n) !! sid = None → pending sid n = [] →
  let n1 := (run_messages sid early n).2 in
  ∃ r flush n2, bridgeAttach sid (Ok tt) n1 = (Some (r, flush), n2) ∧
    let n4 := (bridgeFlush r flush (run_messages sid late n2).2).2 in
    dr_services (nd_direct n4) !! r = Some (mkTcp (concat late ++ concat early) true).
Proof.
  intros Hl Hp n1. destruct (attached sid early n Hl Hp) as (n2 & Ha & Hl2 & Hs2 & Hp2).
  exists (dr_next (nd_direct n)), early, n2. split; [done|]. intros n4.
  destruct (messages_written sid _ _ late n2 Hl2 Hs2 eq_refl) as (E1 & _ & _). simpl in E1.
  by destruct (flush_written _ _ early (run_messages sid late n2).2 E1 eq_refl) as (F1 & _).
Qed.

(** The client of a direct tunnel never writes what arrived before it took the
    channel: the bytes stay in the buffer, whatever arrives later. *)
Theorem client_loses_early_bytes sid p dc n n' :
  directReady sid p n = (Some dc, n') →
  dr_pendingData (nd_direct n') = dr_pendingData (nd_direct n) ∧
  dr_localConns (nd_direct n') !! sid = Some (TunnelConn p) ∧
  ∀ ms, dr_pendingData (nd_direct (run_messages sid ms n').2) = dr_pendingData (nd_direct n).
Proof.
  intros Hr.
  assert (dr_pendingData (nd_direct n') = dr_pendingData (nd_direct n) ∧
    dr_localConns (nd_direct n') !! sid = Some (TunnelConn p)) as [H1 H2].
  { unfold directReady in Hr. rewrite bind_run in Hr. cbn [fst snd] in Hr.
    destruct (dr_directPending (nd_direct n) !! sid) as [[|k]|]; [done| |done].
    destruct (ag_tunnels (nd_agent n) !! p) as [t|]; [|done]. rewrite bind_run in Hr. simpl in Hr.
    destruct (_ || _); [by rewrite bind_run in Hr|]. rewrite bind_run in Hr. simpl in Hr.
    destruct (dr_dataChannels (nd_direct n) !! sid); [|by rewrite !bind_run in Hr].
    injection Hr as <- <-. simpl. split; [done|apply lookup_insert_eq]. }
  split_and!; [done|done|]. intros ms. rewrite <- H1. clear Hr H1 n. revert n' H2.
  induction ms as [|m ms IH]; intros n H2; [done|]. simpl. rewrite bind_run.
  assert (nd_direct (tunnelMessage sid m n).2 = nd_direct n) as E.
  { unfold tunnelMessage. rewrite bind_run. cbn [getD fst snd]. rewrite H2, bind_run.
    unfold connWrite. rewrite bind_run. cbn [fst snd].
    destruct (ag_tunnels (nd_agent n) !! p); [|done]. destruct (conn_open _); [|done].
    rewrite bind_run, onAgent_run. done. }
  rewrite IH by (by rewrite E). by rewrite E.
Qed.

(** The check of [handleBrowserICE] and the append are two critical sections: a
    candidate that passes between them when the offer is answered stays buffered,
    and no later candidate releases it. *)
Theorem stale_check_strands_candidate `{Signaling} sid c n pc :
  iceReady sid (nd_direct n) = Some pc →
  let n' := (iceStore sid c None n).2 in
  dr_peers (nd_direct n') = dr_peers (nd_direct n) ∧ c ∈ buffered sid n' ∧
  ∀ ms cs, carries sid ms cs → buffered sid (run_ice ms n').2 = buffered sid n'.
Proof.
  intros Hr n'. unfold iceReady in Hr.
  destruct (dr_peerConns (nd_direct n) !! sid) as [q|] eqn:Hp; [|done].
  destruct (dr_peers (nd_direct n) !! q) as [x|] eqn:Hx; [|done].
  destruct (pc_remote x) eqn:Hrem; [|done].
  split_and!; [done| |].
  - subst n'. unfold buffered. simpl. rewrite lookup_partial_alter_eq. simpl. set_solver.
  - intros ms cs Hc. by destruct (ice_added sid q x ms cs n' Hc) as [_ E].
Qed.

(** Unlike a browser's, an early candidate of another device is dropped. *)
Theorem early_tunnel_candidate_lost `{Signaling} msg n pc x :
  dr_peerConns (nd_direct n) !! SessionID msg = Some pc → dr_peers (nd_direct n) !! pc = Some x →
  pc_remote x = false → handleDirectICE msg n = (tt, n).
Proof.
  intros Hp Hx Hr. unfold handleDirectICE. rewrite bind_run. cbn [getD fst snd]. rewrite Hp.
  destruct (candidate_of msg) as [c|]; [|done]. unfold addCandidate, onDirect. f_equal.
  destruct n as [a d]. f_equal. simpl in *. unfold set_peers. destruct d. simpl in *. f_equal.
  apply map_eq. intros k. destruct (decide (k = pc)) as [->|].
  - rewrite lookup_alter_eq, Hx. simpl. unfold add_candidate. by rewrite Hr.
  - by rewrite lookup_alter_ne.
Qed.

(** The peer connection of a tunnel outlives the tunnel: the end of the client
    neither closes nor forgets it, so it stays until the control connection is
    lost. *)
Theorem tunnel_peer_outlives_client sid p n :
  let d' := nd_direct (forwardClientDone sid p n).2 in
  dr_peerConns d' = dr_peerConns (nd_direct n) ∧ dr_dataChannels d' = dr_dataChannels (nd_direct n) ∧
  dr_peers d' = dr_peers (nd_direct n) ∧ dr_channels d' = dr_channels (nd_direct n).
Proof.
  unfold forwardClientDone. rewrite bind_run. unfold onAgent.
  by destruct (clientDone sid p _).
Qed.

(** ** What is registered *)

(** A browser session is marked direct exactly when its channel is registered. *)
Definition flags_ok (n : Node) : Prop :=
  dr_browserDirect (nd_direct n) = dom (dr_browserChannels (nd_direct n)).

Definition flags (n : Node) := (dr_browserDirect (nd_direct n), dr_browserChannels (nd_direct n)).
Definition flags_kept (n n' : Node) : Prop := flags_ok n → flags_ok n'.
#[export] Instance flags_kept_preorder : PreOrder flags_kept.
Proof. split; [by intros ? ?|]. intros x y z H1 H2 H. auto. Qed.

Lemma flags_same n n' : flags n' = flags n → flags_kept n n'.
Proof. unfold flags, flags_kept, flags_ok. intros [= -> ->]. done. Qed.

Lemma keeps_onAgent {A} (R : relation Node) (m : stateM Agent A) :
  (∀ n a, R n (mkNode a (nd_direct n))) → keeps R (onAgent m).
Proof. intros HR n. rewrite onAgent_run. apply HR. Qed.

Lemma keeps_onDirect (R : relation Node) f :
  (∀ n, R n (mkNode (nd_agent n) (f (nd_direct n)))) → keeps R (onDirect f).
Proof. intros HR n. apply HR. Qed.

Lemma keeps_read {A} (R : relation Node) `{!PreOrder R} (g : Node → A) : keeps R (λ n, (g n, n)).
Proof. intros n. simpl. reflexivity. Qed.

(** Walk over the text of an operation that does not touch the two maps. *)
Ltac flags_walk :=
  repeat match goal with
    | |- PreOrder _ => apply _
    | |- ∀ _, _ => intros
    | K : keeps flags_kept ?m |- keeps flags_kept ?m => exact K
    | |- keeps _ (onAgent _) => apply keeps_onAgent; intros; by apply flags_same
    | |- keeps _ (onDirect _) => apply keeps_onDirect; intros; by apply flags_same
    | |- keeps _ (mret _) => apply keeps_ret
    | |- keeps _ (λ n, (_, n)) => apply keeps_read
    | |- keeps _ (_ ≫= _) => apply keeps_bind
    | |- keeps _ (match _ with _ => _ end) => case_match
    | |- keeps _ (if _ then _ else _) => case_match
    | |- keeps _ (let _ := _ in _) => cbv zeta
    end.

Lemma flags_connWrite c data : keeps flags_kept (connWrite c data).
Proof. unfold connWrite, getD. flags_walk. Qed.

Lemma flags_connClose c : keeps flags_kept (connClose c).
Proof. unfold connClose. flags_walk. Qed.

Lemma flags_closeBrowserDirect sid : keeps flags_kept (closeBrowserDirect sid).
Proof.
  intros n Hn. destruct (closeBrowserDirect_gone sid n) as ((_ & E1 & E2 & _) & _).
  unfold flags_ok in *. rewrite E1, E2, dom_delete_L. by rewrite Hn.
Qed.

Lemma flags_failBrowserDirect sid service reason : keeps flags_kept (failBrowserDirect sid service reason).
Proof.
  unfold failBrowserDirect, sendBrowserRTCError, getD.
  repeat first [ apply flags_closeBrowserDirect | progress flags_walk ].
Qed.

Ltac flags_go :=
  repeat first [ apply flags_failBrowserDirect | apply flags_closeBrowserDirect
               | apply flags_connWrite | apply flags_connClose | progress flags_walk ].

Lemma flags_browserOpen p : keeps flags_kept (browserOpen p).
Proof.
  unfold browserOpen. apply keeps_bind; [apply _|apply keeps_read, _|]. intros n0.
  destruct (dr_channels (nd_direct n0) !! p) as [[sid [port|service conn] out open]|]; [flags_go| |flags_go].
  apply keeps_bind; [apply _|flags_go|]. intros _.
  match goal with |- context [set_browserChannels (<[sid := p]>)] => idtac end.
  set (attach := onDirect (set_browserChannels (<[sid := p]>)) ≫= _).
  assert (keeps flags_kept attach) as Ha.
  { intros n Hn. unfold attach. rewrite !bind_run. cbn [fst snd].
    set (n1 := (onDirect (set_browserDirect (λ s, {[sid]} ∪ s)) (onDirect (set_browserChannels
      (<[sid := p]>)) n).2).2).
    assert (flags_ok n1) as Hn1.
    { unfold n1, flags_ok in *. simpl. rewrite dom_insert_L. by rewrite Hn. }
    rewrite onAgent_run. cbn [fst snd].
    destruct (send _ (nd_agent n1)) as [[]  a]; cbn [fst snd]; [done|].
    apply flags_failBrowserDirect. exact Hn1. }
  flags_go.
Qed.

Lemma flags_browserClosed p : keeps flags_kept (browserClosed p).
Proof.
  intros n Hn. unfold browserClosed. rewrite bind_run. cbn [getD fst snd].
  destruct (dr_channels (nd_direct n) !! p) as [c|]; [|done]. rewrite bind_run. simpl.
  case_bool_decide; [|done]. rewrite bind_run. unfold flags_ok in *. simpl. by rewrite dom_delete_L, Hn.
Qed.

Lemma flags_closeConns cs : keeps flags_kept (closeConns cs).
Proof. induction cs as [|c cs IH]; simpl; flags_go. Qed.

Lemma flags_nodeDisconnected w : keeps flags_kept (nodeDisconnected w).
Proof.
  unfold nodeDisconnected, getD. apply keeps_bind; [apply _|apply keeps_read, _|]. intros d.
  apply keeps_bind; [apply _|flags_go|]. intros _.
  apply keeps_bind; [apply _|by apply keeps_onDirect|]. intros _.
  repeat first [ apply flags_closeConns | progress flags_walk ].
Qed.

Section node_steps.
Context `{Signaling}.

(** What can happen to the direct connections of an agent *)
Inductive node_step : Node → Node → Prop :=
| nstep_message env e msg n : node_step n (handleNode env e msg n).2
| nstep_agent {A} (m : stateM Agent A) n : node_step n (onAgent m n).2
| nstep_channel sid use n : node_step n (channelArrived sid use n).2
| nstep_tunnel_open p n : node_step n (tunnelOpen p n).2
| nstep_tunnel_message sid data n : node_step n (tunnelMessage sid data n).2
| nstep_attach sid dial n : node_step n (bridgeAttach sid dial n).2
| nstep_flush r pending n : node_step n (bridgeFlush r pending n).2
| nstep_copy dc data failed sent n : node_step n (copyRound dc data failed sent n).2
| nstep_copied sid dc n : node_step n (copyDone sid dc n).2
| nstep_bridged sid r n : node_step n (bridgeDone sid r n).2
| nstep_client e sid conn spec n : node_step n (forwardClient e sid conn spec n).2
| nstep_ready sid p n : node_step n (directReady sid p n).2
| nstep_client_done sid p n : node_step n (forwardClientDone sid p n).2
| nstep_candidate sid service raw n : node_step n (browserCandidate sid service raw n).2
| nstep_browser_open p n : node_step n (browserOpen p n).2
| nstep_browser_message p data o n : node_step n (browserMessage p data o n).2
| nstep_browser_closed p n : node_step n (browserClosed p n).2
| nstep_browser_error sid service reason n : node_step n (browserError sid service reason n).2
| nstep_desktop sid dc data failed sent n : node_step n (desktopRound sid dc data failed sent n).2
| nstep_terminal sid p data gone sent n : node_step n (termRound sid p data gone sent n).2
| nstep_disconnected w n : node_step n (nodeDisconnected w n).2.

Lemma flags_addCandidates pc cs : keeps flags_kept (addCandidates pc cs).
Proof. induction cs; simpl; unfold addCandidate in *; flags_go. Qed.

Lemma flags_handleNode env e msg : keeps flags_kept (handleNode env e msg).
Proof.
  assert (∀ p o, keeps flags_kept (setRemote p o)) as Hremote by (intros; unfold setRemote; flags_go).
  unfold handleNode, handleDirectOffer, handleDirectAnswer, handleDirectICE, handleBrowserOffer,
    browserOfferBegin, browserOfferAnswer, flushPendingCandidates, handleBrowserICE, iceStore,
    sendBrowserRTCError, newPeer, newService, newObject, pcClose, addCandidate, getD.
  repeat first [ apply Hremote | apply flags_addCandidates | progress flags_go ].
Qed.

Lemma flags_bridgeFlush r l : keeps flags_kept (bridgeFlush r l).
Proof. induction l; cbn [bridgeFlush]; flags_go. Qed.

(** A step as the operation it runs *)
Ltac as_keeps :=
  match goal with |- flags_kept ?n (?m ?n).2 => assert (keeps flags_kept m) as K; [|apply K] end.

Lemma flags_step n n' : node_step n n' → flags_kept n n'.
Proof.
  assert (∀ p data o, keeps flags_kept (dcSend p data o)) as Hsend
    by (intros; unfold dcSend, getD; flags_go).
  assert (∀ sid port, keeps flags_kept (setupDataChannel sid port)) as Hsetup
    by (intros; unfold setupDataChannel, newObject, getD; flags_go).
  assert (∀ sid p, keeps flags_kept (forwardClientDone sid p)) as Hdone
    by (intros; unfold forwardClientDone; flags_go).
  assert (∀ sid data sent, keeps flags_kept (sendTerminalOutput sid data sent)) as Hout.
  { intros. unfold sendTerminalOutput, getD. repeat first [ apply Hsend | progress flags_go ]. }
  intros [].
  - apply flags_handleNode.
  - apply (keeps_onAgent flags_kept); intros; by apply flags_same.
  - as_keeps. unfold channelArrived, newObject, getD. repeat first [ apply Hsetup | progress flags_go ].
  - as_keeps. unfold tunnelOpen, getD. flags_go.
  - as_keeps. unfold tunnelMessage, getD. flags_go.
  - as_keeps. unfold bridgeAttach, newService, newObject, getD. flags_go.
  - apply flags_bridgeFlush.
  - as_keeps. unfold copyRound. repeat first [ apply Hsend | progress flags_go ].
  - as_keeps. unfold copyDone, dcClose. flags_go.
  - as_keeps. unfold bridgeDone. flags_go.
  - as_keeps. unfold forwardClient, startDirectOffer, newPeer, newObject, getD.
    repeat first [ apply Hsetup | progress flags_go ].
  - as_keeps. unfold directReady. repeat first [ apply Hdone | progress flags_go ].
  - apply Hdone.
  - as_keeps. unfold browserCandidate. flags_go.
  - apply flags_browserOpen.
  - as_keeps. unfold browserMessage, getD. flags_go.
  - apply flags_browserClosed.
  - apply flags_failBrowserDirect.
  - as_keeps. unfold desktopRound, getD. repeat first [ apply Hsend | progress flags_go ].
  - as_keeps. unfold termRound. repeat first [ apply Hout | progress flags_go ].
  - apply flags_nodeDisconnected.
Qed.

(** The bookkeeping of direct browser sessions is consistent: whatever messages,
    callbacks of the library, copy rounds and disconnects happen, a session counts as
    direct exactly when a data channel is registered for it, so output is never sent
    to a channel that was forgotten and never withheld from the relay. *)
Theorem direct_flag_has_channel a n :
  steps node_step (mkNode a newDirect) n →
  ∀ sid, isBrowserDirect sid (nd_direct n) = true ↔ is_Some (dr_browserChannels (nd_direct n) !! sid).
Proof.
  intros Hs sid.
  assert (flags_ok n) as Hn.
  { apply (steps_invariant node_step flags_ok (mkNode a newDirect)); [|done|done].
    intros x y Hx Hxy. by apply (flags_step x y Hxy). }
  unfold isBrowserDirect. rewrite bool_decide_eq_true, Hn. apply elem_of_dom.
Qed.
End node_steps.

(** ** The end of the control connection *)

Lemma closeConns_objects cs n :
  let n' := (closeConns cs n).2 in
  (dr_peers (nd_direct n'), dr_channels (nd_direct n')) = (dr_peers (nd_direct n), dr_channels (nd_direct n)) ∧
  ∀ r k, ServiceConn r ∈ cs → dr_services (nd_direct n) !! r = Some k →
    ∃ k', dr_services (nd_direct n') !! r = Some k' ∧ tcp_open k' = false.
Proof.
  assert (∀ cs n r k, dr_services (nd_direct n) !! r = Some k → tcp_open k = false →
    ∃ k', dr_services (nd_direct (closeConns cs n).2) !! r = Some k' ∧ tcp_open k' = false) as Hstay.
  { clear. induction cs as [|c cs IH]; intros n r k Hk Ho; simpl; [eauto|]. rewrite bind_run.
    destruct c as [p|q]; simpl.
    - by eapply IH.
    - destruct (decide (q = r)) as [->|].
      + eapply (IH _ r (tcp_close k)); [simpl; by rewrite lookup_alter_eq, Hk|done].
      + eapply (IH _ r k); [simpl; by rewrite lookup_alter_ne|done]. }
  revert n. induction cs as [|c cs IH]; intros n; simpl.
  - split; [done|]. intros r k Hr. by apply not_elem_of_nil in Hr.
  - rewrite bind_run. set (n1 := (connClose c n).2). destruct (IH n1) as [E1 E2]. split.
    + rewrite E1. unfold n1. by destruct c.
    + intros r k Hr Hk. destruct c as [p|q]; simpl in n1.
      * apply (E2 r k); [set_solver|done].
      * destruct (decide (q = r)) as [->|].
        -- apply (Hstay cs n1 r (tcp_close k)); [unfold n1; simpl; by rewrite lookup_alter_eq, Hk|done].
        -- apply (E2 r k); [set_solver|]. unfold n1. simpl. by rewrite lookup_alter_ne.
Qed.

Definition maps (n : Node) :=
  let d := nd_direct n in
  (dr_peerConns d, dr_dataChannels d, dr_browserChannels d, dr_localConns d, dr_pendingData d,
   dr_pendingCandidates d, dr_browserDirect d).

Lemma closeConns_maps cs n : maps (closeConns cs n).2 = maps n.
Proof.
  revert n. induction cs as [|c cs IH]; intros n; [done|]. simpl. rewrite bind_run, IH.
  by destruct c.
Qed.

(** A lost control connection ends every direct connection: all maps are empty,
    every registered peer connection, data channel and dialled service is closed. *)
Theorem disconnect_ends_direct w n :
  let n' := (nodeDisconnected w n).2 in
  let d := nd_direct n in let d' := nd_direct n' in
  (∀ sid p x, dr_peerConns d !! sid = Some p → dr_peers d !! p = Some x →
     ∃ x', dr_peers d' !! p = Some x' ∧ pc_closed x' = true) ∧
  (∀ sid p c, dr_dataChannels d !! sid = Some p ∨ dr_browserChannels d !! sid = Some p →
     dr_channels d !! p = Some c → ∃ c', dr_channels d' !! p = Some c' ∧ dc_open c' = false) ∧
  (∀ sid r k, dr_localConns d !! sid = Some (ServiceConn r) → dr_services d !! r = Some k →
     ∃ k', dr_services d' !! r = Some k' ∧ tcp_open k' = false) ∧
  maps n' = (∅, ∅, ∅, ∅, ∅, ∅, ∅).
Proof.
  intros n' d d'. subst n' d'. unfold nodeDisconnected. rewrite !bind_run. cbn [getD fst snd].
  rewrite onAgent_run. cbn [fst snd]. fold d.
  set (cs := map snd (map_to_list (dr_localConns d))).
  match goal with |- context [closeConns cs ?m] => set (n1 := m) end.
  destruct (closeConns_objects cs n1) as [[=E1 E2] E3]. rewrite E1, E2.
  assert (∀ {V} (m : gmap string V) k p, m !! k = Some p → p ∈ map snd (map_to_list m)) as Hel.
  { intros V m k p Hp. apply list_elem_of_fmap. exists (k, p). split; [done|]. by apply elem_of_map_to_list. }
  split_and!.
  - intros sid p x Hp Hx.
    by apply (foldr_alter_in close_peer (λ x, pc_closed x = true) _ _ p x); [|eapply Hel|].
  - intros sid p c Hp Hc.
    apply (foldr_alter_in close_channel (λ c, dc_open c = false) _ _ p c); [done| |done].
    apply elem_of_app. destruct Hp as [Hp|Hp]; [left|right]; by eapply Hel.
  - intros sid r k Hl Hk. apply (E3 r k); [by eapply Hel|done].
  - by rewrite closeConns_maps.
Qed.

(** ** Instances *)

Module DirectDemo.
#[export] Instance text_signaling : Signaling := {|
  parseDescription raw := Some (string_of_list_ascii raw);
  parseCandidate raw := Some (string_of_list_ascii raw)
|}.
Definition rtc : rtcEnv := mkRtc (Ok tt) (Ok tt) (Ok tt) (Ok tt) true (Ok ["s"%char]) (Ok tt) (Ok tt).
(** An agent with the terminal ["t"] *)
Definition with_term : Node :=
  mkNode (handleTermStart DeviceDemo.e (session_msg TypeTermStart "t") DeviceDemo.up).2 newDirect.
Definition offer : Message := rtc_msg TypeRTCOffer "t" "terminal" (EncodeData ["o"%char]) "".
Definition ice (c : ascii) : Message := rtc_msg TypeRTCICE "t" "terminal" (EncodeData [c]) "".
Definition begun := browserOfferBegin rtc offer (run_ice [ice "a"] with_term).2.
(** ... with a direct session whose channel is open *)
Definition answered : Node := (handleBrowserOffer rtc offer with_term).2.
Definition arrived : Node := (channelArrived "t" (BrowserChannel "terminal" None) answered).2.
Definition direct : Node := (browserOpen 1 arrived).2.
Definition chan : channel := mkChannel "t" (BrowserChannel "terminal" None) [] true.

Lemma begun_ok : begun = (Some (0%nat, None), begun.2).
Proof.
  assert (begun.1 = Some (0%nat, None)) as <- by (by vm_compute). apply surjective_pairing.
Qed.
End DirectDemo.
Import DirectDemo.

Lemma candidates_all_added_witness :
  let n4 := (browserOfferAnswer rtc offer 0 (run_ice [ice "b"] begun.2).2).2 in
  dr_peers (nd_direct (run_ice [ice "c"] n4).2) !! 0%nat = Some (mkPeer true ["a"; "b"; "c"] false).
Proof.
  refine (proj1 (candidates_all_added rtc offer [ice "a"] [ice "b"] [ice "c"] ["a"] ["b"] ["c"] with_term
    begun.2 0 None 3 "o" ["s"%char] _ _ _ _ _ _ _ begun_ok _ _ _ _ _ _)).
  1, 2, 3: constructor; [split; vm_compute; reflexivity|constructor].
  4: apply (bool_decide_unpack _); vm_compute; exact I.
  all: vm_compute; reflexivity.
Defined.

Lemma browser_direct_teardown_witness :
  let n' := (failBrowserDirect "t" "terminal" "ICE connection failed" direct).2 in
  ag_out (nd_agent n') = ag_out (nd_agent direct) ++
    [(3%nat, rtc_msg TypeRTCDirectError "t" "terminal" "" "ICE connection failed")].
Proof.
  refine (proj1 (proj2 (proj2 (proj2 (browser_direct_teardown "t" "terminal" "ICE connection failed"
    direct 0 3 _ _ _))))).
  3: apply (bool_decide_unpack _); vm_compute; exact I.
  all: vm_compute; reflexivity.
Defined.


Lemma direct_target_in_order_witness :
  ∃ r flush n2, bridgeAttach "d" (Ok tt) (run_messages "d" [["a"%char]] with_term).2 = (Some (r, flush), n2) ∧
    dr_services (nd_direct (run_messages "d" [["b"%char]] (bridgeFlush r flush n2).2).2) !! r =
      Some (mkTcp ["a"%char; "b"%char] true).
Proof.
  destruct (direct_target_in_order "d" [["a"%char]] [["b"%char]] with_term) as (r & flush & n2 & H1 & H2 & _).
  - vm_compute. reflexivity.
  - vm_compute. reflexivity.
  - exists r, flush, n2. split; [exact H1|exact H2].
Defined.

Lemma direct_flag_has_channel_witness :
  isBrowserDirect "t" (nd_direct direct) = true ∧ is_Some (dr_browserChannels (nd_direct direct) !! "t").
Proof.
  assert (steps node_step (mkNode (nd_agent with_term) newDirect) direct) as Hs.
  { eapply steps_snoc; [eapply steps_snoc; [eapply steps_snoc; [apply steps_refl|]|]|].
    - exact (nstep_message DeviceDemo.e rtc offer _).
    - exact (nstep_channel "t" (BrowserChannel "terminal" None) _).
    - exact (nstep_browser_open 1 _). }
  assert (isBrowserDirect "t" (nd_direct direct) = true) as H by (vm_compute; reflexivity).
  split; [exact H|]. apply (direct_flag_has_channel (nd_agent with_term) direct Hs "t"). exact H.
Defined.
