(* ===== verification/DirectEnd.v ===== *)
(** * A direct terminal, from one end to the other

    The negotiation of a direct terminal crosses all the parties: the browser opens
    the session at the server and signals through it, the device answers, the channel
    opens, the server records it, and from then on the shell's output no longer passes
    through the server.  The device runs the offer in a goroutine of its own while the
    control loop handles candidates and the library reports its own, so the device's
    events are interleaved arbitrarily around the two halves of the offer. *)
From Stdlib Require Import ZArith Lia Ascii String.
From S2P Require Import Prelude GoStrings Protocol Registry Tickets Traffic Http RegistryProps Server Auth AuthProps Forward AgentWS Browser BrowserProps.
From S2P Require Import Paths ForwardConn Agent AgentInv DeviceProps EndToEnd Direct DirectProps.
Open Scope string_scope.
Open Scope list_scope.
Open Scope Z_scope.

(** ** The server's side *)

(** What the server makes of a signal of the browser *)
Definition addressed (c : session) (m : Message) : Message :=
  with_service (with_session m (ses_id c)) "terminal".

(** The signals a browser sends, one after the other *)
Fixpoint serve_signals (c : session) (ms : list Message) (now : Time) : stateM Server next :=
  match ms with
  | [] => mret Continue
  | m :: ms =>
      r ← terminalEvent c (Some m) now;
      match r with Continue => serve_signals c ms now | Return => mret Return end
  end.

(** A session that is not relayed: filed, its browser connected *)
Definition signalling (c : session) (t : termSession) (s : Server) : Prop :=
  terms s !! ses_id c = Some (ses_ref c) ∧ termH s !! ses_ref c = Some t ∧
  ts_transport t ≠ "relay" ∧ ts_browser t ∈ open_ws s.

Lemma signalling_wire c t s f : signalling c t s → signalling c t (upd_wire f s).
Proof. done. Qed.

Section server_side.
Context `{Crypto} `{UrlParser}.

Lemma regM_run {A} (m : Registry → A * Registry) s :
  regM m s = ((m (reg s)).1, upd_reg (λ _, (m (reg s)).2) s).
Proof. unfold regM. by destruct (m (reg s)). Qed.

Lemma openOn_view r kind now : keeps (λ s s', conn_view s' = conn_view s) (openOn r kind now).
Proof.
  intros s. unfold openOn. rewrite bind_run. pose proof (authorizeWS_view r kind now s) as V.
  destruct (authorizeWS r kind now s) as [[resp|actor] s2]; cbn [fst snd] in *; [done|].
  rewrite bind_run. cbn [getS fst snd]. by destruct (getAgent _ s2).
Qed.

(** An accepted request files the session as negotiating. *)
Lemma terminalOpen_session r b sid metric now s c s1 :
  terminalOpen r (Some b) sid metric now s = ((None, Some c), s1) →
  ses_id c = sid ∧ conn_view s1 = conn_view s ∧ terms s1 !! sid = Some (ses_ref c) ∧
  ∃ traffic, termH s1 !! ses_ref c =
    Some (Server.mkTermSession (QueryGet r "device") b traffic metric "negotiating" false).
Proof.
  unfold terminalOpen. rewrite bind_run. pose proof (openOn_view r "terminal" now s) as V1.
  destruct (openOn r "terminal" now s) as [[resp|[actor agent]] s2]; cbn [fst snd] in *; [done|].
  rewrite bind_run. pose proof (startMetric_view r actor "terminal" "negotiating" metric now s2) as V2.
  assert ((startMetric r actor "terminal" "negotiating" metric now s2).1.1 = metric) as Em
    by (unfold startMetric; by rewrite !bind_run).
  destruct (startMetric _ _ _ _ _ _ s2) as [[m traffic] s3]. cbn [fst snd] in *. subst m.
  unfold fresh. rewrite !bind_run, audit_run. cbn [getS modifyS mret stateM_ret fst snd].
  intros [= <- <-]. cbn [ses_id ses_ref]. split_and!; [done| |apply lookup_insert_eq|].
  - transitivity (conn_view s3); [done|]. by rewrite V2.
  - exists traffic. apply lookup_insert_eq.
Qed.

Lemma signal_relayed c t m now s a :
  termH s !! ses_ref c = Some t → ts_transport t ≠ "relay" →
  agentH s !! ses_agent c = Some a → ac_ws a ∈ open_ws s →
  is_type m [TypeRTCOffer; TypeRTCICE] = true →
  terminalEvent c (Some m) now s = (Continue, upd_wire (λ l, l ++ [(ac_ws a, Text (addressed c m))]) s).
Proof.
  intros Ht Hr Ha Ho Hm. unfold terminalEvent. rewrite bind_run. cbn [getS fst snd]. rewrite Hm.
  unfold term_transport. rewrite Ht, (proj2 (String.eqb_neq _ _) Hr).
  by rewrite bind_run, (agentWrite_open _ a).
Qed.

(** Offers and candidates go to the device under the session's own id. *)
Lemma signals_relayed c t ms now s a :
  termH s !! ses_ref c = Some t → ts_transport t ≠ "relay" →
  agentH s !! ses_agent c = Some a → ac_ws a ∈ open_ws s →
  Forall (λ m, is_type m [TypeRTCOffer; TypeRTCICE] = true) ms →
  serve_signals c ms now s =
    (Continue, upd_wire (λ l, l ++ map (λ m, (ac_ws a, Text (addressed c m))) ms) s).
Proof.
  intros Ht Hr Ha Ho Hms. revert s Ht Ha Ho. induction Hms as [|m ms Hm _ IH]; intros s Ht Ha Ho.
  - cbn [serve_signals map mret stateM_ret]. f_equal. unfold upd_wire. rewrite app_nil_r. by destruct s.
  - cbn [serve_signals map]. rewrite bind_run, (signal_relayed c t m now s a) by done. cbn [fst snd].
    rewrite IH by done. f_equal. unfold upd_wire. simpl. by rewrite <- app_assoc.
Qed.

(** A signal of the device reaches the browser. *)
Lemma signal_delivered c t m now s :
  signalling c t s → SessionID m = ses_id c → Service m = "terminal" →
  Type_ m = TypeRTCAnswer ∨ Type_ m = TypeRTCICE →
  routeAgentMessage (ts_deviceID t) m "" now s =
    (tt, upd_wire (λ l, l ++ [(ts_browser t, Text m)]) s).
Proof.
  intros (Hp & Ht & Hr & Hb) Hsid Hsv Hty.
  assert (routeAgentMessage (ts_deviceID t) m "" now = routeBrowserRTC (ts_deviceID t) m ∧
          String.eqb (Type_ m) TypeRTCDirectOK = false) as [-> Hno].
  { unfold routeAgentMessage, is_type. by destruct Hty as [-> | ->]. }
  unfold routeBrowserRTC. rewrite bind_run. cbn [getS fst snd].
  rewrite Hsv, Hsid, Hp. cbn. rewrite Ht. cbn. rewrite String.eqb_refl. unfold deliverRTC.
  rewrite Hno, (proj2 (String.eqb_neq _ _) Hr), bind_run. cbn. rewrite !bind_run, wsWrite_run.
  by rewrite bool_decide_true.
Qed.

Lemma signals_delivered c t ms now s :
  signalling c t s →
  Forall (λ m, SessionID m = ses_id c ∧ Service m = "terminal" ∧
               (Type_ m = TypeRTCAnswer ∨ Type_ m = TypeRTCICE)) ms →
  route_all (ts_deviceID t) ms now s = (tt, upd_wire (λ l, l ++ map (λ m, (ts_browser t, Text m)) ms) s).
Proof.
  intros Hs Hms. revert s Hs. induction Hms as [|m ms (H1 & H2 & H3) _ IH]; intros s Hs.
  - cbn. f_equal. unfold upd_wire. rewrite app_nil_r. by destruct s.
  - cbn [route_all map]. rewrite bind_run, (signal_delivered c t m now s) by done. cbn [fst snd].
    rewrite IH by by apply signalling_wire. f_equal. unfold upd_wire. simpl. by rewrite <- app_assoc.
Qed.

(** The confirmation makes the session a direct one, in memory and on record. *)
Lemma direct_ok_recorded c t now s :
  signalling c t s → ts_connection t ≠ "" →
  let m := rtc_msg TypeRTCDirectOK (ses_id c) "terminal" "" "" in
  let s' := (routeAgentMessage (ts_deviceID t) m "" now s).2 in
  wire s' = wire s ++ [(ts_browser t, Text m)] ∧
  termH s' !! ses_ref c = Some (set_term_direct t) ∧
  reg s' = (SetConnectionTransport (ts_connection t) "direct" (reg s)).2.
Proof.
  intros (Hp & Ht & Hr & Hb) Hc m s'. subst s'.
  change (routeAgentMessage (ts_deviceID t) m "" now) with (routeBrowserRTC (ts_deviceID t) m).
  unfold routeBrowserRTC. rewrite bind_run. cbn [getS fst snd].
  change (String.eqb (Service m) "terminal") with true. cbn iota.
  change (SessionID m) with (ses_id c). rewrite Hp. cbn. rewrite Ht. cbn. rewrite String.eqb_refl.
  unfold deliverRTC. change (String.eqb (Type_ m) TypeRTCDirectOK) with true.
  rewrite (proj2 (String.eqb_neq _ _) Hr), (proj2 (String.eqb_neq _ _) Hc). cbn [negb andb whenM].
  rewrite !bind_run, !regM_run, !wsWrite_run. cbn [modifyS fst snd mret stateM_ret].
  rewrite !bool_decide_true by done. simpl. by rewrite lookup_alter_eq, Ht.
Qed.
End server_side.

(** ** The device's side *)

(** What happens to a device while it negotiates: a message of the server, or a
    candidate the library gathered *)
Inductive signal := FromServer (m : Message) | Gathered (raw : bytes).

Definition heard (xs : list signal) : list Message :=
  omap (λ x, match x with FromServer m => Some m | Gathered _ => None end) xs.
Definition gathered (xs : list signal) : list bytes :=
  omap (λ x, match x with FromServer _ => None | Gathered raw => Some raw end) xs.

Lemma heard_server ms : heard (map FromServer ms) = ms.
Proof. induction ms as [|m ms IH]; [done|]. cbn. f_equal. exact IH. Qed.

Lemma gathered_server ms : gathered (map FromServer ms) = [].
Proof. induction ms as [|m ms IH]; [done|exact IH]. Qed.

Definition ice_msg (sid : string) (raw : bytes) : Message :=
  rtc_msg TypeRTCICE sid "terminal" (EncodeData raw) "".

Section device_side.
Context `{Signaling} (ev : env) (e : rtcEnv) (sid : string).

Definition run_signal (x : signal) : stateM Node unit :=
  match x with
  | FromServer m => handleNode ev e m
  | Gathered raw => browserCandidate sid "terminal" raw
  end.
Fixpoint run_signals (xs : list signal) : stateM Node unit :=
  match xs with
  | [] => mret tt
  | x :: xs => _ ← run_signal x; run_signals xs
  end.

(** The negotiation: the messages [ms] come before the offer [o], the signals [xs]
    while it is being processed, [ys] between the answer and the open channel. *)
Definition negotiate (ms : list Message) (o : Message) (xs ys : list signal) : stateM Node (option ref) :=
  _ ← run_signals (map FromServer ms);
  begun ← browserOfferBegin e o;
  match begun with
  | None => mret None
  | Some (pc, _) =>
      _ ← run_signals xs;
      _ ← browserOfferAnswer e o pc;
      _ ← run_signals ys;
      dc ← channelArrived sid (BrowserChannel "terminal" None);
      _ ← browserOpen dc; mret (Some dc)
  end.

Definition is_ice (m : Message) : Prop := Type_ m = TypeRTCICE ∧ SessionID m = sid.

Lemma handleNode_ice m : is_ice m → handleNode ev e m = handleBrowserICE m.
Proof. intros [Hty _]. unfold handleNode. by rewrite Hty. Qed.

Lemma browserCandidate_run w raw n :
  ag_ws (nd_agent n) = Some w → w ∈ ag_open (nd_agent n) →
  browserCandidate sid "terminal" raw n =
    (tt, mkNode (upd_out (λ l, l ++ [(w, ice_msg sid raw)]) (nd_agent n)) (nd_direct n)).
Proof. intros Hw Ho. unfold browserCandidate. by rewrite bind_run, (onAgent_send w). Qed.

(** What the signals leave alone *)
Definition links (n : Node) := let d := nd_direct n in
  (dr_peerConns d, dr_channels d, dr_next d).

(** Whatever their order, the candidates gathered go out, each as it is found, and
    those of the browser wait for its description ... *)
Lemma signals_early w xs n :
  ag_ws (nd_agent n) = Some w → w ∈ ag_open (nd_agent n) →
  Forall is_ice (heard xs) → iceReady sid (nd_direct n) = None →
  let n' := (run_signals xs n).2 in
  buffered sid n' = buffered sid n ++ omap candidate_of (heard xs) ∧
  nd_agent n' = upd_out (λ l, l ++ map (λ raw, (w, ice_msg sid raw)) (gathered xs)) (nd_agent n) ∧
  dr_peers (nd_direct n') = dr_peers (nd_direct n) ∧ links n' = links n.
Proof.
  revert n. induction xs as [|[m|raw] xs IH]; intros n Hw Ho Hms Hr.
  - cbn. unfold upd_out. rewrite !app_nil_r. by destruct n as [[] ?].
  - cbn [heard gathered omap list_omap] in *. apply Forall_cons in Hms as [Hm Hms].
    cbn [run_signals run_signal]. rewrite bind_run, handleNode_ice by done. destruct Hm as [_ Hs].
    unfold handleBrowserICE. destruct (candidate_of m) as [c|]; [|by apply IH].
    rewrite bind_run. cbn [getD fst snd]. rewrite Hs, Hr. cbn [iceStore].
    destruct (IH (onDirect (set_pendingCandidates (partial_alter (λ l, Some (default [] l ++ [c])) sid)) n).2)
      as (E1 & E2 & E3 & E4); [done..|].
    split_and!; [|done..]. rewrite E1. unfold buffered. simpl. rewrite lookup_partial_alter_eq. simpl.
    by rewrite <- app_assoc.
  - cbn [run_signals run_signal]. rewrite bind_run, (browserCandidate_run w) by done. cbn [fst snd].
    match goal with |- context [run_signals xs ?x] => destruct (IH x) as (E1 & E2 & E3 & E4); [done..|] end.
    split_and!; [done| |done..]. rewrite E2. unfold upd_out. simpl. by rewrite <- app_assoc.
Qed.

(** ... and are added at once after it. *)
Lemma signals_late w pc x xs n :
  ag_ws (nd_agent n) = Some w → w ∈ ag_open (nd_agent n) → Forall is_ice (heard xs) →
  dr_peerConns (nd_direct n) !! sid = Some pc → dr_peers (nd_direct n) !! pc = Some x →
  pc_remote x = true →
  let n' := (run_signals xs n).2 in
  dr_peers (nd_direct n') !! pc =
    Some (mkPeer true (pc_candidates x ++ omap candidate_of (heard xs)) (pc_closed x)) ∧
  nd_agent n' = upd_out (λ l, l ++ map (λ raw, (w, ice_msg sid raw)) (gathered xs)) (nd_agent n) ∧
  links n' = links n.
Proof.
  revert n x. induction xs as [|[m|raw] xs IH]; intros n x Hw Ho Hms Hp Hx Hr.
  - cbn. unfold upd_out. rewrite !app_nil_r. destruct x. cbn in *. subst. by destruct n as [[] ?].
  - cbn [heard gathered omap list_omap] in *. apply Forall_cons in Hms as [Hm Hms].
    cbn [run_signals run_signal]. rewrite bind_run, handleNode_ice by done. destruct Hm as [_ Hs].
    unfold handleBrowserICE. destruct (candidate_of m) as [c|]; [|by apply IH].
    rewrite bind_run. cbn [getD fst snd].
    assert (iceReady (SessionID m) (nd_direct n) = Some pc) as ->
      by (unfold iceReady; by rewrite Hs, Hp, Hx, Hr).
    cbn [iceStore].
    destruct (IH (addCandidate pc c n).2 (mkPeer true (pc_candidates x ++ [c]) (pc_closed x)))
      as (E1 & E2 & E3); [done..| |done|].
    { simpl. rewrite lookup_alter_eq, Hx. simpl. unfold add_candidate. by rewrite Hr. }
    split_and!; [|done..]. rewrite E1. simpl. by rewrite <- app_assoc.
  - cbn [run_signals run_signal]. rewrite bind_run, (browserCandidate_run w) by done. cbn [fst snd].
    match goal with |- context [run_signals xs ?n1] =>
      destruct (IH n1 x) as (E1 & E2 & E3); [done..|] end.
    split_and!; [done| |done]. rewrite E2. unfold upd_out. simpl. by rewrite <- app_assoc.
Qed.

(** The offer of a terminal that runs is taken up. *)
Lemma offer_accepted o n :
  SessionID o = sid → Service o = "terminal" → is_Some (ag_sessions (nd_agent n) !! sid) →
  rt_peer e = Ok tt →
  (browserOfferBegin e o n).1 = Some (dr_next (nd_direct n), None).
Proof.
  intros Hs Hv Ht Hp. unfold browserOfferBegin. rewrite Hs, Hv, Hp. cbn [String.eqb Ascii.eqb Bool.eqb negb andb].
  rewrite bind_run. cbn [fst snd]. rewrite bool_decide_false by (intros E; rewrite E in Ht; by destruct Ht).
  rewrite bind_run. cbn [mret stateM_ret fst snd]. by rewrite !bind_run.
Qed.

(** The channel of a terminal that runs carries its output from when it opens. *)
Lemma channel_opened w n :
  ag_ws (nd_agent n) = Some w → w ∈ ag_open (nd_agent n) → is_Some (ag_sessions (nd_agent n) !! sid) →
  let dc := dr_next (nd_direct n) in
  let arrived := channelArrived sid (BrowserChannel "terminal" None) n in
  let n' := (browserOpen dc arrived.2).2 in
  arrived.1 = dc ∧
  direct_terminal sid dc (mkChannel sid (BrowserChannel "terminal" None) [] true) n' ∧
  nd_agent n' = upd_out (λ l, l ++ [(w, rtc_msg TypeRTCDirectOK sid "terminal" "" "")]) (nd_agent n) ∧
  dr_peers (nd_direct n') = dr_peers (nd_direct n) ∧
  dr_peerConns (nd_direct n') = dr_peerConns (nd_direct n).
Proof.
  intros Hw Ho Ht dc arrived n'. split; [done|].
  assert (bool_decide (ag_sessions (nd_agent n) !! sid = None) = false) as Hno
    by (apply bool_decide_false; intros E; rewrite E in Ht; by destruct Ht).
  assert (dr_channels (nd_direct arrived.2) !! dc =
    Some (mkChannel sid (BrowserChannel "terminal" None) [] false)) as Hc by apply lookup_insert_eq.
  subst n'. unfold browserOpen. rewrite bind_run. cbn [fst snd]. rewrite Hc.
  rewrite bind_run. cbn [String.eqb Ascii.eqb Bool.eqb onDirect fst snd].
  change (nd_agent arrived.2) with (nd_agent n). rewrite Hno, !bind_run, (onAgent_send w) by done.
  cbn [onDirect fst snd mret stateM_ret]. split_and!; [|done..].
  split_and!; simpl; [apply lookup_insert_eq|set_solver|apply lookup_insert_eq|done].
Qed.

(** The library does what is asked of it, and [raw] is the answer's description. *)
Definition rtc_works (raw : bytes) : Prop :=
  rt_peer e = Ok tt ∧ rt_remote e = Ok tt ∧ rt_create e = Ok tt ∧ rt_local e = Ok tt ∧
  rt_hasLocal e = true ∧ rt_marshal e = Ok raw.

(** What the device sends in the course of a negotiation *)
Definition device_signals (raw : bytes) (xs ys : list signal) : list Message :=
  map (ice_msg sid) (gathered xs) ++ [rtc_msg TypeRTCAnswer sid "terminal" (EncodeData raw) ""] ++
  map (ice_msg sid) (gathered ys).
Definition direct_ok_msg : Message := rtc_msg TypeRTCDirectOK sid "terminal" "" "".
Definition new_channel : channel := mkChannel sid (BrowserChannel "terminal" None) [] true.

Lemma negotiated w raw desc ms o xs ys n :
  ag_ws (nd_agent n) = Some w → w ∈ ag_open (nd_agent n) → is_Some (ag_sessions (nd_agent n) !! sid) →
  dr_peerConns (nd_direct n) !! sid = None → buffered sid n = [] → rtc_works raw →
  SessionID o = sid → Service o = "terminal" → described o = Some desc →
  Forall is_ice (ms ++ heard xs ++ heard ys) →
  ∃ pc dc n', negotiate ms o xs ys n = (Some dc, n') ∧
    dr_peerConns (nd_direct n') !! sid = Some pc ∧
    dr_peers (nd_direct n') !! pc =
      Some (mkPeer true (omap candidate_of (ms ++ heard xs ++ heard ys)) false) ∧
    direct_terminal sid dc new_channel n' ∧
    nd_agent n' = upd_out (λ l, l ++ map (λ m, (w, m)) (device_signals raw xs ys ++ [direct_ok_msg]))
                    (nd_agent n).
Proof.
  intros Hw Ho Ht Hno Hbuf (R1 & R2 & R3 & R4 & R5 & R6) Hos Hov Hod Hice.
  apply Forall_app in Hice as [I1 [I2 I3]%Forall_app].
  destruct (signals_early w (map FromServer ms) n) as (B1 & A1 & P1 & L1);
    [done|done|by rewrite heard_server| |].
  { unfold iceReady. by rewrite Hno. }
  unfold negotiate. rewrite bind_run. set (n1 := (run_signals _ n).2) in *.
  rewrite heard_server, Hbuf in B1. rewrite gathered_server in A1. cbn [map app] in A1, B1.
  assert (nd_agent n1 = nd_agent n) as A1'.
  { rewrite A1. unfold upd_out. rewrite app_nil_r. by destruct (nd_agent n). }
  clear A1. unfold links in L1. injection L1 as L1a L1b L1c.
  rewrite bind_run. pose proof (offer_accepted o n1 Hos Hov) as Hacc.
  rewrite A1' in Hacc. specialize (Hacc Ht R1).
  destruct (browserOfferBegin e o n1) as [begun n2] eqn:Hb. cbn [fst snd] in *. subst begun.
  set (pc := dr_next (nd_direct n1)) in *.
  destruct (offer_begun _ _ _ _ _ _ Hb) as (P2 & X2 & A2 & B2); [by rewrite Hos, L1a|].
  rewrite Hos in P2.
  destruct (signals_early w xs n2) as (B3 & A3 & P3 & L3); [by rewrite A2, A1'..|done| |].
  { unfold iceReady. by rewrite P2, X2. }
  rewrite bind_run. set (n3 := (run_signals xs n2).2) in *. unfold links in L3. injection L3 as L3a _ _.
  destruct (offer_answered e o n3 pc w desc raw) as (P4 & X4 & _ & A4);
    [by rewrite Hos, L3a|by rewrite P3|by rewrite A3, A2, A1'..|done|done|done|done|done|done|].
  rewrite bind_run. set (n4 := (browserOfferAnswer e o pc n3).2) in *. rewrite Hos in P4, X4.
  destruct (signals_late w pc (mkPeer true (buffered sid n3) false) ys n4) as (X5 & A5 & L5);
    [by rewrite A4, A3, A2, A1'..|done|done|done|done|].
  rewrite bind_run. set (n5 := (run_signals ys n4).2) in *. unfold links in L5. injection L5 as L5a _ _.
  destruct (channel_opened w n5) as (C1 & C2 & C3 & C4 & C5); [by rewrite A5, A4, A3, A2, A1'..|].
  set (dc := dr_next (nd_direct n5)) in *.
  exists pc, dc, (browserOpen dc (channelArrived sid (BrowserChannel "terminal" None) n5).2).2.
  rewrite bind_run, C1, bind_run. split_and!; [done|by rewrite C5, L5a| |done|].
  - rewrite C4, X5. cbn [pc_candidates pc_closed]. rewrite B3, !omap_app, app_assoc. do 4 f_equal.
    unfold buffered in *. by rewrite B2, B1.
  - rewrite C3, A5, A4, A3, A2, A1'. unfold upd_out. simpl. rewrite Hos, Hov. f_equal.
    unfold device_signals. rewrite !map_app, !map_map, <- !app_assoc. done.
Qed.

(** While the channel takes it, output goes over the channel and nowhere else. *)
Lemma output_direct dc ch outs n :
  direct_terminal sid dc ch n →
  let n' := (run_output sid (map (λ d, (d, Ok tt)) outs) n).2 in
  nd_agent n' = nd_agent n ∧
  dr_channels (nd_direct n') !! dc =
    Some (mkChannel (dc_session ch) (dc_use ch) (dc_out ch ++ outs) (dc_open ch)).
Proof.
  revert n ch. induction outs as [|d outs IH]; intros n ch Hdt.
  - destruct Hdt as (_ & _ & Hc & _). cbn. rewrite app_nil_r. by destruct ch.
  - cbn [map run_output]. rewrite bind_run, (output_sent sid d (Ok tt) dc ch) by done.
    destruct Hdt as (Hb & Hd & Hc & Hopen).
    match goal with |- context [run_output _ _ ?x] =>
      destruct (IH x (mkChannel (dc_session ch) (dc_use ch) (dc_out ch ++ [d]) (dc_open ch))) as [E1 E2] end.
    { split_and!; try done. simpl. by rewrite lookup_alter_eq, Hc. }
    split; [done|]. rewrite E2. simpl. by rewrite <- app_assoc.
Qed.
End device_side.

(** ** The negotiation *)

Section negotiation.
Context `{Crypto} `{UrlParser} `{Signaling}.

Lemma candidate_addressed c m : candidate_of (addressed c m) = candidate_of m.
Proof. done. Qed.

Lemma omap_addressed c ms : omap candidate_of (map (addressed c) ms) = omap candidate_of ms.
Proof.
  induction ms as [|m ms IH]; [done|]. cbn. rewrite candidate_addressed. destruct (candidate_of m); [|exact IH].
  f_equal. exact IH.
Qed.

(** The server up to the negotiation: the device is told to start a terminal, then
    gets the signals; the session is there, not relayed. *)
Lemma negotiation_served r b sid metric now s c s1 a ms :
  terminalOpen r (Some b) sid metric now s = ((None, Some c), s1) →
  agentH s !! ses_agent c = Some a → ac_ws a ∈ open_ws s → b ∈ open_ws s →
  Forall (λ m, is_type m [TypeRTCOffer; TypeRTCICE] = true) ms →
  let s2 := (serve_signals c ms now (terminalStart r c now s1).2).2 in
  wire s2 = wire s ++ map (λ m, (ac_ws a, Text m))
    (term_start_msg sid (queryInt r "cols" 120) (queryInt r "rows" 30) :: map (addressed c) ms) ∧
  reg s2 = reg s1 ∧
  ∃ traffic, signalling c (Server.mkTermSession (QueryGet r "device") b traffic metric "negotiating" false) s2.
Proof.
  intros Hopen Ha Ho Hb Hms s2.
  destruct (terminalOpen_session _ _ _ _ _ _ _ _ Hopen) as (Hsid & V & Hp & traffic & Ht).
  unfold conn_view in V. injection V as _ V1 V2 V3.
  assert ((terminalStart r c now s1).2 = upd_wire (λ l, l ++ [(ac_ws a, Text (term_start_msg sid
    (queryInt r "cols" 120) (queryInt r "rows" 30)))]) s1) as Es.
  { unfold terminalStart. rewrite bind_run, (agentWrite_open _ a) by (by rewrite ?V2, ?V3).
    by rewrite Hsid. }
  subst s2. rewrite Es, (signals_relayed c _ ms now (upd_wire _ s1) a Ht); [|done|simpl; by rewrite V3|simpl; by rewrite V2|done].
  cbn [snd upd_wire wire reg]. split_and!; [|done|].
  - rewrite V1, <- app_assoc. cbn [map app]. by rewrite map_map.
  - exists traffic. split_and!; [by rewrite Hsid|done|done|]. cbn [ts_browser upd_wire open_ws]. by rewrite V2.
Qed.

(** The device that is told to start a terminal has it. *)
Lemma terminal_started ev e m n :
  Type_ m = TypeTermStart → env_terminal ev = Ok tt →
  let n' := (handleNode ev e m n).2 in
  is_Some (ag_sessions (nd_agent n') !! SessionID m) ∧ nd_direct n' = nd_direct n ∧
  (ag_ws (nd_agent n'), ag_open (nd_agent n'), ag_out (nd_agent n')) =
    (ag_ws (nd_agent n), ag_open (nd_agent n), ag_out (nd_agent n)).
Proof.
  intros Hty Hev n'.
  assert (n' = mkNode (handleTermStart ev m (nd_agent n)).2 (nd_direct n)) as ->.
  { subst n'. unfold handleNode, handleMessage. rewrite Hty.
    cbn -[handleTermStart]. by rewrite bind_run, onAgent_run. }
  unfold handleTermStart. rewrite Hev, !bind_run. simpl. rewrite lookup_insert_eq. by split.
Qed.

Lemma device_signals_addressed sid raw xs ys :
  Forall (λ m, SessionID m = sid ∧ Service m = "terminal" ∧
               (Type_ m = TypeRTCAnswer ∨ Type_ m = TypeRTCICE)) (device_signals sid raw xs ys).
Proof.
  unfold device_signals. rewrite !Forall_app, !Forall_map.
  split_and!; [apply Forall_true|repeat constructor|apply Forall_true]; auto.
Qed.

(** The server after the negotiation *)
Lemma answers_routed c t sid raw xs ys now s :
  signalling c t s → ses_id c = sid → ts_connection t ≠ "" →
  let answers := device_signals sid raw xs ys ++ [direct_ok_msg sid] in
  let s' := (route_all (ts_deviceID t) answers now s).2 in
  wire s' = wire s ++ map (λ m, (ts_browser t, Text m)) answers ∧
  term_transport (ses_ref c) s' = "direct" ∧
  reg s' = (SetConnectionTransport (ts_connection t) "direct" (reg s)).2.
Proof.
  intros Hs <- Hc answers s'. subst s' answers. rewrite route_all_app.
  rewrite (signals_delivered c t (device_signals _ raw xs ys)) by (done || apply device_signals_addressed).
  cbn [snd route_all]. rewrite bind_run. set (s1 := upd_wire _ s).
  destruct (direct_ok_recorded c t now s1) as (D1 & D2 & D3); [done|done|].
  cbn [snd mret stateM_ret]. unfold direct_ok_msg. split_and!; [|unfold term_transport; by rewrite D2|done].
  rewrite D1, map_app, app_assoc. done.
Qed.

End negotiation.

(** ** An instance *)

Module DirectEndDemo.
Import Toy.
#[export] Existing Instance AuthDemo.url.
#[export] Existing Instance DirectDemo.text_signaling.
(** The operator opens the terminal ["t"] on ["dev-30"], socket 1; the browser, on
    socket 2, names another session in its signals. *)
Definition req : Request :=
  mkRequest "GET" "/ws/terminal" [("device", "dev-30")] "" [("Authorization", "Bearer root-token")]
    [] "relay" true "10.0.0.3:99".
Definition opened := terminalOpen req (Some 2%nat) "t" "m" 150 BrowserDemo.srv.
Definition ses : session := mkSession "t" 0 4 2 (Some 3%nat).
Definition conn30 : agentConn := mkAgentConn "dev-30" "10.0.0.1" 0 1%nat 0 None.
Definition signal_of (ty : string) (x : ascii) : Message := rtc_msg ty "other" "" (EncodeData [x]) "".
Definition offer : Message := signal_of TypeRTCOffer "o".
Definition ice (x : ascii) : Message := signal_of TypeRTCICE x.
Definition idle : Node := mkNode DeviceDemo.up newDirect.
(** A candidate is gathered and one arrives before the answer, the same after it. *)
Definition before : list signal := [Gathered ["x"%char]; FromServer (addressed ses (ice "b"))].
Definition after : list signal := [FromServer (addressed ses (ice "c")); Gathered ["y"%char]].
Definition signals : list Message := [ice "a"] ++ offer :: [ice "b"; ice "c"].
Definition served : Server :=
  (serve_signals ses signals 150 (terminalStart req ses 150 opened.2).2).2.

Lemma opened_ok : opened = ((None, Some ses), opened.2).
Proof.
  assert (opened.1 = (None, Some ses)) as <- by (by vm_compute). apply surjective_pairing.
Qed.
End DirectEndDemo.
Import Toy DirectEndDemo.

