(* ===== verification/Analytics.v ===== *)
(** * The analytics endpoint ([analytics.go], the listings of [registry.go])

    [handleAnalytics] draws a graph of the relayed bytes and counts the sessions
    of the last day or week.  The two registry queries behind it are
    [ListConnections] and [ListConnectionTraffic]; SQLite's [julianday] and the
    text order of the timestamp column are parameters.  The byte counters of the
    response are Go [int64]s and wrap.

    [report] is the reference: what the page should show, written without the
    loop and without the offsets, on the rows of the devices the actor may see.
    [analytics_matches_report] proves that the handler computes it. *)
From stdpp Require Import sorting.
From Stdlib Require Import ZArith Lia Ascii String.
From S2P Require Import Prelude GoStrings Protocol Registry RegistryProps Tickets Traffic Http Server.
From S2P Require Import Auth AuthProps Api ApiProps.
Open Scope string_scope.
Open Scope list_scope.
Open Scope Z_scope.

(** ** What the queries use of SQLite *)

(** [julianday] of the RFC 3339 text of an instant, as SQLite keeps it: a whole
    number of milliseconds *)
Class JulianDay := { julianday : Time → Z }.

(** Its documentation: the order of instants is kept, and instants a whole number
    of milliseconds apart are told apart. *)
Class JulianDayLaws `{JulianDay} := {
  julianday_mono t u : t ≤ u → julianday t ≤ julianday u;
  julianday_strict t u : t mod Millisecond = 0 → u mod Millisecond = 0 → t < u →
    julianday t < julianday u
}.

(** [Time.Sub] saturates at the bounds of [Duration]. *)
Definition Sub (t u : Time) : Duration := Z.max minInt64 (Z.min maxInt64 (t - u)).

Definition Day : Duration := 24 * Hour.

(** ** The queries *)

Section analytics.
Context `{Crypto} `{UrlParser} `{JulianDay} (stamp_text : Time → string).

(** [COALESCE(d.name, c.device_id)] over the left join *)
Definition device_name (r : Registry) (id : string) : string :=
  match devices r !! id with Some d => d_name d | None => id end.

Definition connection_of (r : Registry) (kv : string * conn_row) : ConnectionRecord :=
  let '(id, c) := kv in
  mkConnectionRecord id (c_actor c) (c_device_id c) (device_name r (c_device_id c))
    (c_peer_device_id c) (device_name r (c_peer_device_id c)) (c_service c) (c_transport c)
    (c_state c) (c_client_ip c) (c_bytes_to_device c) (c_bytes_from_device c)
    (c_started_at c) (c_ended_at c).

#[local] Instance newest_dec {A} (key : A → Time) : RelDecision (newest_first stamp_text key).
Proof. intros x y. unfold newest_first. apply _. Defined.

Definition ListConnections (since : Time) (limit : Z) (r : Registry) : list ConnectionRecord :=
  let limit := if (limit <=? 0) || (5000 <? limit) then 1000 else limit in
  if db_up r then
    take (Z.to_nat limit) (merge_sort (newest_first stamp_text conn_StartedAt)
      (List.filter (λ c, julianday since <=? julianday (conn_StartedAt c))
         (map (connection_of r) (map_to_list (connection_sessions r)))))
  else [].

Record ConnectionTrafficRecord := mkTrafficRecord {
  ct_DeviceID : string; ct_BucketStart : Time; ct_BytesToDevice : Z; ct_BytesFromDevice : Z
}.

(** [connection_traffic t JOIN connection_sessions c] *)
Definition traffic_of (r : Registry) (kv : (string * Time) * (Z * Z)) : list ConnectionTrafficRecord :=
  let '((id, bucket), (a, b)) := kv in
  match connection_sessions r !! id with
  | Some c => [mkTrafficRecord (c_device_id c) bucket a b]
  | None => []
  end.

Definition ListConnectionTraffic (since : Time) (limit : Z) (r : Registry)
    : list ConnectionTrafficRecord :=
  let limit := if (limit <=? 0) || (50000 <? limit) then 10000 else limit in
  if db_up r then
    take (Z.to_nat limit) (merge_sort (newest_first stamp_text ct_BucketStart)
      (List.filter (λ t, julianday since <=? julianday (ct_BucketStart t))
         (concat (map (traffic_of r) (map_to_list (connection_traffic r))))))
  else [].

(** ** The handler *)

Record analyticsBucket := mkBucket {
  ab_StartedAt : Time; ab_BytesToDevice : Z; ab_BytesFromDevice : Z
}.

Record analyticsResponse := mkAnalytics {
  an_Period : string; an_Sessions : Z; an_Active : Z; an_DirectSessions : Z;
  an_RelaySessions : Z; an_DirectTunnels : Z; an_RelayTunnels : Z; an_RelayBytes : Z;
  an_Buckets : list analyticsBucket; an_Recent : list ConnectionRecord
}.

(** [allowed]: [None] is the nil map of an administrator. *)
Definition allowed_devices (actor : string) (now : Time) (s : Server) : option (list string) :=
  if negb (isAdmin actor now s) then
    Some (match actorInfo actor now s with Some u => user_DeviceIDs u | None => [] end)
  else None.

Definition visible_device (allowed : option (list string)) (deviceID : string) : bool :=
  match allowed with None => true | Some l => existsb (String.eqb deviceID) l end.

Definition hide_peer (c : ConnectionRecord) : ConnectionRecord :=
  mkConnectionRecord (conn_ID c) (conn_Actor c) (conn_DeviceID c) (conn_DeviceName c) "" ""
    (conn_Service c) (conn_Transport c) (conn_State c) (conn_ClientIP c) (conn_BytesToDevice c)
    (conn_BytesFromDevice c) (conn_StartedAt c) (conn_EndedAt c).

Definition redact_peer (allowed : option (list string)) (c : ConnectionRecord) : ConnectionRecord :=
  if match allowed with Some _ => true | None => false end &&
     negb (String.eqb (conn_PeerDeviceID c) "") &&
     negb (visible_device allowed (conn_PeerDeviceID c))
  then hide_peer c else c.

Definition live_state (c : ConnectionRecord) : bool :=
  String.eqb (conn_State c) "active" || String.eqb (conn_State c) "pending".
Definition over (transport : string) (c : ConnectionRecord) : bool :=
  String.eqb (conn_Transport c) transport.
Definition is_tunnel (c : ConnectionRecord) : bool := HasPrefix (conn_Service c) "tcp:".

(** One round of the loop over the sessions *)
Definition countConnection (allowed : option (list string)) (a : analyticsResponse)
    (c : ConnectionRecord) : analyticsResponse :=
  if negb (visible_device allowed (conn_DeviceID c)) then a
  else
    let inc (b : bool) (n : Z) := if b then n + 1 else n in
    mkAnalytics (an_Period a) (an_Sessions a + 1) (inc (live_state c) (an_Active a))
      (inc (over "direct" c) (an_DirectSessions a)) (inc (over "relay" c) (an_RelaySessions a))
      (inc (is_tunnel c && over "direct" c) (an_DirectTunnels a))
      (inc (is_tunnel c && over "relay" c) (an_RelayTunnels a))
      (an_RelayBytes a) (an_Buckets a)
      (if (length (an_Recent a) <? 25)%nat then an_Recent a ++ [redact_peer allowed c]
       else an_Recent a).

Definition add_sample (t : ConnectionTrafficRecord) (b : analyticsBucket) : analyticsBucket :=
  mkBucket (ab_StartedAt b) (wrap64 (ab_BytesToDevice b + ct_BytesToDevice t))
    (wrap64 (ab_BytesFromDevice b + ct_BytesFromDevice t)).

(** One round of the loop over the samples; Go's division truncates. *)
Definition countSample (allowed : option (list string)) (graphStart : Time) (bucketWidth : Duration)
    (a : analyticsResponse) (t : ConnectionTrafficRecord) : analyticsResponse :=
  if negb (visible_device allowed (ct_DeviceID t)) then a
  else
    let offset := Z.quot (Sub (ct_BucketStart t) graphStart) bucketWidth in
    if (offset <? 0) || (Z.of_nat (length (an_Buckets a)) <=? offset) then a
    else
      mkAnalytics (an_Period a) (an_Sessions a) (an_Active a) (an_DirectSessions a)
        (an_RelaySessions a) (an_DirectTunnels a) (an_RelayTunnels a)
        (wrap64 (an_RelayBytes a + wrap64 (ct_BytesToDevice t + ct_BytesFromDevice t)))
        (alter (add_sample t) (Z.to_nat offset) (an_Buckets a)) (an_Recent a).

(** The period, the start of the graph, the number of buckets and their width *)
Definition graph (period : string) (now : Time) : Time * nat * Duration :=
  if String.eqb period "7d" then (Truncate now Day - 6 * Day, 7%nat, Day)
  else (Truncate now Hour - 23 * Hour, 24%nat, Hour).

Definition bucket_json (b : analyticsBucket) : json :=
  JObj [("startedAt", JTime (ab_StartedAt b)); ("bytesToDevice", JNum (ab_BytesToDevice b));
        ("bytesFromDevice", JNum (ab_BytesFromDevice b))].

Definition analytics_json (a : analyticsResponse) : json :=
  JObj [("period", JStr (an_Period a)); ("sessions", JNum (an_Sessions a));
        ("active", JNum (an_Active a)); ("directSessions", JNum (an_DirectSessions a));
        ("relaySessions", JNum (an_RelaySessions a)); ("directTunnels", JNum (an_DirectTunnels a));
        ("relayTunnels", JNum (an_RelayTunnels a)); ("relayBytes", JNum (an_RelayBytes a));
        ("buckets", JArr (map bucket_json (an_Buckets a)));
        ("recent", JArr (map JConnection (an_Recent a)))].

Definition empty_analytics (period : string) (start : Time) (count : nat) (width : Duration)
    : analyticsResponse :=
  mkAnalytics period 0 0 0 0 0 0 0
    (map (λ i, mkBucket (start + Z.of_nat i * width) 0 0) (seq 0 count)) [].

Definition analytics (period : string) (allowed : option (list string)) (now : Time)
    (r : Registry) : analyticsResponse :=
  let '(start, count, width) := graph period now in
  let connections := ListConnections start 5000 r in
  let traffic := ListConnectionTraffic start 50000 r in
  foldl (countSample allowed start width)
    (foldl (countConnection allowed) (empty_analytics period start count width) connections)
    traffic.

Definition handleAnalytics (r : Request) (now : Time) : stateM Server Response :=
  asActor r now (λ actor,
    if negb (has_method r "GET") then mret (writeHeader StatusMethodNotAllowed)
    else
      let period := if negb (String.eqb (QueryGet r "range") "7d") then "24h" else "7d" in
      s ← getS;
      mret (writeJSON StatusOK (analytics_json
        (analytics period (allowed_devices actor now s) now (reg s))))).

(** ** The reference *)

Definition count (f : ConnectionRecord → bool) (l : list ConnectionRecord) : Z :=
  Z.of_nat (length (List.filter f l)).

Definition total (f : ConnectionTrafficRecord → Z) (l : list ConnectionTrafficRecord) : Z :=
  foldr (λ t n, f t + n) 0 l.

(** The sample belongs to the half-open interval *)
Definition within (from to : Time) (t : ConnectionTrafficRecord) : bool :=
  (from <=? ct_BucketStart t) && (ct_BucketStart t <? to).

Definition report (period : string) (start : Time) (n : nat) (width : Duration)
    (allowed : option (list string)) (cs : list ConnectionRecord)
    (ts : list ConnectionTrafficRecord) : analyticsResponse :=
  let mine := List.filter (λ c, visible_device allowed (conn_DeviceID c)) cs in
  let samples := List.filter (λ t, visible_device allowed (ct_DeviceID t)) ts in
  let slot i := List.filter (within (start + Z.of_nat i * width) (start + Z.of_nat (S i) * width)) samples in
  mkAnalytics period (Z.of_nat (length mine)) (count live_state mine)
    (count (over "direct") mine) (count (over "relay") mine)
    (count (λ c, is_tunnel c && over "direct" c) mine)
    (count (λ c, is_tunnel c && over "relay" c) mine)
    (wrap64 (total (λ t, ct_BytesToDevice t + ct_BytesFromDevice t)
      (List.filter (within start (start + Z.of_nat n * width)) samples)))
    (map (λ i, mkBucket (start + Z.of_nat i * width) (wrap64 (total ct_BytesToDevice (slot i)))
                 (wrap64 (total ct_BytesFromDevice (slot i)))) (seq 0 n))
    (take 25 (map (redact_peer allowed) mine)).

End analytics.

(** ** Lemmas *)

Lemma bucket_interval b start width i :
  0 < width → start ≤ b → width * Z.of_nat (S i) ≤ maxInt64 →
  (start + Z.of_nat i * width <=? b) && (b <? start + Z.of_nat (S i) * width) =
    (Z.quot (Sub b start) width =? Z.of_nat i).
Proof.
  intros Hw Hb Hi. unfold Sub, maxInt64, minInt64 in *.
  rewrite Z.quot_div_nonneg by lia.
  set (d := Z.max _ _). assert (d = Z.min (2 ^ 63 - 1) (b - start)) as Hd by lia. clearbody d.
  pose proof (Z.div_mod d width ltac:(lia)) as E.
  pose proof (Z.mod_pos_bound d width Hw) as M.
  set (q := d / width) in *. clearbody q. set (m := d mod width) in *. clearbody m.
  rewrite Nat2Z.inj_succ, Z.mul_succ_r in *. rewrite Z.mul_succ_l, (Z.mul_comm (Z.of_nat i)).
  destruct (Z.eqb_spec q (Z.of_nat i)) as [->|Hne].
  - apply andb_true_iff. split; lia.
  - apply andb_false_iff.
    destruct (Z.lt_ge_cases q (Z.of_nat i)) as [Hlt|Hge].
    + left. apply Z.leb_gt. assert (width * (q + 1) ≤ width * Z.of_nat i) by (apply Z.mul_le_mono_nonneg_l; lia). lia.
    + right. apply Z.ltb_ge. assert (width * (Z.of_nat i + 1) ≤ width * q) by (apply Z.mul_le_mono_nonneg_l; lia). lia.
Qed.

Lemma window_interval b start width n :
  0 < width → start ≤ b → width * Z.of_nat n ≤ maxInt64 →
  (b <? start + Z.of_nat n * width) = (Z.quot (Sub b start) width <? Z.of_nat n).
Proof.
  intros Hw Hb Hn. unfold Sub, maxInt64, minInt64 in *.
  rewrite Z.quot_div_nonneg by lia.
  set (d := Z.max _ _). assert (d = Z.min (2 ^ 63 - 1) (b - start)) as Hd by lia. clearbody d.
  pose proof (Z.div_mod d width ltac:(lia)) as E.
  pose proof (Z.mod_pos_bound d width Hw) as M.
  set (q := d / width) in *. clearbody q. set (m := d mod width) in *. clearbody m.
  rewrite (Z.mul_comm (Z.of_nat n)).
  destruct (Z.ltb_spec q (Z.of_nat n)) as [Hlt|Hge].
  - apply Z.ltb_lt. assert (width * (q + 1) ≤ width * Z.of_nat n) by (apply Z.mul_le_mono_nonneg_l; lia). lia.
  - apply Z.ltb_ge. assert (width * Z.of_nat n ≤ width * q) by (apply Z.mul_le_mono_nonneg_l; lia). lia.
Qed.

Section analytics_lemmas.
Context `{Crypto} `{UrlParser} `{JulianDay} (stamp_text : Time → string).
Implicit Types a : analyticsResponse.

Lemma total_cons f t l : total f (t :: l) = f t + total f l.
Proof. done. Qed.

Lemma count_cons f c l : count f (c :: l) = (if f c then 1 else 0) + count f l.
Proof. unfold count. simpl. destruct (f c); simpl; lia. Qed.

Lemma countConnections allowed cs a :
  let mine := List.filter (λ c, visible_device allowed (conn_DeviceID c)) cs in
  (length (an_Recent a) ≤ 25)%nat →
  foldl (countConnection allowed) a cs =
    mkAnalytics (an_Period a) (an_Sessions a + Z.of_nat (length mine))
      (an_Active a + count live_state mine)
      (an_DirectSessions a + count (over "direct") mine)
      (an_RelaySessions a + count (over "relay") mine)
      (an_DirectTunnels a + count (λ c, is_tunnel c && over "direct" c) mine)
      (an_RelayTunnels a + count (λ c, is_tunnel c && over "relay" c) mine)
      (an_RelayBytes a) (an_Buckets a)
      (an_Recent a ++ take (25 - length (an_Recent a)) (map (redact_peer allowed) mine)).
Proof.
  revert a. induction cs as [|c cs IH]; intros a mine Ha; subst mine; cbn [foldl List.filter].
  - unfold count. simpl. rewrite take_nil, app_nil_r, !Z.add_0_r. by destruct a.
  - rewrite IH; unfold countConnection; destruct (visible_device allowed _) eqn:Hv; cbn [negb];
      [|done| |done]; cbn [an_Recent].
    + rewrite !count_cons. cbn. f_equal; try (case_match; lia); try lia.
      destruct (Nat.leb_spec (length (an_Recent a)) 24) as [Hlt|Hge].
      * rewrite length_app, <- app_assoc. simpl. f_equal.
        replace (25 - length (an_Recent a))%nat with (S (25 - (length (an_Recent a) + 1)))%nat by lia.
        done.
      * replace (25 - length (an_Recent a))%nat with O by lia. by rewrite !take_0.
    + cbn. destruct (Nat.leb_spec (length (an_Recent a)) 24); [|done]. rewrite length_app. simpl. lia.
Qed.

(** The buckets of a graph, with the sums each holds *)
Definition buckets (start : Time) (width : Duration) (n : nat) (A B : nat → Z) : list analyticsBucket :=
  map (λ i, mkBucket (start + Z.of_nat i * width) (wrap64 (A i)) (wrap64 (B i))) (seq 0 n).

Lemma buckets_ext start width n A B A' B' :
  (∀ i, (i < n)%nat → A i = A' i ∧ B i = B' i) →
  buckets start width n A B = buckets start width n A' B'.
Proof.
  intros HA. unfold buckets. apply map_ext_in. intros i Hi%in_seq.
  destruct (HA i ltac:(lia)) as [-> ->]. done.
Qed.

Lemma buckets_alter start width n A B t k :
  alter (add_sample t) k (buckets start width n A B) =
    buckets start width n (λ i, if (k =? i)%nat then A i + ct_BytesToDevice t else A i)
      (λ i, if (k =? i)%nat then B i + ct_BytesFromDevice t else B i).
Proof.
  unfold buckets. apply list_eq. intros i. rewrite list_lookup_alter.
  change (@map nat analyticsBucket) with (λ f, @fmap list _ nat analyticsBucket f). cbv beta.
  rewrite !list_lookup_fmap.
  case_decide as E; subst; destruct (seq 0 n !! _) as [j|] eqn:Hj; simpl; try done;
    apply lookup_seq in Hj as [-> Hj]; simpl.
  - rewrite Nat.eqb_refl. unfold add_sample. simpl. by rewrite !wrap64_add_l.
  - destruct (Nat.eqb_spec k i); [lia|done].
Qed.

Lemma countSamples allowed start width n ts a A B C :
  0 < width → width * Z.of_nat n ≤ maxInt64 → Forall (λ t, start ≤ ct_BucketStart t) ts →
  an_Buckets a = buckets start width n A B → an_RelayBytes a = wrap64 C →
  let samples := List.filter (λ t, visible_device allowed (ct_DeviceID t)) ts in
  let slot i := List.filter (within (start + Z.of_nat i * width) (start + Z.of_nat (S i) * width)) samples in
  foldl (countSample allowed start width) a ts =
    mkAnalytics (an_Period a) (an_Sessions a) (an_Active a) (an_DirectSessions a)
      (an_RelaySessions a) (an_DirectTunnels a) (an_RelayTunnels a)
      (wrap64 (C + total (λ t, ct_BytesToDevice t + ct_BytesFromDevice t)
        (List.filter (within start (start + Z.of_nat n * width)) samples)))
      (buckets start width n (λ i, A i + total ct_BytesToDevice (slot i))
         (λ i, B i + total ct_BytesFromDevice (slot i)))
      (an_Recent a).
Proof.
  intros Hw Hn Hts. revert a A B C. induction Hts as [|t ts Ht Hts IH]; intros a A B C HB HC.
  { simpl. rewrite Z.add_0_r, <- HC.
    erewrite (buckets_ext start width n _ _ A B); [rewrite <- HB; by destruct a|].
    intros; simpl; lia. }
  cbn [foldl List.filter]. unfold countSample at 2.
  destruct (visible_device allowed (ct_DeviceID t)); cbn [negb List.filter]; [|by apply IH].
  assert (∀ i, (i < n)%nat → within (start + Z.of_nat i * width) (start + Z.of_nat (S i) * width) t =
    (Z.quot (Sub (ct_BucketStart t) start) width =? Z.of_nat i)) as Hslot.
  { intros i Hi. apply bucket_interval; [done|done|]. nia. }
  assert (0 ≤ Z.quot (Sub (ct_BucketStart t) start) width) as Hq.
  { apply Z.quot_pos; [|done]. unfold Sub, minInt64, maxInt64. lia. }
  assert (within start (start + Z.of_nat n * width) t =
    (Z.quot (Sub (ct_BucketStart t) start) width <? Z.of_nat n)) as Hall.
  { unfold within. destruct (Z.leb_spec start (ct_BucketStart t)); [|lia]. by apply window_interval. }
  set (off := Z.quot _ _) in *.
  assert (length (an_Buckets a) = n) as Hlen by (rewrite HB; unfold buckets; by rewrite length_map, length_seq).
  rewrite Hlen, Hall.
  destruct (Z.ltb_spec off 0); [lia|]. cbn [orb].
  destruct (Z.leb_spec (Z.of_nat n) off) as [Hge|Hlt].
  - destruct (Z.ltb_spec off (Z.of_nat n)); [lia|].
    rewrite (IH a A B C HB HC). f_equal. apply buckets_ext. intros i Hi.
    rewrite Hslot by done. destruct (Z.eqb_spec off (Z.of_nat i)); [lia|done].
  - destruct (Z.ltb_spec off (Z.of_nat n)); [|lia].
    rewrite HB, buckets_alter.
    erewrite IH; [|done|cbn; rewrite HC, wrap64_add_l, Z.add_comm, wrap64_add_l; reflexivity].
    cbn [an_Period an_Sessions an_Active an_DirectSessions an_RelaySessions an_DirectTunnels
      an_RelayTunnels an_Recent]. f_equal; [rewrite total_cons; f_equal; lia|].
    apply buckets_ext. intros i Hi. rewrite Hslot by done.
    destruct (Z.eqb_spec off (Z.of_nat i)) as [->|Hne].
    + rewrite Nat2Z.id, Nat.eqb_refl, !total_cons. lia.
    + destruct (Nat.eqb_spec (Z.to_nat off) i); [lia|done].
Qed.
End analytics_lemmas.

Section analytics_rows.
Context `{Crypto} `{UrlParser} `{JulianDayLaws} (stamp_text : Time → string).

Lemma hour_ms t : t mod Hour = 0 → t mod Millisecond = 0.
Proof.
  unfold Hour, Minute, Second, Millisecond. intros E. apply Z.mod_divide in E as [k ->]; [|done].
  apply Z.mod_divide; [done|]. exists (k * 3600000). lia.
Qed.

Lemma graph_start_hour period now start n width :
  graph period now = (start, n, width) →
  start mod Hour = 0 ∧ 0 < width ∧ width * Z.of_nat n ≤ maxInt64.
Proof.
  unfold graph. case_match; intros [= <- <- <-]; (split; [|by vm_compute]).
  - unfold Truncate. rewrite (Z.div_mod now Day) at 1 by done.
    replace (Day * (now / Day) + now mod Day - now mod Day - 6 * Day)
      with ((24 * (now / Day) - 144) * Hour) by (unfold Day; lia).
    apply Z.mod_mul. done.
  - unfold Truncate. rewrite (Z.div_mod now Hour) at 1 by done.
    replace (Hour * (now / Hour) + now mod Hour - now mod Hour - 23 * Hour)
      with ((now / Hour - 23) * Hour) by lia.
    apply Z.mod_mul. done.
Qed.

(** Every listed sample is of the window: buckets start on the hour. *)
Lemma listed_samples_since r since limit :
  registry_wf r → since mod Hour = 0 →
  Forall (λ t, since ≤ ct_BucketStart t) (ListConnectionTraffic stamp_text since limit r).
Proof.
  intros Hwf Hs. unfold ListConnectionTraffic. destruct (db_up r); [|by constructor].
  apply Forall_take. apply Forall_forall. intros t. rewrite merge_sort_Permutation.
  rewrite list_elem_of_In, filter_In. intros [Hin Hj].
  apply in_concat in Hin as (l & Hl & Ht). apply in_map_iff in Hl as ([[id b] [x y]] & <- & Hkv).
  apply list_elem_of_In, elem_of_map_to_list in Hkv. simpl in Ht.
  destruct (connection_sessions r !! id); [|done]. destruct Ht as [<-|[]]. simpl in *.
  apply (wf_traffic _ Hwf) in Hkv. apply Z.leb_le in Hj.
  destruct (Z.le_gt_cases since b) as [|Hlt]; [done|].
  apply julianday_strict in Hlt; [lia| |]; by apply hour_ms.
Qed.

Lemma analytics_report period allowed now r start n width :
  registry_wf r → graph period now = (start, n, width) →
  analytics stamp_text period allowed now r =
    report period start n width allowed (ListConnections stamp_text start 5000 r)
      (ListConnectionTraffic stamp_text start 50000 r).
Proof.
  intros Hwf Hg. unfold analytics. rewrite Hg.
  destruct (graph_start_hour _ _ _ _ _ Hg) as (Hs & Hw & Hn).
  rewrite countConnections by (simpl; lia).
  erewrite (countSamples allowed start width n _ _ (λ _, 0) (λ _, 0) 0);
    [|done|done|by apply listed_samples_since|reflexivity|reflexivity].
  done.
Qed.

Lemma handleAnalytics_run r now s actor :
  has_method r "GET" = true → (authenticate r now s).1 = Some actor →
  (handleAnalytics stamp_text r now s).1 =
    writeJSON StatusOK (analytics_json (analytics stamp_text
      (if String.eqb (QueryGet r "range") "7d" then "7d" else "24h")
      (allowed_devices actor now s) now (reg s))).
Proof.
  intros Hm Ha. unfold handleAnalytics, asActor. rewrite bind_run, Ha.
  destruct (authenticate_keeps r now s) as (E & _). rewrite Hm. cbn [negb].
  rewrite bind_run. simpl. unfold allowed_devices. rewrite (isAdmin_reg _ _ _ _ E).
  unfold actorInfo. rewrite E. by destruct (String.eqb (QueryGet r "range") "7d").
Qed.

Lemma visible_granted l d : visible_device (Some l) d = true ↔ d ∈ l.
Proof.
  simpl. rewrite existsb_exists, list_elem_of_In. setoid_rewrite String.eqb_eq. naive_solver.
Qed.

(** ** Theorems *)

(** C28: the analytics page is right: an authenticated GET is answered with exactly
    the report of the sessions and samples the actor may see. Each bucket holds
    the bytes of the samples of its own hour (or day) and no other, the total is
    the bytes of the whole window, the counters count the visible sessions by
    state, transport and kind, and the recent list is the first 25 of them. *)
Theorem analytics_matches_report r now s actor start n width :
  let period := if String.eqb (QueryGet r "range") "7d" then "7d" else "24h" in
  registry_wf (reg s) → has_method r "GET" = true → (authenticate r now s).1 = Some actor →
  graph period now = (start, n, width) →
  (handleAnalytics stamp_text r now s).1 =
    writeJSON StatusOK (analytics_json
      (report period start n width (allowed_devices actor now s)
         (ListConnections stamp_text start 5000 (reg s))
         (ListConnectionTraffic stamp_text start 50000 (reg s)))).
Proof.
  intros period Hwf Hm Ha Hg. rewrite (handleAnalytics_run r now s actor Hm Ha).
  by rewrite (analytics_report _ _ _ _ start n width Hwf Hg).
Qed.

(** C29: an operator's analytics show its own devices only: every session listed is
    of a device granted to the account, with the peer blanked unless that is
    granted too, and the whole answer depends on nothing but the listed rows of
    granted devices - a registry that agrees on those gives the same answer. *)
Theorem operator_analytics_confined r now s actor u :
  registry_wf (reg s) → has_method r "GET" = true → (authenticate r now s).1 = Some actor →
  isAdmin actor now s = false → actorInfo actor now s = Some u →
  let mine d := visible_device (Some (user_DeviceIDs u)) d in
  let period := if String.eqb (QueryGet r "range") "7d" then "7d" else "24h" in
  let since := (graph period now).1.1 in
  ∃ a, (handleAnalytics stamp_text r now s).1 = writeJSON StatusOK (analytics_json a) ∧
    Forall (λ c, conn_DeviceID c ∈ user_DeviceIDs u ∧
      (conn_PeerDeviceID c = "" ∨ conn_PeerDeviceID c ∈ user_DeviceIDs u)) (an_Recent a) ∧
    ∀ g, registry_wf g →
      List.filter (λ c, mine (conn_DeviceID c)) (ListConnections stamp_text since 5000 g) =
        List.filter (λ c, mine (conn_DeviceID c)) (ListConnections stamp_text since 5000 (reg s)) →
      List.filter (λ t, mine (ct_DeviceID t)) (ListConnectionTraffic stamp_text since 50000 g) =
        List.filter (λ t, mine (ct_DeviceID t)) (ListConnectionTraffic stamp_text since 50000 (reg s)) →
      analytics stamp_text period (Some (user_DeviceIDs u)) now g = a.
Proof.
  intros Hwf Hm Ha Hadm Hu mine period since.
  rewrite (handleAnalytics_run r now s actor Hm Ha). fold period.
  unfold allowed_devices. rewrite Hadm, Hu. cbn [negb].
  destruct (graph period now) as [[start n] width] eqn:Hg. subst since. cbn [fst].
  rewrite (analytics_report _ _ _ _ start n width Hwf Hg).
  eexists. split; [reflexivity|]. split.
  - cbn [an_Recent report]. apply Forall_take, Forall_map, Forall_forall. intros c.
    rewrite list_elem_of_In, filter_In. intros [_ Hc%visible_granted].
    unfold redact_peer. cbn [andb]. destruct (String.eqb_spec (conn_PeerDeviceID c) ""); cbn [negb andb].
    { auto. }
    destruct (visible_device _ (conn_PeerDeviceID c)) eqn:Hp; cbn [negb].
    + apply visible_granted in Hp. auto.
    + unfold hide_peer. cbn. auto.
  - intros g Hgwf Hcs Hts. rewrite (analytics_report _ _ _ _ start n width Hgwf Hg).
    unfold report. fold (mine). unfold mine in *. by rewrite Hcs, Hts.
Qed.
End analytics_rows.

(** ** Witnesses *)

Module AnalyticsDemo.
Import Toy ApiDemo.
#[export] Instance julian : JulianDay := {| julianday t := t / Millisecond |}.
#[export] Instance julian_laws : JulianDayLaws.
Proof.
  split; intros t u; simpl.
  - intros ?. by apply Z.div_le_mono.
  - intros Ht Hu Hlt. pose proof (Z.div_mod t Millisecond ltac:(done)).
    pose proof (Z.div_mod u Millisecond ltac:(done)). unfold Millisecond in *. lia.
Qed.

(** An operator with device ["d1"]; a tunnel of ["d1"] to ["d2"], whose peer it may
    not see, and a session of ["d2"] *)
Definition reg_an : Registry :=
  run_ops [OpUpsert "d1" "box" "host" "linux" "amd64" [] 20;
           OpCreateUser "op" "pw" "operator" ["d1"] zeroTime "" 25;
           OpStartConnection "c1" "op" "d1" "d2" "tcp:22" "relay" "" (40 * Hour);
           OpStartConnection "c2" "admin" "d2" "" "terminal" "direct" "" (41 * Hour);
           OpAddConnectionTraffic "c1" 100 20 (40 * Hour + 5);
           OpAddConnectionTraffic "c1" 7 3 (41 * Hour + 5);
           OpAddConnectionTraffic "c2" 5000 6000 (41 * Hour + 6)] empty_registry.
Definition srv_an : Server :=
  upd_sessions (<["tok" := mkSessionEntry "op" (100 * Hour)]>) (empty_server conf reg_an).
Definition get : Request :=
  mkRequest "GET" "/api/analytics" [] "" [("Authorization", "Bearer tok")] [] "relay" true "10.0.0.7:4000".
Definition now : Time := 42 * Hour + 9.
Definition start : Time := 19 * Hour.
End AnalyticsDemo.
Import Toy ApiDemo AnalyticsDemo.

Lemma reg_an_wf : registry_wf reg_an.
Proof. apply (run_ops_invariant registry_wf); [apply @wf_run_op | apply empty_registry_wf]. Qed.

Lemma analytics_matches_report_witness :
  (authenticate get now srv_an).1 = Some "op" ∧
  (handleAnalytics stamp get now srv_an).1 =
    writeJSON StatusOK (analytics_json
      (report "24h" start 24 Hour (allowed_devices "op" now srv_an)
         (ListConnections stamp start 5000 reg_an) (ListConnectionTraffic stamp start 50000 reg_an))) ∧
  let a := report "24h" start 24 Hour (allowed_devices "op" now srv_an)
         (ListConnections stamp start 5000 reg_an) (ListConnectionTraffic stamp start 50000 reg_an) in
  an_Sessions a = 1 ∧ an_RelayTunnels a = 1 ∧ an_RelayBytes a = 130 ∧
  map ab_BytesToDevice (drop 21 (an_Buckets a)) = [100; 7; 0].
Proof.
  split; [vm_compute; reflexivity|]. split; [|vm_compute; auto].
  refine (analytics_matches_report stamp get now srv_an "op" start 24 Hour _ _ _ _).
  - exact reg_an_wf.
  - vm_compute; reflexivity.
  - vm_compute; reflexivity.
  - vm_compute; reflexivity.
Defined.

Lemma operator_analytics_confined_witness :
  ∃ a, (handleAnalytics stamp get now srv_an).1 = writeJSON StatusOK (analytics_json a) ∧
    Forall (λ c, conn_DeviceID c ∈ ["d1"] ∧
      (conn_PeerDeviceID c = "" ∨ conn_PeerDeviceID c ∈ ["d1"])) (an_Recent a).
Proof.
  destruct (operator_analytics_confined stamp get now srv_an "op"
    (mkUser 1 "op" "operator" ["d1"] zeroTime 25)) as (a & Ha & Hf & _).
  - exact reg_an_wf.
  - vm_compute; reflexivity.
  - vm_compute; reflexivity.
  - vm_compute; reflexivity.
  - vm_compute; reflexivity.
  - exists a. split; [exact Ha | exact Hf].
Defined.
