(* ===== verification/Routing.v ===== *)
(** * Routing, static files and shutdown ([server.go])

    [routes] and [AgentHandler] are the two route tables, [ServeMux] the dispatch
    of Go's [net/http] on them, [serve] the console request from its path to its
    answer.  The body decoders and the random source are the fields of [inputs];
    the embedded web UI and the MIME table are parameters.  A path is taken
    without percent escapes.

    [Close] shuts the server down: the live sockets are closed, the handlers that
    are done within [handlerDrainTimeout] run their teardown, and the store is
    closed after them. *)
From stdpp Require Import sorting.
From Stdlib Require Import ZArith Lia Ascii String.
From S2P Require Import Prelude GoStrings Protocol Registry RegistryProps Tickets Traffic Http Server.
From S2P Require Import Auth AuthProps Forward ForwardProps AgentWS Browser Api ApiProps Paths Analytics.
Open Scope string_scope.
Open Scope list_scope.
Open Scope Z_scope.

(** ** Go's [http.ServeMux] *)

Section mux.
Context {E : Type}.

(** A pattern ending in a slash names a subtree. *)
Definition pattern_matches (pat path : string) : bool :=
  if HasSuffix pat "/" then HasPrefix path pat else String.eqb pat path.

(** The longest matching pattern *)
Fixpoint match_path (m : list (string * E)) (path : string) : option (string * E) :=
  match m with
  | [] => None
  | (pat, e) :: m =>
      let rest := match_path m path in
      if pattern_matches pat path then
        match rest with
        | Some (pat', e') => if (String.length pat <? String.length pat')%nat then rest else Some (pat, e)
        | None => Some (pat, e)
        end
      else rest
  end.

(** [cleanPath] *)
Definition cleanPath (p : string) : string :=
  if String.eqb p "" then "/"
  else
    let p := if HasPrefix p "/" then p else "/" +:+ p in
    let np := Clean p in
    if HasSuffix p "/" && negb (String.eqb np "/") then np +:+ "/" else np.

Inductive dispatch := MServe (pat : string) (e : E) | MRedirect (path : string) | MNotFound.

Definition exact_match (found : option (string * E)) (path : string) : bool :=
  match found with Some (pat, _) => String.eqb pat path | None => false end.

(** The dispatch: first a subtree named without its slash, then a path that is
    not clean, then the pattern *)
Definition ServeMux (m : list (string * E)) (path : string) : dispatch :=
  let clean := cleanPath path in
  let found := match_path m clean in
  if negb (exact_match found clean) && negb (HasSuffix clean "/") &&
     exact_match (match_path m (clean +:+ "/")) (clean +:+ "/")
  then MRedirect (clean +:+ "/")
  else if negb (String.eqb clean path) then MRedirect clean
  else match found with
       | Some (pat, e) => MServe pat e
       | None => MNotFound
       end.
End mux.

(** ** The route tables *)

Inductive endpoint :=
| EHealth | ELogin | ELogout | EDevices | EDeviceByID | EStats | EAnalytics | EDeviceKeys
| EDeviceKeyByID | EInvites | EInviteByCode | EEnroll | EUsers | EUserByUsername | EAudit
| EAgentConfig | EWSTicket | EAgentDownloads | EForwardPolicy | EForwardGrants | EAgentWS
| ETerminalWS | EFileWS | EFilesWS | EScreenWS | EScreenLinkWS | EStatic.

#[export] Instance endpoint_eq_dec : EqDecision endpoint.
Proof. solve_decision. Defined.

Definition routes (includeAgent : bool) : list (string * endpoint) :=
  [("/api/health", EHealth); ("/api/login", ELogin); ("/api/logout", ELogout);
   ("/api/devices", EDevices); ("/api/devices/", EDeviceByID); ("/api/stats", EStats);
   ("/api/analytics", EAnalytics); ("/api/device-keys", EDeviceKeys);
   ("/api/device-keys/", EDeviceKeyByID); ("/api/invites", EInvites);
   ("/api/invites/", EInviteByCode); ("/api/enroll", EEnroll); ("/api/users", EUsers);
   ("/api/users/", EUserByUsername); ("/api/audit", EAudit); ("/api/agent-config", EAgentConfig);
   ("/api/ws-ticket", EWSTicket); ("/api/agent-downloads", EAgentDownloads);
   ("/api/agent-downloads/", EAgentDownloads); ("/api/forward-policy", EForwardPolicy);
   ("/api/forward-grants", EForwardGrants)] ++
  (if includeAgent then [("/ws/agent", EAgentWS)] else []) ++
  [("/ws/terminal", ETerminalWS); ("/ws/file", EFileWS); ("/ws/files", EFilesWS);
   ("/ws/screen", EScreenWS)] ++
  (if includeAgent then [("/ws/screen-link", EScreenLinkWS)] else []) ++
  [("/", EStatic)].

Definition Handler : list (string * endpoint) := routes true.
Definition WebHandler : list (string * endpoint) := routes false.

Definition AgentHandler : list (string * endpoint) :=
  [("/api/health", EHealth); ("/api/agent-config", EAgentConfig); ("/ws/agent", EAgentWS);
   ("/ws/screen-link", EScreenLinkWS)].

(** ** Static files *)

(** [filepath.Ext] *)
Definition Ext (path : string) : string :=
  match after_last (List.last (Split path "/") "") "." with
  | Some e => "." +:+ e
  | None => ""
  end.

Record page := mkPage { pg_Status : Z; pg_ContentType : string; pg_CacheControl : string; pg_Body : bytes }.

Definition http_Error (e : string) (status : Z) : page :=
  mkPage status "text/plain; charset=utf-8" "" (list_ascii_of_string (e +:+ String "010" "")).

Section serve.
Context `{Crypto} `{UrlParser} `{JulianDay} (stamp_text : Time → string).
Context (filepath_Join : string → string → string) (is_regular : string → bool).
(** [cfg.WebFS] with [fs.ReadFile] ([None] is nil), and [mime.TypeByExtension] *)
Context (WebFS : option (string → option bytes)) (TypeByExtension : string → string).

Definition handleStatic (r : Request) : page :=
  match WebFS with
  | None => http_Error "web ui not available" StatusNotFound
  | Some ReadFile =>
      let path := TrimPrefix (r_Path r) "/" in
      let path := if String.eqb path "" then "index.html" else path in
      let found :=
        match ReadFile path with
        | Some raw => Some (path, raw)
        | None => (λ raw, ("index.html", raw)) <$> ReadFile "index.html"
        end in
      match found with
      | None => http_Error "not found" StatusNotFound
      | Some (path, raw) =>
          mkPage StatusOK (TypeByExtension (Ext path))
            (if String.eqb path "index.html" then "no-cache"
             else "public, max-age=31536000, immutable") raw
      end
  end.

(** ** A request from its path to its answer *)

(** What the JSON decoder makes of the body for each endpoint, and what the random
    sources give *)
Record inputs := mkInputs {
  in_login : option (string * string);
  in_patch : res device_patch;
  in_grant : res forwardGrantRequest;
  in_grantOver : forwardGrantRequest → res forwardGrantRequest;
  in_name : res string;
  in_enroll : option (string * string);
  in_create : res user_create;
  in_update : res user_patch;
  in_salt : string;
  in_rnd1 : option bytes;
  in_rnd2 : option bytes
}.

(** The answer; a WebSocket endpoint goes on in its own handler. *)
Inductive answer :=
| AResponse (resp : Response)
| AFile (path filename : string)
| APage (p : page)
| AUpgrade (e : endpoint)
| ARedirect (path : string)
| ANotFound.

Definition respond (m : stateM Server Response) : stateM Server answer :=
  resp ← m; mret (AResponse resp).

Definition handle (e : endpoint) (i : inputs) (r : Request) (now : Time) : stateM Server answer :=
  match e with
  | EHealth => mret (AResponse handleHealth)
  | ELogin => respond (handleLogin r (in_login i) (in_rnd1 i) now)
  | ELogout => respond (handleLogout r now)
  | EDevices => respond (handleDevices r now)
  | EDeviceByID => respond (handleDeviceByID r (in_patch i) now)
  | EStats => respond (handleStats r now)
  | EAnalytics => respond (handleAnalytics stamp_text r now)
  | EDeviceKeys => respond (handleDeviceKeys stamp_text r (in_name i) (in_rnd1 i) (in_rnd2 i) now)
  | EDeviceKeyByID => respond (handleDeviceKeyByID r (in_rnd1 i) now)
  | EInvites => respond (handleInvites stamp_text r (in_name i) (in_rnd1 i) now)
  | EInviteByCode => respond (handleInviteByCode r now)
  | EEnroll => respond (handleEnroll r (in_enroll i) (in_rnd1 i) (in_rnd2 i) now)
  | EUsers => respond (handleUsers r (in_create i) (in_salt i) now)
  | EUserByUsername => respond (handleUserByUsername r (in_update i) (in_salt i) now)
  | EAudit => respond (handleAudit r now)
  | EAgentConfig => s ← getS; mret (AResponse (handleAgentConfig (AgentListen (cfg s)) r))
  | EWSTicket => respond (handleWSTicket r (in_rnd1 i) now)
  | EAgentDownloads =>
      d ← handleAgentDownloads filepath_Join is_regular r now;
      mret (match d with DResponse resp => AResponse resp | DFile path name => AFile path name end)
  | EForwardPolicy => respond (handleForwardPolicy r now)
  | EForwardGrants => respond (handleForwardGrants r (in_grant i) (in_grantOver i) now)
  | EStatic => mret (APage (handleStatic r))
  | EAgentWS | ETerminalWS | EFileWS | EFilesWS | EScreenWS | EScreenLinkWS => mret (AUpgrade e)
  end.

Definition serve (m : list (string * endpoint)) (i : inputs) (r : Request) (now : Time)
    : stateM Server answer :=
  match ServeMux m (r_Path r) with
  | MServe _ e => handle e i r now
  | MRedirect path => mret (ARedirect path)
  | MNotFound => mret ANotFound
  end.
End serve.

(** The endpoints that answer without a console credential: the login itself, the
    health probe, the published agent endpoint, enrolment (which checks its invite),
    the static UI; the WebSocket endpoints check their own credentials. *)
Definition public (e : endpoint) : bool :=
  match e with
  | EHealth | ELogin | ELogout | EEnroll | EAgentConfig | EStatic
  | EAgentWS | ETerminalWS | EFileWS | EFilesWS | EScreenWS | EScreenLinkWS => true
  | _ => false
  end.

(** ** Shutdown *)

(** The sockets [closeWebSockets] collects *)
Definition live_sockets (s : Server) : list WS :=
  omap (λ kv, ts_browser <$> termH s !! kv.2) (map_to_list (terms s)) ++
  omap (λ kv, sc_browser <$> screenH s !! kv.2) (map_to_list (screens s)) ++
  omap (λ kv, fs_browser <$> fileH s !! kv.2) (map_to_list (files s)) ++
  omap (λ kv, ms_browser <$> managerH s !! kv.2) (map_to_list (managers s)) ++
  omap (λ kv, ac_ws <$> agentH s !! kv.2) (map_to_list (agents s)).

Definition closeWebSockets : stateM Server unit :=
  s ← getS; forM_ (live_sockets s) wsClose.

(** The teardown of a WebSocket handler whose read has failed *)
Inductive teardown :=
| TTerminal (c : session) (now : Time)
| TFile (c : session) (endState : string) (now : Time)
| TFiles (c : session)
| TScreen (c : session) (endState : string) (now : Time)
| TAgent (id : string) (conn : ref) (w : WS) (now : Time).

Definition run_teardown (t : teardown) : stateM Server unit :=
  match t with
  | TTerminal c now => terminalClose c now
  | TFile c endState now => fileClose c endState now
  | TFiles c => filesClose c
  | TScreen c endState now => screenClose c endState now
  | TAgent id conn w now => agentTeardown id conn w now
  end.

(** [Close]: [drained] are the handlers [waitForHandlers] saw finish, in their order. *)
Definition Close (drained : list teardown) : stateM Server unit :=
  _ ← closeWebSockets;
  _ ← forM_ drained run_teardown;
  modifyS (upd_reg Registry.Close).

(** ** Lemmas *)

Lemma match_path_None {E} (m : list (string * E)) path :
  match_path m path = None → ∀ pat e, (pat, e) ∈ m → pattern_matches pat path = false.
Proof.
  induction m as [|[p x] m IH]; simpl; [set_solver|]. intros Hn pat e.
  destruct (pattern_matches p path) eqn:E1.
  { destruct (match_path m path) as [[]|]; [|done]. by destruct (_ <? _)%nat. }
  intros [[= -> ->]|]%elem_of_cons; eauto.
Qed.

(** The dispatched pattern is registered, matches, and none longer does. *)
Lemma match_path_spec {E} (m : list (string * E)) path pat e :
  match_path m path = Some (pat, e) →
  (pat, e) ∈ m ∧ pattern_matches pat path = true ∧
  ∀ pat' e', (pat', e') ∈ m → pattern_matches pat' path = true →
    (String.length pat' ≤ String.length pat)%nat.
Proof.
  revert pat e. induction m as [|[p x] m IH]; intros pat e; simpl; [done|].
  destruct (pattern_matches p path) eqn:Hp.
  - destruct (match_path m path) as [[p' x']|] eqn:Em.
    + destruct (IH p' x' eq_refl) as (Hin & Hmt & Hmax).
      destruct (Nat.ltb_spec (String.length p) (String.length p')) as [Hlt|Hge]; intros [= <- <-].
      * split_and!; [set_solver|done|]. intros q y [[= -> ->]|]%elem_of_cons Hq; [lia|eauto].
      * split_and!; [set_solver|done|]. intros q y [[= -> ->]|Hq]%elem_of_cons Hm; [lia|].
        specialize (Hmax q y Hq Hm). lia.
    + intros [= <- <-]. split_and!; [set_solver|done|].
      intros q y [[= -> ->]|Hq]%elem_of_cons Hm; [lia|]. by rewrite (match_path_None m path Em q y Hq) in Hm.
  - intros Hm. destruct (IH pat e Hm) as (Hin & Hmt & Hmax). split_and!; [set_solver|done|].
    intros q y [[= -> ->]|Hq]%elem_of_cons Hq'; [congruence|eauto].
Qed.

Lemma ServeMux_serve {E} (m : list (string * E)) path pat e :
  ServeMux m path = MServe pat e →
  cleanPath path = path ∧ match_path m path = Some (pat, e).
Proof.
  unfold ServeMux. destruct (_ && _ && _); [done|].
  destruct (String.eqb_spec (cleanPath path) path) as [->|]; simpl; [|done].
  destruct (match_path m path) as [[]|]; [|done]. by intros [= -> ->].
Qed.

Lemma ServeMux_endpoint {E} (m : list (string * E)) path pat e :
  ServeMux m path = MServe pat e → (pat, e) ∈ m.
Proof. intros [_ H]%ServeMux_serve. by apply match_path_spec in H as []. Qed.

(** Every subtree of the web handler is registered without its slash too, so no
    clean path is redirected to one. *)
Lemma no_slash_redirect path :
  HasPrefix path "/" = true →
  exact_match (match_path WebHandler (path +:+ "/")) (path +:+ "/") = true →
  exact_match (match_path WebHandler path) path = false → False.
Proof.
  intros Hr Hs Hx.
  destruct (match_path WebHandler (path +:+ "/")) as [[pat e]|] eqn:Em; simpl in Hs; [|done].
  apply String.eqb_eq in Hs. apply match_path_spec in Em as (Hin & _).
  assert (path = String.rev (str_drop 1 (String.rev pat))) as Hpath.
  { rewrite Hs, str_rev_app. simpl. by rewrite str_rev_involutive. }
  assert (HasSuffix pat "/" = true) as Hsuf.
  { rewrite Hs. unfold HasSuffix. rewrite str_rev_app. simpl. by apply (HasPrefix_app "/"). }
  subst path. clear Hs. unfold WebHandler, routes in Hin. simpl in Hin.
  repeat (apply elem_of_cons in Hin as [[= -> ->]|Hin]; [vm_compute in *; congruence|]).
  by apply elem_of_nil in Hin.
Qed.

Section serve_lemmas.
Context `{Crypto} `{UrlParser} `{JulianDay} (stamp_text : Time → string).
Context (filepath_Join : string → string → string) (is_regular : string → bool).

Lemma asActor_refused r now k s :
  (authenticate r now s).1 = None →
  asActor r now k s = (writeError StatusUnauthorized "unauthorized", (authenticate r now s).2).
Proof.
  intros Ha. unfold asActor. rewrite bind_run, Ha. done.
Qed.

Lemma respond_run m s : respond m s = (AResponse (m s).1, (m s).2).
Proof. unfold respond. by rewrite bind_run. Qed.

(** The refusals of a protected endpoint *)
Definition refusal (resp : Response) : Prop :=
  resp = writeError StatusUnauthorized "unauthorized" ∨
  resp = writeError StatusMethodNotAllowed "method not allowed".

Lemma handle_refused WebFS mime e i r now s :
  public e = false → (authenticate r now s).1 = None →
  ∃ resp, (handle stamp_text filepath_Join is_regular WebFS mime e i r now s).1 = AResponse resp ∧
    refusal resp ∧
    ((handle stamp_text filepath_Join is_regular WebFS mime e i r now s).2 = s ∨
     (handle stamp_text filepath_Join is_regular WebFS mime e i r now s).2 = (authenticate r now s).2).
Proof.
  intros Hp Ha. unfold refusal. destruct e; try discriminate; cbn [handle]; rewrite ?respond_run;
    unfold handleDevices, handleDeviceByID, handleStats, handleAnalytics, handleDeviceKeys,
      handleDeviceKeyByID, handleInvites, handleInviteByCode, handleUsers, handleUserByUsername,
      handleAudit, handleForwardPolicy, handleForwardGrants, asAdmin;
    try (rewrite (asActor_refused r now _ s Ha); simpl; eauto 10).
  - unfold handleWSTicket. destruct (negb _); simpl; [eauto 10|].
    rewrite bind_run, Ha. simpl. eauto 10.
  - unfold handleAgentDownloads. rewrite bind_run, bind_run, Ha. simpl. eauto 10.
Qed.
End serve_lemmas.

(** *** Teardown *)

(** Sockets are only closed. *)
Definition closes (s s' : Server) : Prop := open_ws s' ⊆ open_ws s.
#[export] Instance closes_preorder : PreOrder closes.
Proof. split; unfold closes; [intros ?; done|]. intros x y z ? ?. set_solver. Qed.

Lemma closes_wsClose w : keeps closes (wsClose w).
Proof. intros s. unfold closes. simpl. set_solver. Qed.

Lemma wsClose_forM l s : open_ws (forM_ l wsClose s).2 = open_ws s ∖ list_to_set l.
Proof.
  revert s. induction l as [|w l IH]; intros s; simpl; [set_solver|].
  rewrite bind_run, IH. simpl. set_solver.
Qed.

(** Walk over a teardown, with a tactic for the leaves. *)
Ltac teardown_walk leaf :=
  unfold run_teardown, terminalClose, fileClose, filesClose, screenClose, agentTeardown, removeAgent,
    unlinkAgent, closeAgentForwards, closeAgentScreens, agentWrite, audit;
  frame_with ltac:(first
    [ lazymatch goal with |- keeps _ (forM_ _ _) => idtac end; apply keeps_forM; frame_with leaf
    | leaf ]).

(** A leaf that is not itself a program *)
Ltac on_state tac := lazymatch goal with |- keeps _ _ => fail | _ => tac end.

Lemma closes_trafficClose p state now : keeps closes (trafficClose p state now).
Proof. apply keeps_recorder; [apply _|intros s f; unfold closes; simpl; reflexivity..]. Qed.

Lemma closes_teardown t : keeps closes (run_teardown t).
Proof.
  destruct t; teardown_walk ltac:(first
    [ apply closes_wsClose | apply closes_trafficClose
    | on_state ltac:(unfold closes; simpl; reflexivity) ]).
Qed.

(** *** Connection rows during shutdown *)

(** Rows stay, and an ended one stays ended. *)
Definition rows_kept (r r' : Registry) : Prop :=
  db_up r' = db_up r ∧
  ∀ id row, connection_sessions r !! id = Some row →
    ∃ row', connection_sessions r' !! id = Some row' ∧
      (is_Some (c_ended_at row) → is_Some (c_ended_at row')).

Lemma rows_kept_refl r : rows_kept r r.
Proof. split; eauto. Qed.

Lemma rows_kept_alter f g id r :
  (∀ row, is_Some (c_ended_at row) → is_Some (c_ended_at (f row))) →
  rows_kept r (set_connections (alter f id) g r).
Proof.
  intros Hf. split; [done|]. intros k row Hk. simpl. rewrite lookup_alter. case_decide; [|eauto].
  subst. rewrite Hk. simpl. eauto.
Qed.

Lemma rows_kept_trans r1 r2 r3 : rows_kept r1 r2 → rows_kept r2 r3 → rows_kept r1 r3.
Proof.
  intros [E1 H1] [E2 H2]. split; [congruence|]. intros id row (row' & Hr' & Hi)%H1.
  destruct (H2 _ _ Hr') as (row'' & ? & ?). eauto.
Qed.

Lemma rows_kept_end id state now r : rows_kept r (EndConnection id state now r).2.
Proof.
  unfold EndConnection, sql_exec. destruct (db_up r) eqn:E; [|apply rows_kept_refl].
  apply rows_kept_alter. intros row Hr. unfold end_row.
  destruct (c_ended_at row) eqn:E'; simpl; rewrite ?E'; eauto.
Qed.

Lemma rows_kept_traffic id a b now r : rows_kept r (AddConnectionTraffic id a b now r).2.
Proof.
  unfold AddConnectionTraffic, sql_exec. destruct (db_up r) eqn:E; [|apply rows_kept_refl].
  by apply rows_kept_alter.
Qed.

Lemma rows_kept_recorder_close state now rc r :
  rows_kept r (Traffic.Close state now rc r).2.
Proof.
  unfold Traffic.Close, flushLocked. destruct (tr_closed rc); [apply rows_kept_refl|].
  simpl. destruct (_ && _); simpl; [apply rows_kept_end|].
  eapply rows_kept_trans; [apply rows_kept_traffic|apply rows_kept_end].
Qed.

(** An unfinished recorder that is closed ends its row. *)
Lemma recorder_close_ends state now rc r row :
  db_up r = true → connection_sessions r !! tr_id rc = Some row → tr_closed rc = false →
  ∃ row', connection_sessions (Traffic.Close state now rc r).2 !! tr_id rc = Some row' ∧
    is_Some (c_ended_at row').
Proof.
  intros Hup Hrow Hcl. unfold Traffic.Close, flushLocked. rewrite Hcl. simpl.
  assert (∀ r' row', db_up r' = true → connection_sessions r' !! tr_id rc = Some row' →
    ∃ row'', connection_sessions (EndConnection (tr_id rc) state now r').2 !! tr_id rc = Some row'' ∧
      is_Some (c_ended_at row'')) as Hend.
  { intros r' row' Hup' Hr'. unfold EndConnection, sql_exec. rewrite Hup'. simpl.
    rewrite lookup_alter_eq, Hr'. simpl. eexists. split; [done|].
    unfold end_row. destruct (c_ended_at row') eqn:E; simpl; rewrite ?E; eauto. }
  destruct (_ && _); simpl; [by eapply Hend|].
  destruct (rows_kept_traffic (tr_id rc) (tr_toDevice rc) (tr_fromDevice rc) now r) as [E K].
  destruct (K _ _ Hrow) as (row' & Hr' & _). eapply Hend; [by rewrite E|exact Hr'].
Qed.

(** The recorder [t] of the open row [id]: once it is closed the row has ended. *)
Definition tracked (t : ref) (id : string) (s : Server) : Prop :=
  db_up (reg s) = true ∧
  ∃ rc row, recorderH s !! t = Some rc ∧ tr_id rc = id ∧
    connection_sessions (reg s) !! id = Some row ∧
    (tr_closed rc = true → is_Some (c_ended_at row)).

Definition tracks (t : ref) (id : string) (s s' : Server) : Prop := tracked t id s → tracked t id s'.
#[export] Instance tracks_preorder t id : PreOrder (tracks t id).
Proof. split; unfold tracks; [by intros ? ?|]. intros x y z ? ?. auto. Qed.

Lemma tracks_reg t id s f : rows_kept (reg s) (f (reg s)) → tracks t id s (upd_reg f s).
Proof.
  intros [E K] (Hup & rc & row & Hrc & Hid & Hrow & Hcl). split; [by simpl; rewrite E|].
  destruct (K _ _ Hrow) as (row' & ? & ?). exists rc, row'. split_and!; auto.
Qed.

Lemma tracks_same t id s s' :
  reg s' = reg s → recorderH s' = recorderH s → tracks t id s s'.
Proof. unfold tracks, tracked. by intros -> ->. Qed.

Lemma tracks_trafficClose t id p state now : keeps (tracks t id) (trafficClose p state now).
Proof.
  intros s. destruct p as [p|]; [|by intros ?]. unfold trafficClose, withRecorder.
  rewrite bind_run. simpl. destruct (recorderH s !! p) as [rcp|] eqn:Hp; [|by intros ?].
  intros (Hup & rc & row & Hrc & Hid & Hrow & Hcl).
  pose proof (rows_kept_recorder_close state now rcp (reg s)) as [E K].
  destruct (K _ _ Hrow) as (row' & Hrow' & Hended).
  destruct (Traffic.Close state now rcp (reg s)) as [rc' r'] eqn:Ec. simpl in *.
  split; [by simpl; rewrite E|]. simpl. rewrite lookup_insert.
  case_decide as Heq; [subst p|exists rc, row'; split_and!; auto].
  rewrite Hp in Hrc. injection Hrc as ->.
  assert (tr_id rc' = id) as Hid'.
  { apply (f_equal (tr_id ∘ fst)) in Ec. simpl in Ec. rewrite <- Ec, <- Hid.
    unfold Traffic.Close, flushLocked. destruct (tr_closed rc); [done|]. simpl. by destruct (_ && _). }
  destruct (tr_closed rc) eqn:Hclosed.
  { exists rc', row'. split_and!; try done. intros _. auto. }
  subst id. destruct (recorder_close_ends state now rc (reg s) row Hup Hrow Hclosed) as (row2 & H2 & Hi).
  rewrite Ec in H2. simpl in H2. exists rc', row2. split_and!; try done.
Qed.

(** The registry calls of a teardown leave the rows alone. *)
Lemma rows_kept_SetOnline id b now r : rows_kept r (SetOnline id b now r).2.
Proof. unfold SetOnline, sql_exec. destruct (db_up r) eqn:E; [|apply rows_kept_refl]. split; eauto. Qed.

Lemma rows_kept_audit a b c d now r : rows_kept r (RecordAudit a b c d now r).2.
Proof. unfold RecordAudit, sql_exec. destruct (db_up r) eqn:E; [|apply rows_kept_refl]. split; eauto. Qed.

Lemma tracks_teardown t id td : keeps (tracks t id) (run_teardown td).
Proof.
  destruct td; teardown_walk ltac:(first
    [ apply tracks_trafficClose
    | on_state ltac:(first [ apply tracks_same; reflexivity
        | apply tracks_reg; simpl; first [apply rows_kept_SetOnline | apply rows_kept_audit] ]) ]).
Qed.

(** On the whole server *)
Definition keeps_rows (s s' : Server) : Prop := rows_kept (reg s) (reg s').
#[export] Instance keeps_rows_preorder : PreOrder keeps_rows.
Proof.
  split; [intros ?; apply rows_kept_refl|]. intros x y z. apply rows_kept_trans.
Qed.

Lemma keeps_rows_trafficClose p state now : keeps keeps_rows (trafficClose p state now).
Proof.
  intros s. destruct p as [p|]; [|apply rows_kept_refl]. unfold trafficClose, withRecorder.
  rewrite bind_run. simpl. destruct (recorderH s !! p) as [rc|]; [|apply rows_kept_refl].
  pose proof (rows_kept_recorder_close state now rc (reg s)) as K.
  by destruct (Traffic.Close state now rc (reg s)).
Qed.

Lemma keeps_rows_teardown td : keeps keeps_rows (run_teardown td).
Proof.
  destruct td; teardown_walk ltac:(first
    [ apply keeps_rows_trafficClose
    | on_state ltac:(unfold keeps_rows; simpl; first [apply rows_kept_refl
        | apply rows_kept_SetOnline | apply rows_kept_audit]) ]).
Qed.

(** A closed store is not written. *)
Definition frozen (s s' : Server) : Prop := db_up (reg s) = false → reg s' = reg s.
#[export] Instance frozen_preorder : PreOrder frozen.
Proof.
  split; unfold frozen; [by intros ?|]. intros x y z H1 H2 Hx. rewrite <- (H1 Hx).
  apply H2. by rewrite (H1 Hx).
Qed.

Lemma frozen_trafficClose p state now : keeps frozen (trafficClose p state now).
Proof.
  intros s Hdb. destruct p as [p|]; [|done]. unfold trafficClose, withRecorder.
  rewrite bind_run. simpl. destruct (recorderH s !! p) as [rc|]; [|done].
  unfold Traffic.Close, flushLocked. destruct (tr_closed rc); [done|]. simpl.
  assert (∀ r, db_up r = false → (EndConnection (tr_id rc) state now r).2 = r) as He.
  { intros r Hr. unfold EndConnection, sql_exec. by rewrite Hr. }
  destruct (_ && _); simpl; [by apply He|].
  unfold AddConnectionTraffic, sql_exec at 1. rewrite Hdb. simpl. by apply He.
Qed.

Lemma frozen_teardown td : keeps frozen (run_teardown td).
Proof.
  destruct td; teardown_walk ltac:(first
    [ apply frozen_trafficClose
    | on_state ltac:(intros Hdb; simpl; unfold SetOnline, RecordAudit, sql_exec; rewrite ?Hdb; reflexivity) ]).
Qed.

(** The recorder a handler closes in its teardown *)
Definition recorder_of (td : teardown) : option ref :=
  match td with
  | TTerminal c _ | TFile c _ _ | TScreen c _ _ => ses_traffic c
  | TFiles _ | TAgent _ _ _ _ => None
  end.

Definition ended (id : string) (r : Registry) : Prop :=
  ∃ row, connection_sessions r !! id = Some row ∧ is_Some (c_ended_at row).

Lemma trafficClose_ends t id state now s :
  tracked t id s → ended id (reg (trafficClose (Some t) state now s).2).
Proof.
  intros (Hup & rc & row & Hrc & <- & Hrow & Hcl). unfold trafficClose, withRecorder.
  rewrite bind_run. simpl. rewrite Hrc.
  destruct (tr_closed rc) eqn:E.
  - unfold Traffic.Close. rewrite E. simpl. exists row. auto.
  - destruct (recorder_close_ends state now rc (reg s) row Hup Hrow E) as (row' & Hr' & Hi).
    destruct (Traffic.Close state now rc (reg s)). by exists row'.
Qed.

(** A program that ends with the recorder's close and the socket's *)
Lemma teardown_tail {A} (m : stateM Server A) t id state now w s :
  keeps (tracks t id) m → tracked t id s →
  ended id (reg ((_ ← m; _ ← trafficClose (Some t) state now; wsClose w) s).2).
Proof.
  intros Hm Ht. rewrite bind_run. specialize (Hm s Ht). rewrite bind_run. simpl.
  by apply trafficClose_ends.
Qed.

Lemma teardown_ends td t id s :
  recorder_of td = Some t → tracked t id s → ended id (reg (run_teardown td s).2).
Proof.
  intros Hr Ht.
  destruct td; simpl in Hr; try discriminate; simpl; unfold terminalClose, fileClose, screenClose;
    rewrite Hr.
  - rewrite bind_run. apply (teardown_tail (agentWrite _ _)); [|exact Ht].
    unfold agentWrite. frame_with ltac:(idtac; on_state ltac:(apply tracks_same; reflexivity)).
  - apply (teardown_tail (modifyS _)); [|exact Ht]. intros s0. by apply tracks_same.
  - rewrite bind_run, bind_run. apply (teardown_tail (agentWrite _ _)); [|exact Ht].
    unfold agentWrite. frame_with ltac:(idtac; on_state ltac:(apply tracks_same; reflexivity)).
Qed.

Lemma drained_ends l td t id s :
  td ∈ l → recorder_of td = Some t → tracked t id s → ended id (reg (forM_ l run_teardown s).2).
Proof.
  revert s. induction l as [|x l IH]; intros s Hin Hr Ht; [by apply not_elem_of_nil in Hin|].
  simpl. rewrite bind_run. apply elem_of_cons in Hin as [<-|Hin].
  - destruct (teardown_ends td t id s Hr Ht) as (row & Hrow & He).
    destruct (keeps_forM keeps_rows l run_teardown keeps_rows_teardown (run_teardown td s).2) as [_ K].
    destruct (K _ _ Hrow) as (row' & ? & ?). exists row'. auto.
  - apply IH; [done|done|]. by apply tracks_teardown.
Qed.

(** ** Theorems *)

Section routing_theorems.
Context `{Crypto} `{UrlParser} `{JulianDay} (stamp_text : Time → string).
Context (filepath_Join : string → string → string) (is_regular : string → bool).
Context (WebFS : option (string → option bytes)) (mime : string → string).

(** C8: without a credential the console gives nothing away and changes nothing:
    whatever path, method, query and body a request has, if it does not
    authenticate and its path is dispatched to any endpoint but the public ones,
    the answer is the bare 401 (or the 405 of the ticket endpoint), and the server
    is as before, or as the expired session's removal leaves it. *)
Theorem console_requires_credential includeAgent i r now s pat e :
  ServeMux (routes includeAgent) (r_Path r) = MServe pat e → public e = false →
  (authenticate r now s).1 = None →
  let out := serve stamp_text filepath_Join is_regular WebFS mime (routes includeAgent) i r now s in
  ∃ resp, out.1 = AResponse resp ∧ refusal resp ∧ (out.2 = s ∨ out.2 = (authenticate r now s).2) ∧
    reg out.2 = reg s.
Proof.
  intros Hm Hp Ha out. unfold out, serve. rewrite Hm.
  destruct (handle_refused stamp_text filepath_Join is_regular WebFS mime e i r now s Hp Ha)
    as (resp & Hresp & Href & Hst).
  exists resp. split_and!; [done|done|done|].
  destruct Hst as [->| ->]; [done|]. by apply authenticate_keeps.
Qed.

(** The two planes are separate: the web handler of a deployment with its own
    agent listener dispatches no path at all to the agent endpoints, the agent
    handler dispatches every path to one of its four endpoints or to nothing, and
    each plane does serve its own: the agents' socket, the console's login and the
    UI for every other clean path. *)
Theorem planes_separate path pat e :
  (ServeMux WebHandler path = MServe pat e → e ≠ EAgentWS ∧ e ≠ EScreenLinkWS) ∧
  (ServeMux AgentHandler path = MServe pat e →
     e ∈ [EHealth; EAgentConfig; EAgentWS; EScreenLinkWS]) ∧
  (cleanPath path = path → HasPrefix path "/" = true →
     ∃ pat' e', ServeMux WebHandler path = MServe pat' e') ∧
  (∀ m, m = Handler ∨ m = AgentHandler → ServeMux m "/ws/agent" = MServe "/ws/agent" EAgentWS).
Proof.
  split_and!.
  - intros Hm%ServeMux_endpoint. apply (list_elem_of_fmap_2 snd) in Hm. simpl in Hm.
    revert Hm. unfold WebHandler, routes. simpl. set_solver.
  - intros Hm%ServeMux_endpoint. apply (list_elem_of_fmap_2 snd) in Hm. exact Hm.
  - intros Hc Hr.
    destruct (match_path WebHandler path) as [[pat' e']|] eqn:Em.
    + exists pat', e'. unfold ServeMux. rewrite Hc, Em, String.eqb_refl. cbn [negb].
      destruct (_ && _ && _) eqn:E; [exfalso|done]. bools.
      apply (no_slash_redirect path); [done|done|]. by rewrite Em.
    + assert (("/", EStatic) ∈ WebHandler) as Hroot
        by (apply (bool_decide_unpack _); vm_compute; exact I).
      pose proof (match_path_None _ _ Em _ _ Hroot) as Hn.
      unfold pattern_matches in Hn. simpl in Hn. congruence.
  - intros m [->| ->]; vm_compute; reflexivity.
Qed.

(** C33: shutdown is orderly: every socket registered when it starts is closed, the
    rows of the sessions whose handlers finished in time have ended, the store is
    closed, and a handler that was too late cannot write to it any more. *)
Theorem shutdown_is_orderly drained s :
  let s' := (Close drained s).2 in
  (∀ w, w ∈ live_sockets s → w ∉ open_ws s') ∧
  (∀ td t id, td ∈ drained → recorder_of td = Some t → tracked t id s → ended id (reg s')) ∧
  db_up (reg s') = false ∧
  (∀ late, reg (run_teardown late s').2 = reg s').
Proof.
  intros s'. unfold s', Close. rewrite bind_run, bind_run. unfold closeWebSockets.
  rewrite bind_run. simpl. set (s1 := (forM_ (live_sockets s) wsClose s).2).
  assert (open_ws s1 = open_ws s ∖ list_to_set (live_sockets s)) as Ho by apply wsClose_forM.
  assert (reg s1 = reg s ∧ recorderH s1 = recorderH s) as [E1 E2].
  { pose proof (keeps_forM (λ s s', (reg s', recorderH s') = (reg s, recorderH s))
      (live_sockets s) wsClose ltac:(intros w s0; done) s) as K. simpl in K. by injection K. }
  split_and!.
  - intros w Hw Hin. apply (keeps_forM closes drained run_teardown closes_teardown s1) in Hin.
    rewrite Ho in Hin. set_solver.
  - intros td t id Hin Hr Ht.
    destruct (drained_ends drained td t id s1 Hin Hr) as (row & Hrow & He); [|by exists row].
    by apply (tracks_same t id s s1).
  - done.
  - intros late. by apply frozen_teardown.
Qed.

(** The static handler serves the embedded UI: a path that names a file of it
    is answered with that file, every other one with the entry page, and only
    files other than the entry page may be cached for good. *)
Theorem static_serves_ui ReadFile index r :
  WebFS = Some ReadFile → ReadFile "index.html" = Some index →
  let p := if String.eqb (TrimPrefix (r_Path r) "/") "" then "index.html"
           else TrimPrefix (r_Path r) "/" in
  let out := handleStatic WebFS mime r in
  pg_Status out = StatusOK ∧ pg_Body out = default index (ReadFile p) ∧
  (pg_CacheControl out = "no-cache" ↔ (p = "index.html" ∨ ReadFile p = None)).
Proof.
  clear stamp_text filepath_Join is_regular. intros -> Hi p. unfold handleStatic. fold p. rewrite Hi.
  destruct (ReadFile p) as [raw|] eqn:Hp; simpl.
  - destruct (String.eqb_spec p "index.html") as [E|E]; split_and!; try done; naive_solver.
  - split_and!; try done. naive_solver.
Qed.
End routing_theorems.

(** ** Witnesses *)

Module RoutingDemo.
Import Toy ApiDemo AnalyticsDemo.
Definition anonymous (m path : string) : Request := mkRequest m path [] "" [] [] "relay" true "10.0.0.7:4000".
Definition no_body : inputs :=
  mkInputs None (Err "EOF") (Err "EOF") (λ _, Err "EOF") (Err "EOF") None (Err "EOF") (Err "EOF") "" None None.
Definition regular (path : string) : bool := true.
Definition ui (path : string) : option bytes :=
  if String.eqb path "index.html" then Some ["i"%char]
  else if String.eqb path "assets/a.js" then Some ["j"%char] else None.
Definition types (ext : string) : string := if String.eqb ext ".js" then "text/javascript" else "text/html".
End RoutingDemo.
Import Toy ApiDemo AnalyticsDemo RoutingDemo.

Lemma console_requires_credential_witness :
  let out := serve stamp join regular (Some ui) types (routes false) no_body
               (anonymous "DELETE" "/api/users/admin") 60 srv in
  ∃ resp, out.1 = AResponse resp ∧ rs_Status resp = 401 ∧ reg out.2 = reg srv.
Proof.
  destruct (console_requires_credential stamp join regular (Some ui) types false no_body
    (anonymous "DELETE" "/api/users/admin") 60 srv "/api/users/" EUserByUsername)
    as (resp & Hr & _ & _ & Hreg).
  - vm_compute; reflexivity.
  - reflexivity.
  - vm_compute; reflexivity.
  - exists resp. split; [exact Hr|]. split; [|exact Hreg].
    vm_compute in Hr. injection Hr as <-. reflexivity.
Defined.

Lemma static_serves_ui_witness :
  let out := handleStatic (Some ui) types (anonymous "GET" "/devices/7") in
  pg_Body out = ["i"%char] ∧ pg_CacheControl out = "no-cache" ∧
  pg_CacheControl (handleStatic (Some ui) types (anonymous "GET" "/assets/a.js")) =
    "public, max-age=31536000, immutable".
Proof.
  destruct (static_serves_ui (Some ui) types ui ["i"%char] (anonymous "GET" "/devices/7") eq_refl eq_refl)
    as (_ & Hb & Hc).
  split; [exact Hb|]. split; [|reflexivity]. apply Hc. right. reflexivity.
Defined.
