(* ===== verification/ServerSys.v ===== *)
(** * The server as a concurrent system

    Every WebSocket handler of [internal/server] is a thread: it opens, waits for
    frames, and runs its deferred calls one by one, while the other handlers, the
    fallback timers, the console's requests and the janitor run in between.
    [thread] is where a handler stands, [thread_step] what it does next with what
    it has read, [perform] one step of the whole server; a history is any list of
    [action]s.  A socket accepted by an upgrade is a new one, and the session ids a
    server draws (sixteen random bytes) do not repeat: [perform] ignores an action
    that reuses one.

    The deferred calls of a handler are the list [deferred], those of an agent
    connection [agent_deferred]; run in a row they are the teardown functions of
    [Browser] and [AgentWS] ([deferred_run], [agent_deferred_run]). *)
From Stdlib Require Import ZArith Lia String.
From S2P Require Import Prelude GoStrings Protocol Registry Tickets Traffic Http Server Auth.
From S2P Require Import Forward AgentWS Browser Api Analytics Routing.
Open Scope string_scope.
Open Scope list_scope.
Open Scope Z_scope.

(** ** Handlers as threads *)

Inductive kind := KTerminal | KFile | KManager | KScreen.
#[export] Instance kind_eq_dec : EqDecision kind.
Proof. solve_decision. Defined.

(** A deferred call of a browser handler: forget the session, [close(sess.done)], tell
    the device, complete the connection's row, close the socket *)
Inductive closing_step := CForget | CMarkDone | CStopDevice | CTraffic (state : string) | CSocket.
#[export] Instance closing_step_eq_dec : EqDecision closing_step.
Proof. solve_decision. Defined.

Definition deferred (k : kind) (endState : string) : list closing_step :=
  match k with
  | KTerminal => [CForget; CStopDevice; CTraffic "closed"; CSocket]
  | KFile => [CForget; CTraffic endState; CSocket]
  | KManager => [CForget; CSocket]
  | KScreen => [CForget; CMarkDone; CStopDevice; CTraffic endState; CSocket]
  end.

(** [delete(s.terms, sessionID)] and its siblings *)
Definition forget (k : kind) (sid : string) : stateM Server unit :=
  match k with
  | KTerminal => modifyS (upd_terms (delete sid))
  | KFile => modifyS (upd_files (delete sid))
  | KManager => modifyS (upd_managers (delete sid))
  | KScreen => modifyS (upd_screens (delete sid))
  end.

Definition run_closing (k : kind) (c : session) (x : closing_step) (now : Time)
    : stateM Server unit :=
  match x with
  | CForget => forget k (ses_id c)
  | CMarkDone => modifyS (upd_screenH (alter set_done (ses_ref c)))
  | CStopDevice => _ ← agentWrite (ses_agent c) (session_msg TypeRTCStop (ses_id c)); mret tt
  | CTraffic state => trafficClose (ses_traffic c) state now
  | CSocket => wsClose (ses_ws c)
  end.

(** What an agent's handler runs after its read loop, when [removeAgent] dropped the
    entry and when it did not *)
Inductive agent_closing := GOffline | GForwards | GScreens | GAudit | GSocket.
#[export] Instance agent_closing_eq_dec : EqDecision agent_closing.
Proof. solve_decision. Defined.

Definition agent_deferred (removed : bool) : list agent_closing :=
  if removed then [GOffline; GForwards; GScreens; GAudit; GSocket] else [GSocket].

Definition run_agent_closing (id : string) (w : WS) (x : agent_closing) (now : Time)
    : stateM Server unit :=
  match x with
  | GOffline => _ ← regM (SetOnline id false now); mret tt
  | GForwards => closeAgentForwards id now
  | GScreens => closeAgentScreens id
  | GAudit => audit id "agent.offline" id "" now
  | GSocket => wsClose w
  end.

(** Where a handler stands *)
Inductive thread :=
| TTermStart (r : Request) (c : session)
| TTermLoop (c : session)
| TFileStart (r : Request) (c : session) (actor : string)
| TUpload (c : session) (u : upload)
| TDownload (c : session)
| TFilesLoop (c : session)
| TScreenLoop (c : session)
| TScreenWait (c : session)
| TScreenRelay (c : session) (link : WS) (up down : bool)
| TClosing (k : kind) (c : session) (todo : list closing_step)
| TLink (w : WS) (p : ref)
| TAgent (id : string) (conn : ref) (w : WS)
| TAgentArm (id : string) (conn : ref) (w : WS) (msg : Message) (p : ref)
| TAgentLeave (id : string) (conn : ref) (w : WS)
| TAgentClosing (id : string) (w : WS) (todo : list agent_closing)
| TFired (ft : fallbackTimer).

(** What a handler gets from outside: a decoded message, an event of the upload's
    socket, the desktop's link or its timeout, a frame to copy, a device's message;
    [IRun] when it goes on by itself *)
Inductive input :=
| IFrame (e : option Message)
| IUpload (e : event)
| ILinked
| ITimeout
| ICopy (fromBrowser : bool) (e : option (bool * bytes))
| IAgent (e : option Message) (metric : string)
| IRun.

Section threads.
Context `{Crypto} `{UrlParser}.

Definition close_with (k : kind) (c : session) (endState : string) : thread :=
  TClosing k c (deferred k endState).

(** The read loop of an agent with one message: a tunnel request registers the tunnel
    and then arms its timer, every other message is one step *)
Definition agent_step (id : string) (conn : ref) (w : WS) (msg : Message) (metric : string)
    (now : Time) : stateM Server thread :=
  if String.eqb (Type_ msg) TypeForwardConnect then
    s ← getS;
    if negb (bool_decide (getAgent id s = Some conn)) then mret (TAgentLeave id conn w)
    else
      _ ← touchAgent id now;
      p ← handleForwardConnect id msg metric now;
      mret (match p with Some p => TAgentArm id conn w msg p | None => TAgent id conn w end)
  else
    go ← agentFrame id conn msg metric now;
    mret (if go : bool then TAgent id conn w else TAgentLeave id conn w).

(** One step of a handler; [None] when it has returned.  An input it does not wait for
    leaves it where it is. *)
Definition thread_step (t : thread) (i : input) (now : Time) : stateM Server (option thread) :=
  match t, i with
  | TTermStart r c, IRun =>
      n ← terminalStart r c now;
      mret (Some (match n with Continue => TTermLoop c | Return => close_with KTerminal c "" end))
  | TTermLoop c, IFrame e =>
      n ← terminalEvent c e now;
      mret (Some (match n with Continue => TTermLoop c | Return => close_with KTerminal c "" end))
  | TFileStart r c actor, IRun =>
      n ← fileStart r c actor now;
      mret (Some (match n with
                  | Return => close_with KFile c "closed"
                  | Continue => if String.eqb (QueryGet r "op") "upload"
                                then TUpload c (mkUpload false "closed") else TDownload c
                  end))
  | TUpload c u, IUpload e =>
      n ← uploadEvent c u e now;
      mret (Some (match n.1 with
                  | Continue => TUpload c n.2 | Return => close_with KFile c (up_state n.2) end))
  | TDownload c, IFrame e =>
      n ← downloadEvent c e;
      mret (Some (match n with Continue => TDownload c | Return => close_with KFile c "closed" end))
  | TFilesLoop c, IFrame e =>
      n ← filesEvent c e;
      mret (Some (match n with Continue => TFilesLoop c | Return => close_with KManager c "" end))
  | TScreenLoop c, IFrame e =>
      n ← screenEvent c e;
      mret (Some (match n with
                  | SContinue => TScreenLoop c
                  | SReturn st => close_with KScreen c st
                  | SWaitLink => TScreenWait c
                  end))
  | TScreenWait c, ILinked =>
      l ← screenLinked c;
      mret (Some (match l with Some w => TScreenRelay c w true true | None => TScreenWait c end))
  | TScreenWait c, ITimeout =>
      n ← screenTimeout c;
      mret (Some (match n with SReturn st => close_with KScreen c st | _ => TScreenWait c end))
  | TScreenRelay c w up down, ICopy fromBrowser e =>
      if (if fromBrowser : bool then up else down) then
        n ← relayScreenFrame (ses_ws c) w (ses_traffic c) fromBrowser e now;
        let up := match n with Return => if fromBrowser : bool then false else up | _ => up end in
        let down := match n with Return => if fromBrowser : bool then down else false | _ => down end in
        mret (Some (if up || down then TScreenRelay c w up down else close_with KScreen c "closed"))
      else mret (Some t)
  | TClosing k c (x :: todo), IRun => _ ← run_closing k c x now; mret (Some (TClosing k c todo))
  | TClosing _ _ [], IRun => mret None
  | TLink w p, IRun =>
      s ← getS;
      match screenH s !! p with
      | Some t' => if sc_done t' then _ ← wsClose w; mret None else mret (Some t)
      | None => mret (Some t)
      end
  | TAgent id conn w, IAgent (Some msg) metric =>
      t ← agent_step id conn w msg metric now; mret (Some t)
  | TAgent id conn w, IAgent None _ => mret (Some (TAgentLeave id conn w))
  | TAgentArm id conn w msg p, IRun => _ ← armFallback id msg p now; mret (Some (TAgent id conn w))
  | TAgentLeave id conn w, IRun =>
      removed ← unlinkAgent id conn; mret (Some (TAgentClosing id w (agent_deferred removed)))
  | TAgentClosing id w (x :: todo), IRun =>
      _ ← run_agent_closing id w x now; mret (Some (TAgentClosing id w todo))
  | TAgentClosing _ _ [], IRun => mret None
  | TFired ft, IRun => _ ← fallbackFired ft now; mret None
  | _, _ => mret (Some t)
  end.
End threads.

(** ** The system *)

(** The server, the running handlers, and the sockets and session ids seen so far *)
Record system := mkSystem {
  sy_server : Server;
  sy_threads : gmap nat thread;
  sy_next : nat;
  sy_sockets : gset WS;
  sy_ids : gset string
}.

Inductive action :=
| AOpen (k : kind) (r : Request) (w : option WS) (sid metric : string) (now : Time)
| ALink (r : Request) (w : option WS) (now : Time)
| AHello (r : Request) (w : WS) (hello : option Message) (remote : string) (local : list string)
    (now : Time)
| AStep (tid : nat) (i : input) (now : Time)
| AFire (t : ref) (now : Time)
| AConsole (i : inputs) (r : Request) (now : Time)
| AJanitor (now : Time).

Section system.
Context `{Crypto} `{UrlParser} `{JulianDay} (stamp_text : Time → string).
Context (filepath_Join : string → string → string) (is_regular : string → bool).
Context (WebFS : option (string → option bytes)) (TypeByExtension : string → string).

(** The open step of a kind of session, and its handler's first stand *)
Definition open_session (k : kind) (r : Request) (w : option WS) (sid metric : string) (now : Time)
    : stateM Server (option (session * thread)) :=
  match k with
  | KTerminal =>
      o ← terminalOpen r w sid metric now; mret ((λ c, (c, TTermStart r c)) <$> o.2)
  | KFile =>
      o ← fileOpen r w sid metric now; mret ((λ ca, (ca.1, TFileStart r ca.1 ca.2)) <$> o.2)
  | KManager => o ← filesOpen r w sid now; mret ((λ c, (c, TFilesLoop c)) <$> o.2)
  | KScreen => o ← screenOpen r w sid metric now; mret ((λ c, (c, TScreenLoop c)) <$> o.2)
  end.

(** The socket of a successful upgrade *)
Definition accept (w : WS) (s : Server) : Server := upd_open_ws (λ o, {[w]} ∪ o) s.

Definition spawn (t : thread) (s : Server) (w : gset WS) (ids : gset string) (y : system) : system :=
  mkSystem s (<[sy_next y := t]> (sy_threads y)) (S (sy_next y)) (w ∪ sy_sockets y) (ids ∪ sy_ids y).

Definition with_server (s : Server) (y : system) : system :=
  mkSystem s (sy_threads y) (sy_next y) (sy_sockets y) (sy_ids y).

Definition with_thread (tid : nat) (t : option thread) (s : Server) (y : system) : system :=
  mkSystem s (partial_alter (λ _, t) tid (sy_threads y)) (sy_next y) (sy_sockets y) (sy_ids y).

(** The socket is one never seen before. *)
Definition new_socket (w : option WS) (y : system) : bool :=
  match w with Some w => negb (bool_decide (w ∈ sy_sockets y)) | None => true end.

Definition perform (a : action) (y : system) : system :=
  let s := sy_server y in
  match a with
  | AOpen k r w sid metric now =>
      if new_socket w y && negb (bool_decide (sid ∈ sy_ids y)) then
        match open_session k r w sid metric now s with
        | (Some (c, t), s') => spawn t (accept (ses_ws c) s') {[ses_ws c]} {[sid]} y
        | (None, s') => with_server s' y
        end
      else y
  | ALink r w now =>
      if new_socket w y then
        match screenLink r w now s, w with
        | (inr true, s'), Some w =>
            match screens s !! QueryGet r "session" with
            | Some p => spawn (TLink w p) (accept w s') {[w]} ∅ y
            | None => with_server s' y
            end
        | (_, s'), _ => with_server s' y
        end
      else y
  | AHello r w hello remote local now =>
      if new_socket (Some w) y then
        match agentHello r w hello remote local now (accept w s), hello with
        | (Some p, s'), Some h => spawn (TAgent (DeviceID h) p w) s' {[w]} ∅ y
        | (_, s'), _ => with_server s' y
        end
      else y
  | AStep tid i now =>
      match sy_threads y !! tid with
      | Some t => let '(t', s') := thread_step t i now s in with_thread tid t' s' y
      | None => y
      end
  | AFire t now =>
      match timers s !! t with
      | Some ft =>
          if ft_due ft <=? now then spawn (TFired ft) (upd_timers (delete t) s) ∅ ∅ y else y
      | None => y
      end
  | AConsole i r now =>
      with_server
        (serve stamp_text filepath_Join is_regular WebFS TypeByExtension Handler i r now s).2 y
  | AJanitor now => with_server (sweepAuthState now s).2 y
  end.

Definition run_actions (l : list action) (y : system) : system := foldl (λ y a, perform a y) y l.

(** [NewServer], with no handler running *)
Definition start_system (s : Server) : system := mkSystem s ∅ O ∅ ∅.

(** *** The functions of the components, as runs of the system's steps *)

Lemma deferred_run k endState c now s :
  forM_ (deferred k endState) (λ x, run_closing k c x now) s =
    match k with
    | KTerminal => terminalClose c now s
    | KFile => fileClose c endState now s
    | KManager => filesClose c s
    | KScreen => screenClose c endState now s
    end.
Proof.
  destruct k; unfold terminalClose, fileClose, filesClose, screenClose;
    cbn [deferred forM_ run_closing forget];
    rewrite ?bind_run; cbn [modifyS fst snd]; rewrite ?bind_run; cbn [modifyS fst snd];
    rewrite ?bind_run; cbn [mret stateM_ret]; done.
Qed.

(** A leaving agent's deferred calls after [unlinkAgent] are [agentTeardown]. *)
Lemma agent_deferred_run id conn w now s :
  let '(removed, s1) := unlinkAgent id conn s in
  forM_ (agent_deferred removed) (λ x, run_agent_closing id w x now) s1 =
  agentTeardown id conn w now s.
Proof.
  unfold agentTeardown, removeAgent. rewrite !bind_run.
  destruct (unlinkAgent id conn s) as [removed s1]. cbn [fst snd].
  destruct removed; cbn [agent_deferred forM_ run_agent_closing whenM];
    rewrite ?bind_run; cbn [mret stateM_ret fst snd]; [|done].
  unfold whenM. rewrite !bind_run. by destruct (wsClose _ _) as [[] ?].
Qed.

(** A tunnel request handled in two steps is [agentFrame]: registering the tunnel,
    then arming its timer. *)
Lemma agent_step_connect id conn w msg metric now s :
  Type_ msg = TypeForwardConnect →
  let '(t, s1) := agent_step id conn w msg metric now s in
  match t with
  | TAgentArm _ _ _ m p => (tt, (armFallback id m p now s1).2)
  | _ => (tt, s1)
  end = (tt, (agentFrame id conn msg metric now s).2).
Proof.
  intros Ht. unfold agent_step, agentFrame. rewrite Ht, String.eqb_refl. rewrite !bind_run.
  cbn [getS fst snd]. destruct (negb _); [done|].
  assert (routeAgentMessage id msg metric now =
          (p ← handleForwardConnect id msg metric now;
           match p with Some p => armFallback id msg p now | None => mret tt end)) as ->
    by (unfold routeAgentMessage, is_type; rewrite Ht; reflexivity).
  rewrite !bind_run.
  destruct (handleForwardConnect id msg metric now _) as [[p|] s2]; [|done].
  cbn [fst snd mret stateM_ret]. by destruct (armFallback id msg p now s2).
Qed.
End system.
