(* ===== verification/ServerFrames.v ===== *)
(** * The invariant of the server's state, and what each handler may change

    [server_wf] ties the tables, heaps, recorders and rows of the server together;
    [calm] says that a step keeps it and changes no session's identity, registers
    nothing and opens no socket.  Every handler but the openings, the hello and the
    leaving of an agent is shown calm; those are treated one by one. *)
From Stdlib Require Import ZArith Lia String.
From S2P Require Import Prelude GoStrings Protocol Registry RegistryProps Tickets Traffic Http Server.
From S2P Require Import Auth AuthProps Forward ForwardProps AgentWS AgentProps Browser BrowserProps.
From S2P Require Import Api ApiProps Analytics Routing ServerSys.
Open Scope string_scope.
Open Scope list_scope.
Open Scope Z_scope.

(** ** The registry under a running server *)

(** The calls that neither start a session nor close or reopen the store *)
Definition quiet_op (op : reg_op) : Prop :=
  match op with
  | OpStartConnection _ _ _ _ _ _ _ _ | OpClose | OpReopen _ => False
  | _ => True
  end.

(** Rows are neither made nor lost, and an ended one stays ended. *)
Record quiet (r r' : Registry) : Prop := mkQuiet {
  qu_wf : registry_wf r → registry_wf r';
  qu_up : db_up r' = db_up r;
  qu_row id row : connection_sessions r !! id = Some row →
    ∃ row', connection_sessions r' !! id = Some row' ∧
      (is_Some (c_ended_at row) → is_Some (c_ended_at row'));
  qu_back id row' : connection_sessions r' !! id = Some row' →
    is_Some (connection_sessions r !! id)
}.

#[export] Instance quiet_preorder : PreOrder quiet.
Proof.
  split.
  - intros r. split; eauto.
  - intros x y z [A1 A2 A3 A4] [B1 B2 B3 B4]. split; [auto|congruence| |].
    + intros id row (row1 & H1 & E1)%A3. destruct (B3 _ _ H1) as (row2 & H2 & E2). eauto.
    + intros id row [row1 H1]%B4. eauto.
Qed.

(** Only three calls touch the rows, each by changing one of them. *)
Lemma quiet_same r r' :
  (registry_wf r → registry_wf r') → db_up r' = db_up r →
  connection_sessions r' = connection_sessions r → quiet r r'.
Proof. intros H1 H2 E. split; [done|done|rewrite E; eauto|rewrite E; eauto]. Qed.

Lemma quiet_alter r r' f id :
  (registry_wf r → registry_wf r') → db_up r' = db_up r →
  connection_sessions r' = alter f id (connection_sessions r) →
  (∀ row, is_Some (c_ended_at row) → is_Some (c_ended_at (f row))) → quiet r r'.
Proof.
  intros H1 H2 E Hf. split; [done|done| |]; rewrite E.
  - intros k row Hk. rewrite lookup_alter. case_decide; [subst|eauto]. rewrite Hk. simpl. eauto.
  - intros k row'. rewrite lookup_alter. case_decide; [subst|eauto].
    destruct (connection_sessions r !! k); [eauto|done].
Qed.

Lemma end_row_ended st now row : is_Some (c_ended_at (end_row st now row)).
Proof. unfold end_row. destruct (c_ended_at row) eqn:E; [|simpl; eauto]. by rewrite E. Qed.

Lemma quiet_run_op `{Crypto} op r : quiet_op op → quiet r (run_op op r).
Proof.
  intros Hop. pose proof (wf_run_op op r) as Hwf. destruct op; try done; cbn [run_op] in *;
    try (apply quiet_same; [exact Hwf|..];
      unfold EnsureUser, CreateUser, UpdateUser, DeleteUser, Upsert, SetOnline, Rename, SetGroup,
        SetForwardPolicy, Delete, AddForwardGrant, DeleteForwardGrant, CreateDeviceKey,
        RotateDeviceKey, RevokeDeviceKey, CreateInvite, UseInvite, RecordAudit, updateField,
        insert_user, sql_exec, getUserLocked; reg_cases; done).
  - revert Hwf. unfold SetConnectionTransport, sql_exec. destruct (db_up r) eqn:E; [|reflexivity].
    intros Hwf. eapply (quiet_alter _ _ (set_transport transport) id); [done|done|reflexivity|done].
  - revert Hwf. unfold AddConnectionTraffic, sql_exec. destruct (db_up r) eqn:E; [|reflexivity].
    intros Hwf. eapply (quiet_alter _ _ (add_bytes toDevice fromDevice) id);
      [done|done|reflexivity|done].
  - revert Hwf. unfold EndConnection, sql_exec. destruct (db_up r) eqn:E; [|reflexivity].
    intros Hwf. eapply (quiet_alter _ _ (end_row _ now) id); [done|done|reflexivity|].
    intros row _. apply end_row_ended.
Qed.

(** ** Uniform views of the four kinds of session *)

Definition registered (k : kind) (s : Server) : gmap string ref :=
  match k with
  | KTerminal => terms s | KFile => files s | KManager => managers s | KScreen => screens s
  end.

(** What never changes of a session: its browser socket, its recorder, its device *)
Definition object (k : kind) (p : ref) (s : Server) : option (WS * option ref * string) :=
  match k with
  | KTerminal => (λ t, (ts_browser t, ts_traffic t, ts_deviceID t)) <$> termH s !! p
  | KFile => (λ t, (fs_browser t, fs_traffic t, fs_deviceID t)) <$> fileH s !! p
  | KManager => (λ t, (ms_browser t, None, ms_deviceID t)) <$> managerH s !! p
  | KScreen => (λ t, (sc_browser t, sc_traffic t, sc_deviceID t)) <$> screenH s !! p
  end.

(** ** The invariant of the server's state *)

Record server_wf (s : Server) : Prop := mkServerWf {
  sw_reg : registry_wf (reg s);
  sw_up : db_up (reg s) = true;
  (* references are below the allocator *)
  sw_obj_fresh : ∀ k p, is_Some (object k p s) → (p < next_ref s)%nat;
  sw_agent_fresh : ∀ p, is_Some (agentH s !! p) → (p < next_ref s)%nat;
  sw_fwd_fresh : ∀ p, is_Some (forwardH s !! p) → (p < next_ref s)%nat;
  sw_rec_fresh : ∀ p, is_Some (recorderH s !! p) → (p < next_ref s)%nat;
  (* entries point to objects *)
  sw_tables : ∀ k sid p, registered k s !! sid = Some p → is_Some (object k p s);
  sw_agents : ∀ id p, agents s !! id = Some p →
    ∃ a, agentH s !! p = Some a ∧ ac_deviceID a = id;
  sw_forwards : ∀ sid p, forwards s !! sid = Some p → is_Some (forwardH s !! p);
  sw_timers : ∀ t ft, timers s !! t = Some ft → is_Some (forwardH s !! ft_session ft);
  sw_obj_rec : ∀ k p w q d, object k p s = Some (w, Some q, d) → is_Some (recorderH s !! q);
  sw_fwd_rec : ∀ p f q, forwardH s !! p = Some f → fw_traffic f = Some q →
    is_Some (recorderH s !! q);
  (* a recorder has its row, ended once the recorder is closed; an open row has an
     open recorder *)
  sw_recs : ∀ q rc, recorderH s !! q = Some rc →
    ∃ row, connection_sessions (reg s) !! tr_id rc = Some row ∧
      (tr_closed rc = true → is_Some (c_ended_at row));
  sw_rows : ∀ id row, connection_sessions (reg s) !! id = Some row → c_ended_at row = None →
    ∃ q rc, recorderH s !! q = Some rc ∧ tr_id rc = id ∧ tr_closed rc = false
}.

(** What the steps other than openings, hellos and leavings may change; [X] are new
    recorders that no session holds yet. *)
Record frame_of (X : ref → Prop) (s s' : Server) : Prop := mkFrameOf {
  fo_next : (next_ref s ≤ next_ref s')%nat;
  fo_obj : ∀ k p, object k p s' = object k p s;
  fo_tables : ∀ k sid, registered k s' !! sid = registered k s !! sid ∨ registered k s' !! sid = None;
  fo_agents : agents s' = agents s;
  fo_agentH : ∀ p a, agentH s !! p = Some a →
    ∃ a', agentH s' !! p = Some a' ∧ ac_deviceID a' = ac_deviceID a ∧ ac_ws a' = ac_ws a;
  fo_open : open_ws s' ⊆ open_ws s;
  fo_done : ∀ p t, screenH s !! p = Some t → sc_done t = true →
    ∃ t', screenH s' !! p = Some t' ∧ sc_done t' = true;
  fo_rec : ∀ q rc', recorderH s' !! q = Some rc' → tr_closed rc' = false →
    (∃ rc, recorderH s !! q = Some rc ∧ tr_closed rc = false) ∨
    (∃ p f, forwardH s' !! p = Some f ∧ fw_traffic f = Some q) ∨ X q;
  fo_fwdH : ∀ p f, forwardH s !! p = Some f →
    ∃ f', forwardH s' !! p = Some f' ∧ parties f' = parties f ∧ fw_traffic f' = fw_traffic f;
  fo_fwd : ∀ sid p, forwards s' !! sid = Some p →
    forwards s !! sid = Some p ∨
    ∃ f, forwardH s' !! p = Some f ∧ is_Some (agents s !! fw_source f) ∧
      is_Some (agents s !! fw_target f)
}.

#[export] Instance frame_of_preorder X : PreOrder (frame_of X).
Proof.
  split.
  - intros s. split; eauto 10.
  - intros x y z [A1 A2 A3 A4 A4' A5 A6 A7 A8 A9] [B1 B2 B3 B4 B4' B5 B6 B7 B8 B9]. split.
    + lia.
    + intros k p. by rewrite B2.
    + intros k sid. destruct (B3 k sid) as [->|]; auto.
    + congruence.
    + intros p a (a1 & Ha & E1 & E2)%A4'. destruct (B4' _ _ Ha) as (a2 & ? & ? & ?).
      exists a2. split_and!; [done|congruence..].
    + set_solver.
    + intros p t Ht Hd. destruct (A6 p t Ht Hd) as (t1 & H1 & D1). eauto.
    + intros q rc Hq Hc. destruct (B7 q rc Hq Hc) as [(rc1 & H1 & C1)|]; [|by right].
      destruct (A7 q rc1 H1 C1) as [|[(p & f & Hf & Ht)|]]; [by left|right; left|by right; right].
      destruct (B8 p f Hf) as (f' & ? & _ & E). exists p, f'. split; [done|congruence].
    + intros p f Hf. destruct (A8 p f Hf) as (f1 & H1 & E1 & T1).
      destruct (B8 p f1 H1) as (f2 & ? & E2 & T2). exists f2. split_and!; [done|congruence..].
    + intros sid p Hs. destruct (B9 sid p Hs) as [Hy|(f & Hf & H1 & H2)].
      * destruct (A9 sid p Hy) as [|(f & Hf & H1 & H2)]; [by left|right].
        destruct (B8 p f Hf) as (f' & Hf' & E & _). exists f'. split; [done|].
        unfold parties in E. by injection E as -> ->.
      * right. exists f. rewrite A4 in H1, H2. eauto.
Qed.

(** The invariant is kept, and the frame respected. *)
Definition calm_with (X : ref → Prop) (s s' : Server) : Prop :=
  server_wf s → server_wf s' ∧ frame_of X s s'.
Abbreviation calm := (calm_with (λ _, False)).

#[export] Instance calm_preorder X : PreOrder (calm_with X).
Proof.
  split.
  - intros s Hwf. by split.
  - intros x y z H1 H2 Hx. destruct (H1 Hx) as [Hy F1]. destruct (H2 Hy) as [Hz F2].
    split; [done|]. by etrans.
Qed.

Lemma calm_mono (X Y : ref → Prop) s s' : (∀ q, X q → Y q) → calm_with X s s' → calm_with Y s s'.
Proof.
  intros HXY Hc Hwf. destruct (Hc Hwf) as [Hwf' []]. split; [done|]. constructor; eauto.
  intros q rc Hq Ho. destruct (fo_rec0 q rc Hq Ho) as [|[|]]; auto.
Qed.

(** ** Single updates *)

(** Changes of the fields the invariant does not mention, sockets that close, and
    fresh references *)
Lemma calm_eq s s' :
  reg s' = reg s → (∀ k, registered k s' = registered k s) → (∀ k p, object k p s' = object k p s) →
  agents s' = agents s → agentH s' = agentH s → forwards s' = forwards s →
  forwardH s' = forwardH s → recorderH s' = recorderH s → timers s' = timers s →
  screenH s' = screenH s → (next_ref s ≤ next_ref s')%nat → open_ws s' ⊆ open_ws s → calm s s'.
Proof.
  intros E1 E2 E3 E4 E5 E6 E7 E8 E9 E10 Hn Ho []. split.
  - constructor; rewrite ?E1, ?E4, ?E5, ?E6, ?E7, ?E8, ?E9; try done; intros *; rewrite ?E2, ?E3; eauto.
    all: intros Hs; eapply Nat.lt_le_trans; [|exact Hn]; eauto.
  - constructor; rewrite ?E4, ?E5, ?E6, ?E7, ?E8, ?E10; try done; intros *; rewrite ?E2; eauto.
Qed.

(** A call of the registry *)
Lemma calm_reg s r : quiet (reg s) r → calm s (upd_reg (λ _, r) s).
Proof.
  intros [Q1 Q2 Q3 Q4] []. split.
  - constructor; simpl; try done; [auto|congruence| |].
    + intros q rc Hq. destruct (sw_recs0 q rc Hq) as (row & Hr & He).
      destruct (Q3 _ _ Hr) as (row' & ? & ?). eauto.
    + intros id row' Hr' He. destruct (Q4 _ _ Hr') as [row Hr].
      destruct (c_ended_at row) eqn:Ee; [|eauto].
      destruct (Q3 _ _ Hr) as (row2 & H2 & E2). rewrite Hr' in H2. injection H2 as <-.
      destruct E2 as [? E2]; [by rewrite Ee|congruence].
  - constructor; simpl; eauto.
Qed.

Lemma calm_op `{Crypto} op s : quiet_op op → calm s (upd_reg (λ _, run_op op (reg s)) s).
Proof. intros Hop. by apply calm_reg, quiet_run_op. Qed.

(** A session is forgotten. *)
Lemma calm_forget k sid : keeps calm (forget k sid).
Proof.
  intros s Hwf. assert (∀ k', registered k' (forget k sid s).2 =
    if decide (k' = k) then delete sid (registered k' s) else registered k' s) as Hr
    by (by intros []; destruct k).
  assert (∀ k' p, object k' p (forget k sid s).2 = object k' p s) as Ho by (by destruct k).
  assert (∀ k' i p, registered k' (forget k sid s).2 !! i = Some p → registered k' s !! i = Some p)
    as Hi by (intros k' i p; rewrite Hr; case_decide; [by intros [_ ?]%lookup_delete_Some|done]).
  destruct Hwf. split.
  - destruct k; (constructor; try done; intros *; rewrite ?Ho; eauto).
  - destruct k; (constructor; try done; eauto; intros k' i; rewrite Hr; case_decide; auto;
      rewrite lookup_delete; case_decide; auto).
Qed.

(** A change of a terminal's or a desktop's mutable fields *)
Lemma calm_alter_term f p s :
  (∀ t, ts_browser (f t) = ts_browser t ∧ ts_traffic (f t) = ts_traffic t ∧
        ts_deviceID (f t) = ts_deviceID t) →
  calm s (upd_termH (alter f p) s).
Proof.
  intros Hf. assert (∀ k q, object k q (upd_termH (alter f p) s) = object k q s) as Ho.
  { intros [] q; try done. simpl. rewrite lookup_alter. case_decide; [subst|done].
    destruct (termH s !! q) as [t|]; [|done]. simpl. destruct (Hf t) as (-> & -> & ->). done. }
  by apply calm_eq.
Qed.

Lemma calm_alter_screen f p s :
  (∀ t, sc_browser (f t) = sc_browser t ∧ sc_traffic (f t) = sc_traffic t ∧
        sc_deviceID (f t) = sc_deviceID t ∧ (sc_done t = true → sc_done (f t) = true)) →
  calm s (upd_screenH (alter f p) s).
Proof.
  intros Hf Hwf. assert (∀ k q, object k q (upd_screenH (alter f p) s) = object k q s) as Ho.
  { intros [] q; try done. simpl. rewrite lookup_alter. case_decide; [subst|done].
    destruct (screenH s !! q) as [t|]; [|done]. simpl. destruct (Hf t) as (-> & -> & -> & _). done. }
  destruct Hwf. split.
  - constructor; try done; intros *; rewrite Ho; eauto.
  - constructor; simpl; eauto.
    intros q t Hq Hd. rewrite lookup_alter. case_decide; [subst|eauto]. rewrite Hq. simpl.
    destruct (Hf t) as (_ & _ & _ & H4). eauto.
Qed.

(** A change of an agent's mutable fields *)
Lemma calm_alter_agent f p s :
  (∀ a, ac_deviceID (f a) = ac_deviceID a ∧ ac_ws (f a) = ac_ws a) →
  calm s (upd_agentH (alter f p) s).
Proof.
  intros Hf []. split.
  - constructor; try done; simpl.
    + intros q. rewrite lookup_alter. case_decide; [subst|eauto].
      destruct (agentH s !! q) eqn:E; [|by intros []]. eauto.
    + intros id q Hq. destruct (sw_agents0 id q Hq) as (a & Ha & Hi).
      rewrite lookup_alter. case_decide; [subst|eauto]. rewrite Ha. simpl. destruct (Hf a). eauto.
  - constructor; simpl; eauto. intros q a Ha. rewrite lookup_alter. case_decide; [subst|eauto].
    rewrite Ha. simpl. destruct (Hf a). eauto.
Qed.

(** Tunnels are forgotten. *)
Lemma calm_forwards g s :
  (∀ sid p, g (forwards s) !! sid = Some p → forwards s !! sid = Some p) →
  calm s (upd_forwards g s).
Proof.
  intros Hg []. split; constructor; simpl; eauto.
Qed.

(** A method of a tunnel *)
Lemma calm_onForward p g :
  (∀ f, parties (g f) = parties f ∧ fw_traffic (g f) = fw_traffic f) → keeps calm (onForward p g).
Proof.
  intros Hg s []. unfold onForward. simpl.
  assert (∀ q f', alter g p (forwardH s) !! q = Some f' →
    ∃ f, forwardH s !! q = Some f ∧ fw_traffic f' = fw_traffic f) as Hb.
  { intros q f'. rewrite lookup_alter. case_decide; [subst|eauto].
    destruct (forwardH s !! q) as [f|]; [|done]. simpl. intros [= <-]. destruct (Hg f). eauto. }
  assert (∀ q, is_Some (forwardH s !! q) → is_Some (alter g p (forwardH s) !! q)) as Hs.
  { intros q [f Hf]. rewrite lookup_alter. case_decide; [subst|eauto]. rewrite Hf. simpl. eauto. }
  split.
  - constructor; try done; simpl; eauto.
    + intros q [f' Hf']. destruct (Hb q f' Hf') as (f & ? & _). eauto.
    + intros q f' x Hf' Hx. destruct (Hb q f' Hf') as (f & Hf & E). rewrite E in Hx. eauto.
  - constructor; simpl; eauto.
    intros q f Hf. rewrite lookup_alter. case_decide; [subst|eauto]. rewrite Hf. simpl.
    destruct (Hg f). eauto.
Qed.

Lemma calm_timerStop t : keeps calm (timerStop t).
Proof.
  destruct t as [t|]; [|by intros s; simpl]. intros s []. simpl.
  split; constructor; simpl; eauto. intros u ft [_ Hu]%lookup_delete_Some. eauto.
Qed.

Lemma calm_new_timer t ft s :
  is_Some (forwardH s !! ft_session ft) → calm s (upd_timers (<[t := ft]>) s).
Proof.
  intros Hf []. split; constructor; simpl; eauto.
  intros u x. rewrite lookup_insert_Some. intros [[_ <-]|[_ Hu]]; eauto.
Qed.

(** *** Recorders *)

Lemma calm_record p rc rc' r' s :
  recorderH s !! p = Some rc → quiet (reg s) r' → tr_id rc' = tr_id rc →
  (tr_closed rc = true → tr_closed rc' = true) →
  (tr_closed rc' = true → ∀ row, connection_sessions r' !! tr_id rc = Some row →
     is_Some (c_ended_at row)) →
  calm s (upd_reg (λ _, r') (upd_recorderH (<[p := rc']>) s)).
Proof.
  intros Hp Hq Hid Hcl Hend Hwf.
  assert (calm s (upd_reg (λ _, r') s)) as Hc by (by apply calm_reg).
  destruct (Hc Hwf) as [[] [_ _ _ _ _ _ _ _ _ _]]. simpl in *. clear Hc.
  assert (∀ q, is_Some (recorderH s !! q) → is_Some (<[p := rc']> (recorderH s) !! q)) as Hs.
  { intros q Hq'. rewrite lookup_insert. case_decide; eauto. }
  split.
  - constructor; try done; simpl; eauto.
    + intros q. rewrite lookup_insert. case_decide; [subst; intros _|]; eauto.
    + intros q x. rewrite lookup_insert_Some. intros [[<- <-]|[_ Hx]]; [|eauto].
      rewrite Hid. destruct (sw_recs0 p rc Hp) as (row & Hr & _). exists row. split; [done|].
      intros Hx. by apply Hend.
    + intros id row Hr He. destruct (sw_rows0 id row Hr He) as (q & x & Hx & Ei & Ec).
      destruct (decide (q = p)) as [->|Hne].
      * assert (x = rc) as -> by congruence. exists p, rc'. rewrite lookup_insert_eq.
        split_and!; [done|congruence|]. destruct (tr_closed rc') eqn:E; [|done].
        rewrite <- Ei in Hr. destruct (Hend eq_refl row Hr). congruence.
      * exists q, x. rewrite lookup_insert_ne by done. done.
  - constructor; simpl; eauto.
    intros q x. rewrite lookup_insert_Some. intros [[<- <-]|[_ Hx]] Hx'; [|eauto].
    left. exists rc. split; [done|]. destruct (tr_closed rc) eqn:E; [|done].
    rewrite Hcl in Hx'; done.
Qed.

Lemma quiet_flush `{Crypto} now rc r :
  quiet r (flushLocked now rc r).2 ∧ tr_id (flushLocked now rc r).1 = tr_id rc ∧
  tr_closed (flushLocked now rc r).1 = tr_closed rc.
Proof.
  unfold flushLocked. destruct (_ && _); [by split_and!|]. simpl. split_and!; [|done..].
  by apply (quiet_run_op (OpAddConnectionTraffic _ _ _ _)).
Qed.

Lemma end_connection_row id st now r row :
  db_up r = true → connection_sessions (EndConnection id st now r).2 !! id = Some row →
  is_Some (c_ended_at row).
Proof.
  intros Hup. unfold EndConnection, sql_exec. rewrite Hup. simpl. rewrite lookup_alter_eq.
  destruct (connection_sessions r !! id); [|done]. intros [= <-]. apply end_row_ended.
Qed.

Lemma calm_trafficAdd `{Crypto} t a b now : keeps calm (trafficAdd t a b now).
Proof.
  intros s. unfold trafficAdd, withRecorder. destruct t as [p|]; [|done]. rewrite bind_run.
  cbn [getS fst snd]. destruct (recorderH s !! p) as [rc|] eqn:Hp; [|done].
  unfold Add. destruct (tr_closed rc) eqn:Hc.
  - cbn [fst snd]. rewrite bind_run. cbn [modifyS fst snd]. intros Hwf.
    apply (calm_record p rc rc); try done. intros _ row Hr.
    destruct (sw_recs s Hwf p rc Hp) as (row' & Hr' & He). rewrite Hr in Hr'.
    injection Hr' as <-. auto.
  - set (rc1 := mkRecorder _ _ _ _ _). destruct (_ || _).
    + destruct (quiet_flush now rc1 (reg s)) as (Q & E1 & E2).
      destruct (flushLocked now rc1 (reg s)) as [rc2 r2]. simpl in *.
      apply (calm_record p rc rc2); try done; congruence.
    + apply (calm_record p rc rc1); try done; congruence.
Qed.

(** Closing a session's recorder ends its row. *)
Lemma Close_effect `{Crypto} st now rc r :
  db_up r = true → tr_closed rc = false →
  let '(rc', r') := Traffic.Close st now rc r in
  quiet r r' ∧ tr_id rc' = tr_id rc ∧ tr_closed rc' = true ∧
  ∀ row, connection_sessions r' !! tr_id rc = Some row → is_Some (c_ended_at row).
Proof.
  intros Hup Hc. unfold Traffic.Close. rewrite Hc.
  set (rc1 := mkRecorder _ _ _ _ true). destruct (quiet_flush now rc1 r) as (Q & E1 & E2).
  destruct (flushLocked now rc1 r) as [rc2 r2]. simpl in *. rewrite E1. split_and!; [|done|done|].
  - etrans; [exact Q|]. by apply (quiet_run_op (OpEndConnection _ _ _)).
  - intros row. apply end_connection_row. rewrite (qu_up _ _ Q). done.
Qed.

Lemma calm_trafficClose `{Crypto} t st now : keeps calm (trafficClose t st now).
Proof.
  intros s Hwf. unfold trafficClose, withRecorder. destruct t as [p|]; [|by split].
  rewrite bind_run. cbn [getS fst snd].
  destruct (recorderH s !! p) as [rc|] eqn:Hp; [|by split].
  destruct (tr_closed rc) eqn:Hc.
  - unfold Traffic.Close. rewrite Hc. cbn [fst snd]. rewrite bind_run. cbn [modifyS fst snd].
    apply (calm_record p rc rc); try done. intros _ row Hr.
    destruct (sw_recs s Hwf p rc Hp) as (row' & Hr' & He). rewrite Hr in Hr'.
    injection Hr' as <-. auto.
  - pose proof (Close_effect st now rc (reg s) (sw_up s Hwf) Hc) as He.
    destruct (Traffic.Close st now rc (reg s)) as [rc' r']. destruct He as (Q & E1 & E2 & E3).
    rewrite bind_run. cbn [modifyS fst snd]. by apply (calm_record p rc rc').
Qed.

(** ** The handlers *)

(** A registry call of a handler, as an operation *)
Ltac calm_reg_leaf :=
  lazymatch goal with
  | |- calm_with _ ?s (upd_reg (λ _, (?m (reg ?s)).2) ?s) =>
      lazymatch m with
      | SetConnectionTransport ?a ?b => apply (calm_op (OpSetConnectionTransport a b) s I)
      | RecordAudit ?a ?b ?c ?d ?e => apply (calm_op (OpRecordAudit a b c d e) s I)
      | SetOnline ?a ?b ?c => apply (calm_op (OpSetOnline a b c) s I)
      | Upsert ?a ?b ?c ?d ?e ?f ?g => apply (calm_op (OpUpsert a b c d e f g) s I)
      | Rename ?a ?b => apply (calm_op (OpRename a b) s I)
      | SetGroup ?a ?b => apply (calm_op (OpSetGroup a b) s I)
      | SetForwardPolicy ?a ?b => apply (calm_op (OpSetForwardPolicy a b) s I)
      | Delete ?a => apply (calm_op (OpDelete a) s I)
      | CreateUser ?a ?b ?c ?d ?e ?f ?g => apply (calm_op (OpCreateUser a b c d e f g) s I)
      | UpdateUser ?a ?b ?c ?d ?e ?f => apply (calm_op (OpUpdateUser a b c d e f) s I)
      | DeleteUser ?a => apply (calm_op (OpDeleteUser a) s I)
      | AddForwardGrant ?a ?b ?c ?d ?e => apply (calm_op (OpAddForwardGrant a b c d e) s I)
      | DeleteForwardGrant ?a ?b ?c ?d => apply (calm_op (OpDeleteForwardGrant a b c d) s I)
      | CreateDeviceKey ?a ?b ?c ?d ?e => apply (calm_op (OpCreateDeviceKey a b c d e) s I)
      | RotateDeviceKey ?a ?b ?c ?d => apply (calm_op (OpRotateDeviceKey a b c d) s I)
      | RevokeDeviceKey ?a => apply (calm_op (OpRevokeDeviceKey a) s I)
      | CreateInvite ?a ?b ?c ?d => apply (calm_op (OpCreateInvite a b c d) s I)
      | UseInvite ?a => apply (calm_op (OpUseInvite a) s I)
      end
  end.

(** A step of a handler that keeps the invariant: a sibling lemma, a registry call, a
    field the invariant does not mention, a closed socket *)
Ltac calm_leaf :=
  idtac; lazymatch goal with
  | |- keeps _ (trafficAdd _ _ _ _) => apply calm_trafficAdd
  | |- keeps _ (trafficClose _ _ _) => apply calm_trafficClose
  | |- keeps _ (timerStop _) => apply calm_timerStop
  | |- keeps _ (onForward _ _) =>
      apply calm_onForward; intros ?; unfold markDirect, markRelay, setTimer, stopTimer; simpl;
      by repeat case_match
  | |- calm_with _ _ (upd_reg _ _) => calm_reg_leaf
  | |- calm_with _ _ (upd_termH _ _) => by apply calm_alter_term
  | |- calm_with _ _ (upd_screenH _ _) => by apply calm_alter_screen
  | |- calm_with _ _ (upd_agentH _ _) => by apply calm_alter_agent
  | |- calm_with _ _ (upd_terms _ _) => apply (calm_forget KTerminal)
  | |- calm_with _ _ (upd_files _ _) => apply (calm_forget KFile)
  | |- calm_with _ _ (upd_managers _ _) => apply (calm_forget KManager)
  | |- calm_with _ _ (upd_screens _ _) => apply (calm_forget KScreen)
  | |- calm_with _ _ (upd_forwards _ _) =>
      apply calm_forwards; by intros ?? [_ ?]%lookup_delete_Some
  | |- calm_with _ _ _ => apply calm_eq; simpl; first [done | lia | set_solver]
  end.
Ltac calm_walk := frame_with ltac:(calm_leaf).

Section handlers.
Context `{Crypto} `{UrlParser}.

Lemma calm_audit a b c d now : keeps calm (audit a b c d now).
Proof. unfold audit. calm_walk. Qed.

Lemma calm_wsClose w : keeps calm (wsClose w).
Proof. unfold wsClose. calm_walk. Qed.

Lemma calm_wsWrite w f : keeps calm (wsWrite w f).
Proof. calm_walk. Qed.

Lemma calm_agentWrite p m : keeps calm (agentWrite p m).
Proof. unfold agentWrite. calm_walk. Qed.

Lemma calm_touchAgent id now : keeps calm (touchAgent id now).
Proof. unfold touchAgent. calm_walk. Qed.

Lemma calm_forM {A} (l : list A) f : (∀ x, keeps calm (f x)) → keeps calm (forM_ l f).
Proof. apply keeps_forM, _. Qed.

Lemma calm_closeForward sid st now : keeps calm (closeForward sid st now).
Proof. unfold closeForward. calm_walk. Qed.

Lemma calm_sendForwardError d sid e : keeps calm (sendForwardError d sid e).
Proof. unfold sendForwardError, agentWrite. calm_walk. Qed.

Lemma calm_fallbackFired ft now : keeps calm (fallbackFired ft now).
Proof.
  unfold fallbackFired, startRelayFallback, agentWrite.
  frame_with ltac:(first [calm_leaf | apply calm_closeForward]).
Qed.

Lemma calm_handleDirectOK d msg now : keeps calm (handleDirectOK d msg now).
Proof. unfold handleDirectOK. calm_walk. Qed.

Lemma calm_relayForward from msg now : keeps calm (relayForward from msg now).
Proof.
  unfold relayForward, agentWrite. frame_with ltac:(first [calm_leaf | apply calm_closeForward]).
Qed.

(** Arming the timer of a tunnel *)
Lemma calm_armFallback src msg p now : keeps calm (armFallback src msg p now).
Proof.
  intros s. unfold armFallback. rewrite bind_run. cbn [getS fst snd].
  destruct (forwardH s !! p) as [f|] eqn:Hf; [|done]. unfold fresh. rewrite !bind_run. cbn -[timerStop].
  etrans; [|apply calm_onForward; by intros].
  etrans; [|apply calm_timerStop].
  etrans; [|apply calm_new_timer; simpl; by rewrite Hf]. apply calm_eq; simpl; first [done|lia].
Qed.

(** *** A new session's row and recorder *)

Lemma calm_metric metric actor dev peer service transport ip now s :
  let '(m, s1) := regM (StartConnection metric actor dev peer service transport ip now) s in
  let '(t, s2) := startTraffic m now s1 in
  calm_with (λ q, t = Some q) s s2 ∧ (next_ref s ≤ next_ref s2)%nat ∧
  (server_wf s → ∀ q, t = Some q → is_Some (recorderH s2 !! q)).
Proof.
  unfold regM, StartConnection.
  destruct (db_up (reg s)) eqn:Hup; cbn [negb].
  2:{ simpl. split_and!; [|done..]. apply (calm_mono (λ _, False)); [done|]. by apply calm_eq. }
  destruct (connection_sessions (reg s) !! metric) as [row|] eqn:Hm.
  { simpl. split_and!; [|done..]. apply (calm_mono (λ _, False)); [done|]. by apply calm_eq. }
  cbn [startTraffic]. unfold fresh. rewrite !bind_run. cbn.
  split_and!; [|lia|intros _ q [= <-]; rewrite lookup_insert_eq; eauto].
  intros Hwf.
  assert (recorderH s !! next_ref s = None) as Hn.
  { destruct (recorderH s !! next_ref s) eqn:E; [|done].
    assert (next_ref s < next_ref s)%nat by (apply (sw_rec_fresh s Hwf); rewrite E; eauto). lia. }
  destruct Hwf. split.
  - constructor; simpl; try done; eauto.
    + by apply (wf_run_op (OpStartConnection metric actor dev peer service transport ip now)) in
        sw_reg0; cbn [run_op] in sw_reg0; unfold StartConnection in sw_reg0;
        rewrite Hup, Hm in sw_reg0.
    + intros k p Hp. apply Nat.lt_lt_succ_r. by eapply sw_obj_fresh0.
    + intros p Hp. apply Nat.lt_lt_succ_r. auto.
    + intros p Hp. apply Nat.lt_lt_succ_r. auto.
    + intros q. rewrite lookup_insert. case_decide; [subst; intros _; lia|].
      intros Hq. apply sw_rec_fresh0 in Hq. lia.
    + intros k p w q d Ho. rewrite lookup_insert. case_decide; eauto.
    + intros p f q Hf Hq. rewrite lookup_insert. case_decide; eauto.
    + intros q rc. rewrite lookup_insert_Some. intros [[_ <-]|[_ Hq]].
      * simpl. rewrite lookup_insert_eq. eexists. by split.
      * destruct (sw_recs0 q rc Hq) as (row & Hr & He). exists row. split; [|done].
        rewrite lookup_insert_ne; [done|]. intros E. rewrite <- E in Hr. congruence.
    + intros id row. rewrite lookup_insert_Some. intros [[<- _]|[_ Hr]] He.
      * exists (next_ref s), (newTrafficRecorder metric now). by rewrite lookup_insert_eq.
      * destruct (sw_rows0 id row Hr He) as (q & rc & Hq & ? & ?). exists q, rc.
        rewrite lookup_insert_ne; [done|]. intros E. rewrite E in Hn. congruence.
  - constructor; simpl; eauto.
    intros q rc. rewrite lookup_insert_Some. intros [[<- _]|[_ Hq]]; eauto.
Qed.

(** *** A new tunnel *)

(** The registration of a tunnel whose parties are both connected *)
Lemma calm_new_tunnel sid src target t s s2 :
  let p := next_ref s2 in
  let s3 := upd_forwards (<[sid := p]>) (upd_forwardH
    (<[p := mkForwardSession src target false "negotiating" None t]>) (upd_next_ref S s2)) in
  server_wf s2 → frame_of (λ q, t = Some q) s s2 →
  (∀ q, t = Some q → is_Some (recorderH s2 !! q)) →
  is_Some (agents s !! src) → is_Some (agents s !! target) →
  server_wf s3 ∧ frame_of (λ _, False) s s3.
Proof.
  intros p s3 Hwf [] Hr Hsrc Htgt.
  assert (forwardH s2 !! p = None) as Hn.
  { subst p. destruct (forwardH s2 !! next_ref s2) eqn:E; [|done].
    assert (next_ref s2 < next_ref s2)%nat by (apply (sw_fwd_fresh s2 Hwf); rewrite E; eauto). lia. }
  assert (∀ q f, forwardH s2 !! q = Some f → forwardH s3 !! q = Some f) as Hkeep.
  { intros q f Hq. subst s3. simpl. rewrite lookup_insert_ne; [done|]. intros E.
    rewrite <- E in Hq. congruence. }
  assert (forwardH s3 !! p = Some (mkForwardSession src target false "negotiating" None t)) as Hp
    by (subst s3; simpl; by rewrite lookup_insert_eq).
  destruct Hwf. split.
  - constructor; try done.
    + intros k q Hq. apply Nat.lt_lt_succ_r. by eapply sw_obj_fresh0.
    + intros q Hq. apply Nat.lt_lt_succ_r. auto.
    + intros q. subst s3 p. simpl. rewrite lookup_insert. case_decide; [subst; intros _; lia|].
      intros Hq. apply sw_fwd_fresh0 in Hq. lia.
    + intros q Hq. apply Nat.lt_lt_succ_r. auto.
    + intros i q. subst s3. simpl. rewrite lookup_insert_Some. intros [[<- <-]|[_ Hq]].
      * eexists. exact Hp.
      * destruct (sw_forwards0 i q Hq) as [f Hf]. eexists. exact (Hkeep _ _ Hf).
    + intros u ft Hu. destruct (sw_timers0 u ft Hu) as [f Hf]. eexists. exact (Hkeep _ _ Hf).
    + intros q f x. subst s3. simpl. rewrite lookup_insert_Some.
      intros [[<- <-]|[_ Hf]]; simpl; [|eauto]. intros E. by apply Hr.
  - constructor; try done.
    + subst s3. simpl. lia.
    + intros q rc Hq Ho. destruct (fo_rec0 q rc Hq Ho) as [|[(q' & f & Hf & Ht)|Ht]]; [by left|..].
      * right; left. exists q', f. eauto.
      * right; left. exists p. eauto.
    + intros q f Hf. destruct (fo_fwdH0 q f Hf) as (f' & Hf' & E1 & E2). eauto.
    + intros i q. subst s3. simpl. rewrite lookup_insert_Some. intros [[<- <-]|[_ Hq]].
      * right. eexists. split; [exact Hp|]. by simpl.
      * destruct (fo_fwd0 i q Hq) as [|(f & Hf & ?)]; [by left|]. right. exists f. eauto.
Qed.

Lemma connect_refused_calm src msg metric now s :
  connect_valid msg = false ∨ getAgent src s = None ∨ getAgent (Target msg) s = None ∨
  ForwardAllowed src (Target msg) (Port msg) (reg s) = false →
  calm s (handleForwardConnect src msg metric now s).2.
Proof.
  intros Hno. unfold handleForwardConnect. unfold connect_valid in Hno.
  destruct (_ || _); cbn [negb] in Hno.
  { rewrite bind_run. apply calm_sendForwardError. }
  rewrite bind_run. cbn [getS fst snd].
  destruct (getAgent src s); [|rewrite bind_run; apply calm_sendForwardError].
  destruct (getAgent (Target msg) s); [|rewrite bind_run; apply calm_sendForwardError].
  destruct (ForwardAllowed _ _ _ _); cbn [negb]; [naive_solver|].
  rewrite !bind_run. etrans; [|apply calm_sendForwardError]. unfold regM.
  pose proof (calm_op (OpRecordAudit src "forward.denied" (Target msg)
    (Target msg +:+ ":" +:+ Itoa (Port msg)) now) s I) as Hc.
  cbn [run_op] in Hc. by destruct (RecordAudit _ _ _ _ _ _).
Qed.

Lemma calm_handleForwardConnect src msg metric now : keeps calm (handleForwardConnect src msg metric now).
Proof.
  intros s.
  destruct (connect_valid msg) eqn:Hv; [|apply connect_refused_calm; by left].
  destruct (getAgent src s) as [source|] eqn:Hs; [|apply connect_refused_calm; by right; left].
  destruct (getAgent (Target msg) s) as [target|] eqn:Ht; [|apply connect_refused_calm; auto].
  destruct (ForwardAllowed src (Target msg) (Port msg) (reg s)) eqn:Ha;
    [|apply connect_refused_calm; auto].
  unfold handleForwardConnect. unfold connect_valid in Hv. apply negb_true_iff in Hv. rewrite Hv.
  rewrite bind_run. cbn [getS fst snd]. rewrite Hs, Ht, Ha. cbn [negb].
  rewrite bind_run.
  pose proof (calm_metric metric src (Target msg) src ("tcp:" +:+ Itoa (Port msg)) "negotiating"
    (publicIP source s) now s) as Hm.
  destruct (regM _ s) as [m s1]. rewrite bind_run. cbn [fst snd].
  destruct (startTraffic m now s1) as [t s2]. destruct Hm as (Hc & Hn & Hr). cbn [fst snd].
  rewrite !bind_run. cbn [fresh]. unfold fresh. rewrite !bind_run. cbn -[regM].
  intros Hwf. destruct (Hc Hwf) as [Hwf2 Hf2].
  set (s3 := upd_forwards _ _).
  assert (server_wf s3 ∧ frame_of (λ _, False) s s3) as [Hwf3 Hf3]
    by (apply calm_new_tunnel; eauto).
  destruct (keeps_regM calm (RecordAudit src "forward.connect" (Target msg) (Itoa (Port msg)) now)
    ltac:(intros; calm_reg_leaf) s3 Hwf3) as [Hwf4 Hf4].
  split; [done|]. by etrans.
Qed.

(** *** Frames of a device *)

Lemma calm_routeTerm d msg now : keeps calm (routeTerm d msg now).
Proof. unfold routeTerm, writeOrClose, wsClose. calm_walk. Qed.

Lemma calm_routeFile d msg now : keeps calm (routeFile d msg now).
Proof. unfold routeFile, writeOrClose, wsClose. calm_walk. Qed.

Lemma calm_routeManager d msg : keeps calm (routeManager d msg).
Proof. unfold routeManager. calm_walk. Qed.

Lemma calm_routeScreenError d msg : keeps calm (routeScreenError d msg).
Proof. unfold routeScreenError, writeOrClose, wsClose. calm_walk. Qed.

Lemma calm_routeBrowserRTC d msg : keeps calm (routeBrowserRTC d msg).
Proof. unfold routeBrowserRTC, deliverRTC. calm_walk. Qed.

Lemma calm_routeAgentMessage d msg metric now : keeps calm (routeAgentMessage d msg metric now).
Proof.
  unfold routeAgentMessage. frame_with ltac:(first
    [ apply calm_routeTerm | apply calm_routeFile | apply calm_routeManager
    | apply calm_routeScreenError | apply calm_routeBrowserRTC | apply calm_relayForward
    | apply calm_handleForwardConnect | apply calm_handleDirectOK | apply calm_armFallback
    | calm_leaf ]).
Qed.

Lemma calm_agentFrame id conn msg metric now : keeps calm (agentFrame id conn msg metric now).
Proof.
  unfold agentFrame. frame_with ltac:(first
    [apply calm_touchAgent | apply calm_routeAgentMessage | calm_leaf]).
Qed.

(** *** Frames of a browser *)

Lemma calm_terminalStart r c now : keeps calm (terminalStart r c now).
Proof. unfold terminalStart, agentWrite. calm_walk. Qed.

Lemma calm_terminalEvent c e now : keeps calm (terminalEvent c e now).
Proof. unfold terminalEvent, agentWrite. calm_walk. Qed.

Lemma calm_fileStart r c actor now : keeps calm (fileStart r c actor now).
Proof. unfold fileStart, agentWrite, audit. calm_walk. Qed.

Lemma calm_uploadEvent c u e now : keeps calm (uploadEvent c u e now).
Proof. unfold uploadEvent, agentWrite. calm_walk. Qed.

Lemma calm_downloadEvent c e : keeps calm (downloadEvent c e).
Proof. unfold downloadEvent, agentWrite. calm_walk. Qed.

Lemma calm_filesEvent c e : keeps calm (filesEvent c e).
Proof. unfold filesEvent, agentWrite. calm_walk. Qed.

Lemma calm_screenEvent c e : keeps calm (screenEvent c e).
Proof. unfold screenEvent, agentWrite. calm_walk. Qed.

Lemma calm_screenLinked c : keeps calm (screenLinked c).
Proof. unfold screenLinked. calm_walk. Qed.

Lemma calm_screenTimeout c : keeps calm (screenTimeout c).
Proof. unfold screenTimeout. calm_walk. Qed.

Lemma calm_relayScreenFrame a b t from e now : keeps calm (relayScreenFrame a b t from e now).
Proof. unfold relayScreenFrame, wsClose. calm_walk. Qed.

Lemma calm_run_closing k c x now : keeps calm (run_closing k c x now).
Proof.
  destruct x; cbn [run_closing].
  - apply calm_forget.
  - calm_walk.
  - unfold agentWrite. calm_walk.
  - apply calm_trafficClose.
  - apply calm_wsClose.
Qed.

(** *** The deferred calls of an agent *)

Lemma calm_closeAgentForwards d now : keeps calm (closeAgentForwards d now).
Proof.
  unfold closeAgentForwards. apply keeps_bind; [apply _|calm_walk|]. intros s0.
  apply keeps_bind; [apply _| |].
  - apply keeps_modify. intros s. apply calm_forwards. intros sid p.
    by intros [? _]%foldr_delete_lookup.
  - intros _. apply calm_forM. intros cf. unfold agentWrite. calm_walk.
Qed.

(** Several desktops are forgotten. *)
Lemma calm_screens {V} (l : list (string * V)) s :
  calm s (upd_screens (λ m, foldr (λ c m, delete c.1 m) m l) s).
Proof.
  induction l as [|c l IH]; [by apply calm_eq|].
  etrans; [exact IH|]. apply (calm_forget KScreen c.1).
Qed.

Lemma calm_closeAgentScreens d : keeps calm (closeAgentScreens d).
Proof.
  unfold closeAgentScreens. apply keeps_bind; [apply _|calm_walk|]. intros s0.
  apply keeps_bind; [apply _| |].
  - apply keeps_modify. intros s. apply calm_screens.
  - intros _. apply calm_forM. intros c. apply calm_wsClose.
Qed.

Lemma calm_run_agent_closing id w x now : keeps calm (run_agent_closing id w x now).
Proof.
  destruct x; cbn [run_agent_closing].
  - calm_walk.
  - apply calm_closeAgentForwards.
  - apply calm_closeAgentScreens.
  - apply calm_audit.
  - apply calm_wsClose.
Qed.

(** *** Console requests and the janitor *)

Lemma calm_sweepAuthState now : keeps calm (sweepAuthState now).
Proof. unfold sweepAuthState. calm_walk. Qed.

Lemma calm_authenticate r now : keeps calm (authenticate r now).
Proof. apply keeps_authenticate; [apply _|]. intros. by apply calm_eq. Qed.

Lemma calm_ticketM {A} (m : ticketStore → A * ticketStore) : keeps calm (ticketM m).
Proof. intros s. unfold ticketM. destruct (m (tickets s)). by apply calm_eq. Qed.

Lemma calm_authorizeWS r kind now : keeps calm (authorizeWS r kind now).
Proof.
  unfold authorizeWS. frame_with ltac:(first
    [apply calm_authenticate | apply calm_ticketM | apply calm_audit | calm_leaf]).
Qed.
End handlers.

(** Walk over a console handler. *)
Ltac console_leaf :=
  idtac; lazymatch goal with
  | |- keeps _ (authenticate _ _) => apply calm_authenticate
  | |- keeps _ (ticketM _) => apply calm_ticketM
  | |- keeps _ (audit _ _ _ _ _) => apply calm_audit
  | |- _ => calm_leaf
  end.
Ltac console_walk :=
  unfold asAdmin, asActor, adminOnly, updateOr, createOr; frame_with ltac:(console_leaf).

(** The function a program applies *)
Ltac get_head t := lazymatch t with ?f _ => get_head f | _ => t end.

Section console.
Context `{Crypto} `{UrlParser} `{JulianDay} (stamp_text : Time → string).
Context (filepath_Join : string → string → string) (is_regular : string → bool).
Context (WebFS : option (string → option bytes)) (TypeByExtension : string → string).

Lemma calm_login r body rnd now : keeps calm (handleLogin r body rnd now).
Proof. unfold handleLogin, recordLoginFailure, clearLoginAttempts. console_walk. Qed.

Lemma calm_enroll r body ib tb now : keeps calm (handleEnroll r body ib tb now).
Proof. unfold handleEnroll. console_walk. Qed.

Lemma calm_devices r body now : keeps calm (handleDeviceByID r body now).
Proof. unfold handleDeviceByID. console_walk. Qed.

Lemma calm_user r body salt now : keeps calm (handleUserByUsername r body salt now).
Proof. unfold handleUserByUsername. console_walk. Qed.

Lemma calm_handle e i r now :
  keeps calm (handle stamp_text filepath_Join is_regular WebFS TypeByExtension e i r now).
Proof.
  assert (∀ m, keeps calm m → keeps calm (respond m)) as Hr.
  { intros m Hm. apply keeps_bind; [apply _|exact Hm|intros; apply keeps_ret, _]. }
  destruct e; cbn [handle]; try (apply Hr); try (apply keeps_ret, _);
    try (apply keeps_bind; [apply _| |intros; apply keeps_ret, _]); try (apply keeps_get, _);
    lazymatch goal with
    | |- keeps _ (handleLogin _ _ _ _) => apply calm_login
    | |- keeps _ (handleEnroll _ _ _ _ _) => apply calm_enroll
    | |- keeps _ (handleDeviceByID _ _ _) => apply calm_devices
    | |- keeps _ (handleUserByUsername _ _ _ _) => apply calm_user
    | |- keeps _ ?m => let h := get_head m in unfold h
    end; try unfold dropSession; console_walk.
Qed.

Lemma calm_serve m i r now :
  keeps calm (serve stamp_text filepath_Join is_regular WebFS TypeByExtension m i r now).
Proof.
  unfold serve. destruct (ServeMux _ _); [apply calm_handle|apply keeps_ret, _..].
Qed.
End console.
