(* ===== verification/ServerInv.v ===== *)
(** * The invariant of the running server

    [system_wf] ties the running handlers to the server's tables: every entry, open
    socket, open recorder and waiting link has a handler that will take care of it.
    Every step of the server keeps it ([perform_ok]), so a server whose handlers
    have returned has nothing left open, and every state can get there. *)
From Stdlib Require Import ZArith Lia String.
From S2P Require Import Prelude GoStrings Protocol Registry RegistryProps Tickets Traffic Http Server.
From S2P Require Import Auth AuthProps Forward ForwardProps AgentWS AgentProps Browser BrowserProps.
From S2P Require Import Api ApiProps Analytics Routing ServerSys ServerFrames.
Open Scope string_scope.
Open Scope list_scope.
Open Scope Z_scope.

(** ** What a handler answers for *)

(** The session a handler runs and which of its deferred calls are still to come; the
    connection an agent's handler serves, the device whose tunnels it will close, the
    socket it will close, the desktop a link waits for *)
Record profile := mkProfile {
  pf_session : option (kind * session);
  pf_forget : bool;
  pf_done : bool;
  pf_traffic : bool;
  pf_agent : option (string * ref * WS);
  pf_leaves : option string;
  pf_socket : option WS;
  pf_link : option ref
}.

Definition is_traffic (x : closing_step) : bool := match x with CTraffic _ => true | _ => false end.
Definition has_step (x : closing_step) (todo : list closing_step) : bool :=
  existsb (λ y, bool_decide (y = x)) todo.

Definition session_profile (k : kind) (c : session) (todo : list closing_step) : profile :=
  mkProfile (Some (k, c)) (has_step CForget todo) (has_step CMarkDone todo)
    (existsb is_traffic todo) None None
    (if has_step CSocket todo then Some (ses_ws c) else None) None.

Definition agent_profile (id : string) (conn : ref) (w : WS) : profile :=
  mkProfile None false false false (Some (id, conn, w)) None (Some w) None.

Definition has_agent_step (x : agent_closing) (todo : list agent_closing) : bool :=
  existsb (λ y, bool_decide (y = x)) todo.

Definition no_profile : profile := mkProfile None false false false None None None None.

Definition profile_of (t : option thread) : profile :=
  match t with
  | Some t =>
      match t with
      | TTermStart _ c | TTermLoop c => session_profile KTerminal c (deferred KTerminal "")
      | TFileStart _ c _ | TUpload c _ | TDownload c => session_profile KFile c (deferred KFile "")
      | TFilesLoop c => session_profile KManager c (deferred KManager "")
      | TScreenLoop c | TScreenWait c | TScreenRelay c _ _ _ =>
          session_profile KScreen c (deferred KScreen "")
      | TClosing k c todo => session_profile k c todo
      | TLink w p => mkProfile None false false false None None (Some w) (Some p)
      | TAgent id conn w | TAgentArm id conn w _ _ | TAgentLeave id conn w => agent_profile id conn w
      | TAgentClosing id w todo =>
          mkProfile None false false false None
            (if has_agent_step GForwards todo then Some id else None)
            (if has_agent_step GSocket todo then Some w else None) None
      | TFired _ => no_profile
      end
  | None => no_profile
  end.

(** A handler that will forget the session filed under [sid] *)
Definition keeps_entry (f : profile) (k : kind) (sid : string) (p : ref) : Prop :=
  ∃ c, pf_session f = Some (k, c) ∧ ses_id c = sid ∧ ses_ref c = p ∧ pf_forget f = true.
(** ... that will close the recorder [q] *)
Definition keeps_recorder (f : profile) (q : ref) : Prop :=
  ∃ k c, pf_session f = Some (k, c) ∧ ses_traffic c = Some q ∧ pf_traffic f = true.
(** ... that will release the link of the desktop [p] *)
Definition keeps_link (f : profile) (p : ref) : Prop :=
  ∃ c, pf_session f = Some (KScreen, c) ∧ ses_ref c = p ∧ pf_done f = true.
(** ... that serves the connection [p] of a device *)
Definition keeps_agent (f : profile) (id : string) (p : ref) : Prop :=
  ∃ w, pf_agent f = Some (id, p, w).

(** The objects behind a handler: its session's identity, its connection *)
Definition backed (s : Server) (f : profile) : Prop :=
  (∀ k c, pf_session f = Some (k, c) →
     (k = KScreen → pf_forget f = true → pf_done f = true) ∧
     ∃ d, object k (ses_ref c) s = Some (ses_ws c, ses_traffic c, d)) ∧
  (∀ id p w, pf_agent f = Some (id, p, w) →
     ∃ a, agentH s !! p = Some a ∧ ac_deviceID a = id ∧ ac_ws a = w).

Definition linked_off (s : Server) (p : ref) : Prop :=
  ∃ t, screenH s !! p = Some t ∧ sc_done t = true.

Definition tunnel_of (s : Server) (d : string) : Prop :=
  ∃ sid p f, forwards s !! sid = Some p ∧ forwardH s !! p = Some f ∧
    (fw_source f = d ∨ fw_target f = d).

(** ** The invariant *)

Section wf.
(** Some handler has a profile satisfying [P]. *)
Definition some_handler (y : system) (P : profile → Prop) : Prop :=
  ∃ tid t, sy_threads y !! tid = Some t ∧ P (profile_of (Some t)).

Record system_wf (y : system) : Prop := mkSystemWf {
  sv_server : server_wf (sy_server y);
  sv_next : ∀ tid, is_Some (sy_threads y !! tid) → (tid < sy_next y)%nat;
  sv_backed : ∀ tid t, sy_threads y !! tid = Some t → backed (sy_server y) (profile_of (Some t));
  sv_entries : ∀ k sid p, registered k (sy_server y) !! sid = Some p →
    some_handler y (λ f, keeps_entry f k sid p);
  sv_agents : ∀ id p, agents (sy_server y) !! id = Some p →
    some_handler y (λ f, keeps_agent f id p);
  sv_sockets : ∀ w, w ∈ open_ws (sy_server y) → some_handler y (λ f, pf_socket f = Some w);
  sv_tunnels : ∀ d, tunnel_of (sy_server y) d →
    is_Some (agents (sy_server y) !! d) ∨ some_handler y (λ f, pf_leaves f = Some d);
  sv_recorders : ∀ q rc, recorderH (sy_server y) !! q = Some rc → tr_closed rc = false →
    some_handler y (λ f, keeps_recorder f q) ∨
    ∃ p f, forwardH (sy_server y) !! p = Some f ∧ fw_traffic f = Some q;
  sv_links : ∀ tid t p, sy_threads y !! tid = Some t → pf_link (profile_of (Some t)) = Some p →
    linked_off (sy_server y) p ∨ some_handler y (λ f, keeps_link f p);
  sv_ids : ∀ tid t k c, sy_threads y !! tid = Some t →
    pf_session (profile_of (Some t)) = Some (k, c) → ses_id c ∈ sy_ids y;
  sv_seen : ∀ tid t w, sy_threads y !! tid = Some t →
    pf_socket (profile_of (Some t)) = Some w → w ∈ sy_sockets y;
  (* two handlers share neither a session id nor a socket *)
  sv_one_id : ∀ t1 t2 x1 x2 k1 k2 c1 c2, sy_threads y !! t1 = Some x1 → sy_threads y !! t2 = Some x2 →
    pf_session (profile_of (Some x1)) = Some (k1, c1) →
    pf_session (profile_of (Some x2)) = Some (k2, c2) → ses_id c1 = ses_id c2 → t1 = t2;
  sv_one_socket : ∀ t1 t2 x1 x2 w, sy_threads y !! t1 = Some x1 → sy_threads y !! t2 = Some x2 →
    pf_socket (profile_of (Some x1)) = Some w → pf_socket (profile_of (Some x2)) = Some w → t1 = t2
}.

(** ** One handler moves *)

(** The server goes from [s] to [s'] while one handler goes from [old] to [new]
    ([None]: not there yet, or gone): what [old] answered for, [new] still does, or it
    is taken care of; what is new in [s'], [new] answers for. *)
Record transition (s s' : Server) (old new : profile) : Prop := mkTransition {
  ts_wf : server_wf s';
  ts_entries : ∀ k sid p, registered k s' !! sid = Some p →
    keeps_entry new k sid p ∨
    (registered k s !! sid = Some p ∧ (keeps_entry old k sid p → keeps_entry new k sid p));
  ts_objects : ∀ k p v, object k p s = Some v → object k p s' = Some v;
  ts_backed : backed s' new;
  ts_agents : ∀ id p, agents s' !! id = Some p →
    keeps_agent new id p ∨ (agents s !! id = Some p ∧ (keeps_agent old id p → keeps_agent new id p));
  ts_agentH : ∀ p a, agentH s !! p = Some a →
    ∃ a', agentH s' !! p = Some a' ∧ ac_deviceID a' = ac_deviceID a ∧ ac_ws a' = ac_ws a;
  ts_open : ∀ w, w ∈ open_ws s' →
    pf_socket new = Some w ∨
    (w ∈ open_ws s ∧ (pf_socket old = Some w → pf_socket new = Some w));
  ts_online : ∀ d, is_Some (agents s !! d) → is_Some (agents s' !! d) ∨ pf_leaves new = Some d;
  ts_tunnels : ∀ d, tunnel_of s' d → tunnel_of s d ∨ is_Some (agents s' !! d);
  ts_leaves : ∀ d, pf_leaves old = Some d → pf_leaves new = Some d ∨ ¬ tunnel_of s' d;
  ts_done : ∀ p, linked_off s p → linked_off s' p;
  ts_marks : ∀ p, keeps_link old p → keeps_link new p ∨ linked_off s' p;
  ts_recorders : ∀ q rc', recorderH s' !! q = Some rc' → tr_closed rc' = false →
    keeps_recorder new q ∨
    (∃ p f, forwardH s' !! p = Some f ∧ fw_traffic f = Some q) ∨
    ((∃ rc, recorderH s !! q = Some rc ∧ tr_closed rc = false) ∧
     (keeps_recorder old q → keeps_recorder new q));
  ts_fwdH : ∀ p f, forwardH s !! p = Some f →
    ∃ f', forwardH s' !! p = Some f' ∧ fw_traffic f' = fw_traffic f;
  ts_link : ∀ p, pf_link new = Some p →
    pf_link old = Some p ∨ ∃ sid, registered KScreen s !! sid = Some p
}.

(** The system after the move *)
Definition moved (tid : nat) (new : option thread) (s' : Server) (n : nat) (w : gset WS)
    (ids : gset string) (y : system) : system :=
  mkSystem s' (partial_alter (λ _, new) tid (sy_threads y)) n (w ∪ sy_sockets y) (ids ∪ sy_ids y).

Lemma handler_moves tid new s' n w ids y P :
  some_handler y P →
  some_handler (moved tid new s' n w ids y) P ∨ P (profile_of (sy_threads y !! tid)).
Proof.
  intros (i & t & Ht & HP). destruct (decide (i = tid)) as [->|Hne]; [right; by rewrite Ht|].
  left. exists i, t. simpl. by rewrite lookup_partial_alter_ne.
Qed.

Lemma handler_new tid new s' n w ids y (P : profile → Prop) :
  P (profile_of new) → ¬ P no_profile → some_handler (moved tid new s' n w ids y) P.
Proof.
  intros HP Hno. destruct new as [t|]; [|by destruct (Hno HP)].
  exists tid, t. simpl. by rewrite lookup_partial_alter_eq.
Qed.

(** A handler after the move: the moved one, or another one where it was *)
Lemma handler_after tid new s' n w ids y i t :
  sy_threads (moved tid new s' n w ids y) !! i = Some t →
  (i = tid ∧ new = Some t) ∨ (i ≠ tid ∧ sy_threads y !! i = Some t).
Proof. simpl. intros [[<- ?]|[? ?]]%lookup_partial_alter_Some; [by left|by right]. Qed.

Lemma backed_kept s s' old new f : transition s s' old new → backed s f → backed s' f.
Proof.
  intros Ht [H1 H2]. split.
  - intros k c Hk. destruct (H1 k c Hk) as [? [d Hd]]. split; [done|]. exists d.
    by apply (ts_objects _ _ _ _ Ht).
  - intros id p x Hx. destruct (H2 id p x Hx) as (a & Ha & <- & <-).
    by apply (ts_agentH _ _ _ _ Ht).
Qed.

(** A move keeps the invariant; an id or a socket that [old] did not have is new. *)
Lemma transition_wf tid new s' n w ids y :
  system_wf y → transition (sy_server y) s' (profile_of (sy_threads y !! tid)) (profile_of new) →
  (sy_next y ≤ n)%nat → (is_Some new → (tid < n)%nat) → ids ## sy_ids y → w ## sy_sockets y →
  (∀ k c, pf_session (profile_of new) = Some (k, c) →
     (∃ k' c', pf_session (profile_of (sy_threads y !! tid)) = Some (k', c') ∧ ses_id c' = ses_id c) ∨
     ses_id c ∈ ids) →
  (∀ x, pf_socket (profile_of new) = Some x →
     pf_socket (profile_of (sy_threads y !! tid)) = Some x ∨ x ∈ w) →
  system_wf (moved tid new s' n w ids y).
Proof.
  intros Hwf Ht Hn Htid Hids Hw Hnid Hnw. pose proof Ht as [].
  assert (∀ P, some_handler y P → ¬ P no_profile →
    (P (profile_of (sy_threads y !! tid)) → P (profile_of new)) →
    some_handler (moved tid new s' n w ids y) P) as Hstay.
  { intros P HP Hno Hon. destruct (handler_moves tid new s' n w ids y P HP) as [|Ho]; [done|].
    apply handler_new; auto. }
  constructor.
  - done.
  - intros i [t Hi]. apply handler_after in Hi as [[-> E]|[_ Hi]]; [apply Htid; by rewrite E|].
    simpl. assert (i < sy_next y)%nat by (apply (sv_next y Hwf); eauto). lia.
  - intros i t Hi. apply handler_after in Hi as [[-> E]|[_ Hi]].
    + by rewrite <- E.
    + eapply backed_kept; [done|]. by eapply sv_backed.
  - intros k sid p Hr. destruct (ts_entries0 k sid p Hr) as [Hk|[Hk Hno]].
    + apply handler_new; [done|]. by intros (? & ? & _).
    + apply Hstay; [by apply sv_entries|by intros (? & ? & _)|done].
  - intros id p Ha. destruct (ts_agents0 id p Ha) as [Hk|[Hk Hno]].
    + apply handler_new; [done|]. by intros (? & ?).
    + apply Hstay; [by apply sv_agents|by intros (? & ?)|done].
  - intros x Hx. destruct (ts_open0 x Hx) as [Hk|[Hk Hno]].
    + apply handler_new; [done|]. done.
    + apply Hstay; [by apply sv_sockets|done|done].
  - intros d Hd. destruct (ts_tunnels0 d Hd) as [Hd0|]; [|by left].
    destruct (sv_tunnels y Hwf d Hd0) as [Ho|Hl].
    + destruct (ts_online0 d Ho) as [|Hl]; [by left|right]. apply handler_new; done.
    + destruct (handler_moves tid new s' n w ids y _ Hl) as [|Hl']; [by right|].
      destruct (ts_leaves0 d Hl') as [Hl2|]; [right|done]. by apply handler_new.
  - intros q rc Hq Ho. destruct (ts_recorders0 q rc Hq Ho) as [Hk|[|[(rc0 & Hq0 & Ho0) Hno]]].
    + left. apply handler_new; [done|]. by intros (? & ? & ? & _).
    + by right.
    + destruct (sv_recorders y Hwf q rc0 Hq0 Ho0) as [Hk|(p & f & Hf & Hq')].
      * left. apply Hstay; [done|by intros (? & ? & ? & _)|done].
      * right. destruct (ts_fwdH0 p f Hf) as (f' & Hf' & E). exists p, f'. split; [done|congruence].
  - intros i t p Hi Hl.
    assert (linked_off (sy_server y) p ∨ some_handler y (λ f, keeps_link f p)) as [Hd|Hm].
    { apply handler_after in Hi as [[-> E]|[_ Hi]]; [|by eapply sv_links].
      rewrite <- E in Hl. destruct (ts_link0 p Hl) as [Hl'|[sid Hs]].
      - destruct (sy_threads y !! tid) as [t0|] eqn:Et; [|done]. by eapply sv_links.
      - right. destruct (sv_entries y Hwf KScreen sid p Hs) as (j & u & Hj & c & Hc & _ & Hp & Hf).
        exists j, u. split; [done|]. exists c. split_and!; [done|done|].
        destruct (sv_backed y Hwf j u Hj) as [Hb _]. by apply (Hb KScreen c). }
    + left. by apply ts_done0.
    + destruct (handler_moves tid new s' n w ids y _ Hm) as [|Hm']; [by right|].
      destruct (ts_marks0 p Hm') as [Hk|]; [right|by left].
      apply handler_new; [done|]. by intros (? & ? & _).
  - intros i t k c Hi Hc. simpl. apply handler_after in Hi as [[-> E]|[_ Hi]].
    + rewrite <- E in Hc. destruct (Hnid k c Hc) as [(k' & c' & Hc' & <-)|]; [|by apply elem_of_union; left].
      destruct (sy_threads y !! tid) as [t0|] eqn:Et; [|done].
      apply elem_of_union. right. by eapply sv_ids.
    + apply elem_of_union. right. by eapply sv_ids.
  - intros i t x Hi Hx. simpl. apply handler_after in Hi as [[-> E]|[_ Hi]].
    + rewrite <- E in Hx. destruct (Hnw x Hx) as [Hx'|]; [|by apply elem_of_union; left].
      destruct (sy_threads y !! tid) as [t0|] eqn:Et; [|done].
      apply elem_of_union. right. by eapply sv_seen.
    + apply elem_of_union. right. by eapply sv_seen.
  - assert (∀ i t k1 k2 c1 c2, i ≠ tid → sy_threads y !! i = Some t →
      pf_session (profile_of (Some t)) = Some (k1, c1) →
      pf_session (profile_of new) = Some (k2, c2) → ses_id c1 = ses_id c2 → False) as Hone.
    { intros i t k1 k2 c1 c2 Hne Hi H1 H2 E. destruct (Hnid k2 c2 H2) as [(k' & c' & Hc' & E')|Hin].
      - destruct (sy_threads y !! tid) as [t0|] eqn:Et; [|done]. apply Hne.
        eapply (sv_one_id y Hwf i tid t t0 k1 k' c1 c'); [done..|congruence].
      - apply (Hids (ses_id c2) Hin). rewrite <- E. by eapply sv_ids. }
    intros t1 t2 x1 x2 k1 k2 c1 c2 [[-> E1]|[N1 H1]]%handler_after [[-> E2]|[N2 H2]]%handler_after Hc1 Hc2 E.
    + done.
    + exfalso. rewrite <- E1 in Hc1. by eapply (Hone t2).
    + exfalso. rewrite <- E2 in Hc2. by eapply (Hone t1).
    + by eapply sv_one_id.
  - assert (∀ i t x, i ≠ tid → sy_threads y !! i = Some t →
      pf_socket (profile_of (Some t)) = Some x → pf_socket (profile_of new) = Some x → False) as Hone.
    { intros i t x Hne Hi H1 H2. destruct (Hnw x H2) as [Hx|Hin].
      - destruct (sy_threads y !! tid) as [t0|] eqn:Et; [|done]. apply Hne.
        by eapply (sv_one_socket y Hwf i tid t t0 x).
      - apply (Hw x Hin). by eapply sv_seen. }
    intros t1 t2 x1 x2 x [[-> E1]|[N1 H1]]%handler_after [[-> E2]|[N2 H2]]%handler_after Hx1 Hx2.
    + done.
    + exfalso. rewrite <- E1 in Hx1. by eapply (Hone t2).
    + exfalso. rewrite <- E2 in Hx2. by eapply (Hone t1).
    + by eapply sv_one_socket.
Qed.

(** *** Calm moves *)

Lemma tunnel_calm X s s' d :
  frame_of X s s' → server_wf s → tunnel_of s' d → tunnel_of s d ∨ is_Some (agents s' !! d).
Proof.
  intros [] Hwf (sid & p & f & Hs & Hf & Hd). destruct (fo_fwd sid p Hs) as [Hs'|(f' & Hf' & H1 & H2)].
  - left. destruct (sw_forwards s Hwf sid p Hs') as [g Hg].
    destruct (fo_fwdH p g Hg) as (g' & Hg' & E & _). unfold parties in E. injection E as E1 E2.
    exists sid, p, g. split_and!; [done..|]. assert (f = g') as -> by congruence. by rewrite <- E1, <- E2.
  - right. rewrite fo_agents. assert (f = f') as -> by congruence. by destruct Hd as [<-|<-].
Qed.

(** What a calm step leaves to check of a move: the answers the handler no longer
    gives *)
Lemma calm_transition s s' old new :
  server_wf s → calm s s' → backed s' new →
  (∀ k sid p, registered k s' !! sid = Some p → keeps_entry old k sid p → keeps_entry new k sid p) →
  (∀ id p, agents s' !! id = Some p → keeps_agent old id p → keeps_agent new id p) →
  (∀ w, w ∈ open_ws s' → pf_socket old = Some w → pf_socket new = Some w) →
  (∀ d, pf_leaves old = Some d → pf_leaves new = Some d ∨ ¬ tunnel_of s' d) →
  (∀ p, keeps_link old p → keeps_link new p ∨ linked_off s' p) →
  (∀ q rc, recorderH s' !! q = Some rc → tr_closed rc = false →
     keeps_recorder old q → keeps_recorder new q) →
  (∀ p, pf_link new = Some p → pf_link old = Some p) →
  transition s s' old new.
Proof.
  intros Hwf Hc Hb He Ha Ho Hl Hm Hr Hk. destruct (Hc Hwf) as [Hwf' Hf]. pose proof Hf as [].
  constructor; try done.
  - intros k sid p Hp. right. split; [|by apply He].
    destruct (fo_tables k sid) as [<-|E]; [done|congruence].
  - intros k p v Hv. by rewrite fo_obj.
  - intros id p Hp. right. split; [by rewrite <- fo_agents|by apply Ha].
  - intros w Hw. right. split; [set_solver|by apply Ho].
  - intros d Hd. left. by rewrite fo_agents.
  - intros d. by eapply tunnel_calm.
  - intros p (t & Ht & Hd). exact (fo_done p t Ht Hd).
  - intros q rc Hq Hop. destruct (fo_rec q rc Hq Hop) as [|[|[]]]; [right; right|by right; left].
    split; [done|by apply (Hr q rc)].
  - intros p f Hp. destruct (fo_fwdH p f Hp) as (f' & ? & _ & ?). eauto.
  - intros p Hp. left. by apply Hk.
Qed.

Lemma calm_backed s s' f : frame_of (λ _, False) s s' → backed s f → backed s' f.
Proof.
  intros [] [H1 H2]. split.
  - intros k c Hk. destruct (H1 k c Hk) as [? [d Hd]]. split; [done|]. exists d. by rewrite fo_obj.
  - intros id p x Hx. destruct (H2 id p x Hx) as (a & Ha & <- & <-).
    destruct (fo_agentH p a Ha) as (a' & ? & ? & ?). eauto.
Qed.

(** A calm step after which the handler answers for the same things *)
Lemma calm_same s s' f : server_wf s → calm s s' → backed s f → transition s s' f f.
Proof.
  intros Hwf Hc Hb. destruct (Hc Hwf) as [_ Hf]. apply calm_transition; auto.
  by eapply calm_backed.
Qed.

(** *** The deferred calls of a session *)

Lemma trafficClose_closed q st now s rc :
  recorderH (trafficClose (Some q) st now s).2 !! q = Some rc → tr_closed rc = true.
Proof.
  unfold trafficClose, withRecorder. rewrite bind_run. cbn [getS fst snd].
  destruct (recorderH s !! q) as [rc0|] eqn:Hq; [|simpl; congruence].
  unfold Traffic.Close. destruct (tr_closed rc0) eqn:Hc.
  - rewrite bind_run. cbn. rewrite lookup_insert_eq. by intros [= <-].
  - set (rc1 := mkRecorder _ _ _ _ true).
    assert (tr_closed (flushLocked now rc1 (reg s)).1 = true) as Hf.
    { unfold flushLocked. by destruct (_ && _). }
    destruct (flushLocked now rc1 (reg s)) as [rc2 r2]. rewrite bind_run. cbn.
    rewrite lookup_insert_eq. intros [= <-]. exact Hf.
Qed.

(** Running a deferred call takes care of what it stands for. *)
Lemma closing_transition `{Crypto} k c x todo now s :
  server_wf s → backed s (session_profile k c (x :: todo)) →
  (k = KScreen → has_step CForget todo = true → has_step CMarkDone todo = true) →
  transition s (run_closing k c x now s).2 (session_profile k c (x :: todo)) (session_profile k c todo).
Proof.
  intros Hwf Hb Hord. pose proof (calm_run_closing k c x now s) as Hc.
  destruct (Hc Hwf) as [_ Hf]. apply calm_transition; [done|done|simpl..].
  - destruct (calm_backed _ _ _ Hf Hb) as [H1 _]. split; [|done]. simpl.
    intros k' c' [= <- <-]. split; [done|]. by destruct (H1 k c eq_refl) as [_ ?].
  - intros k' sid p Hr (c' & [= <- <-] & <- & <- & Hx). simpl in Hx.
    exists c. split_and!; [done..|]. simpl.
    destruct x; simpl in Hx; try done. exfalso.
    destruct k; simpl in Hr; by rewrite lookup_delete_eq in Hr.
  - intros id p _ [w Hw]. done.
  - intros w Hw. destruct x; simpl; try done. intros [= <-]. simpl in Hw.
    exfalso. set_solver.
  - intros d. done.
  - intros p (c' & [= -> <-] & <- & Hx). simpl in Hx.
    destruct x; simpl in Hx; try (left; exists c; by split_and!).
    right. destruct Hb as [Hb _]. destruct (Hb KScreen c eq_refl) as [_ [d Hd]]. simpl in *.
    destruct (screenH s !! ses_ref c) as [t|] eqn:Ht; [|done]. exists (set_done t). simpl.
    by rewrite lookup_alter_eq, Ht.
  - intros q rc Hq Hop (k' & c' & [= <- <-] & Ht & Hx). exists k, c. split_and!; [done..|]. simpl in *.
    destruct x; simpl in *; try done. exfalso. rewrite Ht in Hq.
    apply trafficClose_closed in Hq. congruence.
  - done.
Qed.

(** The calls still to come are an end of the handler's list; a desktop's relay has a
    direction left to copy. *)
Definition well_placed (t : thread) : Prop :=
  match t with
  | TClosing k c todo => ∃ st, todo `suffix_of` deferred k st
  | TScreenRelay _ _ up down => up || down = true
  | _ => True
  end.

(** The session is forgotten first, so what follows a deferred call does not forget. *)
Lemma later_no_forget k st x todo :
  x :: todo `suffix_of` deferred k st → has_step CForget todo = false.
Proof.
  assert (∀ l, x :: todo `suffix_of` l → todo `suffix_of` tail l) as Ht.
  { intros [|a l]; [intros ?%suffix_nil_inv; done|].
    intros [[= _ ->]|Hs]%suffix_cons_inv; [done|]. simpl. etrans; [|exact Hs]. by exists [x]. }
  intros Hs%Ht. assert (has_step CForget (tail (deferred k st)) = false) as Hf by (by destruct k).
  destruct Hs as [p E]. rewrite E in Hf. unfold has_step in *. rewrite existsb_app in Hf.
  by apply orb_false_iff in Hf as [_ ?].
Qed.

(** *** The deferred calls of an agent *)

Lemma closeAgentForwards_none d now s : ¬ tunnel_of (closeAgentForwards d now s).2 d.
Proof.
  rewrite closeAgentForwards_run. intros (sid & p & f & Hs & Hf & Hd).
  set (s1 := upd_forwards _ s) in *.
  assert (wire_ext s1 (forM_ (agentForwards d s) (notify now) s1).2) as (_ & _ & _ & _ & E1 & E2)
    by (apply keeps_forM; [apply _|apply notify_ext]).
  rewrite E1 in Hs. rewrite E2 in Hf. simpl in *.
  apply foldr_delete_lookup in Hs as [Hs Hno]. destruct (decide (fw_target f = d)) as [Ht|Hne].
  - apply (Hno (fw_source f, fw_traffic f)), agentForwards_elem. exists p, f. auto 10.
  - destruct Hd as [Hsrc|]; [|done].
    apply (Hno (fw_target f, fw_traffic f)), agentForwards_elem. exists p, f. auto 10.
Qed.

Definition agent_closing_profile (id : string) (w : WS) (todo : list agent_closing) : profile :=
  profile_of (Some (TAgentClosing id w todo)).

Lemma agent_closing_transition `{Crypto} `{UrlParser} id w x todo now s :
  server_wf s →
  transition s (run_agent_closing id w x now s).2 (agent_closing_profile id w (x :: todo))
    (agent_closing_profile id w todo).
Proof.
  intros Hwf. pose proof (calm_run_agent_closing id w x now s) as Hc.
  apply calm_transition; [done|done|simpl..].
  - split; simpl; done.
  - by intros k sid p _ (? & ? & _).
  - by intros ? ? _ [? ?].
  - intros u Hu. destruct x; simpl; try done. intros [= <-]. simpl in Hu. exfalso. set_solver.
  - intros d. destruct x; simpl; auto. intros [= <-]. right. apply closeAgentForwards_none.
  - by intros ? (? & ? & _).
  - by intros ? ? _ _ (? & ? & ? & _).
  - done.
Qed.

(** [removeAgent] under its lock: the entry goes exactly if it is this connection's,
    and then the handler answers for the device's tunnels. *)
Lemma unlink_transition id conn w s :
  server_wf s →
  transition s (unlinkAgent id conn s).2 (agent_profile id conn w)
    (agent_closing_profile id w (agent_deferred (unlinkAgent id conn s).1)).
Proof.
  intros Hwf. unfold unlinkAgent. rewrite bind_run. cbn [getS fst snd].
  case_bool_decide as Hc.
  - cbn. destruct Hwf. constructor; simpl; eauto.
    + constructor; simpl; eauto. intros i p [_ Hp]%lookup_delete_Some. eauto.
    + split; done.
    + intros i p [Hne Hp]%lookup_delete_Some. right. split; [done|]. intros [x [= -> -> _]]. done.
    + intros d [p Hp]. destruct (decide (id = d)) as [->|]; [by right|left].
      rewrite lookup_delete_ne by done. eauto.
    + done.
    + intros q rc Hq Ho. right; right. split; [eauto|]. by intros (? & ? & ? & _).
  - cbn. apply calm_transition; [done|reflexivity|..].
    + split; done.
    + by intros ? ? ? _ (? & ? & _).
    + intros i p Hp [x [= -> -> _]]. done.
    + done.
    + done.
    + by intros ? (? & ? & _).
    + by intros ? ? _ _ (? & ? & ? & _).
    + done.
Qed.

(** *** One step of a handler *)

(** A calm step after which the handler stands where it answers for the same things *)
Lemma calm_step {A} (m : stateM Server A) (k : A → option thread) f s :
  server_wf s → backed s f → keeps calm m → (∀ a, profile_of (k a) = f) →
  transition s ((a ← m; mret (k a)) s).2 f (profile_of ((a ← m; mret (k a)) s).1).
Proof.
  intros Hwf Hb Hm Hk. rewrite bind_run. cbn. rewrite Hk. by apply calm_same.
Qed.

Lemma calm_agent_step `{Crypto} `{UrlParser} id conn w msg metric now :
  keeps calm (agent_step id conn w msg metric now).
Proof.
  unfold agent_step. frame_with ltac:(idtac; lazymatch goal with
    | |- keeps _ (touchAgent _ _) => apply calm_touchAgent
    | |- keeps _ (handleForwardConnect _ _ _ _) => apply calm_handleForwardConnect
    | |- keeps _ (agentFrame _ _ _ _ _) => apply calm_agentFrame
    end).
Qed.

Lemma agent_step_profile `{Crypto} `{UrlParser} id conn w msg metric now s :
  profile_of (Some (agent_step id conn w msg metric now s).1) = agent_profile id conn w.
Proof.
  unfold agent_step. destruct (String.eqb _ _); rewrite bind_run; cbn [getS fst snd].
  - destruct (negb _); [done|]. rewrite !bind_run. cbn.
    by destruct (handleForwardConnect _ _ _ _ _).1.
  - by destruct (agentFrame _ _ _ _ _ _).1.
Qed.

Lemma thread_step_transition `{Crypto} `{UrlParser} t i now s :
  server_wf s → backed s (profile_of (Some t)) → well_placed t →
  transition s (thread_step t i now s).2 (profile_of (Some t)) (profile_of (thread_step t i now s).1).
Proof.
  intros Hwf Hb Hpl.
  assert (transition s s (profile_of (Some t)) (profile_of (Some t))) as Hid
    by (apply calm_same; [done|reflexivity|done]).
  destruct t as [r c|c|r c actor|c u|c|c|c|c|c link up down|k c [|x todo]|w p|id conn w
    |id conn w msg p|id conn w|id w [|x todo]|ft], i; cbn [thread_step]; try exact Hid;
    try (apply calm_step; [done|done| |intros a; repeat case_match; reflexivity]).
  - apply calm_terminalStart.
  - apply calm_terminalEvent.
  - apply calm_fileStart.
  - apply calm_uploadEvent.
  - apply calm_downloadEvent.
  - apply calm_filesEvent.
  - apply calm_screenEvent.
  - apply calm_screenLinked.
  - apply calm_screenTimeout.
  - destruct (if fromBrowser then up else down); [|exact Hid].
    apply calm_step; [done|done| |intros a; repeat case_match; reflexivity].
    apply calm_relayScreenFrame.
  - apply calm_transition; [done|reflexivity|..]; try done.
    + by intros ? ? ? _ (? & ? & _ & _ & ?).
    + by intros ? (? & ? & _ & ?).
    + by intros ? ? _ _ (? & ? & ? & _ & ?).
  - rewrite bind_run. cbn [mret stateM_ret fst snd].
    apply closing_transition; [done|done|]. intros _ Hf. destruct Hpl as [st Hs].
    apply later_no_forget in Hs. congruence.
  - rewrite bind_run. cbn [getS fst snd]. destruct (screenH s !! p) as [x|]; [|exact Hid].
    destruct (sc_done x); [|exact Hid]. rewrite bind_run. cbn [mret stateM_ret fst snd].
    apply calm_transition; [done|apply calm_wsClose|..]; try done.
    + intros u Hu [= <-]. simpl in Hu. set_solver.
    + by intros ? (? & ? & _).
  - destruct e as [msg|]; [|exact Hid]. rewrite bind_run. cbn [mret stateM_ret fst snd].
    rewrite agent_step_profile. by apply calm_same; [|apply calm_agent_step|].
  - apply calm_armFallback.
  - rewrite bind_run. cbn [mret stateM_ret fst snd]. by apply unlink_transition.
  - rewrite bind_run. cbn [mret stateM_ret fst snd].
    by apply agent_closing_transition.
  - apply calm_fallbackFired.
Qed.

(** A step leaves the handler well placed; its session and its socket are the ones it
    had. *)
Lemma thread_step_own `{Crypto} `{UrlParser} t i now s :
  well_placed t →
  (∀ t', (thread_step t i now s).1 = Some t' → well_placed t') ∧
  (∀ k c, pf_session (profile_of (thread_step t i now s).1) = Some (k, c) →
     pf_session (profile_of (Some t)) = Some (k, c)) ∧
  (∀ w, pf_socket (profile_of (thread_step t i now s).1) = Some w →
     pf_socket (profile_of (Some t)) = Some w).
Proof.
  intros Hpl.
  assert (∀ k c st, well_placed (close_with k c st)) as Hcl by (intros; by eexists).
  assert (∀ o, (∀ t', o = Some t' → well_placed t') → profile_of o = profile_of (Some t) →
    (∀ t', o = Some t' → well_placed t') ∧
    (∀ k c, pf_session (profile_of o) = Some (k, c) → pf_session (profile_of (Some t)) = Some (k, c)) ∧
    (∀ w, pf_socket (profile_of o) = Some w → pf_socket (profile_of (Some t)) = Some w)) as Hsame.
  { intros o Ho E. by rewrite E. }
  destruct t as [r c|c|r c actor|c u|c|c|c|c|c link up down|k c [|x todo]|w p|id conn w
    |id conn w msg p|id conn w|id w [|x todo]|ft], i; cbn [thread_step];
    try (apply Hsame; [by intros ? [= <-]|done]);
    try (rewrite bind_run; cbn [mret stateM_ret fst]; apply Hsame;
         [intros ? [= <-]; repeat case_match; done | repeat case_match; done]).
  - destruct (if fromBrowser then up else down); [|apply Hsame; [by intros ? [= <-]|done]].
    rewrite bind_run. cbn [mret stateM_ret fst].
    apply Hsame; [intros ? [= <-]; repeat case_match; done | repeat case_match; done].
  - done.
  - rewrite bind_run. cbn [mret stateM_ret fst]. split_and!.
    + intros ? [= <-]. destruct Hpl as [st Hs]. exists st. etrans; [|exact Hs]. by exists [x].
    + done.
    + intros u. simpl. intros Hu. destruct (has_step CSocket todo) eqn:E; [|done].
      by rewrite orb_true_r.
  - rewrite bind_run. cbn [getS fst snd].
    destruct (screenH s !! p) as [x|]; [destruct (sc_done x)|];
      try (rewrite bind_run; cbn [mret stateM_ret fst]); try done;
      by apply Hsame; [intros ? [= <-]|].
  - destruct e as [msg|]; [|by apply Hsame; [intros ? [= <-]|]].
    rewrite bind_run. cbn [mret stateM_ret fst]. apply Hsame; [|apply agent_step_profile].
    intros ? [= <-]. pose proof (agent_step_profile id conn w msg metric now s) as E.
    by destruct (agent_step id conn w msg metric now s).1.
  - rewrite bind_run. cbn [mret stateM_ret fst]. split_and!; [by intros ? [= <-]|done|].
    by destruct (unlinkAgent id conn s).1.
  - rewrite bind_run. cbn [mret stateM_ret fst]. split_and!; [by intros ? [= <-]|done|].
    intros u. simpl. intros Hu. destruct (has_agent_step GSocket todo) eqn:E; [|done].
    by rewrite orb_true_r.
Qed.

(** *** New handlers *)

(** A calm step before a new handler's registration; its new recorders are the
    handler's. *)
Lemma transition_calm_l X s s1 s2 new :
  server_wf s → calm_with X s s1 → (∀ q, X q → keeps_recorder new q) →
  pf_leaves new = None → pf_link new = None →
  transition s1 s2 no_profile new → transition s s2 no_profile new.
Proof.
  intros Hwf Hc HX Hlv Hl []. destruct (Hc Hwf) as [Hwf1 Hf]. pose proof Hf as [].
  constructor; try done.
  - intros k sid p Hp. destruct (ts_entries0 k sid p Hp) as [|[Hr Hk]]; [by left|right].
    split; [|done]. destruct (fo_tables k sid) as [<-|E]; [done|congruence].
  - intros k p v Hv. apply ts_objects0. by rewrite fo_obj.
  - intros id p Hp. rewrite <- fo_agents. by apply ts_agents0.
  - intros p a Ha. destruct (fo_agentH p a Ha) as (a1 & Ha1 & E1 & E2).
    destruct (ts_agentH0 p a1 Ha1) as (a2 & ? & ? & ?). exists a2. split_and!; [done|congruence..].
  - intros w Hw. destruct (ts_open0 w Hw) as [|[Ho Hk]]; [by left|right]. split; [set_solver|done].
  - intros d Hd. apply ts_online0. by rewrite fo_agents.
  - intros d Hd. destruct (ts_tunnels0 d Hd) as [Hd1|]; [|by right].
    destruct (tunnel_calm X s s1 d Hf Hwf Hd1) as [|Ho]; [by left|right].
    destruct (ts_online0 d Ho) as [|E]; [done|congruence].
  - intros p (t & Ht & Hd). apply ts_done0. exact (fo_done p t Ht Hd).
  - intros q rc Hq Ho. destruct (ts_recorders0 q rc Hq Ho) as [|[|[(rc1 & Hq1 & Ho1) Hk]]];
      [by left|by right; left|].
    destruct (fo_rec q rc1 Hq1 Ho1) as [|[(p & f & Hp & Ht)|HXq]].
    + right; right. by split.
    + destruct (ts_fwdH0 p f Hp) as (f' & Hf' & E). right; left. exists p, f'. split; [done|congruence].
    + left. by apply HX.
  - intros p f Hp. destruct (fo_fwdH p f Hp) as (f1 & Hf1 & _ & E1).
    destruct (ts_fwdH0 p f1 Hf1) as (f2 & ? & ?). exists f2. split; [done|congruence].
  - intros p Hp. congruence.
Qed.

(** A calm step after it *)
Lemma transition_calm_r s s1 s2 new :
  transition s s1 no_profile new → calm s1 s2 → pf_leaves new = None →
  transition s s2 no_profile new.
Proof.
  intros [] Hc Hlv. destruct (Hc ts_wf0) as [Hwf2 Hf]. pose proof Hf as [].
  constructor; try done.
  - intros k sid p Hp. apply ts_entries0. destruct (fo_tables k sid) as [<-|E]; [done|congruence].
  - intros k p v Hv. rewrite fo_obj. by apply ts_objects0.
  - by eapply calm_backed.
  - intros id p. rewrite fo_agents. apply ts_agents0.
  - intros p a Ha. destruct (ts_agentH0 p a Ha) as (a1 & Ha1 & E1 & E2).
    destruct (fo_agentH p a1 Ha1) as (a2 & ? & ? & ?). exists a2. split_and!; [done|congruence..].
  - intros w Hw. apply ts_open0. set_solver.
  - intros d. rewrite fo_agents. apply ts_online0.
  - intros d Hd. rewrite fo_agents.
    destruct (tunnel_calm _ s1 s2 d Hf ts_wf0 Hd) as [Hd1|Ho]; [by apply ts_tunnels0|].
    right. by rewrite <- fo_agents.
  - intros p Hp. destruct (ts_done0 p Hp) as (t & Ht & Hd). exact (fo_done p t Ht Hd).
  - intros p (? & ? & _). done.
  - intros q rc Hq Ho. destruct (fo_rec q rc Hq Ho) as [(rc1 & Hq1 & Ho1)|[|[]]]; [|by right; left].
    destruct (ts_recorders0 q rc1 Hq1 Ho1) as [|[(p & f & Hp & Ht)|?]]; [by left| |by right; right].
    destruct (fo_fwdH p f Hp) as (f' & Hf' & _ & E). right; left. exists p, f'. split; [done|congruence].
  - intros p f Hp. destruct (ts_fwdH0 p f Hp) as (f1 & Hf1 & E1).
    destruct (fo_fwdH p f1 Hf1) as (f2 & ? & _ & ?). exists f2. split; [done|congruence].
Qed.

(** The socket of the upgrade, accepted before or after *)
Lemma wf_accept w s : server_wf s → server_wf (accept w s).
Proof. intros []. constructor; try done; intros []; eauto. Qed.

Lemma transition_accept_l w s s2 new :
  pf_socket new = Some w → transition (accept w s) s2 no_profile new → transition s s2 no_profile new.
Proof.
  intros Hw []. constructor; try done.
  - intros x Hx. destruct (ts_open0 x Hx) as [|[Ho _]]; [by left|]. simpl in Ho.
    apply elem_of_union in Ho as [->%elem_of_singleton|]; [by left|by right].
Qed.

Lemma transition_accept_r w s s2 new :
  pf_socket new = Some w → transition s s2 no_profile new → transition s (accept w s2) no_profile new.
Proof.
  intros Hw []. constructor; try done.
  - by apply wf_accept.
  - intros x Hx. simpl in Hx. apply elem_of_union in Hx as [->%elem_of_singleton|]; [by left|].
    by apply ts_open0.
Qed.

(** A refused upgrade leaves its socket closed. *)
Lemma transition_refused w s s2 :
  server_wf s → calm (accept w s) s2 → w ∉ open_ws s2 → transition s s2 no_profile no_profile.
Proof.
  intros Hwf Hc Hw.
  pose proof (calm_same (accept w s) s2 no_profile (wf_accept w s Hwf) Hc ltac:(by split)) as [].
  constructor; try done.
  - intros x Hx. destruct (ts_open0 x Hx) as [|[Ho _]]; [by left|]. simpl in Ho.
    apply elem_of_union in Ho as [->%elem_of_singleton|]; [done|by right].
Qed.

(** *** The registration of a session and of a device *)

(** [&termSession{...}] and its siblings, filed under [sid] *)
Definition add_session (k : kind) (sid : string) (w : WS) (t : option ref) (dev conn op : string)
    (s : Server) : Server :=
  let p := next_ref s in
  let s := upd_next_ref S s in
  match k with
  | KTerminal => upd_terms (<[sid := p]>)
      (upd_termH (<[p := mkTermSession dev w t conn "negotiating" false]>) s)
  | KFile => upd_files (<[sid := p]>) (upd_fileH (<[p := mkFileSession dev w op t]>) s)
  | KManager => upd_managers (<[sid := p]>) (upd_managerH (<[p := mkManagerSession dev w]>) s)
  | KScreen => upd_screens (<[sid := p]>) (upd_screenH
      (<[p := mkScreenSession sid dev w None false false t conn "negotiating" false]>) s)
  end.

Lemma registered_add k sid w t dev conn op s k' sid' p :
  registered k' (add_session k sid w t dev conn op s) !! sid' = Some p →
  (k' = k ∧ sid' = sid ∧ p = next_ref s) ∨ registered k' s !! sid' = Some p.
Proof.
  destruct k, k'; simpl; auto; intros [[<- <-]|[_ ?]]%lookup_insert_Some; auto.
Qed.

Lemma object_add_new k sid w t dev conn op s :
  (k = KManager → t = None) →
  object k (next_ref s) (add_session k sid w t dev conn op s) = Some (w, t, dev).
Proof.
  intros Ht. destruct k; simpl; rewrite lookup_insert_eq; simpl; try done. by rewrite Ht.
Qed.

Lemma object_add_other k sid w t dev conn op s k' p :
  ¬ (k' = k ∧ p = next_ref s) → object k' p (add_session k sid w t dev conn op s) = object k' p s.
Proof.
  intros Hne. destruct k, k'; try done; simpl; rewrite lookup_insert_ne; try done;
    intros <-; by apply Hne.
Qed.

Lemma fresh_object k s : server_wf s → object k (next_ref s) s = None.
Proof.
  intros Hwf. destruct (object k (next_ref s) s) eqn:E; [|done].
  assert (next_ref s < next_ref s)%nat by (apply (sw_obj_fresh s Hwf k); eauto). lia.
Qed.

Lemma spawn_session k c agent sid w t dev conn op st s :
  c = mkSession sid agent (next_ref s) w t →
  server_wf s → (k = KManager → t = None) → (∀ q, t = Some q → is_Some (recorderH s !! q)) →
  transition s (add_session k sid w t dev conn op s) no_profile (session_profile k c (deferred k st)).
Proof.
  intros -> Hwf Hk Hq. set (s' := add_session k sid w t dev conn op s).
  pose proof (fresh_object k s Hwf) as Hfr.
  assert (∀ k' p v, object k' p s = Some v → object k' p s' = Some v) as Hkeep.
  { intros k' p v Hv. subst s'. rewrite object_add_other; [done|]. intros [-> ->]. congruence. }
  assert (object k (next_ref s) s' = Some (w, t, dev)) as Hnew by (by apply object_add_new).
  assert (∀ k' p v, object k' p s' = Some v →
    (k' = k ∧ p = next_ref s ∧ v = (w, t, dev)) ∨ object k' p s = Some v) as Hinv.
  { intros k' p v Hv. destruct (decide (k' = k ∧ p = next_ref s)) as [[-> ->]|Hne].
    - left. split_and!; [done..|congruence].
    - right. subst s'. by rewrite object_add_other in Hv. }
  assert (next_ref s' = S (next_ref s)) as Hn by (by destruct k).
  assert (agents s' = agents s ∧ agentH s' = agentH s ∧ forwards s' = forwards s ∧
    forwardH s' = forwardH s ∧ recorderH s' = recorderH s ∧ timers s' = timers s ∧
    reg s' = reg s ∧ open_ws s' = open_ws s) as (E1 & E2 & E3 & E4 & E5 & E6 & E7 & E8)
    by (by destruct k).
  assert (server_wf s') as Hwf'.
  { destruct Hwf. constructor; rewrite ?E1, ?E2, ?E3, ?E4, ?E5, ?E6, ?E7, ?Hn; try done; eauto.
    - intros k' p [v [(-> & -> & _)|Hv]%Hinv]; [lia|].
      apply Nat.lt_lt_succ_r. by eapply sw_obj_fresh; eauto.
    - intros p Hp. apply Nat.lt_lt_succ_r. auto.
    - intros p Hp. apply Nat.lt_lt_succ_r. auto.
    - intros p Hp. apply Nat.lt_lt_succ_r. auto.
    - intros k' sid' p [(-> & -> & ->)|Hr]%registered_add; [by rewrite Hnew|].
      destruct (sw_tables k' sid' p Hr) as [v Hv]. rewrite (Hkeep _ _ _ Hv). eauto.
    - intros k' p x q d [(-> & -> & [= -> <- ->])|Hv]%Hinv; eauto. }
  assert (∀ d, tunnel_of s' d ↔ tunnel_of s d) as Htn by (intros d; unfold tunnel_of; by rewrite E3, E4).
  constructor; rewrite ?E1, ?E2, ?E4, ?E5, ?E8; try done; eauto.
  - intros k' sid' p [(-> & -> & ->)|Hr]%registered_add; [left|right; split; [done|]].
    + eexists. split_and!; [done..|by destruct k].
    + by intros (? & ? & _).
  - split; [|done]. intros k' c [= <- <-]. split; [by intros ->|]. exists dev. exact Hnew.
  - intros x Hx. right. by split.
  - intros d Hd. left. by apply Htn.
  - intros p (x & Hx & Hd). exists x. split; [|done]. subst s'. destruct k; try done. simpl.
    rewrite lookup_insert_ne; [done|]. intros <-. simpl in Hfr. by rewrite Hx in Hfr.
  - by intros p (? & ? & _).
  - intros q rc Hrc Ho. right; right. split; [eauto|]. by intros (? & ? & ? & _).
Qed.

(** [s.agents[id] = conn] *)
Definition add_agent (a : agentConn) (s : Server) : Server :=
  upd_agents (<[ac_deviceID a := next_ref s]>)
    (upd_agentH (<[next_ref s := a]>) (upd_next_ref S s)).

Lemma spawn_agent a s :
  server_wf s →
  transition s (add_agent a s) no_profile (agent_profile (ac_deviceID a) (next_ref s) (ac_ws a)).
Proof.
  intros Hwf.
  assert (agentH s !! next_ref s = None) as Hfr.
  { destruct (agentH s !! next_ref s) eqn:E; [|done].
    assert (next_ref s < next_ref s)%nat by (apply (sw_agent_fresh s Hwf); eauto). lia. }
  assert (∀ p x, agentH s !! p = Some x → <[next_ref s := a]> (agentH s) !! p = Some x) as Hkeep.
  { intros p x Hx. rewrite lookup_insert_ne; [done|]. intros <-. congruence. }
  constructor; try done.
  - destruct Hwf. constructor; simpl; try done; eauto.
    + intros k p Hp. apply Nat.lt_lt_succ_r. by apply (sw_obj_fresh k).
    + intros p. rewrite lookup_insert. case_decide; [subst; intros _; lia|].
      intros Hp. apply Nat.lt_lt_succ_r. auto.
    + intros p Hp. apply Nat.lt_lt_succ_r. auto.
    + intros p Hp. apply Nat.lt_lt_succ_r. auto.
    + intros id p. rewrite lookup_insert_Some. intros [[<- <-]|[_ Hp]].
      * exists a. by rewrite lookup_insert_eq.
      * destruct (sw_agents id p Hp) as (x & Hx & E). exists x. split; [by apply Hkeep|done].
  - intros k sid p Hp. right. split; [done|]. by intros (? & ? & _).
  - split; [done|]. intros id p x [= <- <- <-]. exists a. simpl. by rewrite lookup_insert_eq.
  - intros id p. simpl. rewrite lookup_insert_Some. intros [[<- <-]|[_ Hp]].
    + left. by eexists.
    + right. split; [done|]. by intros [? ?].
  - intros p x Hx. exists x. split; [by apply Hkeep|done].
  - intros x Hx. right. by split.
  - intros d [p Hp]. left. simpl. rewrite lookup_insert. case_decide; eauto.
  - intros d Hd. by left.
  - by intros p (? & ? & _).
  - intros q rc Hrc Ho. right; right. split; [eauto|]. by intros (? & ? & ? & _).
  - eauto.
Qed.
End wf.

(** ** The openings *)

Section openings.
Context `{Crypto} `{UrlParser}.

Lemma calm_openOn r kind now : keeps calm (openOn r kind now).
Proof.
  unfold openOn. frame_with ltac:(idtac; lazymatch goal with
    | |- keeps _ (authorizeWS _ _ _) => apply calm_authorizeWS end).
Qed.

Lemma calm_startMetric r actor service transport metric now s :
  let '((m, t), s2) := startMetric r actor service transport metric now s in
  calm_with (λ q, t = Some q) s s2 ∧
  (server_wf s → ∀ q, t = Some q → is_Some (recorderH s2 !! q)).
Proof.
  unfold startMetric. rewrite bind_run.
  pose proof (calm_metric metric actor (QueryGet r "device") "" service transport (clientIP r) now s) as Hm.
  destruct (regM _ s) as [m s1]. cbn [fst snd]. rewrite bind_run.
  destruct (startTraffic m now s1) as [t s2]. cbn. tauto.
Qed.

(** What opening a session does: calm steps, the row and the recorder, the
    registration, an audit record *)
Definition opened_by (k : kind) (x : WS) (c : session) (t : thread) (s s' : Server) : Prop :=
  (∃ st, profile_of (Some t) = session_profile k c (deferred k st)) ∧ well_placed t ∧ ses_ws c = x ∧
  ∃ s0 s1 dev conn op, calm s s0 ∧ calm_with (λ q, ses_traffic c = Some q) s0 s1 ∧
    (server_wf s0 → ∀ q, ses_traffic c = Some q → is_Some (recorderH s1 !! q)) ∧
    ses_ref c = next_ref s1 ∧ (k = KManager → ses_traffic c = None) ∧
    calm (add_session k (ses_id c) x (ses_traffic c) dev conn op s1) s'.

Lemma open_session_spec k r w sid metric now s :
  match open_session k r w sid metric now s with
  | (None, s') => calm s s'
  | (Some (c, t), s') => ses_id c = sid ∧ w = Some (ses_ws c) ∧ opened_by k (ses_ws c) c t s s'
  end.
Proof.
  destruct k; unfold open_session; rewrite bind_run.
  - unfold terminalOpen. rewrite bind_run. pose proof (calm_openOn r "terminal" now s) as Ho.
    destruct (openOn r "terminal" now s) as [[resp|[actor agent]] s0]; [exact Ho|].
    cbn [fst snd]. destruct w as [x|]; [|exact Ho]. rewrite bind_run.
    pose proof (calm_startMetric r actor "terminal" "negotiating" metric now s0) as Hm.
    destruct (startMetric _ _ _ _ _ _ s0) as [[m t] s1]. destruct Hm as [Hc Hr].
    cbn -[audit mret]. unfold fresh. rewrite !bind_run. cbn -[audit].
    split_and!; [done..|]. split_and!; [by exists ""|done|done|].
    eexists s0, s1, (QueryGet r "device"), m, "". split_and!; [exact Ho|exact Hc|exact Hr|done|done|].
    apply (calm_audit actor "terminal.start" (QueryGet r "device") "" now).
  - unfold fileOpen. rewrite bind_run. pose proof (calm_authorizeWS r "files" now s) as Ho.
    destruct (authorizeWS r "files" now s) as [[resp|actor] s0]; [exact Ho|]. cbn [fst snd].
    destruct (_ && _); [exact Ho|]. rewrite bind_run. cbn [getS fst snd].
    destruct (getAgent _ s0) as [agent|]; [|exact Ho]. destruct w as [x|]; [|exact Ho].
    rewrite bind_run.
    pose proof (calm_startMetric r actor ("files-" +:+ QueryGet r "op") "relay" metric now s0) as Hm.
    destruct (startMetric _ _ _ _ _ _ s0) as [[m t] s1]. destruct Hm as [Hc Hr].
    cbn -[mret]. unfold fresh. rewrite !bind_run. cbn.
    split_and!; [done..|]. split_and!; [by exists ""|done|done|].
    eexists s0, s1, (QueryGet r "device"), "", (QueryGet r "op"). split_and!; [exact Ho|exact Hc|exact Hr|done|done|reflexivity].
  - unfold filesOpen. rewrite bind_run. pose proof (calm_openOn r "files" now s) as Ho.
    destruct (openOn r "files" now s) as [[resp|[actor agent]] s0]; [exact Ho|].
    cbn [fst snd]. destruct w as [x|]; [|exact Ho].
    unfold fresh. rewrite !bind_run. cbn.
    split_and!; [done..|]. split_and!; [by exists ""|done|done|].
    eexists s0, s0, (QueryGet r "device"), "", "". split_and!; [exact Ho|by apply reflexivity|done|done|done|reflexivity].
  - unfold screenOpen. rewrite bind_run. pose proof (calm_openOn r "desktop" now s) as Ho.
    destruct (openOn r "desktop" now s) as [[resp|[actor agent]] s0]; [exact Ho|].
    cbn [fst snd]. destruct w as [x|]; [|exact Ho]. rewrite bind_run.
    pose proof (calm_startMetric r actor "desktop" "negotiating" metric now s0) as Hm.
    destruct (startMetric _ _ _ _ _ _ s0) as [[m t] s1]. destruct Hm as [Hc Hr].
    cbn -[audit mret]. unfold fresh. rewrite !bind_run. cbn -[audit].
    split_and!; [done..|]. split_and!; [by exists ""|done|done|].
    eexists s0, s1, (QueryGet r "device"), m, "". split_and!; [exact Ho|exact Hc|exact Hr|done|done|].
    apply (calm_audit actor "screen.start" (QueryGet r "device") "" now).
Qed.

Lemma open_transition k c t s s' :
  server_wf s → opened_by k (ses_ws c) c t s s' →
  transition s (accept (ses_ws c) s') no_profile (profile_of (Some t)).
Proof.
  intros Hwf ((st & ->) & _ & _ & s0 & s1 & dev & conn & op & C0 & C1 & Hr & Hp & Hk & C2).
  destruct (C0 Hwf) as [Hwf0 _]. destruct (C1 Hwf0) as [Hwf1 _].
  apply transition_accept_r; [by destruct k|].
  eapply transition_calm_l; [done|exact C0|done|done|done|].
  eapply transition_calm_l; [done|exact C1| |done|done|].
  { intros q Hq. exists k, c. split_and!; [done..|]. simpl.
    destruct k; try done. by rewrite Hk in Hq. }
  eapply transition_calm_r; [|exact C2|done].
  apply (spawn_session k c (ses_agent c) (ses_id c)); [|done|done|by apply Hr].
  rewrite <- Hp. by destruct c.
Qed.

Lemma calm_screenLink r w now : keeps calm (screenLink r w now).
Proof. unfold screenLink, wsClose. frame_with ltac:(calm_leaf). Qed.

(** A hello registers the device's new connection, or closes the socket. *)
Lemma agentHello_spec r w hello remote local now s :
  match agentHello r w hello remote local now s with
  | (None, s') => calm s s' ∧ w ∉ open_ws s'
  | (Some p, s') => ∃ h a s1, hello = Some h ∧ ac_deviceID a = DeviceID h ∧ ac_ws a = w ∧
      p = next_ref s1 ∧ calm s s1 ∧ calm (add_agent a s1) s'
  end.
Proof.
  unfold agentHello.
  assert (∀ s', calm s s' → calm s (wsClose w s').2 ∧ w ∉ open_ws (wsClose w s').2) as Hno.
  { intros s' Hc. split; [|simpl; set_solver]. etrans; [exact Hc|]. apply calm_wsClose. }
  destruct hello as [h|].
  2:{ rewrite !bind_run. apply Hno, calm_wsWrite. }
  destruct (_ || _).
  { rewrite !bind_run. apply Hno, calm_wsWrite. }
  rewrite bind_run. cbn [getS fst snd]. destruct (negb _).
  { rewrite !bind_run. apply Hno. etrans; [apply calm_wsWrite|apply calm_audit]. }
  rewrite bind_run. set (up := regM _ s).
  assert (calm s up.2) as Hup by (apply (keeps_regM calm); intros; calm_reg_leaf).
  rewrite bind_run. set (s2 := (audit _ _ _ _ _ up.2).2).
  assert (calm s s2) as Hs2 by (etrans; [exact Hup|apply calm_audit]).
  unfold fresh. rewrite !bind_run. cbn [getS modifyS mret stateM_ret fst snd].
  match goal with |- context [<[next_ref s2 := ?x]>] => set (a := x) end.
  exists h, a, s2. split_and!; [done..|exact Hs2|]. unfold add_agent. change (ac_deviceID a) with (DeviceID h).
  case_match; [apply calm_wsClose|reflexivity].
Qed.
End openings.

(** A link joins a registered desktop. *)
Lemma link_transition w sid p s s' :
  server_wf s → calm s s' → screens s !! sid = Some p →
  transition s s' no_profile (profile_of (Some (TLink w p))).
Proof.
  intros Hwf Hc Hp. pose proof (calm_same s s' no_profile Hwf Hc ltac:(by split)) as [].
  constructor; try done.
  - intros x Hx. destruct (ts_open0 x Hx) as [|[? _]]; [done|right]. by split.
  - intros q [= <-]. right. by exists sid.
Qed.

(** ** Histories *)

Section histories.
Context `{Crypto} `{UrlParser} `{JulianDay} (stamp_text : Time → string).
Context (filepath_Join : string → string → string) (is_regular : string → bool).
Context (WebFS : option (string → option bytes)) (TypeByExtension : string → string).

Definition all_placed (y : system) : Prop :=
  ∀ tid t, sy_threads y !! tid = Some t → well_placed t.

Definition system_ok (y : system) : Prop := system_wf y ∧ all_placed y.

Lemma moved_ok tid new s' n w ids y :
  system_ok y → transition (sy_server y) s' (profile_of (sy_threads y !! tid)) (profile_of new) →
  (sy_next y ≤ n)%nat → (is_Some new → (tid < n)%nat) → ids ## sy_ids y → w ## sy_sockets y →
  (∀ k c, pf_session (profile_of new) = Some (k, c) →
     (∃ k' c', pf_session (profile_of (sy_threads y !! tid)) = Some (k', c') ∧ ses_id c' = ses_id c) ∨
     ses_id c ∈ ids) →
  (∀ x, pf_socket (profile_of new) = Some x →
     pf_socket (profile_of (sy_threads y !! tid)) = Some x ∨ x ∈ w) →
  (∀ t, new = Some t → well_placed t) →
  system_ok (moved tid new s' n w ids y).
Proof.
  intros [Hwf Hpl] Ht N1 N2 N3 N4 N5 N6 N7. split; [by apply transition_wf|].
  intros i t [[-> E]|[_ Hi]]%handler_after; [by apply N7|by eapply Hpl].
Qed.

(** The server moves on its own. *)
Lemma with_server_ok s' y :
  system_ok y → transition (sy_server y) s' no_profile no_profile → system_ok (with_server s' y).
Proof.
  intros Hok Ht. assert (sy_threads y !! sy_next y = None) as Hn.
  { destruct (sy_threads y !! sy_next y) eqn:E; [|done].
    assert (sy_next y < sy_next y)%nat by (apply (sv_next y (proj1 Hok)); eauto). lia. }
  assert (with_server s' y = moved (sy_next y) None s' (sy_next y) ∅ ∅ y) as ->.
  { unfold with_server, moved. f_equal; [|set_solver..]. apply map_eq. intros i.
    destruct (decide (i = sy_next y)) as [->|].
    - by rewrite lookup_partial_alter_eq.
    - by rewrite lookup_partial_alter_ne. }
  apply moved_ok; try done. by rewrite Hn.
Qed.

(** A new handler *)
Lemma spawn_ok t s' w ids y :
  system_ok y → transition (sy_server y) s' no_profile (profile_of (Some t)) →
  ids ## sy_ids y → w ## sy_sockets y →
  (∀ k c, pf_session (profile_of (Some t)) = Some (k, c) → ses_id c ∈ ids) →
  (∀ x, pf_socket (profile_of (Some t)) = Some x → x ∈ w) → well_placed t →
  system_ok (spawn t s' w ids y).
Proof.
  intros Hok Ht Hids Hw Hi Hx Hpl. assert (sy_threads y !! sy_next y = None) as Hn.
  { destruct (sy_threads y !! sy_next y) eqn:E; [|done].
    assert (sy_next y < sy_next y)%nat by (apply (sv_next y (proj1 Hok)); eauto). lia. }
  apply (moved_ok (sy_next y) (Some t) s' (S (sy_next y)) w ids y); try done.
  - by rewrite Hn.
  - lia.
  - intros _. lia.
  - right. eauto.
  - right. eauto.
  - by intros ? [= <-].
Qed.

Lemma perform_ok a y :
  system_ok y →
  system_ok (perform stamp_text filepath_Join is_regular WebFS TypeByExtension a y).
Proof.
  intros Hok. pose proof Hok as [Hwf Hpl]. pose proof (sv_server y Hwf) as Hs.
  assert (∀ s', calm (sy_server y) s' → system_ok (with_server s' y)) as Hcalm.
  { intros s' Hc. apply with_server_ok; [done|]. apply calm_same; [done|exact Hc|by split]. }
  destruct a as [k r w sid metric now|r w now|r w hello remote local now|tid i now|t now|i r now|now];
    cbn [perform].
  - destruct (new_socket w y) eqn:Hw; [|done]. destruct (bool_decide _) eqn:Hsid; [done|]. cbn [andb negb].
    pose proof (open_session_spec k r w sid metric now (sy_server y)) as Ho.
    destruct (open_session k r w sid metric now (sy_server y)) as [[[c t]|] s']; [|by apply Hcalm].
    destruct Ho as (<- & -> & Ho). pose proof (open_transition k c t _ _ Hs Ho) as Ht.
    destruct Ho as ([st Hp] & Hpl' & _). simpl in Hw. bools.
    apply spawn_ok; try done; rewrite ?Hp; [set_solver..| |].
    + intros k' c' [= _ <-]. set_solver.
    + intros x. simpl. destruct k; simpl; intros [= <-]; set_solver.
  - destruct (new_socket w y) eqn:Hw; [|done].
    pose proof (calm_screenLink r w now (sy_server y)) as Hc.
    destruct (screenLink r w now (sy_server y)) as [[resp|[|]] s'] eqn:El; try (by apply Hcalm).
    destruct w as [w|]; [|by apply Hcalm].
    destruct (screens (sy_server y) !! QueryGet r "session") as [p|] eqn:Hp; [|by apply Hcalm].
    simpl in Hw. bools. apply spawn_ok; try done; [|set_solver..|].
    + apply transition_accept_r; [done|]. by eapply link_transition.
    + intros x [= <-]. set_solver.
  - destruct (new_socket (Some w) y) eqn:Hw; [|done]. simpl in Hw. bools.
    pose proof (agentHello_spec r w hello remote local now (accept w (sy_server y))) as Hh.
    destruct (agentHello r w hello remote local now (accept w (sy_server y))) as [[p|] s'].
    + destruct Hh as (h & a & s1 & -> & Ea & Ew & -> & C1 & C2).
      destruct (C1 (wf_accept w _ Hs)) as [Hs1 _].
      apply spawn_ok; try done; [|set_solver..|].
      * apply (transition_accept_l w); [done|].
        eapply transition_calm_l; [by apply wf_accept|exact C1|done|done|done|].
        eapply transition_calm_r; [|exact C2|done].
        cbn [profile_of]. rewrite <- Ea, <- Ew. by apply spawn_agent.
      * intros x [= <-]. set_solver.
    + destruct Hh as [Hc Hno]. apply with_server_ok; [done|]. by apply (transition_refused w).
  - destruct (sy_threads y !! tid) as [t|] eqn:Et; [|done].
    pose proof (thread_step_transition t i now (sy_server y) Hs (sv_backed y Hwf tid t Et)
      (Hpl tid t Et)) as Ht.
    destruct (thread_step_own t i now (sy_server y) (Hpl tid t Et)) as (Hp & Hse & Hso).
    destruct (thread_step t i now (sy_server y)) as [t' s']. cbn [fst snd] in *.
    assert (with_thread tid t' s' y = moved tid t' s' (sy_next y) ∅ ∅ y) as ->
      by (unfold with_thread, moved; f_equal; set_solver).
    apply moved_ok; rewrite ?Et; try done.
    + intros _. apply (sv_next y Hwf). eauto.
    + intros k c Hc. left. eauto.
    + intros x Hx. left. auto.
  - destruct (timers (sy_server y) !! t) as [ft|]; [|done]. destruct (ft_due ft <=? now); [|done].
    apply spawn_ok; try done. apply calm_same; [done| |by split].
    apply (calm_timerStop (Some t)).
  - apply Hcalm, calm_serve.
  - apply Hcalm, calm_sweepAuthState.
Qed.

Lemma run_actions_ok l y :
  system_ok y →
  system_ok (run_actions stamp_text filepath_Join is_regular WebFS TypeByExtension l y).
Proof.
  unfold run_actions. revert y. induction l as [|a l IH]; intros y Hy; [done|].
  apply IH. by apply perform_ok.
Qed.
End histories.
