(* ===== verification/ServerProps.v ===== *)
(** * Properties of the running server

    Every history of a started server keeps [system_wf] ([running_server_coherent]);
    when no handler is left nothing is left behind ([idle_server_clean]); and the
    handlers never wait for each other in vain: once their peers are gone they all
    return, in a number of steps known in advance ([handlers_can_finish]). *)
From Stdlib Require Import ZArith Lia String Ascii.
From S2P Require Import Prelude GoStrings Protocol Registry RegistryProps Tickets Traffic Http Server.
From S2P Require Import Auth AuthProps Forward ForwardProps AgentWS AgentProps Browser BrowserProps.
From S2P Require Import Api ApiProps Analytics Routing ServerSys ServerFrames ServerInv.
Open Scope char_scope.
Open Scope string_scope.
Open Scope list_scope.
Open Scope Z_scope.

(** ** A started server *)

Section started.
Context `{Crypto}.

Lemma empty_server_wf c r :
  registry_wf r → db_up r = true →
  (∀ id row, connection_sessions r !! id = Some row → is_Some (c_ended_at row)) →
  server_wf (empty_server c r).
Proof.
  intros Hwf Hup Hend.
  constructor; simpl; try done; try (intros *; rewrite ?lookup_empty; by intros []).
  - intros [] p [? Hp]; simpl in Hp; by rewrite lookup_empty in Hp.
  - intros [] sid p; simpl; by rewrite lookup_empty.
  - intros [] p w q d Hp; simpl in Hp; by rewrite lookup_empty in Hp.
  - intros id row Hr Ho. destruct (Hend id row Hr) as [? E]. by rewrite Ho in E.
Qed.

Lemma NewServer_wf c disk salt t0 s0 :
  registry_wf disk → NewServer c (Some disk) salt t0 = Ok s0 →
  ∃ r, s0 = empty_server c r ∧ server_wf s0.
Proof.
  intros Hd. unfold NewServer. destruct (String.eqb _ _); [done|].
  set (r := NewRegistry disk t0).
  assert (registry_wf r) as Hr by exact (wf_run_op (OpReopen t0) disk Hd).
  pose proof (reopen_resets_liveness disk t0 Hd) as [_ Hrow].
  destruct (_ && _).
  - pose proof (wf_run_op (OpEnsureUser (AdminUser c) (AdminPassword c) "admin" salt t0) r Hr) as Hr'.
    cbn [run_op] in Hr'.
    assert (db_up (EnsureUser (AdminUser c) (AdminPassword c) "admin" salt t0 r).2 = true ∧
      connection_sessions (EnsureUser (AdminUser c) (AdminPassword c) "admin" salt t0 r).2 =
      connection_sessions r) as [Hup Hc] by (unfold EnsureUser, insert_user, sql_exec; reg_cases; done).
    destruct (EnsureUser _ _ _ _ _ _) as [[u|e] r']; [|done].
    intros [= <-]. exists r'. split; [done|]. apply empty_server_wf; [done..|].
    intros id row. cbn [snd] in Hc. rewrite Hc. intros Hi. by apply (Hrow id row).
  - intros [= <-]. exists r. split; [done|]. apply empty_server_wf; [done..|].
    intros id row Hi. by apply (Hrow id row).
Qed.

Lemma start_system_ok c r : server_wf (empty_server c r) → system_ok (start_system (empty_server c r)).
Proof.
  intros Hwf. split; [|by intros tid t; simpl; rewrite lookup_empty].
  constructor; simpl; try done; try (intros *; rewrite ?lookup_empty; by intros []).
  - intros [] sid p; simpl; by rewrite lookup_empty.
  - intros d (sid & p & f & Hs & _). simpl in Hs. by rewrite lookup_empty in Hs.
Qed.
End started.

(** ** Handlers whose peers are gone *)

Section drain.
Context `{Crypto} `{UrlParser}.

(** What a handler gets once its peer has disconnected: every read fails, the wait for
    a link times out, and what needs no peer goes on. *)
Definition last_input (t : thread) : input :=
  match t with
  | TTermLoop _ | TDownload _ | TFilesLoop _ | TScreenLoop _ => IFrame None
  | TUpload _ _ => IUpload EGone
  | TScreenWait _ => ITimeout
  | TScreenRelay _ _ up _ => ICopy up None
  | TAgent _ _ _ => IAgent None ""
  | _ => IRun
  end.

(** How many steps such a handler has left *)
Definition work (t : thread) : nat :=
  match t with
  | TClosing _ _ todo => S (length todo)
  | TAgentClosing _ _ todo => S (length todo)
  | TLink _ _ | TFired _ => 1
  | TTermStart _ _ => 7
  | TFileStart _ _ _ => 7
  | TTermLoop _ | TFilesLoop _ | TDownload _ | TUpload _ _ => 6
  | TScreenLoop _ => 10
  | TScreenWait _ => 9
  | TScreenRelay _ _ up down => 6 + (if up then 1 else 0) + (if down then 1 else 0)
  | TAgent _ _ _ => 8
  | TAgentArm _ _ _ _ _ => 9
  | TAgentLeave _ _ _ => 7
  end.

Definition work_of (t : option thread) : nat := match t with Some t => work t | None => O end.

(** A link waits until its desktop's handler returns, for nothing else. *)
Definition waits (s : Server) (t : thread) : Prop :=
  match t with TLink _ p => ¬ linked_off s p | _ => False end.

Lemma step_lighter t now s :
  well_placed t → ¬ waits s t → (work_of (thread_step t (last_input t) now s).1 < work t)%nat.
Proof.
  intros Hpl Hw.
  destruct t as [r c|c|r c actor|c u|c|c|c|c|c link up down|k c [|x todo]|w p|id conn w
    |id conn w msg p|id conn w|id w [|x todo]|ft]; cbn [thread_step last_input]; rewrite ?bind_run.
  - by destruct (terminalStart r c now s) as [[] s']; simpl; lia.
  - unfold terminalEvent. rewrite !bind_run. simpl. lia.
  - destruct (fileStart r c actor now s) as [[] s']; simpl; [case_match; simpl|]; lia.
  - unfold uploadEvent. rewrite !bind_run. simpl. lia.
  - unfold downloadEvent. rewrite !bind_run. simpl. lia.
  - simpl. lia.
  - simpl. lia.
  - unfold screenTimeout. rewrite !bind_run. simpl. lia.
  - simpl in Hpl. destruct up, down; try done; unfold relayScreenFrame; simpl; lia.
  - simpl. lia.
  - simpl. lia.
  - cbn [getS fst snd]. simpl in Hw. unfold linked_off in Hw.
    destruct (screenH s !! p) as [t'|]; [|by destruct Hw; intros (? & ? & _)].
    destruct (sc_done t') eqn:E; [simpl; lia|].
    destruct Hw. intros (? & [= <-] & ?). congruence.
  - simpl. lia.
  - simpl. lia.
  - destruct (unlinkAgent id conn s) as [[] s']; simpl; lia.
  - simpl. lia.
  - simpl. lia.
  - simpl. lia.
Qed.

(** The steps left to all handlers together *)
Definition work_left (m : gmap nat thread) : nat := map_fold (λ _ t n, (work t + n)%nat) O m.

Lemma work_left_insert m tid t :
  m !! tid = None → work_left (<[tid := t]> m) = (work t + work_left m)%nat.
Proof. intros Hm. unfold work_left. rewrite map_fold_insert_L; [done| |done]. intros. lia. Qed.

Lemma work_left_moves m tid t t' :
  m !! tid = Some t →
  (work_left (partial_alter (λ _, t') tid m) + work t = work_left m + work_of t')%nat.
Proof.
  intros Hm. rewrite <- (insert_delete_id m tid t Hm) at 2.
  rewrite work_left_insert by apply lookup_delete_eq.
  assert (partial_alter (λ _, t') tid m =
    match t' with Some u => <[tid := u]> (delete tid m) | None => delete tid m end) as ->.
  { apply map_eq. intros i. destruct (decide (i = tid)) as [->|Hi].
    - rewrite lookup_partial_alter_eq. destruct t'; by rewrite ?lookup_insert_eq, ?lookup_delete_eq.
    - rewrite lookup_partial_alter_ne by done.
      destruct t'; by rewrite ?lookup_insert_ne, lookup_delete_ne by done. }
  destruct t' as [u|]; simpl; [|lia]. rewrite work_left_insert by apply lookup_delete_eq. lia.
Qed.

(** Some handler does not wait for another one. *)
Lemma some_handler_moves y :
  system_wf y → sy_threads y ≠ ∅ →
  ∃ tid t, sy_threads y !! tid = Some t ∧ ¬ waits (sy_server y) t.
Proof.
  intros Hwf (tid & t & Ht)%map_choose.
  assert (waits (sy_server y) t → ∃ tid t, sy_threads y !! tid = Some t ∧ ¬ waits (sy_server y) t) as Hno.
  { destruct t; try by intros []. intros Hw. destruct (sv_links y Hwf tid _ p Ht) as [|(j & u & Hu & Hk)];
      [done|by destruct Hw|].
    exists j, u. split; [done|]. destruct u; simpl; try by intros []. by destruct Hk as (c & Hc & _). }
  destruct t; try (exists tid; eexists; split; [exact Ht|]; by intros []).
  destruct (screenH (sy_server y) !! p) as [d|] eqn:E; [destruct (sc_done d) eqn:Ed|].
  - exists tid; eexists; split; [exact Ht|]. intros Hw. apply Hw. by exists d.
  - apply Hno. simpl. intros (? & ? & ?). congruence.
  - apply Hno. simpl. intros (? & ? & _). congruence.
Qed.

Context `{JulianDay} (stamp_text : Time → string).
Context (filepath_Join : string → string → string) (is_regular : string → bool).
Context (WebFS : option (string → option bytes)) (TypeByExtension : string → string).
Notation run := (run_actions stamp_text filepath_Join is_regular WebFS TypeByExtension).

(** A step of a handler whose peer is gone *)
Definition last_step (y : system) (now : Time) (a : action) : Prop :=
  ∃ tid t, a = AStep tid (last_input t) now ∧ sy_threads y !! tid = Some t.

(** The handlers return one after the other. *)
Lemma drain now : ∀ n y, system_ok y → (work_left (sy_threads y) ≤ n)%nat →
  ∃ l, (length l ≤ n)%nat ∧ sy_threads (run l y) = ∅ ∧
    ∀ i a, l !! i = Some a → last_step (run (take i l) y) now a.
Proof.
  induction n as [|n IH]; intros y Hok Hn;
    (destruct (decide (sy_threads y = ∅)) as [E|E];
      [exists []; split_and!; [simpl; lia|done|by intros i a; rewrite lookup_nil]|]);
    destruct (some_handler_moves y (proj1 Hok) E) as (tid & t & Ht & Hw);
    pose proof (step_lighter t now (sy_server y) (proj2 Hok tid t Ht) Hw) as Hlt;
    pose proof (work_left_moves (sy_threads y) tid t (thread_step t (last_input t) now (sy_server y)).1 Ht)
      as Hm; [lia|].
  set (a := AStep tid (last_input t) now).
  pose proof (perform_ok stamp_text filepath_Join is_regular WebFS TypeByExtension a y Hok) as Hok'.
  set (y' := perform stamp_text filepath_Join is_regular WebFS TypeByExtension a y) in *.
  assert (sy_threads y' = partial_alter (λ _, (thread_step t (last_input t) now (sy_server y)).1) tid
    (sy_threads y)) as Hy'.
  { subst y' a. cbn [perform]. rewrite Ht. by destruct (thread_step t _ now _). }
  destruct (IH y' Hok') as (l & Hl & Hend & Hsteps); [rewrite Hy'; lia|].
  exists (a :: l). split_and!; [simpl; lia|exact Hend|].
  intros [|i] b; simpl.
  - intros [= <-]. by exists tid, t.
  - apply Hsteps.
Qed.
End drain.

(** ** The running server *)

Section running.
Context `{Crypto} `{UrlParser} `{JulianDay} (stamp_text : Time → string).
Context (filepath_Join : string → string → string) (is_regular : string → bool).
Context (WebFS : option (string → option bytes)) (TypeByExtension : string → string).
Notation run := (run_actions stamp_text filepath_Join is_regular WebFS TypeByExtension).

Lemma started_system_ok c disk salt t0 s0 l :
  registry_wf disk → NewServer c (Some disk) salt t0 = Ok s0 → system_ok (run l (start_system s0)).
Proof.
  intros Hd Hs. destruct (NewServer_wf c disk salt t0 s0 Hd Hs) as (r & -> & Hwf).
  by apply run_actions_ok, start_system_ok.
Qed.


(** C6: a server whose handlers have all returned has nothing left: no session is
    filed, no device or tunnel is registered, no socket is open, and a connection
    still recorded as running is the row of a tunnel. *)
Theorem idle_server_clean c disk salt t0 s0 l s :
  registry_wf disk → NewServer c (Some disk) salt t0 = Ok s0 →
  sy_threads (run l (start_system s0)) = ∅ → sy_server (run l (start_system s0)) = s →
  (∀ k, registered k s = ∅) ∧ agents s = ∅ ∧ forwards s = ∅ ∧ open_ws s = ∅ ∧
  ∀ id row, connection_sessions (reg s) !! id = Some row → c_ended_at row = None →
    ∃ p f q rc, forwardH s !! p = Some f ∧ fw_traffic f = Some q ∧
      recorderH s !! q = Some rc ∧ tr_id rc = id.
Proof.
  intros Hd Hs Ht <-. destruct (started_system_ok c disk salt t0 s0 l Hd Hs) as [Hwf _].
  set (y := run l (start_system s0)) in *.
  assert (∀ P, ¬ some_handler y P) as Hno.
  { intros P (tid & t & Hi & _). rewrite Ht in Hi. by rewrite lookup_empty in Hi. }
  assert (agents (sy_server y) = ∅) as Ha.
  { apply map_empty. intros id. destruct (agents _ !! id) eqn:E; [|done].
    by destruct (Hno _ (sv_agents y Hwf _ _ E)). }
  split_and!; [| done | | |].
  - intros k. apply map_empty. intros sid. destruct (registered _ _ !! sid) eqn:E; [|done].
    by destruct (Hno _ (sv_entries y Hwf _ _ _ E)).
  - apply map_empty. intros sid. destruct (forwards _ !! sid) as [p|] eqn:E; [|done].
    destruct (sw_forwards _ (sv_server y Hwf) sid p E) as [f Hf].
    destruct (sv_tunnels y Hwf (fw_source f)) as [[x Hx]|Hh].
    + exists sid, p, f. auto.
    + rewrite Ha in Hx. by rewrite lookup_empty in Hx.
    + by destruct (Hno _ Hh).
  - apply set_eq. intros w. split; [|set_solver]. intros Hw.
    by destruct (Hno _ (sv_sockets y Hwf w Hw)).
  - intros id row Hr Ho. destruct (sw_rows _ (sv_server y Hwf) id row Hr Ho) as (q & rc & Hq & <- & Hop).
    destruct (sv_recorders y Hwf q rc Hq Hop) as [Hh|(p & f & Hf & Hfq)]; [by destruct (Hno _ Hh)|].
    by exists p, f, q, rc.
Qed.

(** C12: no handler waits in vain: from every state of a started server, once the peers
    are gone, [work_left] steps at most of the running handlers (each reading a failed
    read or going on by itself) end them all. *)
Theorem handlers_can_finish c disk salt t0 s0 l now :
  registry_wf disk → NewServer c (Some disk) salt t0 = Ok s0 →
  let y := run l (start_system s0) in
  ∃ l', (length l' ≤ work_left (sy_threads y))%nat ∧
    (∀ i a, l' !! i = Some a → last_step (run (take i l') y) now a) ∧
    sy_threads (run (l ++ l') (start_system s0)) = ∅.
Proof.
  intros Hd Hs y. pose proof (started_system_ok c disk salt t0 s0 l Hd Hs) as Hok.
  destruct (drain stamp_text filepath_Join is_regular WebFS TypeByExtension now _ y Hok (le_n _))
    as (l' & Hn & Hend & Hsteps).
  exists l'. split_and!; [done| |].
  - intros i a Hi. exact (Hsteps i a Hi).
  - unfold run_actions. by rewrite foldl_app.
Qed.
End running.

(** ** Witnesses *)

Module SystemDemo.
Import Toy ApiDemo AnalyticsDemo RoutingDemo.
#[export] Existing Instance AuthDemo.url.
(** Two enrolled devices, ["dev-30"] and ["dev-32"], whose tokens are ["31"] and ["33"] *)
Definition disk : Registry :=
  run_ops [OpCreateDeviceKey (Some ["0"%char]) (Some ["1"%char]) "a" 500 1;
           OpCreateDeviceKey (Some ["2"%char]) (Some ["3"%char]) "b" 500 2] empty_registry.
Lemma disk_wf : registry_wf disk.
Proof. apply (run_ops_invariant registry_wf); [apply @wf_run_op | apply empty_registry_wf]. Qed.
Definition conf : Config := ForwardDemo.conf.
Definition s0 : Server := empty_server conf (NewRegistry disk 10).
Lemma s0_started : NewServer conf (Some disk) "" 10 = Ok s0.
Proof. vm_compute. reflexivity. Qed.
Notation run := (run_actions stamp join regular (Some ui) types) (only parsing).
Definition agent_req (token : string) : Request :=
  mkRequest "GET" "/ws/agent" [] "" [("Authorization", "Bearer " +:+ token)] [] "relay" true "10.0.0.3:99".
Definition hello (id : string) : Message :=
  mkMessage TypeHello id "n" "h" "linux" "amd64" [] 0 None "" "" 0 0 0 "" 0 "" "" 0 "" "" [].
Definition want (port : Z) : Message :=
  mkMessage TypeForwardConnect "" "" "" "" "" [] 0 None "s1" "" 0 0 0 "" 0 "" "dev-32" port "" "" [].
(** Two devices connect and the first asks for two tunnels under one session id. *)
Definition twice : list action :=
  [AHello (agent_req "31") 1%nat (Some (hello "dev-30")) "10.0.0.1:1" [] 20;
   AHello (agent_req "33") 2%nat (Some (hello "dev-32")) "10.0.0.2:1" [] 21;
   AStep 0 (IAgent (Some (want 22)) "m1") 22; AStep 0 IRun 23;
   AStep 0 (IAgent (Some (want 80)) "m2") 24; AStep 0 IRun 25].
(** Both leave. *)
Definition leave (tid : nat) : list action := AStep tid (IAgent None "") 30 :: replicate 7 (AStep tid IRun 31).
Definition term_req : Request :=
  mkRequest "GET" "/ws/terminal" [("device", "dev-30")] "" [("Authorization", "Bearer root-token")] [] "relay" true "10.0.0.9:99".
(** A terminal opens on the first device. *)
Definition busy : list action := take 2 twice ++ [AOpen KTerminal term_req (Some 3%nat) "t" "m3" 26].
(** ... and everyone leaves. *)
Definition over : list action := busy ++ leave 0 ++ leave 1 ++ AStep 2 IRun 32 :: replicate 6 (AStep 2 IRun 33).
End SystemDemo.
Import Toy ApiDemo AnalyticsDemo RoutingDemo SystemDemo.


Lemma idle_server_clean_witness :
  sy_threads (run over (start_system s0)) = ∅ ∧ open_ws (sy_server (run over (start_system s0))) = ∅.
Proof.
  assert (sy_threads (run over (start_system s0)) = ∅) as Ht by (vm_compute; reflexivity).
  split; [exact Ht|].
  destruct (idle_server_clean stamp join regular (Some ui) types conf disk "" 10 s0 over
    (sy_server (run over (start_system s0))) disk_wf s0_started Ht eq_refl) as (_ & _ & _ & Hw & _).
  exact Hw.
Defined.

Lemma handlers_can_finish_witness :
  ∃ l', (length l' ≤ 23)%nat ∧ sy_threads (run (busy ++ l') (start_system s0)) = ∅.
Proof.
  destruct (handlers_can_finish stamp join regular (Some ui) types conf disk "" 10 s0 busy 40
    disk_wf s0_started) as (l' & Hn & _ & Hend).
  exists l'. split; [|exact Hend]. revert Hn. vm_compute. exact (λ h, h).
Defined.

(** A second tunnel under the id of a live one: the first one's row stays "active"
    although both devices have left and every handler has returned. *)
Example reused_tunnel_id_leaves_active_row :
  let y := run (twice ++ leave 0 ++ leave 1) (start_system s0) in
  sy_threads y = ∅ ∧
  (λ c, (c_state c, c_ended_at c)) <$> connection_sessions (reg (sy_server y)) !! "m1" = Some ("active", None) ∧
  (λ c, (c_state c, c_ended_at c)) <$> connection_sessions (reg (sy_server y)) !! "m2" =
    Some ("interrupted", Some 31).
Proof. split_and!; vm_compute; reflexivity. Qed.
