(* ===== verification/Quoting.v ===== *)
(** * Go's quoting and URL encoding

    The parts of [unicode/utf8], [strconv] and [net/url] that the log and the command
    line use: decoding a rune, [strconv.Quote] with a reader of what it writes,
    [url.QueryEscape], [url.PathEscape] and [url.ParseQuery].  Strings are their bytes.
    Which runes beyond ASCII are printable is a table of the library ([IsPrint]). *)
From stdpp Require Import sorting.
From Stdlib Require Import ZArith Lia Ascii String.
From S2P Require Import Prelude GoStrings Protocol Registry Http.
Open Scope char_scope.
Open Scope string_scope.
Open Scope list_scope.
Open Scope Z_scope.

Class UnicodeTables := { IsPrint : Z → bool }.

Ltac divs := Z.div_mod_to_equations; lia.

(** ** Bytes and runes *)

Definition code (a : ascii) : Z := Z.of_nat (nat_of_ascii a).
Definition chr (z : Z) : ascii := ascii_of_nat (Z.to_nat z).
Definition within (lo hi z : Z) : bool := (lo <=? z) && (z <=? hi).

(** [utf8.DecodeRuneInString] on a string whose first byte is not ASCII: the rune and
    its width; [None] is [RuneError] of width 1. *)
Definition DecodeRune (s : string) : option (Z * nat) :=
  match s with
  | String a (String b s2) =>
      let b0 := code a in
      let b1 := code b in
      if within 0xC2 0xDF b0 && within 0x80 0xBF b1 then
        Some ((b0 - 0xC0) * 64 + (b1 - 0x80), 2%nat)
      else match s2 with
      | String c s3 =>
          let b2 := code c in
          if within 0xE0 0xEF b0 &&
             within (if b0 =? 0xE0 then 0xA0 else 0x80) (if b0 =? 0xED then 0x9F else 0xBF) b1 &&
             within 0x80 0xBF b2 then
            Some ((b0 - 0xE0) * 4096 + (b1 - 0x80) * 64 + (b2 - 0x80), 3%nat)
          else match s3 with
          | String d _ =>
              let b3 := code d in
              if within 0xF0 0xF4 b0 &&
                 within (if b0 =? 0xF0 then 0x90 else 0x80) (if b0 =? 0xF4 then 0x8F else 0xBF) b1 &&
                 within 0x80 0xBF b2 && within 0x80 0xBF b3 then
                Some ((b0 - 0xF0) * 262144 + (b1 - 0x80) * 4096 + (b2 - 0x80) * 64 + (b3 - 0x80), 4%nat)
              else None
          | EmptyString => None
          end
      | EmptyString => None
      end
  | _ => None
  end.

(** [utf8.AppendRune] *)
Definition EncodeRune (r : Z) : string :=
  if r <? 0x80 then String (chr r) ""
  else if r <? 0x800 then String (chr (0xC0 + r / 64)) (String (chr (0x80 + r mod 64)) "")
  else if r <? 0x10000 then
    String (chr (0xE0 + r / 4096)) (String (chr (0x80 + (r / 64) mod 64))
      (String (chr (0x80 + r mod 64)) ""))
  else
    String (chr (0xF0 + r / 262144)) (String (chr (0x80 + (r / 4096) mod 64))
      (String (chr (0x80 + (r / 64) mod 64)) (String (chr (0x80 + r mod 64)) ""))).

Lemma code_range a : 0 ≤ code a < 256.
Proof. unfold code. pose proof (nat_ascii_bounded a). lia. Qed.

Lemma chr_code a : chr (code a) = a.
Proof. unfold chr, code. by rewrite Nat2Z.id, ascii_nat_embedding. Qed.

Lemma code_chr z : 0 ≤ z < 256 → code (chr z) = z.
Proof. intros Hz. unfold chr, code. rewrite nat_ascii_embedding; lia. Qed.

Lemma code_inj a b : code a = code b → a = b.
Proof. intros E. by rewrite <- (chr_code a), <- (chr_code b), E. Qed.

Lemma within_spec lo hi z : within lo hi z = true → lo ≤ z ≤ hi.
Proof. unfold within. lia. Qed.

(** Encoding a decoded rune gives its bytes back. *)
Lemma DecodeRune_spec s r w :
  DecodeRune s = Some (r, w) →
  s = EncodeRune r +:+ str_drop w s ∧ str_take w s = EncodeRune r ∧ 0x80 ≤ r < 0x110000 ∧ (1 < w)%nat.
Proof.
  unfold DecodeRune. destruct s as [|a [|b s2]]; [done..|].
  pose proof (code_range a). pose proof (code_range b).
  destruct (within 0xC2 _ _ && _) eqn:E1.
  { intros [= <- <-]. bools. apply within_spec in H1, H2.
    set (r := (code a - 0xC0) * 64 + (code b - 0x80)).
    assert (r / 64 = code a - 0xC0 ∧ r mod 64 = code b - 0x80) as [D M] by (subst r; divs).
    unfold EncodeRune. rewrite D, M.
    destruct (Z.ltb_spec r 0x80); [lia|]. destruct (Z.ltb_spec r 0x800); [|lia].
    rewrite !Zplus_minus, !chr_code. simpl. split_and!; [done..|lia|lia]. }
  destruct s2 as [|c s3]; [done|]. pose proof (code_range c).
  destruct (within 0xE0 _ _ && _ && _) eqn:E2.
  { intros [= <- <-]. bools. apply within_spec in H2, H3, H4.
    set (r := (code a - 0xE0) * 4096 + (code b - 0x80) * 64 + (code c - 0x80)).
    assert (128 ≤ code b ≤ 191 ∧ 0x800 ≤ r < 0x10000) as [Hb Hr].
    { subst r. destruct (Z.eqb_spec (code a) 0xE0), (Z.eqb_spec (code a) 0xED); lia. }
    assert (r / 4096 = code a - 0xE0 ∧ (r / 64) mod 64 = code b - 0x80 ∧ r mod 64 = code c - 0x80)
      as (D & M & L) by (subst r; divs).
    unfold EncodeRune. rewrite D, M, L.
    destruct (Z.ltb_spec r 0x80); [lia|]. destruct (Z.ltb_spec r 0x800); [lia|].
    destruct (Z.ltb_spec r 0x10000); [|lia].
    rewrite !Zplus_minus, !chr_code. simpl. split_and!; [done..|lia|lia]. }
  destruct s3 as [|d s4]; [done|]. pose proof (code_range d).
  destruct (within 0xF0 _ _ && _ && _ && _) eqn:E3; [|done].
  intros [= <- <-]. bools. apply within_spec in H3, H4, H5, H6.
  set (r := (code a - 0xF0) * 262144 + (code b - 0x80) * 4096 + (code c - 0x80) * 64 + (code d - 0x80)).
  assert (128 ≤ code b ≤ 191 ∧ 0x10000 ≤ r < 0x110000) as [Hb Hr].
  { subst r. destruct (Z.eqb_spec (code a) 0xF0), (Z.eqb_spec (code a) 0xF4); lia. }
  assert (r / 262144 = code a - 0xF0 ∧ (r / 4096) mod 64 = code b - 0x80 ∧
    (r / 64) mod 64 = code c - 0x80 ∧ r mod 64 = code d - 0x80)
    as (D & M & L & K) by (subst r; divs).
  unfold EncodeRune. rewrite D, M, L, K.
  destruct (Z.ltb_spec r 0x80); [lia|]. destruct (Z.ltb_spec r 0x800); [lia|].
  destruct (Z.ltb_spec r 0x10000); [lia|].
  rewrite !Zplus_minus, !chr_code. simpl. split_and!; [done..|lia|lia].
Qed.

(** ** [strconv.Quote] *)

Definition dquote : ascii := "034"%char.

Definition hex2 (z : Z) : string :=
  String (hex_digit (Z.to_nat (z / 16))) (String (hex_digit (Z.to_nat (z mod 16))) "").
Definition hex4 (z : Z) : string := hex2 (z / 256) +:+ hex2 (z mod 256).
Definition hex8 (z : Z) : string := hex4 (z / 65536) +:+ hex4 (z mod 65536).

(** [appendEscapedRune] on an ASCII byte *)
Definition escape_ascii (a : ascii) : string :=
  let b := code a in
  if Ascii.eqb a dquote || Ascii.eqb a "\" then String "\" (String a "")
  else if within 0x20 0x7E b then String a ""
  else if b =? 7 then "\a"
  else if b =? 8 then "\b"
  else if b =? 12 then "\f"
  else if b =? 10 then "\n"
  else if b =? 13 then "\r"
  else if b =? 9 then "\t"
  else if b =? 11 then "\v"
  else "\x" +:+ hex2 b.

Section quote.
Context `{UnicodeTables}.

(** The next rune of a string starting with [a]: what is written, and how many bytes
    it takes beyond the first *)
Definition escape_rune (a : ascii) (s : string) : string * nat :=
  if code a <? 0x80 then (escape_ascii a, O)
  else match DecodeRune (String a s) with
       | None => ("\x" +:+ hex2 (code a), O)
       | Some (r, w) =>
           (if IsPrint r then str_take w (String a s)
            else if r <? 0x10000 then "\u" +:+ hex4 r else "\U" +:+ hex8 r, Nat.pred w)
       end.

(** The loop, which skips the bytes already written *)
Fixpoint quote_loop (skip : nat) (s : string) : string :=
  match s with
  | EmptyString => ""
  | String a s =>
      match skip with
      | S k => quote_loop k s
      | O => let '(out, k) := escape_rune a s in out +:+ quote_loop k s
      end
  end.

Definition Quote (s : string) : string := String dquote (quote_loop 0 s +:+ String dquote "").

(** *** Reading it back *)

Definition hex_val (a : ascii) : option Z :=
  let b := code a in
  if within 48 57 b then Some (b - 48)
  else if within 97 102 b then Some (b - 87)
  else if within 65 70 b then Some (b - 55) else None.

Definition hex_pair (a b : ascii) : option Z :=
  x ← hex_val a; y ← hex_val b; Some (x * 16 + y).

Definition unescape (c : ascii) : option ascii :=
  if Ascii.eqb c dquote || Ascii.eqb c "\" then Some c
  else if Ascii.eqb c "a" then Some (chr 7)
  else if Ascii.eqb c "b" then Some (chr 8)
  else if Ascii.eqb c "f" then Some (chr 12)
  else if Ascii.eqb c "n" then Some (chr 10)
  else if Ascii.eqb c "r" then Some (chr 13)
  else if Ascii.eqb c "t" then Some (chr 9)
  else if Ascii.eqb c "v" then Some (chr 11)
  else None.

Definition put (p : string) (o : option (string * string)) : option (string * string) :=
  '(v, rest) ← o; Some (p +:+ v, rest).

(** The value after an opening quote, and what follows the closing one *)
Fixpoint unquote (s : string) : option (string * string) :=
  match s with
  | EmptyString => None
  | String a s =>
      if Ascii.eqb a dquote then Some ("", s)
      else if Ascii.eqb a "\" then
        match s with
        | EmptyString => None
        | String c s =>
            if Ascii.eqb c "x" then
              match s with
              | String h1 (String h2 s) =>
                  match hex_pair h1 h2 with
                  | Some v => put (String (chr v) "") (unquote s)
                  | None => None
                  end
              | _ => None
              end
            else if Ascii.eqb c "u" then
              match s with
              | String h1 (String h2 (String h3 (String h4 s))) =>
                  match hex_pair h1 h2, hex_pair h3 h4 with
                  | Some v, Some w => put (EncodeRune (v * 256 + w)) (unquote s)
                  | _, _ => None
                  end
              | _ => None
              end
            else if Ascii.eqb c "U" then
              match s with
              | String h1 (String h2 (String h3 (String h4
                  (String h5 (String h6 (String h7 (String h8 s))))))) =>
                  match hex_pair h1 h2, hex_pair h3 h4, hex_pair h5 h6, hex_pair h7 h8 with
                  | Some v, Some w, Some x, Some y =>
                      put (EncodeRune ((v * 256 + w) * 65536 + (x * 256 + y))) (unquote s)
                  | _, _, _, _ => None
                  end
              | _ => None
              end
            else match unescape c with
                 | Some b => put (String b "") (unquote s)
                 | None => None
                 end
        end
      else put (String a "") (unquote s)
  end.

Lemma hex_val_digit z : 0 ≤ z < 16 → hex_val (hex_digit (Z.to_nat z)) = Some z.
Proof.
  intros Hz. pose proof (all_below_spec 16
    (λ z, match hex_val (hex_digit (Z.to_nat z)) with Some v => v =? z | None => false end) z
    ltac:(by vm_compute) Hz) as Hall. simpl in Hall.
  destruct (hex_val _) as [v|]; [|done]. f_equal. lia.
Qed.

Lemma hex_pair_hex2 z : 0 ≤ z < 256 →
  ∃ a b, hex2 z = String a (String b "") ∧ hex_pair a b = Some z.
Proof.
  intros Hz. do 2 eexists. split; [reflexivity|]. unfold hex_pair.
  rewrite !hex_val_digit by divs. simpl. f_equal. divs.
Qed.

Lemma put_put p q o : put p (put q o) = put (p +:+ q) o.
Proof. destruct o as [[v r]|]; [|done]. simpl. by rewrite str_app_assoc. Qed.

(** A byte that is written as it is *)
Lemma unquote_plain a t : a ≠ dquote → a ≠ "\"%char → unquote (String a t) = put (String a "") (unquote t).
Proof.
  intros H1 H2. simpl. destruct (Ascii.eqb_spec a dquote); [done|]. by destruct (Ascii.eqb_spec a "\"%char).
Qed.

Lemma unquote_plains p t : (∀ a, str_mem a p = true → a ≠ dquote ∧ a ≠ "\"%char) →
  unquote (p +:+ t) = put p (unquote t).
Proof.
  induction p as [|a p IH]; intros Hp; [simpl; by destruct (unquote t) as [[]|]|].
  cbn [String.append]. destruct (Hp a) as [H1 H2]; [simpl; by rewrite Ascii.eqb_refl|].
  rewrite unquote_plain, IH by (try done; intros b Hb; apply Hp; simpl; rewrite Hb; by apply orb_true_r).
  by rewrite put_put.
Qed.

Lemma unquote_x z t : 0 ≤ z < 256 →
  unquote (("\x" +:+ hex2 z) +:+ t) = put (String (chr z) "") (unquote t).
Proof. intros Hz. destruct (hex_pair_hex2 z Hz) as (a & b & -> & E). simpl. by rewrite E. Qed.

Lemma unquote_u z t : 0 ≤ z < 65536 →
  unquote (("\u" +:+ hex4 z) +:+ t) = put (EncodeRune z) (unquote t).
Proof.
  intros Hz. unfold hex4.
  destruct (hex_pair_hex2 (z / 256)) as (a & b & -> & E1); [divs|].
  destruct (hex_pair_hex2 (z mod 256)) as (c & d & -> & E2); [divs|].
  simpl. rewrite E1, E2. by replace (z / 256 * 256 + z mod 256) with z by divs.
Qed.

Lemma unquote_U z t : 0 ≤ z < 65536 * 65536 →
  unquote (("\U" +:+ hex8 z) +:+ t) = put (EncodeRune z) (unquote t).
Proof.
  intros Hz. unfold hex8, hex4.
  destruct (hex_pair_hex2 (z / 65536 / 256)) as (a & b & -> & E1); [divs|].
  destruct (hex_pair_hex2 ((z / 65536) mod 256)) as (c & d & -> & E2); [divs|].
  destruct (hex_pair_hex2 (z mod 65536 / 256)) as (e & f & -> & E3); [divs|].
  destruct (hex_pair_hex2 ((z mod 65536) mod 256)) as (g & h & -> & E4); [divs|].
  simpl. rewrite E1, E2, E3, E4. do 2 f_equal. divs.
Qed.

Lemma str_take_drop n s : str_take n s +:+ str_drop n s = s.
Proof. revert s. induction n as [|n IH]; intros [|a s]; simpl; [done..|]. by rewrite IH. Qed.

Lemma str_length_drop n s : String.length (str_drop n s) = (String.length s - n)%nat.
Proof. revert s. induction n as [|n IH]; intros [|a s]; simpl; [done..|]. apply IH. Qed.

Lemma str_mem_take c n s : str_mem c (str_take n s) = true → str_mem c s = true.
Proof. intros Hc. by rewrite <- (str_take_drop n s), str_mem_app, Hc. Qed.

Lemma quote_loop_skip k s : quote_loop k s = quote_loop 0 (str_drop k s).
Proof. revert k. induction s as [|a s IH]; intros [|k]; simpl; [done..|]. apply IH. Qed.

Lemma unquote_ascii a t : code a < 0x80 → unquote (escape_ascii a +:+ t) = put (String a "") (unquote t).
Proof.
  intros Ha. destruct (unquote t) as [[v r]|] eqn:E;
    destruct a as [[] [] [] [] [] [] [] []]; try (exfalso; revert Ha; by vm_compute);
    simpl; by rewrite E.
Qed.

(** The bytes of an encoded rune beyond ASCII *)
Lemma EncodeRune_bytes r a : 0x80 ≤ r < 0x110000 → str_mem a (EncodeRune r) = true → 0x80 ≤ code a.
Proof.
  intros Hr. unfold EncodeRune. destruct (Z.ltb_spec r 0x80); [lia|].
  assert (∀ z, 0x80 ≤ z < 256 → Ascii.eqb (chr z) a = true → 0x80 ≤ code a) as Hz.
  { intros z Hz <-%Ascii.eqb_eq. rewrite code_chr; lia. }
  repeat case_match; simpl; rewrite ?orb_true_iff; intros Hm;
    repeat match type of Hm with _ ∨ _ => destruct Hm as [Hm|Hm] end; try done;
    (eapply Hz; [|exact Hm]; divs).
Qed.

Lemma unquote_escape a s t :
  let '(out, k) := escape_rune a s in
  unquote (out +:+ t) = put (String a (str_take k s)) (unquote t).
Proof.
  unfold escape_rune. pose proof (code_range a) as Ha. destruct (Z.ltb_spec (code a) 0x80).
  { by rewrite unquote_ascii. }
  destruct (DecodeRune (String a s)) as [[r w]|] eqn:E.
  - destruct (DecodeRune_spec _ _ _ E) as (_ & Ht & Hr & Hw).
    destruct w as [|w]; [lia|]. cbn [Nat.pred].
    change (String a (str_take w s)) with (str_take (S w) (String a s)).
    destruct (IsPrint r).
    + apply unquote_plains. intros b Hb. rewrite Ht in Hb.
      pose proof (EncodeRune_bytes r b Hr Hb). split; intros ->; by vm_compute in H1.
    + rewrite Ht. destruct (Z.ltb_spec r 0x10000); [apply unquote_u|apply unquote_U]; lia.
  - rewrite unquote_x, chr_code by lia. done.
Qed.

Lemma unquote_loop t : ∀ s, unquote (quote_loop 0 s +:+ String dquote t) = Some (s, t).
Proof.
  assert (∀ n s, (String.length s ≤ n)%nat →
    unquote (quote_loop 0 s +:+ String dquote t) = Some (s, t)) as Hn; [|eauto].
  induction n as [|n IH]; intros [|a s] Hs; simpl in Hs; try lia; [done..|].
  cbn [quote_loop]. pose proof (unquote_escape a s) as He. destruct (escape_rune a s) as [out k].
  rewrite <- str_app_assoc, He, quote_loop_skip, IH by (rewrite str_length_drop; lia).
  simpl. by rewrite str_take_drop.
Qed.

(** What [strconv.Quote] writes is read back, whatever the string and what follows. *)
Lemma unquote_Quote s t : ∃ q, Quote s +:+ t = String dquote q ∧ unquote q = Some (s, t).
Proof.
  eexists. split; [reflexivity|]. rewrite <- str_app_assoc. apply unquote_loop.
Qed.
End quote.

(** ** [net/url] *)

Definition unreserved (a : ascii) : bool :=
  let b := code a in
  within 48 57 b || within 65 90 b || within 97 122 b ||
  Ascii.eqb a "-" || Ascii.eqb a "_" || Ascii.eqb a "." || Ascii.eqb a "~".

Definition upper_digit (n : nat) : ascii := ascii_of_nat (if (n <? 10)%nat then 48 + n else 55 + n).

(** [%XX] *)
Definition percent (a : ascii) : string :=
  String "%" (String (upper_digit (Z.to_nat (code a / 16)))
    (String (upper_digit (Z.to_nat (code a mod 16))) "")).

Fixpoint escape_by (f : ascii → string) (s : string) : string :=
  match s with EmptyString => "" | String a s => f a +:+ escape_by f s end.

Definition query_byte (a : ascii) : string :=
  if unreserved a then String a "" else if Ascii.eqb a " " then "+" else percent a.
Definition QueryEscape : string → string := escape_by query_byte.

Definition path_byte (a : ascii) : string :=
  if unreserved a || str_mem a "$&+=:@" then String a "" else percent a.
Definition PathEscape : string → string := escape_by path_byte.

(** [url.QueryUnescape] ([plus = true]) and [url.PathUnescape]; [None] is an error. *)
Fixpoint unescape_url (plus : bool) (s : string) : option string :=
  match s with
  | EmptyString => Some ""
  | String a s =>
      if Ascii.eqb a "%" then
        match s with
        | String x (String y s) =>
            match hex_pair x y with
            | Some v => String (chr v) <$> unescape_url plus s
            | None => None
            end
        | _ => None
        end
      else if plus && Ascii.eqb a "+" then String " " <$> unescape_url plus s
      else String a <$> unescape_url plus s
  end.
Definition QueryUnescape : string → option string := unescape_url true.
Definition PathUnescape : string → option string := unescape_url false.

(** One setting of [url.ParseQuery]; malformed ones are dropped (the handlers ignore the
    error). *)
Definition ParseSetting (part : string) : option (string * string) :=
  if str_mem ";" part || String.eqb part "" then None
  else
    let '(k, v, _) := Cut part "=" in
    k ← QueryUnescape k; v ← QueryUnescape v; Some (k, v).

Definition ParseQuery (raw : string) : pairs := omap ParseSetting (Split raw "&").

(** [url.Values], [Set], [Add] over a parsed query, and [Encode] *)
Abbreviation URLValues := (gmap string (list string)).

Definition Set_ (k v : string) (q : URLValues) : URLValues := <[k := [v]]> q.
Definition values_of (l : pairs) : URLValues :=
  foldl (λ q kv, <[kv.1 := default [] (q !! kv.1) ++ [kv.2]]> q) ∅ l.

Definition setting (k v : string) : string := QueryEscape k +:+ "=" +:+ QueryEscape v.
Definition sorted_keys (q : URLValues) : list string := merge_sort String.le (elements (dom q)).
Definition settings (q : URLValues) : pairs :=
  concat (map (λ k, map (pair k) (default [] (q !! k))) (sorted_keys q)).
Definition Encode (q : URLValues) : string := Join (map (λ kv, setting kv.1 kv.2) (settings q)) "&".

(** *** Decoding what was encoded *)

Lemma percent_pair a : ∃ x y, percent a = String "%" (String x (String y "")) ∧ hex_pair x y = Some (code a).
Proof.
  assert (∀ z, 0 ≤ z < 16 → hex_val (upper_digit (Z.to_nat z)) = Some z) as Hd.
  { intros z Hz. pose proof (all_below_spec 16
      (λ z, match hex_val (upper_digit (Z.to_nat z)) with Some v => v =? z | None => false end) z
      ltac:(by vm_compute) Hz) as Hall. simpl in Hall.
    destruct (hex_val _) as [v|]; [|done]. f_equal. lia. }
  pose proof (code_range a). do 2 eexists. split; [reflexivity|].
  unfold hex_pair. rewrite !Hd by divs. simpl. f_equal. divs.
Qed.

(** An escaping that keeps no percent sign, and a plus sign only where it is read as one *)
Definition escapes (plus : bool) (f : ascii → string) : Prop :=
  ∀ a, f a = percent a ∨
    (f a = String a "" ∧ a ≠ "%"%char ∧ (plus = true → a ≠ "+"%char)) ∨
    (plus = true ∧ a = " "%char ∧ f a = "+").

Lemma unescape_percent plus a t :
  unescape_url plus (percent a +:+ t) = String a <$> unescape_url plus t.
Proof. destruct (percent_pair a) as (x & y & -> & E). simpl. by rewrite E, chr_code. Qed.

Lemma unescape_escape plus f s t : escapes plus f →
  unescape_url plus (escape_by f s +:+ t) = String.append s <$> unescape_url plus t.
Proof.
  intros Hf. induction s as [|a s IH]; simpl.
  { destruct (unescape_url plus t); simpl; done. }
  assert (∀ u, unescape_url plus u = String.append s <$> unescape_url plus t →
    String a <$> unescape_url plus u = String.append (String a s) <$> unescape_url plus t) as Hs.
  { intros u ->. by destruct (unescape_url plus t). }
  rewrite <- str_app_assoc. destruct (Hf a) as [->|[(-> & H1 & H2)|(-> & -> & ->)]].
  - rewrite unescape_percent. by apply Hs.
  - simpl. destruct (Ascii.eqb_spec a "%"%char); [done|].
    destruct (plus && Ascii.eqb a "+") eqn:E; [|by apply Hs].
    apply andb_true_iff in E as [E1 E2]. apply Ascii.eqb_eq in E2. by destruct (H2 E1).
  - simpl. by apply Hs.
Qed.

Lemma unreserved_not a c : unreserved c = false → unreserved a = true → a ≠ c.
Proof. intros H1 H2 ->. congruence. Qed.

Lemma query_escapes : escapes true query_byte.
Proof.
  intros a. unfold query_byte. destruct (unreserved a) eqn:E; [|destruct (Ascii.eqb_spec a " "%char)]; auto.
  right; left. split_and!; [done| |]; intros; by eapply unreserved_not.
Qed.

Lemma path_escapes : escapes false path_byte.
Proof.
  intros a. unfold path_byte. destruct (unreserved a || str_mem a "$&+=:@") eqn:E; [|auto].
  right; left. split_and!; [done| |done]. intros ->. by vm_compute in E.
Qed.

Lemma QueryUnescape_Escape s : QueryUnescape (QueryEscape s) = Some s.
Proof.
  unfold QueryUnescape, QueryEscape. rewrite <- (str_app_nil_r (escape_by _ s)).
  rewrite (unescape_escape true query_byte s "" query_escapes). simpl. by rewrite str_app_nil_r.
Qed.

Lemma PathUnescape_Escape s : PathUnescape (PathEscape s) = Some s.
Proof.
  unfold PathUnescape, PathEscape. rewrite <- (str_app_nil_r (escape_by _ s)).
  rewrite (unescape_escape false path_byte s "" path_escapes). simpl. by rewrite str_app_nil_r.
Qed.

(** The bytes of an escaped value *)
Lemma QueryEscape_bytes c s : unreserved c = false → Ascii.eqb c "%" = false → Ascii.eqb c "+" = false →
  str_mem c (QueryEscape s) = false.
Proof.
  intros H1 H2 H3. induction s as [|a s IH]; [done|].
  unfold QueryEscape in *. cbn [escape_by]. rewrite str_mem_app, IH, orb_false_r. unfold query_byte.
  destruct (unreserved a) eqn:E; [|destruct (Ascii.eqb a " ")].
  - simpl. rewrite orb_false_r. apply Ascii.eqb_neq. by apply unreserved_not.
  - cbn [str_mem]. rewrite orb_false_r. apply Ascii.eqb_neq. intros <-. by vm_compute in H3.
  - assert (∀ n, (n < 16)%nat → unreserved (upper_digit n) = true) as Hu.
    { intros n Hn. pose proof (all_below_spec 16 (λ z, unreserved (upper_digit (Z.to_nat z))) (Z.of_nat n)
        ltac:(by vm_compute) ltac:(lia)) as Hall. simpl in Hall. by rewrite Nat2Z.id in Hall. }
    pose proof (code_range a).
    assert (∀ n, (n < 16)%nat → Ascii.eqb (upper_digit n) c = false) as Hne.
    { intros n Hn. apply Ascii.eqb_neq. apply unreserved_not; auto. }
    unfold percent. cbn [str_mem]. rewrite !Hne by divs. rewrite orb_false_r. apply Ascii.eqb_neq. intros <-. by vm_compute in H2.
Qed.

Lemma setting_no_amp k v : str_mem "&" (setting k v) = false.
Proof. unfold setting. by rewrite !str_mem_app, !QueryEscape_bytes. Qed.

Lemma ParseSetting_setting k v : ParseSetting (setting k v) = Some (k, v).
Proof.
  unfold ParseSetting. assert (str_mem ";" (setting k v) = false) as ->
    by (unfold setting; by rewrite !str_mem_app, !QueryEscape_bytes).
  assert (String.eqb (setting k v) "" = false) as ->.
  { unfold setting. apply String.eqb_neq. by destruct (QueryEscape k). }
  cbn [orb]. unfold setting. change ("=" +:+ QueryEscape v) with (String "=" (QueryEscape v)).
  rewrite Cut_app by by rewrite QueryEscape_bytes. by rewrite !QueryUnescape_Escape.
Qed.

(** What [Encode] writes is parsed back as its settings, in the order of their keys. *)
Lemma ParseQuery_Encode q : ParseQuery (Encode q) = settings q.
Proof.
  unfold ParseQuery, Encode. destruct (settings q) as [|kv l]; [done|].
  rewrite Split_Join; [|done|].
  - induction (kv :: l) as [|[k v] l' IH]; [done|]. cbn [map omap list_omap fst snd].
    by rewrite ParseSetting_setting, IH.
  - rewrite Forall_map. apply Forall_true. intros [k v]. apply setting_no_amp.
Qed.

Lemma Values_app l1 l2 k : Http.Values (l1 ++ l2) k = Http.Values l1 k ++ Http.Values l2 k.
Proof. induction l1 as [|[a b] l1 IH]; simpl; [done|]. rewrite IH. by case_match. Qed.

Lemma Values_pair k k' l : Http.Values (map (pair k') l) k = if decide (k' = k) then l else [].
Proof.
  induction l as [|x l IH]; simpl; [by destruct (decide _)|]. rewrite IH.
  destruct (String.eqb_spec k' k); destruct (decide (k' = k)); done.
Qed.

Lemma Values_keys (f : string → list string) ks k : NoDup ks →
  Http.Values (concat (map (λ k, map (pair k) (f k)) ks)) k = if decide (k ∈ ks) then f k else [].
Proof.
  induction 1 as [|k' ks Hk _ IH]; simpl; [by destruct (decide (k ∈ []))|].
  rewrite Values_app, Values_pair, IH. destruct (decide (k' = k)) as [->|Hne].
  - rewrite (decide_False (P := k ∈ ks)), app_nil_r by done. by rewrite decide_True by left.
  - simpl. destruct (decide (k ∈ ks)) as [Hin|Hno].
    + by rewrite decide_True by by right.
    + rewrite decide_False; [done|]. by intros [->|?]%elem_of_cons.
Qed.

(** A parameter of an encoded query *)
Lemma Values_settings q k : Http.Values (settings q) k = default [] (q !! k).
Proof.
  unfold settings, sorted_keys. rewrite (Values_keys (λ k, default [] (q !! k))).
  2:{ rewrite merge_sort_Permutation. apply NoDup_elements. }
  destruct (decide _) as [Hk|Hk]; [done|].
  rewrite merge_sort_Permutation, elem_of_elements in Hk. by apply not_elem_of_dom in Hk as ->.
Qed.

Lemma GetFirst_Encode q k : GetFirst (ParseQuery (Encode q)) k = hd "" (default [] (q !! k)).
Proof. unfold GetFirst. rewrite ParseQuery_Encode, Values_settings. by destruct (default [] _). Qed.
