(* ===== verification/Logging.v ===== *)
(** * The relay's log ([server.go], [requestlog.go])

    An event is one line of key=value fields: [bind] and [formatValue] write it,
    [read_fields] is a reader for it.  Whatever the values, the fields are read back
    ([log_fields_read_back]); but a value with a line break and no blank is written
    bare, so an outsider can start a line of the log ([login_forges_log_line]).
    [fmt.Sprint] has been applied to the values; the standard logger's time stamp is
    left out. *)
From stdpp Require Import pretty.
From Stdlib Require Import ZArith Lia Ascii String.
From S2P Require Import Prelude GoStrings Protocol Registry Http Quoting.
Open Scope char_scope.
Open Scope string_scope.
Open Scope list_scope.
Open Scope Z_scope.

Section logging.
Context `{UnicodeTables}.

(** [strings.ContainsAny(s, chars)] *)
Definition ContainsAny (s chars : string) : bool :=
  existsb (λ c, str_mem c s) (list_ascii_of_string chars).

(** A blank, a double quote and an equals sign *)
Definition delimiters : string := String " " (String dquote "=").

Definition formatValue (s : string) : string :=
  if String.eqb s "" then "-" else if ContainsAny s delimiters then Quote s else s.

(** The loop of [bind] on what it has written so far *)
Fixpoint bind_loop (b : string) (kv : list string) : string :=
  match kv with
  | k :: v :: kv =>
      let b := if (0 <? String.length b)%nat then b +:+ " " else b in
      bind_loop (b +:+ k +:+ "=" +:+ formatValue v) kv
  | _ => b
  end.
Definition bind (kv : list string) : string := bind_loop "" kv.

Definition logf (line : string) : string := "[relay] " +:+ line.

Definition logEvent (event : string) (kv : list string) : string :=
  match kv with [] => logf event | _ => logf (event +:+ " " +:+ bind kv) end.

(** [logDebug]; [debug]: [DEVICE_RELAY_DEBUG_RTC] is "1". *)
Definition logDebug (debug : bool) (event : string) (kv : list string) : option string :=
  if negb debug then None else Some (logEvent ("debug." +:+ event) kv).

(** [safeGo]: what is logged when [fn] ends, [Some] panic (with its stack) or not *)
Definition safeGo (what : string) (panic : option (string * string)) : option string :=
  match panic with
  | Some (r, stack) => Some ("[relay] panic in " +:+ what +:+ ": " +:+ r +:+ byte_seq [10%nat] +:+ stack)
  | None => None
  end.

(** The event of a logged request; [dur] is the rounded duration. *)
Definition request_event (l : log_line) (dur : string) : string :=
  logEvent "http.request"
    ["ip"; ll_ip l; "method"; ll_method l; "path"; ll_path l; "status"; Itoa (ll_status l);
     "bytes"; Itoa (ll_bytes l); "dur"; dur].

(** The event of a failed login *)
Definition login_failed_event (username : string) (r : Request) : string :=
  logEvent "auth.login.failed" ["user"; username; "ip"; clientIP r; "reason"; "bad-credentials"].

(** ** Reading the fields *)

(** A value, and what follows the blank behind it *)
Definition read_value (s : string) : option (string * string) :=
  match s with
  | String a q =>
      if Ascii.eqb a dquote then '(v, rest) ← unquote q; Some (v, TrimPrefix rest " ")
      else Some (Cut s " ").1
  | EmptyString => Some ("", "")
  end.

Fixpoint read_fields (fuel : nat) (s : string) : option pairs :=
  match fuel with
  | O => None
  | S fuel =>
      let '(k, rest, found) := Cut s "=" in
      if negb found then None
      else
        '(v, rest) ← read_value rest;
        if String.eqb rest "" then Some [(k, v)] else l ← read_fields fuel rest; Some ((k, v) :: l)
  end.

(** An empty value is shown as a dash. *)
Definition shown (v : string) : string := if String.eqb v "" then "-" else v.

Definition flatten (l : pairs) : list string := concat (map (λ kv, [kv.1; kv.2]) l).

(** What [bind] writes, as one field after the other *)
Fixpoint fields (l : pairs) : string :=
  match l with
  | [] => ""
  | (k, v) :: l => k +:+ "=" +:+ formatValue v +:+ (match l with [] => "" | _ => " " +:+ fields l end)
  end.

Lemma bind_loop_fields l b : b ≠ "" →
  bind_loop b (flatten l) = match l with [] => b | _ => b +:+ " " +:+ fields l end.
Proof.
  revert b. induction l as [|[k v] l IH]; intros b Hb; [done|].
  unfold flatten in *. cbn [map concat app bind_loop fst snd].
  assert ((0 <? String.length b)%nat = true) as -> by (by destruct b).
  rewrite IH by by destruct b.
  cbn [fields]. destruct l; rewrite ?str_app_nil_r, <- ?str_app_assoc; done.
Qed.

Lemma bind_fields l : bind (flatten l) = fields l.
Proof.
  destruct l as [|[k v] l]; [done|]. unfold bind. cbn [flatten map concat app bind_loop fst snd String.length].
  cbn [Nat.ltb Nat.leb]. change (bind_loop (("" +:+ k +:+ "=" +:+ formatValue v)) (flatten l) = fields ((k, v) :: l)).
  rewrite bind_loop_fields by by destruct k.
  cbn [fields]. destruct l; rewrite ?str_app_nil_r, <- ?str_app_assoc; done.
Qed.

Lemma ContainsAny_false s : ContainsAny s delimiters = false →
  str_mem " " s = false ∧ str_mem dquote s = false ∧ str_mem "=" s = false.
Proof. unfold ContainsAny. simpl. rewrite !orb_false_iff. naive_solver. Qed.

Lemma Cut_none s c : str_mem c s = false → Cut s c = (s, "", false).
Proof. intros Hs. by rewrite Cut_spec, Split_none. Qed.

(** A written value is read back, whether another field follows or not. *)
Lemma read_value_last v : read_value (formatValue v) = Some (shown v, "").
Proof.
  unfold formatValue, shown. destruct (String.eqb_spec v ""); [done|].
  destruct (ContainsAny v delimiters) eqn:E.
  - destruct (unquote_Quote v "") as (q & Hq & Hu). rewrite str_app_nil_r in Hq.
    rewrite Hq. cbn [read_value]. rewrite Ascii.eqb_refl, Hu. done.
  - destruct (ContainsAny_false v E) as (H1 & H2 & _). destruct v as [|a v]; [done|].
    cbn [read_value]. destruct (Ascii.eqb a dquote) eqn:Ea.
    + simpl in H2. by rewrite Ea in H2.
    + by rewrite Cut_none.
Qed.

Lemma read_value_next v t : read_value (formatValue v +:+ String " " t) = Some (shown v, t).
Proof.
  unfold formatValue, shown. destruct (String.eqb_spec v ""); [done|].
  destruct (ContainsAny v delimiters) eqn:E.
  - destruct (unquote_Quote v (String " " t)) as (q & Hq & Hu).
    rewrite Hq. cbn [read_value]. rewrite Ascii.eqb_refl, Hu. cbn [mbind option_bind].
    change (String " " t) with (" " +:+ t). by rewrite TrimPrefix_app.
  - destruct (ContainsAny_false v E) as (H1 & H2 & _). destruct v as [|a v]; [done|].
    cbn [String.append read_value]. destruct (Ascii.eqb a dquote) eqn:Ea.
    + simpl in H2. by rewrite Ea in H2.
    + change (String a (v +:+ String " " t)) with (String a v +:+ String " " t).
      by rewrite (Cut_app (String a v) t " "%char).
Qed.

Lemma read_fields_fields l n : l ≠ [] → (length l ≤ n)%nat →
  Forall (λ kv, str_mem "=" kv.1 = false) l →
  read_fields n (fields l) = Some (map (λ kv, (kv.1, shown kv.2)) l).
Proof.
  intros Hl Hn Hk. revert n Hn Hl. induction Hk as [|[k v] l Hk Hl' IH]; intros [|n] Hn Hl;
    simpl in Hn; [done..|lia|]. cbn [fields read_fields].
  change ("=" +:+ ?x) with (String "=" x). rewrite Cut_app by done. cbn [negb].
  destruct l as [|kv l].
  - rewrite str_app_nil_r, read_value_last. done.
  - change (" " +:+ ?x) with (String " " x). rewrite read_value_next. cbn [mbind option_bind].
    assert (String.eqb (fields (kv :: l)) "" = false) as ->.
    { apply String.eqb_neq. destruct kv as [k' v']. cbn [fields]. by destruct k'. }
    rewrite IH by (simpl in *; done || lia). done.
Qed.

Lemma Itoa_nonempty z : Itoa z ≠ "".
Proof.
  unfold Itoa. destruct z as [|p|p]; [done| |done].
  destruct (pretty_N_head (N.pos p)) as (c & s & E & _).
  change (pretty (Z.pos p)) with (pretty (N.pos p)). by rewrite E.
Qed.

(** C31: Whatever the values, the fields of an event are read back: a user name with blanks,
    quotes or equals signs does not pass for another field. *)
Theorem log_fields_read_back l :
  l ≠ [] → Forall (λ kv, str_mem "=" kv.1 = false) l →
  read_fields (length l) (bind (flatten l)) = Some (map (λ kv, (kv.1, shown kv.2)) l).
Proof. intros Hl Hk. rewrite bind_fields. by apply read_fields_fields. Qed.

(** The log line of a request carries exactly its fields, and the query part holds no
    credential ([redactQuery]). *)
Theorem request_line_read_back r rec line dur :
  withRequestLog r rec = Some line →
  ∃ body, request_event line dur = "[relay] http.request " +:+ body ∧
    read_fields 6 body = Some [("ip", shown (clientIP r)); ("method", shown (r_Method r));
      ("path", shown (r_Path r +:+ (if String.eqb (r_RawQuery r) "" then "" else "?" +:+ redactQuery (r_RawQuery r))));
      ("status", Itoa (ll_status line)); ("bytes", Itoa (ll_bytes line)); ("dur", shown dur)].
Proof.
  intros Hl.
  set (l := [("ip", ll_ip line); ("method", ll_method line); ("path", ll_path line);
    ("status", Itoa (ll_status line)); ("bytes", Itoa (ll_bytes line)); ("dur", dur)]).
  exists (bind (flatten l)). split; [done|].
  assert (∀ z, shown (Itoa z) = Itoa z) as Hi by (intros z; unfold shown; by rewrite (proj2 (String.eqb_neq _ _) (Itoa_nonempty z))).
  pose proof (read_fields_fields l 6 ltac:(done) (le_n _)) as Hr.
  rewrite bind_fields, Hr by (repeat constructor). subst l. cbn [map fst snd]. rewrite !Hi.
  unfold withRequestLog in Hl. destruct (HasPrefix _ _); [done|]. case_match; [done|].
  injection Hl as <-. cbn [ll_ip ll_method ll_path ll_status ll_bytes].
  destruct (String.eqb (r_RawQuery r) ""); simpl; by rewrite ?str_app_nil_r.
Qed.
End logging.

(** An unauthenticated login whose user name holds a line break starts a line of its
    own in the log, in the form of an event of the relay. *)
Example login_forges_log_line `{UnicodeTables} r :
  let name := "x" +:+ String "010" "[relay]" in
  HasPrefix (login_failed_event name r)
    ("[relay] auth.login.failed user=x" +:+ String "010" "[relay] ip=") = true.
Proof.
  intros name. change (login_failed_event name r) with
    ("[relay] auth.login.failed " +:+
     bind (flatten [("user", name); ("ip", clientIP r); ("reason", "bad-credentials")])).
  rewrite bind_fields. set (ip := clientIP r).
  apply (HasPrefix_app ("[relay] auth.login.failed user=x" +:+ String "010" "[relay] ip=")
    (formatValue ip +:+ " reason=bad-credentials")).
Qed.

(** ** Witness *)

Module LoggingDemo.
#[export] Instance unicode : UnicodeTables := {| IsPrint r := 0xA0 <? r |}.
Definition entry : pairs := [("user", "a b=c"); ("ip", ""); ("reason", "bad-credentials")].
End LoggingDemo.
Import LoggingDemo.

Lemma log_fields_read_back_witness :
  read_fields 3 (bind (flatten entry)) =
    Some [("user", "a b=c"); ("ip", "-"); ("reason", "bad-credentials")].
Proof. apply (log_fields_read_back entry); [discriminate|repeat constructor]. Defined.
