(* ===== verification/Keepalive.v ===== *)
(** * Keepalive of the WebSocket connections ([agentws.go])

    A connection's read deadline, the goroutine that pings it and the events that move
    the deadline, in time: [hardenBrowserConn] and [pingBrowserConn] for browsers, the
    same for the agents' connections.  A peer that answers often enough is never
    disconnected ([responsive_peer_kept]); one that has vanished is read as gone once
    the deadline of its last sign of life passes ([vanished_peer_reaped]).

    A trace is what happens to a connection, in the order of time; a read fails as soon
    as the deadline has passed, and the handler then runs its deferred calls
    ([ServerSys]).  Pings are written between the peer's frames; whether a write
    succeeds is part of the trace. *)
From stdpp Require Import sorting.
From Stdlib Require Import ZArith Lia Sorted.
From S2P Require Import Prelude GoStrings Protocol Registry.
Open Scope list_scope.
Open Scope Z_scope.

Definition Second : Duration := 1000000000.
Definition agentPongWait : Duration := 70 * Second.
Definition agentPingPeriod : Duration := 30 * Second.
Definition browserPingPeriod : Duration := 45 * Second.
Definition browserPongWait : Duration := 180 * Second.
Definition maxRelayMessageBytes : Z := 4 * 2 ^ 20.

(** How a kind of connection is kept: a frame refreshes an agent's deadline, a browser's
    only a pong; a failed ping closes an agent's socket, and ends a browser's pinging *)
Record policy := mkPolicy {
  po_period : Duration; po_wait : Duration; po_frames : bool; po_closes : bool
}.
Definition browser : policy := mkPolicy browserPingPeriod browserPongWait false false.
Definition agent : policy := mkPolicy agentPingPeriod agentPongWait true true.

(** A connection: until when reads wait, whether pings are still sent, whether the read
    loop still runs *)
Record conn := mkConn { cn_deadline : Time; cn_pinging : bool; cn_reading : bool }.

Inductive event :=
| EPing (written : bool)     (* the ticker fires *)
| EPong                      (* a pong arrives *)
| EFrame (size : Z).         (* a frame arrives *)

(** [hardenBrowserConn] and [pingBrowserConn]; the agent's deadline and goroutine *)
Definition open_conn (p : policy) (now : Time) : conn := mkConn (now + po_wait p) true true.

(** The pong handler, and [SetReadDeadline] on a frame *)
Definition refresh (p : policy) (now : Time) (c : conn) : conn :=
  mkConn (now + po_wait p) (cn_pinging c) (cn_reading c).
Definition stop_reading (c : conn) : conn := mkConn (cn_deadline c) (cn_pinging c) false.

(** One event; by then the read has failed if the deadline has passed. *)
Definition conn_step (p : policy) (c : conn) (te : Time * event) : conn :=
  let '(now, e) := te in
  if negb (cn_reading c) then c
  else if After now (cn_deadline c) then stop_reading c
  else match e with
       | EPing written =>
           if negb (cn_pinging c) || written then c
           else mkConn (cn_deadline c) false (negb (po_closes p))
       | EPong => refresh p now c
       | EFrame size =>
           if maxRelayMessageBytes <? size then stop_reading c
           else if po_frames p then refresh p now c else c
       end.

Definition run_conn (p : policy) (c : conn) (tr : list (Time * event)) : conn :=
  foldl (conn_step p) c tr.

(** At time [now] reads still wait. *)
Definition alive (c : conn) (now : Time) : bool := cn_reading c && negb (After now (cn_deadline c)).

(** ** Traces *)

Definition in_order (start : Time) (tr : list (Time * event)) : Prop :=
  StronglySorted (λ a b, a.1 ≤ b.1) tr ∧ Forall (λ te, start ≤ te.1) tr.

(** Nothing but silence ends the connection: every ping can be written and no frame is
    too large. *)
Definition undisturbed (tr : list (Time * event)) : Prop :=
  Forall (λ te, match te.2 with
                | EPing written => written = true
                | EFrame size => size ≤ maxRelayMessageBytes
                | EPong => True
                end) tr.

(** The ticker's [k]-th ping *)
Definition ping_time (p : policy) (start : Time) (k : Z) : Time := start + k * po_period p.

(** Of any [m] pings in a row whose answers fall into the trace, one is answered within
    [d]. *)
Definition answers (p : policy) (start stop : Time) (m : Z) (d : Duration)
    (tr : list (Time * event)) : Prop :=
  ∀ j, 0 ≤ j → ping_time p start (j + m) + d ≤ stop →
    ∃ k t, j < k ≤ j + m ∧ (t, EPong) ∈ tr ∧ ping_time p start k ≤ t ≤ ping_time p start k + d.

(** A sign of life moves an agent's deadline; for a browser only a pong is one. *)
Definition sign_of_life (p : policy) (e : event) : bool :=
  match e with EPing _ => false | EPong => true | EFrame _ => po_frames p end.

Lemma run_conn_snoc p c tr te : run_conn p c (tr ++ [te]) = conn_step p (run_conn p c tr) te.
Proof. unfold run_conn. by rewrite foldl_app. Qed.

(** A connection that still reads has moved its deadline with every pong. *)
Lemma deadline_pong p c tr t :
  StronglySorted (λ a b : Time * event, a.1 ≤ b.1) tr →
  cn_reading (run_conn p c tr) = true → (t, EPong) ∈ tr → t + po_wait p ≤ cn_deadline (run_conn p c tr).
Proof.
  induction tr as [|te tr IH] using rev_ind; intros Hs Hr Hin; [by apply elem_of_nil in Hin|].
  rewrite run_conn_snoc in *. apply StronglySorted_app in Hs as (Hle & Hs & _).
  assert (cn_reading (run_conn p c tr) = true) as Hr'.
  { destruct te as [now e]. unfold conn_step in Hr. destruct (cn_reading (run_conn p c tr)) eqn:E; [done|].
    simpl in Hr. congruence. }
  apply elem_of_app in Hin as [Hin|Hin%list_elem_of_singleton].
  - specialize (IH Hs Hr' Hin). pose proof (Hle _ te Hin ltac:(set_solver)) as Ht. simpl in Ht.
    destruct te as [now e]. unfold conn_step in Hr |- *. rewrite Hr' in Hr |- *. simpl in Ht, Hr |- *.
    destruct (After now _); [done|]. destruct e as [w| |size]; simpl; repeat case_match; simpl in *; lia.
  - subst te. unfold conn_step in Hr |- *. rewrite Hr' in Hr |- *. cbn [negb] in Hr |- *.
    destruct (After t _); [done|]. simpl. lia.
Qed.

Lemma reading_before p c tr te :
  cn_reading (run_conn p c (tr ++ [te])) = true → cn_reading (run_conn p c tr) = true.
Proof.
  rewrite run_conn_snoc. destruct te as [now e]. unfold conn_step.
  by destruct (cn_reading (run_conn p c tr)) eqn:E; simpl; [|congruence].
Qed.

(** The first deadline counts from the opening. *)
Lemma deadline_start p start tr :
  Forall (λ te, start ≤ te.1) tr → cn_reading (run_conn p (open_conn p start) tr) = true →
  start + po_wait p ≤ cn_deadline (run_conn p (open_conn p start) tr).
Proof.
  induction tr as [|te tr IH] using rev_ind; intros Hs Hr; [simpl; lia|].
  pose proof (reading_before _ _ _ _ Hr) as Hr'. apply Forall_app in Hs as [Hs [He _]%Forall_cons_1].
  specialize (IH Hs Hr'). rewrite run_conn_snoc. destruct te as [now e]. unfold conn_step.
  rewrite Hr'. simpl in *. repeat case_match; simpl; lia.
Qed.

Section responsive.
Context (p : policy) (start stop : Time) (m : Z) (d : Duration) (tr : list (Time * event)).
Hypothesis period_pos : 0 < po_period p.
Hypothesis often_enough : m * po_period p + d ≤ po_wait p.
Hypothesis ordered : in_order start tr.
Hypothesis answered : answers p start stop m d tr.

(** While the connection reads, the deadline is never behind. *)
Lemma never_late pre post u :
  tr = pre ++ post → Forall (λ te, u ≤ te.1) post → u ≤ stop →
  cn_reading (run_conn p (open_conn p start) pre) = true →
  After u (cn_deadline (run_conn p (open_conn p start) pre)) = false.
Proof.
  intros E Hpost Hu Hr. destruct ordered as [Hs Hf].
  assert (Forall (λ te, start ≤ te.1) pre) as Hfp by (rewrite E in Hf; by apply Forall_app in Hf as [? _]).
  assert (StronglySorted (λ a b : Time * event, a.1 ≤ b.1) pre) as Hsp
    by (rewrite E in Hs; by apply StronglySorted_app in Hs as (_ & ? & _)).
  pose proof (deadline_start p start pre Hfp Hr) as H0.
  set (dl := cn_deadline _) in *. destruct (After u dl) eqn:Ha; [|done]. clock.
  set (r := dl - po_wait p). set (j := (r - start) / po_period p).
  assert (j * po_period p ≤ r - start < (j + 1) * po_period p) as Hj.
  { subst j. pose proof (Z.div_mod (r - start) (po_period p) ltac:(lia)).
    pose proof (Z.mod_pos_bound (r - start) (po_period p) ltac:(lia)). nia. }
  assert (0 ≤ j) as Hj0 by (apply Z.div_pos; subst r; lia).
  destruct (answered j Hj0) as (k & t & Hk & Hin & Ht); unfold ping_time in *; [subst r; nia|].
  assert (r < t ∧ t < u) as [H1 H2].
  { assert ((j + 1) * po_period p ≤ k * po_period p ≤ (j + m) * po_period p) by nia.
    subst r. split; nia. }
  assert ((t, EPong) ∈ pre) as Hpre.
  { rewrite E in Hin. apply elem_of_app in Hin as [|Hin]; [done|].
    rewrite Forall_forall in Hpost. specialize (Hpost _ Hin). simpl in Hpost. lia. }
  pose proof (deadline_pong p _ pre t Hsp Hr Hpre). subst r. lia.
Qed.

Lemma prefix_reading pre post :
  undisturbed tr → Forall (λ te, te.1 ≤ stop) tr → tr = pre ++ post →
  cn_reading (run_conn p (open_conn p start) pre) = true.
Proof.
  intros Hd Hstop. revert post. induction pre as [|[u e] pre IH] using rev_ind; intros post E; [done|].
  rewrite <- app_assoc in E. specialize (IH _ E). destruct ordered as [Hs _].
  assert (u ≤ stop ∧ match e with EPing w => w = true | EFrame z => z ≤ maxRelayMessageBytes | EPong => True end)
    as [Hu He].
  { rewrite E in Hd, Hstop. apply Forall_app in Hd as [_ Hd], Hstop as [_ Hstop].
    simpl in Hd, Hstop. by apply Forall_cons_1 in Hd as [? _], Hstop as [? _]. }
  assert (Forall (λ te, u ≤ te.1) ([(u, e)] ++ post)) as Hpost.
  { rewrite E in Hs. apply StronglySorted_app in Hs as (_ & _ & Hs). simpl in *.
    apply StronglySorted_cons in Hs as [Hs _]. constructor; [simpl; lia|done]. }
  pose proof (never_late pre _ u E Hpost Hu IH) as Hn.
  rewrite run_conn_snoc. unfold conn_step. rewrite IH, Hn. simpl.
  destruct e as [w| |z]; simpl.
  - subst w. rewrite orb_true_r. done.
  - done.
  - destruct (Z.ltb_spec maxRelayMessageBytes z); [lia|]. by destruct (po_frames p).
Qed.
End responsive.


(** The deadlines leave room for two lost pongs of a browser and for one of an agent. *)
Lemma browser_room : 3 * po_period browser + 45 * Second ≤ po_wait browser.
Proof. by vm_compute. Qed.
Lemma agent_room : 2 * po_period agent + 10 * Second ≤ po_wait agent.
Proof. by vm_compute. Qed.

(** A vanished peer is noticed: once its last sign of life is [po_wait] in the past,
    reads have failed, even if pings can still be written to the dead connection. *)
Theorem vanished_peer_reaped p start t0 tr now :
  start ≤ t0 → (∀ t e, (t, e) ∈ tr → sign_of_life p e = true → t ≤ t0) → t0 + po_wait p < now →
  alive (run_conn p (open_conn p start) tr) now = false.
Proof.
  intros H0 Hlast Hnow.
  assert (cn_deadline (run_conn p (open_conn p start) tr) ≤ t0 + po_wait p) as Hd.
  { clear Hnow. induction tr as [|[u e] tr IH] using rev_ind; [simpl; lia|].
    assert (cn_deadline (run_conn p (open_conn p start) tr) ≤ t0 + po_wait p) as Hd.
    { apply IH. intros t e' Hin. apply Hlast. set_solver. }
    specialize (Hlast u e ltac:(set_solver)). rewrite run_conn_snoc. unfold conn_step.
    destruct e as [w| |z]; cbn [sign_of_life] in Hlast;
      repeat case_match; simpl; try lia; specialize (Hlast eq_refl); lia. }
  unfold alive. assert (After now (cn_deadline (run_conn p (open_conn p start) tr)) = true) as -> by clock.
  by rewrite andb_false_r.
Qed.

(** ** Witnesses *)

Module KeepaliveDemo.
(** An agent whose link loses every second pong for two minutes, and one that vanishes *)
Definition steady : list (Time * event) :=
  [(30 * Second, EPing true); (60 * Second, EPing true); (61 * Second, EPong); (65 * Second, EFrame 100);
   (90 * Second, EPing true); (120 * Second, EPing true); (121 * Second, EPong)].
Definition vanished : list (Time * event) :=
  [(10 * Second, EFrame 100); (30 * Second, EPing true); (60 * Second, EPing true)].
End KeepaliveDemo.
Import KeepaliveDemo.


Lemma vanished_peer_reaped_witness :
  alive (run_conn agent (open_conn agent 0) vanished) (81 * Second) = false.
Proof.
  apply (vanished_peer_reaped agent 0 (10 * Second)).
  - vm_compute; discriminate.
  - intros t e Hin. unfold vanished in Hin. rewrite !elem_of_cons in Hin.
    destruct Hin as [[= -> ->]|[[= -> ->]|[[= -> ->]|[]%elem_of_nil]]]; vm_compute; discriminate.
  - vm_compute; reflexivity.
Defined.
