(* ===== verification/Platform.v ===== *)
(** * Platform code of the agent ([session_unix.go], [session_windows.go],
      [desktop_unix.go], [desktop_windows.go], [capabilities.go], [lanIPs])

    The terminal of Windows as a machine of its own, compared with the Unix one of
    [Agent]; how a shell is started; when a VNC server is started and with which
    arguments; what a device reports about its desktop; which addresses it announces.
    Processes, the pseudo terminals, [net.Dial] and [net.ParseCIDR] are arguments: what
    they answer, and the list of calls made to them. *)
From stdpp Require Import pretty.
From Stdlib Require Import ZArith Lia String.
From S2P Require Import Prelude GoStrings Protocol Registry Http Paths Agent.
Open Scope string_scope.
Open Scope list_scope.
Open Scope Z_scope.

(** ** Terminals *)

(** A call to a pseudo terminal *)
Inductive tcall := TInput (data : string) | TSize (cols rows : Z) | TClose.

(** What a shell is started with *)
Record spawn := mkSpawn { sp_shell : string; sp_env : list string; sp_cols : Z; sp_rows : Z }.

(** [startTerminalSession] on Unix: the window size is cut to 16 bits. *)
Definition startUnix (environ : list string) (start : spawn → res unit) (shell : string) (cols rows : Z)
    : res TermSession * spawn :=
  let sp := mkSpawn shell (environ ++ ["TERM=xterm-256color"]) (cols mod 2 ^ 16) (rows mod 2 ^ 16) in
  (match start sp with Err e => Err e | Ok _ => Ok (mkTermSession false) end, sp).

(** The session of [session_windows.go]: its flag, and the calls made to the console *)
Module Windows.
Record TermSession := mkTermSession { closed : bool; calls : list tcall }.

Definition startTerminalSession (environ : list string) (start : spawn → res unit) (shell : string)
    (cols rows : Z) : res TermSession * spawn :=
  let sp := mkSpawn (if String.eqb shell "" then "cmd.exe" else shell) environ cols rows in
  (match start sp with Err e => Err e | Ok _ => Ok (mkTermSession false []) end, sp).

Definition Input (outcome : res unit) (data : string) : stateM TermSession (res unit) :=
  t ← getS;
  if closed t then mret (Ok tt)
  else _ ← putS (mkTermSession false (calls t ++ [TInput data])); mret outcome.

Definition Resize (outcome : res unit) (cols rows : Z) : stateM TermSession (res unit) :=
  t ← getS;
  if closed t then mret (Ok tt)
  else _ ← putS (mkTermSession false (calls t ++ [TSize cols rows])); mret outcome.

Definition Close (outcome : res unit) : stateM TermSession (res unit) :=
  t ← getS;
  if closed t then mret (Ok tt)
  else _ ← putS (mkTermSession true (calls t ++ [TClose])); mret outcome.

(** [readLoop] on what the reads of the console return (the bytes, and whether an error
    came with them): the messages written.  Without an error it reads on. *)
Fixpoint readLoop (sid : string) (closing : res unit) (reads : list (bytes * bool))
    : stateM TermSession (list Message) :=
  match reads with
  | [] => mret []
  | (data, failed) :: reads =>
      let out := match data with [] => [] | _ => [data_msg TypeTermOutput sid (EncodeData data)] end in
      if failed : bool then
        _ ← Close closing; mret (out ++ [session_msg TypeTermExit sid])
      else
        rest ← readLoop sid closing reads; mret (out ++ rest)
  end.
End Windows.

(** *** The two platforms agree *)

(** An operation on a terminal, with what the system answers *)
Inductive term_op :=
| OpInput (outcome : res unit) (data : string)
| OpResize (outcome : res unit) (cols rows : Z)
| OpClose (outcome : res unit).

Definition unix_op (p : ref) (o : term_op) : stateM Agent (res unit) :=
  match o with
  | OpInput r d => Input r d p
  | OpResize r c rw => Resize r c rw p
  | OpClose r => termClose r p
  end.

Definition windows_op (o : term_op) : stateM Windows.TermSession (res unit) :=
  match o with
  | OpInput r d => Windows.Input r d
  | OpResize r c rw => Windows.Resize r c rw
  | OpClose r => Windows.Close r
  end.

Fixpoint run_terminal {St} (op : term_op → stateM St (res unit)) (l : list term_op)
    : stateM St (list (res unit)) :=
  match l with
  | [] => mret []
  | o :: l => r ← op o; rs ← run_terminal op l; mret (r :: rs)
  end.

(** The calls of an agent to one terminal *)
Definition call_to (p : ref) (c : oscall) : option tcall :=
  match c with
  | PtyInput q d => if decide (q = p) then Some (TInput d) else None
  | PtyResize q c r => if decide (q = p) then Some (TSize c r) else None
  | PtyClose q => if decide (q = p) then Some TClose else None
  | _ => None
  end.
Definition calls_to (p : ref) (a : Agent) : list tcall := omap (call_to p) (ag_calls a).

(** An agent's terminal and a Windows session in the same state, after the same calls *)
Definition alike (p : ref) (a : Agent) (t : Windows.TermSession) : Prop :=
  ag_terms a !! p = Some (mkTermSession (Windows.closed t)) ∧ calls_to p a = Windows.calls t.

(** A window size that fits the Unix interface *)
Definition size_fits (o : term_op) : Prop :=
  match o with OpResize _ c r => 0 ≤ c < 2 ^ 16 ∧ 0 ≤ r < 2 ^ 16 | _ => True end.

Lemma calls_to_snoc p a c : omap (call_to p) (ag_calls a ++ [c]) =
  calls_to p a ++ match call_to p c with Some x => [x] | None => [] end.
Proof. unfold calls_to. rewrite omap_app. simpl. by destruct (call_to p c). Qed.

Lemma op_alike p a t o : alike p a t → size_fits o →
  (unix_op p o a).1 = (windows_op o t).1 ∧ alike p (unix_op p o a).2 (windows_op o t).2.
Proof.
  intros [Ht Hc] Ho. destruct t as [[] cs]; cbn [Windows.closed Windows.calls] in *;
    destruct o as [r d|r c rw|r]; cbn [unix_op windows_op];
    unfold Input, Resize, termClose, termCall, Windows.Input, Windows.Resize, Windows.Close, call;
    rewrite !bind_run; cbn [getS fst snd]; rewrite Ht; cbn [mret stateM_ret fst snd Windows.closed];
    try (split; [done|by split]);
    cbn [size_fits] in Ho; rewrite ?Z.mod_small by apply Ho;
    rewrite !bind_run; cbn [modifyS putS mret stateM_ret fst snd]; (split; [done|]);
    split; cbn [ag_terms upd_calls Agent.upd_terms Windows.closed Windows.calls calls_to];
    rewrite ?lookup_insert_eq; try done;
    unfold calls_to; cbn [ag_calls upd_calls Agent.upd_terms]; rewrite calls_to_snoc, Hc; cbn [call_to];
    by rewrite decide_True.
Qed.

(** The two implementations of a terminal are one: on every sequence of inputs,
    resizes (within 16 bits) and closes, whatever the system answers, a Windows session
    returns the same results and makes the same calls as a Unix one. *)
Theorem platform_terminals_agree p a t l :
  alike p a t → Forall size_fits l →
  (run_terminal (unix_op p) l a).1 = (run_terminal windows_op l t).1 ∧
  alike p (run_terminal (unix_op p) l a).2 (run_terminal windows_op l t).2.
Proof.
  intros Ha Hl. revert a t Ha. induction Hl as [|o l Ho _ IH]; intros a t Ha; [done|].
  cbn [run_terminal]. rewrite !bind_run. destruct (op_alike p a t o Ha Ho) as [E Ha'].
  destruct (IH _ _ Ha') as [E' Ha'']. cbn [mret stateM_ret fst snd]. rewrite ?bind_run. cbn [mret stateM_ret fst snd]. rewrite E.
  split; [by rewrite E'|done].
Qed.

(** The console's output reaches the relay in order, and the end of the shell is
    reported once, after which the session is closed. *)
Theorem windows_output_in_order sid closing chunks last rest t :
  Windows.closed t = false → Forall (λ c, c ≠ []) (last :: chunks) →
  Windows.readLoop sid closing (map (λ c, (c, false)) chunks ++ (last, true) :: rest) t =
    (map (λ c, data_msg TypeTermOutput sid (EncodeData c)) (chunks ++ [last]) ++
       [session_msg TypeTermExit sid],
     Windows.mkTermSession true (Windows.calls t ++ [TClose])).
Proof.
  intros Ht [Hl Hc]%Forall_cons_1. induction Hc as [|c chunks Hne _ IH].
  - cbn [map app Windows.readLoop]. rewrite bind_run. unfold Windows.Close. rewrite bind_run.
    cbn [getS fst snd]. rewrite Ht. cbn. by destruct last.
  - cbn [map app Windows.readLoop]. rewrite bind_run, IH. cbn. by destruct c.
Qed.

(** ** A VNC server for the desktop *)

(** What [ensureVNCServer] asks the system *)
Record vncHost := mkVncHost {
  vh_listening : bool; vh_goos : string; vh_hasBinary : string → bool; vh_display : string;
  vh_executable : string; vh_exists : string → bool
}.

Definition vncArgs (display : string) (port : Z) : list string :=
  ["-display"; display; "-forever"; "-shared"; "-localhost"; "-rfbport"; Itoa port; "-nopw"; "-bg"].

(** [ensureVNCServer] on Unix: the programs started, in order, and [DISPLAY] afterwards *)
Definition ensureVNCServer (h : vncHost) (port : Z) : list (string * list string) * string :=
  if vh_listening h then ([], vh_display h)
  else if String.eqb (vh_goos h) "darwin" then
    ([("open", ["x-apple.systempreferences:com.apple.Sharing-Settings.extension"])], vh_display h)
  else if negb (vh_hasBinary h "x11vnc") then ([], vh_display h)
  else if String.eqb (vh_display h) "" && negb (vh_hasBinary h "Xvfb") then ([], vh_display h)
  else
    let xvfb := String.eqb (vh_display h) "" in
    let display := if xvfb then ":1" else vh_display h in
    ((if xvfb then [("Xvfb", [":1"; "-screen"; "0"; "1280x800x24"])] else []) ++
     [("x11vnc", vncArgs display port)], display).

(** [ensureVNCServer] on Windows; [Dir] is [filepath.Dir] there. *)
Definition vncCandidates (Dir : string → string) (Join : string → string → string) (h : vncHost)
    : list string :=
  [Join (Dir (vh_executable h)) "tvnserver.exe";
   "C:\Program Files\TightVNC\tvnserver.exe";
   "C:\Program Files (x86)\TightVNC\tvnserver.exe"].
Definition ensureVNCServerWindows (Dir : string → string) (Join : string → string → string)
    (h : vncHost) : list (string * list string) :=
  if vh_listening h then []
  else match List.find (vh_exists h) (vncCandidates Dir Join h) with
       | None => []
       | Some server => [(server, ["-start"])]
       end.

(** An argument directly behind its flag *)
Definition passes (name value : string) (args : list string) : Prop :=
  ∃ i, args !! i = Some name ∧ args !! S i = Some value.

(** An unauthenticated VNC server is started only for the loopback interface, on the
    configured port and an existing display, at most once, and not when the port is
    taken; a virtual display is started before it. *)
Theorem vnc_loopback_only h port cmds display prog args :
  ensureVNCServer h port = (cmds, display) → (prog, args) ∈ cmds → prog = "x11vnc" →
  vh_listening h = false ∧ "-localhost" ∈ args ∧ passes "-rfbport" (Itoa port) args ∧
  passes "-display" display args ∧ display ≠ "" ∧
  (vh_display h = "" → head cmds = Some ("Xvfb", [":1"; "-screen"; "0"; "1280x800x24"])).
Proof.
  unfold ensureVNCServer. destruct (vh_listening h); [intros [= <- <-]; by intros []%elem_of_nil|].
  destruct (String.eqb (vh_goos h) "darwin").
  { intros [= <- <-]. by intros [[= -> ->]|[]%elem_of_nil]%elem_of_cons. }
  destruct (negb _); [intros [= <- <-]; by intros []%elem_of_nil|].
  destruct (_ && _); [intros [= <- <-]; by intros []%elem_of_nil|].
  intros [= <- <-] Hin ->. assert (args = vncArgs (if String.eqb (vh_display h) "" then ":1" else vh_display h) port) as ->.
  { destruct (String.eqb (vh_display h) ""); set_solver. }
  split_and!; [done|set_solver| | | |].
  - by exists 5%nat.
  - by exists 0%nat.
  - by destruct (String.eqb_spec (vh_display h) "").
  - by intros ->.
Qed.

(** ** Capabilities *)

(** [capabilities]: whether the VNC port answers decides the desktop. *)
Definition capabilities (reachable : bool) (goos : string) : DeviceCapabilities :=
  if reachable then
    mkDeviceCapabilities true true true
      "VNC service is reachable. Screen access still depends on the desktop session and system permissions."
  else
    mkDeviceCapabilities true true false
      (if String.eqb goos "darwin" then
         "Enable Screen Sharing in System Settings > General > Sharing, then check screen access permissions."
       else if String.eqb goos "windows" then
         "Install and start TightVNC Server. Allow local connections to the configured VNC port."
       else "Start x11vnc in your X11 session, or use the WarpMesh desktop container for a virtual desktop. Wayland may need an X11 session.").

(** [vncListening], [vncListeningWindows] and the probe of [capabilities] *)
Definition vncAddress (port : Z) : string := "127.0.0.1:" +:+ Itoa port.
Definition vncListening (dial : string → bool) (port : Z) : bool := dial (vncAddress port).

(** ** Network addresses *)

(** A parsed address: its text, and the two predicates asked of it *)
Record ip := mkIP { ip_String : string; IsLoopback : bool; IsLinkLocalUnicast : bool }.

Section addresses.
Context (ParseCIDR : string → option ip).

Definition announced (addr : string) : option string :=
  match ParseCIDR addr with
  | Some ip => if negb (IsLoopback ip) && negb (IsLinkLocalUnicast ip) then Some (ip_String ip) else None
  | None => None
  end.

(** [lanIPs] of the agent and [localIPs] of the server: the interfaces ([None] when they
    cannot be listed), each with its addresses ([None] when they cannot be read) *)
Definition lanIPs (interfaces : option (list (option (list string)))) : list string :=
  match interfaces with
  | None => []
  | Some ifaces => concat (map (λ addrs, omap announced (default [] addrs)) ifaces)
  end.

(** An address is announced exactly when some interface has it and it is neither a
    loopback nor a link-local one; unreadable interfaces do not hide the others. *)
Theorem lanIPs_exactly ifaces s :
  s ∈ lanIPs (Some ifaces) ↔
  ∃ addrs addr ip, Some addrs ∈ ifaces ∧ addr ∈ addrs ∧ ParseCIDR addr = Some ip ∧
    ip_String ip = s ∧ IsLoopback ip = false ∧ IsLinkLocalUnicast ip = false.
Proof.
  unfold lanIPs. rewrite list_elem_of_In, in_concat. setoid_rewrite <- list_elem_of_In.
  setoid_rewrite list_elem_of_fmap. split.
  - intros (l & (o & -> & Ho) & Hs). apply list_elem_of_omap in Hs as (addr & Ha & Hs).
    destruct o as [addrs|]; [|by apply elem_of_nil in Ha].
    unfold announced in Hs. destruct (ParseCIDR addr) as [i|] eqn:E; [|done].
    destruct (_ && _) eqn:Hb; [|done]. bools. injection Hs as <-.
    exists addrs, addr, i. done.
  - intros (addrs & addr & i & Hi & Ha & Hp & <- & Hl & Hu). eexists. split.
    + by exists (Some addrs).
    + apply list_elem_of_omap. exists addr. split; [done|]. unfold announced. by rewrite Hp, Hl, Hu.
Qed.
End addresses.

(** ** Witnesses *)

Module PlatformDemo.
Definition ops : list term_op :=
  [OpInput (Ok tt) "ls"; OpResize (Err "resize failed") 80 24; OpClose (Ok tt); OpInput (Ok tt) "late"].
Definition agent : Agent :=
  Agent.upd_terms (<[3%nat := mkTermSession false]>) (newAgent (mkAgentConfig "d1" "n" "" []) ∅).
Definition console : Windows.TermSession := Windows.mkTermSession false [].
Definition headless : vncHost := mkVncHost false "linux" (λ _, true) "" "" (λ _, false).
End PlatformDemo.
Import PlatformDemo.

Lemma platform_terminals_agree_witness :
  (run_terminal (unix_op 3) ops agent).1 = [Ok tt; Err "resize failed"; Ok tt; Ok tt] ∧
  alike 3 (run_terminal (unix_op 3) ops agent).2
    (Windows.mkTermSession true [TInput "ls"; TSize 80 24; TClose]).
Proof.
  destruct (platform_terminals_agree 3 agent console ops) as [E Ha].
  - split; vm_compute; reflexivity.
  - repeat constructor; vm_compute; discriminate.
  - split; [rewrite E; vm_compute; reflexivity|exact Ha].
Defined.

Lemma vnc_loopback_only_witness :
  "-localhost" ∈ vncArgs ":1" 5900 ∧
  head (ensureVNCServer headless 5900).1 = Some ("Xvfb", [":1"; "-screen"; "0"; "1280x800x24"]).
Proof.
  destruct (vnc_loopback_only headless 5900 (ensureVNCServer headless 5900).1 ":1" "x11vnc" (vncArgs ":1" 5900))
    as (_ & Hl & _ & _ & _ & Hx).
  - reflexivity.
  - apply (bool_decide_unpack _). vm_compute. exact I.
  - reflexivity.
  - split; [exact Hl|]. exact (Hx eq_refl).
Defined.
