(* ===== verification/Commands.v ===== *)
(** * The commands ([cmd/server/main.go], [cmd/agent/main.go], [cmd/agent/cli.go])
      and the agent's start ([agent.New] in [agent.go])

    The server command turns its flags and environment into a configuration and a
    set of listeners, the agent command into a configuration and a list of
    forwards; [enroll] exchanges an invite for a device key and stores it where
    the agent finds it.  [flag.Parse] is the argument [args] (the value given for a
    flag, if any), [os.Getenv] the argument [env]; the files of the data directory
    are a finite map.  Parsing of durations, TLS material and the network are
    parameters. *)
From Stdlib Require Import ZArith Lia Ascii String.
From S2P Require Import Prelude GoStrings Protocol Registry RegistryProps Tickets Traffic Http Server.
From S2P Require Import Auth AuthProps AgentWS Api ApiProps Paths Agent Analytics Routing.
Open Scope string_scope.
Open Scope list_scope.
Open Scope Z_scope.

(** ** Flags *)

Definition envOr (env : string → string) (key def : string) : string :=
  if negb (String.eqb (env key) "") then env key else def.

Definition envInt (env : string → string) (key : string) (def : Z) : Z :=
  if negb (String.eqb (env key) "") then
    let '(n, ok) := Atoi (env key) in if ok : bool then n else def
  else def.

(** [%q] of a printable string without quotes or backslashes *)
Definition quote (s : string) : string := String "034" (s +:+ String "034" "").

(** The value of a flag: the one given, or its default *)
Definition flag (args : string → option string) (name def : string) : string :=
  default def (args name).

(** ** The server command *)

Module ServerCmd.

(** A listener: its address, the routes of its handler ([None] is the ACME
    challenge and redirect handler), whether it terminates TLS, and the domain of
    its error log *)
Record listener := mkListener {
  ls_addr : string; ls_routes : option (list (string * endpoint)); ls_tls : bool; ls_domain : string
}.

Definition newHTTPServer (addr : string) (routes : option (list (string * endpoint))) (tls : bool)
    (domain : string) : listener :=
  mkListener addr routes tls domain.

Definition primaryHandler (separateAgentPlane : bool) : list (string * endpoint) :=
  if separateAgentPlane then WebHandler else Handler.

Section run.
Context `{Crypto} (env : string → string) (args : string → option string).
(** [time.ParseDuration]; [fs.Sub] on the embedded UI; [tls.LoadX509KeyPair];
    [certmagic]'s [ManageSync] *)
Context (ParseDuration : string → res Duration) (webUI : res unit).
Context (LoadX509KeyPair : string → string → res unit) (ManageSync : string → res unit).

Definition listen := flag args "listen" (envOr env "DEVICE_RELAY_LISTEN" ":8080").
Definition httpsListen := flag args "https-listen" (envOr env "DEVICE_RELAY_HTTPS_LISTEN" ":443").
Definition altHTTPSListen := flag args "alt-https-listen" (env "DEVICE_RELAY_ALT_HTTPS_LISTEN").
Definition httpListen := flag args "http-listen" (envOr env "DEVICE_RELAY_HTTP_LISTEN" ":80").
Definition domain := flag args "domain" (env "DEVICE_RELAY_DOMAIN").
Definition adminToken := flag args "admin-token" (env "DEVICE_RELAY_ADMIN_TOKEN").
Definition adminUser := flag args "admin-user" (envOr env "DEVICE_RELAY_ADMIN_USER" "admin").
Definition adminPassword := flag args "admin-password" (env "DEVICE_RELAY_ADMIN_PASSWORD").
Definition keyTTL := flag args "key-ttl" (envOr env "DEVICE_RELAY_KEY_TTL" "8760h").
Definition dataDir := flag args "data-dir" (envOr env "DEVICE_RELAY_DATA_DIR" "./data").
Definition agentDir := flag args "agent-dir" (envOr env "DEVICE_RELAY_AGENT_DIR" "/opt/warpmesh/agents").
Definition tlsCert := flag args "tls-cert" (env "DEVICE_RELAY_TLS_CERT").
Definition tlsKey := flag args "tls-key" (env "DEVICE_RELAY_TLS_KEY").

Definition set (s : string) : bool := negb (String.eqb s "").
Definition tlsEnabled : bool := set domain || (set tlsCert && set tlsKey).

Definition agentListen : string :=
  let l := listen in
  let l := if tlsEnabled then httpsListen else l in
  if set altHTTPSListen then altHTTPSListen else l.

(** The checks of [run] before the server is created *)
Definition checked : res Config :=
  match ParseDuration keyTTL with
  | Err e => Err ("parse key-ttl: " +:+ e)
  | Ok ttl =>
      if String.eqb (TrimSpace adminToken) "" then
        Err "DEVICE_RELAY_ADMIN_TOKEN is required: refusing to start with an empty admin token"
      else if String.eqb adminToken "admin" then
        Err ("the default admin token " +:+ quote "admin" +:+ " is not allowed: set DEVICE_RELAY_ADMIN_TOKEN to a strong random value")
      else if String.eqb adminPassword "admin" then
        Err ("the default admin password " +:+ quote "admin" +:+ " is not allowed: set DEVICE_RELAY_ADMIN_PASSWORD to a strong value")
      else if negb (Bool.eqb (String.eqb tlsCert "") (String.eqb tlsKey "")) then
        Err "tls-cert and tls-key must be configured together"
      else if set altHTTPSListen && negb tlsEnabled then
        Err "alt-https-listen requires -domain or -tls-cert/-tls-key"
      else match webUI with
      | Err e => Err ("embedded web ui unavailable: " +:+ e)
      | Ok _ => Ok (mkConfig adminToken dataDir adminUser adminPassword agentListen ttl agentDir)
      end
  end.

(** [runCertMagic] *)
Definition runCertMagic (handler agentHandler : list (string * endpoint)) : res (list listener) :=
  match ManageSync domain with
  | Err e => Err ("manage certificates: " +:+ e)
  | Ok _ =>
      Ok ([newHTTPServer httpsListen (Some handler) true domain] ++
          (if set altHTTPSListen then [newHTTPServer altHTTPSListen (Some agentHandler) true domain] else []) ++
          [newHTTPServer httpListen None false ""])
  end.

Definition listeners : res (list listener) :=
  let handler := primaryHandler (set altHTTPSListen) in
  if set domain then runCertMagic handler AgentHandler
  else if set tlsCert && set tlsKey then
    match LoadX509KeyPair tlsCert tlsKey with
    | Err e => Err ("load tls certificate: " +:+ e)
    | Ok _ =>
        Ok ([newHTTPServer httpsListen (Some handler) true domain] ++
            (if set altHTTPSListen then [newHTTPServer altHTTPSListen (Some AgentHandler) true domain] else []))
    end
  else Ok [newHTTPServer listen (Some handler) false ""].

(** [run] up to serving: the created server and its listeners *)
Definition run (disk : option Registry) (salt : string) (now : Time) : res (Server * list listener) :=
  match checked with
  | Err e => Err e
  | Ok c =>
      match NewServer c disk salt now with
      | Err e => Err ("create server: " +:+ e)
      | Ok srv =>
          match listeners with
          | Err e => Err e
          | Ok ls => Ok (srv, ls)
          end
      end
  end.
End run.

(** *** The error log's filter *)

Definition registrableDomain (host : string) : string :=
  let host := TrimSuffix (ToLower host) "." in
  let labels := Split host "." in
  if (length labels <? 2)%nat then ""
  else Join (drop (length labels - 2) labels) ".".

Definition noise : list string :=
  ["client sent an HTTP request to an HTTPS server"; "client offered only unsupported versions";
   "unsupported SSLv2 handshake received"; "remote error: tls: protocol version not supported";
   "remote error: tls: no cipher suite supported"].

Definition marker := "no certificate available for '".

(** [suppress] of a writer for [domain] *)
Definition suppress (domain line : string) : bool :=
  if negb (Contains line "TLS handshake error") then false
  else if existsb (Contains line) noise then true
  else match Index line marker with
  | None => false
  | Some idx =>
      let sni := str_drop (idx + String.length marker) line in
      let sni := match Index sni "'" with Some e => str_take e sni | None => sni end in
      if String.eqb sni "" then false
      else
        let ours := registrableDomain domain in
        if String.eqb ours "" || String.eqb (registrableDomain sni) ours then false else true
  end.

(** [Write]: what reaches the underlying writer, and the count returned when that
    writer takes everything *)
Definition Write (domain p : string) : option string * Z :=
  if suppress domain p then (None, Z.of_nat (String.length p))
  else (Some p, Z.of_nat (String.length p)).

Definition displayHost (listen : string) : string :=
  if HasPrefix listen ":" then "127.0.0.1" +:+ listen else listen.

End ServerCmd.

(** ** The agent command *)

Module AgentCmd.

Definition splitComma (s : string) : list string :=
  if String.eqb s "" then [] else map TrimSpace (Split s ",").

Definition parseForward (item : string) : res ForwardSpec :=
  match Split item ":" with
  | [a; target; b] =>
      let '(localPort, ok) := Atoi a in
      if negb ok then Err ("invalid local port in " +:+ quote item)
      else
        let '(targetPort, ok) := Atoi b in
        if negb ok then Err ("invalid target port in " +:+ quote item)
        else if String.eqb target "" || (localPort <=? 0) || (targetPort <=? 0) then
          Err ("invalid forward " +:+ quote item)
        else Ok (mkForwardSpec localPort target targetPort)
  | _ => Err ("invalid forward " +:+ quote item +:+ ", want localPort:targetDeviceId:targetPort")
  end.

Fixpoint parseItems (items : list string) : res (list ForwardSpec) :=
  match items with
  | [] => Ok []
  | item :: items =>
      match parseForward item with
      | Err e => Err e
      | Ok f =>
          match parseItems items with
          | Err e => Err e
          | Ok l => Ok (f :: l)
          end
      end
  end.

Definition parseForwards (spec : string) : res (list ForwardSpec) :=
  if String.eqb (TrimSpace spec) "" then Ok [] else parseItems (splitComma spec).

(** [resolveAgentEndpoint]: [get] is [client.Get] with the body's [agentWSS]
    decoded. *)
Definition resolveAgentEndpoint (get : string → res string) (base : string) : res string :=
  match get (TrimRightByte base "/" +:+ "/api/agent-config") with
  | Err e => Err e
  | Ok url =>
      if String.eqb url "" then Err "server did not publish an agent endpoint" else Ok url
  end.

(** *** [agent.New] *)

Record Config := mkConfig {
  cg_ServerURL : string; cg_Token : string; cg_DeviceID : string; cg_Name : string;
  cg_Shell : string; cg_DataDir : string; cg_Insecure : bool; cg_AllowPaths : list string;
  cg_Forwards : list ForwardSpec; cg_STUNServers : list string; cg_VNCPort : Z; cg_UIPort : Z;
  cg_AutoVNC : bool
}.

(** The regular files an agent reads and writes *)
Abbreviation files := (gmap string string).

Section main.
Context (env : string → string) (args : string → option string).
Context (intArgs : string → option Z) (boolArgs : string → option bool).
Context (get : string → res string).

Definition nonempty (s : string) : bool := negb (String.eqb s "").

(** The configuration [main] passes to [agent.New] *)
Definition config : res Config :=
  let serverURL := flag args "server" (envOr env "DEVICE_RELAY_SERVER" "ws://127.0.0.1:8080/ws/agent") in
  let resolved :=
    if HasPrefix serverURL "http://" || HasPrefix serverURL "https://" then
      resolveAgentEndpoint get serverURL
    else Ok serverURL in
  match resolved with
  | Err e => Err ("resolve agent endpoint: " +:+ e)
  | Ok url =>
      let paths := List.filter nonempty
        (splitComma (flag args "allow-paths" (env "DEVICE_RELAY_ALLOW_PATHS"))) in
      match parseForwards (flag args "forward" (env "DEVICE_RELAY_FORWARD")) with
      | Err e => Err ("parse -forward: " +:+ e)
      | Ok forwards =>
          let stun := List.filter nonempty (splitComma (flag args "stun" (env "DEVICE_RELAY_STUN"))) in
          Ok (mkConfig url (flag args "token" (env "DEVICE_RELAY_TOKEN"))
            (flag args "device-id" (env "DEVICE_RELAY_DEVICE_ID"))
            (flag args "name" (env "DEVICE_RELAY_NAME")) (flag args "shell" (env "DEVICE_RELAY_SHELL"))
            (flag args "data-dir" (envOr env "DEVICE_RELAY_DATA_DIR" "./data"))
            (default (String.eqb (env "DEVICE_RELAY_INSECURE") "1") (boolArgs "insecure"))
            paths forwards stun (default (envInt env "DEVICE_RELAY_VNC_PORT" 5900) (intArgs "vnc-port"))
            (default (envInt env "DEVICE_RELAY_UI_PORT" 9876) (intArgs "ui-port"))
            (default (negb (String.eqb (env "DEVICE_RELAY_AUTO_VNC") "0")) (boolArgs "auto-vnc")))
      end
  end.
End main.

(** What the operating system answers while the agent starts *)
Record host := mkHost {
  ho_mkdir : string → res unit; ho_write : string → res unit; ho_hostname : option string; ho_home : option string;
  ho_windows : bool; ho_rand : option bytes
}.

Definition defaultShell (env : string → string) (windows : bool) : string :=
  if negb (String.eqb (env "SHELL") "") then env "SHELL"
  else if windows then (if negb (String.eqb (env "COMSPEC") "") then env "COMSPEC" else "cmd.exe")
  else "/bin/sh".

Definition loadOrCreateID (h : host) (deviceID dataDir : string) (fs : files) : res string * files :=
  if negb (String.eqb deviceID "") then (Ok deviceID, fs)
  else
    let path := JoinPath [dataDir; "device-id"] in
    let create :=
      match ho_rand h with
      | None => (Err "rand: read failed", fs)
      | Some b =>
          let id := "dev-" +:+ hex_encode b in
          if negb (String.eqb dataDir "") then
            match ho_mkdir h dataDir, ho_write h path with
            | Err e, _ => (Err e, fs)
            | _, Err e => (Err e, fs)
            | Ok _, Ok _ => (Ok id, <[path := id]> fs)
            end
          else (Ok id, fs)
      end in
    match fs !! path with
    | Some raw => if negb (String.eqb (TrimSpace raw) "") then (Ok (TrimSpace raw), fs) else create
    | None => create
    end.

Definition stunDefaults : list string :=
  ["stun:stun.l.google.com:19302"; "stun:stun.miwifi.com:3478"; "stun:stun.chat.bilibili.com:3478"].

(** [New]: the completed configuration *)
Definition New (env : string → string) (h : host) (c : Config) (fs : files) : res Config * files :=
  let uploads := if negb (String.eqb (cg_DataDir c) "") then ho_mkdir h (JoinPath [cg_DataDir c; "uploads"])
                 else Ok tt in
  match uploads with
  | Err e => (Err e, fs)
  | Ok _ =>
      let token :=
        if String.eqb (cg_Token c) "" && negb (String.eqb (cg_DataDir c) "") then
          match fs !! JoinPath [cg_DataDir c; "token"] with
          | Some raw => TrimSpace raw
          | None => cg_Token c
          end
        else cg_Token c in
      if String.eqb token "" then
        (Err "device token is required; enroll with warpmesh-agent enroll or pass -token", fs)
      else
        match loadOrCreateID h (cg_DeviceID c) (cg_DataDir c) fs with
        | (Err e, fs) => (Err e, fs)
        | (Ok deviceID, fs) =>
            let name := if String.eqb (cg_Name c) "" then default (cg_Name c) (ho_hostname h) else cg_Name c in
            let shell := if String.eqb (cg_Shell c) "" then defaultShell env (ho_windows h) else cg_Shell c in
            let paths :=
              match cg_AllowPaths c with
              | [] => match ho_home h with Some home => [home] | None => [] end
              | l => l
              end in
            let stun := match cg_STUNServers c with [] => stunDefaults | l => l end in
            let vnc := if cg_VNCPort c =? 0 then 5900 else cg_VNCPort c in
            (Ok (mkConfig (cg_ServerURL c) token deviceID name shell (cg_DataDir c) (cg_Insecure c)
                   paths (cg_Forwards c) stun vnc (cg_UIPort c) (cg_AutoVNC c)), fs)
        end
  end.

(** [startForwardListeners]: each forward with the outcome of its [net.Listen]; a
    failure is only logged. *)
Fixpoint startForwardListeners (specs : list (ForwardSpec * res unit)) : stateM Agent unit :=
  match specs with
  | [] => mret tt
  | (spec, listen) :: specs => _ ← StartForward listen spec; startForwardListeners specs
  end.

(** *** [enroll] *)

(** The fields of the answer's body the command decodes *)
Definition decode_key (body : option json) : string * string * string :=
  match body with
  | Some (JKey k) => (key_DeviceID k, key_Name k, key_Token k)
  | _ => ("", "", "")
  end.

(** [enrollDevice]: [answer] is what [http.Post] to [/api/enroll] gives. *)
Definition enrollDevice (answer : res Response) : res (string * string) :=
  match answer with
  | Err e => Err e
  | Ok resp =>
      let '(deviceID, _, token) := decode_key (rs_Body resp) in
      if String.eqb token "" then Err "invalid invite" else Ok (deviceID, token)
  end.

(** [runEnrollCLI] from the answer on; the errors of the two writes are dropped. *)
Definition runEnrollCLI (h : host) (answer : res Response) (dataDir : string) (fs : files)
    : res (string * string) * files :=
  match enrollDevice answer with
  | Err e => (Err e, fs)
  | Ok (deviceID, token) =>
      if negb (String.eqb dataDir "") then
        match ho_mkdir h dataDir with
        | Err e => (Err e, fs)
        | Ok _ =>
            let store path content fs :=
              match ho_write h path with Ok _ => <[path := content]> fs | Err _ => fs end in
            (Ok (deviceID, token),
             store (JoinPath [dataDir; "token"]) token
               (store (JoinPath [dataDir; "device-id"]) deviceID fs))
        end
      else (Ok (deviceID, token), fs)
  end.

(** *** [terminal] *)

(** The read loop of [runTerminalCLI] on the messages of the socket: what it
    prints, and whether a message (rather than the socket's end) stopped it *)
Fixpoint terminalLoop (msgs : list Message) : bytes * bool :=
  match msgs with
  | [] => ([], false)
  | msg :: msgs =>
      if String.eqb (Type_ msg) TypeTermOutput then
        let '(out, stopped) := terminalLoop msgs in
        (match DecodeData (Data msg) with Ok raw => raw ++ out | Err _ => out end, stopped)
      else if String.eqb (Type_ msg) TypeTermExit || String.eqb (Type_ msg) TypeTermError then ([], true)
      else terminalLoop msgs
  end.

Definition desktopURL (PathEscape : string → string) (server device : string) : string :=
  TrimRightByte server "/" +:+ "/#/desktop/" +:+ PathEscape device.

End AgentCmd.
