(* ===== verification/CommandsProps.v ===== *)
(** * Properties of the commands

    A deployment that starts is guarded and serves agents where it says it does,
    the forward list of an agent survives printing and parsing, the log filter
    never hides a certificate problem of the server's own domain, and an enrolled
    device finds its identity again and is let in. *)
From stdpp Require Import pretty.
From Stdlib Require Import ZArith Lia Ascii String.
From S2P Require Import Prelude GoStrings Protocol Registry RegistryProps Tickets Traffic Http Server.
From S2P Require Import Auth AuthProps AgentWS Api ApiProps Paths Agent Analytics Routing Commands.
Open Scope string_scope.
Open Scope list_scope.
Open Scope Z_scope.

(** ** Strings that [TrimSpace] keeps *)

(** A byte that begins no white space, read from either end *)
Definition solid (c : ascii) : bool :=
  negb (existsb (λ w, match w with String a _ => Ascii.eqb a c | EmptyString => true end)
          (space_seqs ++ map String.rev space_seqs)).

Lemma solid_find c s :
  solid c = true →
  List.find (HasPrefix (String c s)) space_seqs = None ∧
  List.find (HasPrefix (String c s)) (map String.rev space_seqs) = None.
Proof.
  unfold solid. rewrite existsb_app. intros H. bools.
  assert (∀ l, existsb (λ w, match w with String a _ => Ascii.eqb a c | EmptyString => true end) l = false →
    List.find (HasPrefix (String c s)) l = None) as Hl.
  { induction l as [|w l IH]; simpl; [done|]. intros [Hw Hl]%orb_false_iff.
    destruct w as [|a w]; [done|]. unfold HasPrefix at 1. simpl.
    destruct (ascii_dec a c) as [->|]; [by rewrite Ascii.eqb_refl in Hw|]. by apply IH. }
  auto.
Qed.

Definition starts_solid (s : string) : Prop := ∃ c r, s = String c r ∧ solid c = true.

Lemma TrimSpace_id s : starts_solid s → starts_solid (String.rev s) → TrimSpace s = s.
Proof.
  intros (c & r & E & Hc) (d & q & E' & Hd). unfold TrimSpace, trim_left.
  assert (trim_left_of space_seqs (String.length s) s = s) as ->.
  { rewrite E. cbn [String.length trim_left_of]. by rewrite (proj1 (solid_find c r Hc)). }
  assert (trim_left_of (map String.rev space_seqs) (String.length s) (String.rev s) = String.rev s) as ->.
  { rewrite E'. destruct (String.length s); cbn [trim_left_of]; [done|].
    by rewrite (proj2 (solid_find d q Hd)). }
  apply str_rev_involutive.
Qed.

Lemma starts_solid_app a b : starts_solid a → starts_solid (a +:+ b).
Proof. intros (c & r & -> & Hc). exists c, (r +:+ b). done. Qed.

Lemma ends_solid_app a b : starts_solid (String.rev b) → starts_solid (String.rev (a +:+ b)).
Proof. intros Hb. rewrite str_rev_app. by apply starts_solid_app. Qed.

Lemma all_solid_rev s :
  s ≠ "" → (∀ c, str_mem c s = true → solid c = true) → starts_solid (String.rev s).
Proof.
  intros Hs Hall. destruct (String.rev s) as [|c r] eqn:E.
  { destruct Hs. by rewrite <- (str_rev_involutive s), E. }
  exists c, r. split; [done|]. apply Hall. rewrite <- str_mem_rev, E. simpl. by rewrite Ascii.eqb_refl.
Qed.

Lemma all_solid_head s :
  s ≠ "" → (∀ c, str_mem c s = true → solid c = true) → starts_solid s.
Proof.
  intros Hs Hall. destruct s as [|c r]; [done|]. exists c, r. split; [done|].
  apply Hall. simpl. by rewrite Ascii.eqb_refl.
Qed.

(** *** Numbers *)

Lemma digit_solid c : is_Some (digit_of c) → solid c = true.
Proof.
  intros [d Hd]. unfold digit_of in Hd. destruct (_ && _) eqn:E; [|done]. clear Hd d. bools.
  assert (nat_of_ascii c ∈ seq 48 10) as Hin by (apply elem_of_seq; lia).
  rewrite <- (ascii_nat_embedding c). revert Hin. generalize (nat_of_ascii c). intros n Hin.
  assert (forallb (λ n, solid (ascii_of_nat n)) (seq 48 10) = true) as F by (vm_compute; reflexivity).
  rewrite forallb_forall in F. by apply F, list_elem_of_In.
Qed.

Lemma pretty_N_go_digits (x : N) s :
  digits s → digits (pretty_N_go x s).
Proof.
  revert s. induction (N.lt_wf_0 x) as [x _ IH]. intros s Hs.
  destruct (decide (x = 0)%N) as [->|Hx]; [by rewrite pretty_N_go_0|].
  rewrite pretty_N_go_step by lia. apply IH; [apply N.div_lt; lia|].
  intros c. cbn [str_mem]. intros [<-%Ascii.eqb_eq|]%orb_true_iff; [|auto].
  rewrite digit_of_pretty by (apply N.mod_lt; lia). eauto.
Qed.

Lemma Itoa_digits n : 0 < n → digits (Itoa n) ∧ Itoa n ≠ "".
Proof.
  intros Hn. destruct n as [|p|p]; [lia| |lia]. change (Itoa (Z.pos p)) with (pretty (N.pos p)). split.
  - unfold pretty, pretty_N. case_decide; [lia|]. apply pretty_N_go_digits. by intros c.
  - destruct (pretty_N_head (N.pos p)) as (c & s & -> & _). done.
Qed.

Lemma digits_no c s : digits s → digit_of c = None → str_mem c s = false.
Proof.
  intros Hs Hc. destruct (str_mem c s) eqn:E; [|done]. apply Hs in E as [d Hd]. congruence.
Qed.

(** ** The forward list *)

Section forward_list.
Import AgentCmd.

(** The flag's notation for a forward *)
Definition print_forward (f : ForwardSpec) : string :=
  Join [Itoa (LocalPort f); TargetDeviceID f; Itoa (TargetPort f)] ":".

Definition forward_ok (f : ForwardSpec) : Prop :=
  0 < LocalPort f ≤ maxInt64 ∧ 0 < TargetPort f ≤ maxInt64 ∧ TargetDeviceID f ≠ "" ∧
  str_mem ":" (TargetDeviceID f) = false ∧ str_mem "," (TargetDeviceID f) = false.

Lemma print_forward_solid f :
  forward_ok f → starts_solid (print_forward f) ∧ starts_solid (String.rev (print_forward f)) ∧
    str_mem "," (print_forward f) = false.
Proof.
  intros (Hl & Ht & Hn & Hc & Hm). unfold print_forward. cbn [Join].
  destruct (Itoa_digits (LocalPort f)) as [Dl Nl]; [lia|].
  destruct (Itoa_digits (TargetPort f)) as [Dt Nt]; [lia|].
  split_and!.
  - apply starts_solid_app, all_solid_head; [done|]. intros c Hc'. by apply digit_solid, Dl.
  - do 4 apply ends_solid_app. apply all_solid_rev; [done|]. intros c Hc'. by apply digit_solid, Dt.
  - rewrite !str_mem_app, Hm, (digits_no "," _ Dl), (digits_no "," _ Dt) by done. done.
Qed.

Lemma parse_print_forward f : forward_ok f → parseForward (print_forward f) = Ok f.
Proof.
  intros (Hl & Ht & Hn & Hc & Hm). unfold parseForward, print_forward.
  destruct (Itoa_digits (LocalPort f)) as [Dl Nl]; [lia|].
  destruct (Itoa_digits (TargetPort f)) as [Dt Nt]; [lia|].
  rewrite Split_Join; [|done|].
  2: { repeat constructor; [by apply digits_no|done|by apply digits_no]. }
  rewrite !Atoi_Itoa by (unfold minInt64; lia). cbn [negb].
  destruct (String.eqb_spec (TargetDeviceID f) ""); [done|]. cbn [orb].
  destruct (Z.leb_spec (LocalPort f) 0); [lia|]. destruct (Z.leb_spec (TargetPort f) 0); [lia|].
  by destruct f.
Qed.

Lemma Join_prints_solid l :
  l ≠ [] → Forall forward_ok l →
  starts_solid (Join (map print_forward l) ",") ∧ starts_solid (String.rev (Join (map print_forward l) ",")).
Proof.
  intros Hn HF. induction HF as [|f l Hf HF IH]; [done|].
  destruct (print_forward_solid f Hf) as (H1 & H2 & _).
  destruct l as [|g l]; [done|]. cbn [map]. rewrite Join_cons by done.
  destruct IH as [_ I2]; [done|]. split; [by apply starts_solid_app|]. by do 2 apply ends_solid_app.
Qed.

(** What [parseItems] accepts, item by item *)
Lemma parseItems_Ok items l :
  parseItems items = Ok l ↔ Forall2 (λ i f, parseForward i = Ok f) items l.
Proof.
  revert l. induction items as [|i items IH]; intros l; simpl.
  - split; [by intros [= <-]|]. intros H. by inversion H.
  - destruct (parseForward i) as [f|e] eqn:E; [|split; [done|intros H; inversion H; congruence]].
    destruct (parseItems items) as [l'|e].
    + split; [intros [= <-]; constructor; [done|by apply IH]|].
      intros H. inversion H as [|? f' ? l2 Hf Hl]; subst. apply IH in Hl. congruence.
    + split; [done|]. intros H. inversion H as [|? f' ? l2 Hf Hl]; subst. by apply IH in Hl.
Qed.

Lemma parseForward_valid i f :
  parseForward i = Ok f → 0 < LocalPort f ∧ 0 < TargetPort f ∧ TargetDeviceID f ≠ "" ∧
    str_mem ":" (TargetDeviceID f) = false.
Proof.
  unfold parseForward. pose proof (Split_no_sep i ":") as Hs.
  destruct (Split i ":") as [|a [|t [|b [|? ?]]]]; try done.
  destruct (Atoi a) as [x []]; [|done]. destruct (Atoi b) as [y []]; [|done]. cbn [negb].
  destruct (_ || _ || _) eqn:E; [done|]. intros [= <-]. bools. simpl.
  inversion_clear Hs as [|? ? _ Hs']. inversion_clear Hs'. split_and!; try done; lia.
Qed.
Lemma parse_printed l :
  l ≠ [] → Forall forward_ok l → AgentCmd.parseForwards (Join (map print_forward l) ",") = Ok l.
Proof.
  intros Hn HF. destruct (Join_prints_solid l Hn HF) as [Hs He].
  unfold parseForwards, splitComma. rewrite (TrimSpace_id _ Hs He).
  assert (Join (map print_forward l) "," ≠ "") as Hne by (destruct Hs as (? & ? & -> & _); done).
  destruct (String.eqb_spec (Join (map print_forward l) ",") ""); [done|].
  rewrite Split_Join; [|by destruct l|].
  - apply parseItems_Ok. rewrite Forall2_fmap_l, Forall2_fmap_l.
    apply Forall_Forall2_diag. eapply Forall_impl; [exact HF|]. intros f Hf. simpl.
    destruct (print_forward_solid f Hf) as (H1 & H2 & _). rewrite (TrimSpace_id _ H1 H2).
    by apply parse_print_forward.
  - rewrite Forall_map. eapply Forall_impl; [exact HF|]. intros f Hf. by apply print_forward_solid.
Qed.
End forward_list.

(** *** Starting the forwards *)

Lemma Itoa_inj m n :
  minInt64 ≤ m ≤ maxInt64 → minInt64 ≤ n ≤ maxInt64 → Itoa m = Itoa n → m = n.
Proof. intros Hm Hn E. pose proof (Atoi_Itoa m Hm) as Hx. rewrite E, Atoi_Itoa in Hx by done. congruence. Qed.

Lemma startForwardListeners_all specs a :
  NoDup (map LocalPort specs) → Forall (λ f, minInt64 ≤ LocalPort f ≤ maxInt64) specs →
  (∀ f, f ∈ specs → ag_listeners a !! Itoa (LocalPort f) = None) →
  ListForwards (AgentCmd.startForwardListeners (map (λ f, (f, Ok tt)) specs) a).2 ≡ₚ
    specs ++ ListForwards a.
Proof.
  revert a. induction specs as [|f specs IH]; intros a Hnd Hr Hfree; cbn [map]; [done|].
  apply NoDup_cons in Hnd as [Hnin Hnd]. inversion_clear Hr as [|? ? Hf Hr'].
  cbn [AgentCmd.startForwardListeners]. rewrite bind_run.
  assert ((StartForward (Ok tt) f a).2 = Agent.upd_listeners (<[Itoa (LocalPort f) := f]>) a) as ->.
  { unfold StartForward. rewrite bind_run. simpl. by rewrite (Hfree f ltac:(left)). }
  rewrite IH; [|done|done|].
  - unfold ListForwards. simpl. rewrite map_to_list_insert by (apply Hfree; left). simpl.
    by rewrite Permutation_middle.
  - intros g Hg. simpl. rewrite lookup_insert_ne; [apply Hfree; by right|].
    intros E. apply Itoa_inj in E; [|done|].
    + apply Hnin. rewrite E. by apply list_elem_of_fmap_2.
    + rewrite Forall_forall in Hr'. by apply Hr'.
Qed.

(** ** Domains *)

Lemma ToLower_app a b : ToLower (a +:+ b) = ToLower a +:+ ToLower b.
Proof. induction a as [|x a IH]; simpl; [done|]. by rewrite IH. Qed.

Lemma Split_app_sep a b c : Split (a +:+ String c b) c = Split a c ++ Split b c.
Proof.
  induction a as [|x a IH]; simpl; [by rewrite Ascii.eqb_refl|].
  destruct (Ascii.eqb x c); [by rewrite IH|]. rewrite IH.
  destruct (Split a c) eqn:E; [by apply Split_not_nil in E|]. done.
Qed.

Lemma TrimSuffix_dot a b : b ≠ "" → TrimSuffix (a +:+ b) "." = a +:+ TrimSuffix b ".".
Proof.
  intros Hb. unfold TrimSuffix, TrimPrefix. rewrite str_rev_app.
  destruct (String.rev b) as [|c r] eqn:E.
  { destruct Hb. by rewrite <- (str_rev_involutive b), E. }
  change (String.rev ".") with ".". cbn [String.append]. rewrite !HasPrefix_byte.
  destruct (Ascii.eqb c "."); cbn [String.length str_drop].
  - by rewrite str_rev_app, str_rev_involutive.
  - change (String c (r +:+ String.rev a)) with (String c r +:+ String.rev a).
    by rewrite str_rev_app, str_rev_involutive.
Qed.

(** A subdomain has the registrable domain of its parent. *)
Lemma registrableDomain_sub sub host :
  ServerCmd.registrableDomain host ≠ "" →
  ServerCmd.registrableDomain (sub +:+ "." +:+ host) = ServerCmd.registrableDomain host.
Proof.
  unfold ServerCmd.registrableDomain. rewrite ToLower_app. cbn [String.append ToLower].
  change (lower_byte ".") with "."%char.
  destruct (decide (host = "")) as [->|Hne]; [by vm_compute|].
  assert (ToLower host ≠ "") as Hl by (by destruct host).
  change (String "." (ToLower host)) with ("." +:+ ToLower host). rewrite str_app_assoc.
  rewrite TrimSuffix_dot by done. rewrite <- str_app_assoc. cbn [String.append].
  rewrite Split_app_sep. set (l1 := Split (ToLower sub) "."). set (l2 := Split _ ".").
  rewrite length_app. intros Hn.
  destruct (Nat.ltb_spec (length l2) 2) as [|H2]; [done|].
  destruct (Nat.ltb_spec (length l1 + length l2) 2); [lia|]. f_equal.
  replace (length l1 + length l2 - 2)%nat with (length l1 + (length l2 - 2))%nat by lia.
  by rewrite drop_app_add.
Qed.

Lemma registrableDomain_lower a b :
  ToLower a = ToLower b → ServerCmd.registrableDomain a = ServerCmd.registrableDomain b.
Proof. unfold ServerCmd.registrableDomain. by intros ->. Qed.

Lemma Index_quote s t : str_mem "'" s = false → Index (s +:+ String "'" t) "'" = Some (String.length s).
Proof.
  induction s as [|a s IH]; cbn [String.append Index str_mem]; rewrite HasPrefix_byte.
  - by rewrite Ascii.eqb_refl.
  - intros [-> Hs]%orb_false_iff. by rewrite IH.
Qed.

Lemma str_take_app a b : str_take (String.length a) (a +:+ b) = a.
Proof. induction a as [|x a IH]; simpl; [by destruct b|]. by rewrite IH. Qed.

(** ** The files of an agent *)

(** The cleaned path of a file in a directory ends in its name. *)
Lemma JoinPath_file dir f :
  dir ≠ "" → f ≠ "" → f ≠ "." → f ≠ ".." → str_mem "/" f = false →
  ∃ p, JoinPath [dir; f] = p +:+ f.
Proof.
  intros Hd Hf H1 H2 Hs. cbn [JoinPath]. destruct (String.eqb_spec dir ""); [done|].
  cbn [Join]. unfold Clean.
  assert (Split (dir +:+ "/" +:+ f) "/" = Split dir "/" ++ [f]) as Hsplit.
  { cbn [String.append]. by rewrite Split_app_sep, (Split_none f). }
  rewrite Hsplit. unfold clean_comps. rewrite foldl_app. cbn [foldl].
  set (st := foldl _ [] _). unfold clean_step.
  destruct (String.eqb_spec f ""); [done|]. destruct (String.eqb_spec f "."); [done|].
  destruct (String.eqb_spec f ".."); [done|]. cbn [orb]. rewrite reverse_cons.
  assert (∃ p, Join (reverse st ++ [f]) "/" = p +:+ f) as [p Hp].
  { destruct (reverse st) as [|x l]; [by exists ""|].
    rewrite Join_app by done. eexists. by rewrite str_app_assoc. }
  rewrite Hp. destruct (IsAbs _); [exists ("/" +:+ p); by rewrite str_app_assoc|].
  exists p. by destruct (reverse st).
Qed.

Lemma token_path_ne dir :
  dir ≠ "" → JoinPath [dir; "token"] ≠ JoinPath [dir; "device-id"].
Proof.
  intros Hd. destruct (JoinPath_file dir "token") as [p ->]; try done.
  destruct (JoinPath_file dir "device-id") as [q ->]; try done.
  intros E%(f_equal String.rev). rewrite !str_rev_app in E. discriminate.
Qed.

Lemma hex_solid b c : str_mem c (hex_encode b) = true → solid c = true.
Proof.
  assert (∀ n, (n < 16)%nat → solid (hex_digit n) = true) as Hx.
  { intros n Hn. assert (forallb (λ n, solid (hex_digit n)) (seq 0 16) = true) as F by (vm_compute; reflexivity).
    rewrite forallb_forall in F. apply F, in_seq. lia. }
  induction b as [|a b IH]; cbn [hex_encode str_mem]; [done|].
  intros [<-%Ascii.eqb_eq|[<-%Ascii.eqb_eq|]%orb_true_iff]%orb_true_iff; [| |auto].
  - apply Hx. pose proof (nat_ascii_bounded a). apply Nat.Div0.div_lt_upper_bound. lia.
  - apply Hx. apply Nat.mod_upper_bound. lia.
Qed.

Lemma TrimSpace_hex b : TrimSpace (hex_encode b) = hex_encode b.
Proof.
  destruct (decide (hex_encode b = "")) as [->|Hn]; [done|].
  apply TrimSpace_id; [apply all_solid_head|apply all_solid_rev]; try done; apply hex_solid.
Qed.

Lemma TrimSpace_device_id b : TrimSpace ("dev-" +:+ hex_encode b) = "dev-" +:+ hex_encode b.
Proof.
  apply TrimSpace_id; [by exists "d"%char, ("ev-" +:+ hex_encode b)|].
  destruct (decide (hex_encode b = "")) as [->|Hn].
  { eexists _, _. split; [reflexivity|]. reflexivity. }
  apply ends_solid_app, all_solid_rev; [done|]. apply hex_solid.
Qed.

(** ** Theorems *)

Section deployment.
Import ServerCmd.
Context `{Crypto} (env : string → string) (args : string → option string).
Context (ParseDuration : string → res Duration) (webUI : res unit).
Context (LoadX509KeyPair : string → string → res unit) (ManageSync : string → res unit).

Lemma NewServer_cfg c disk salt now s : NewServer c disk salt now = Ok s → cfg s = c.
Proof.
  unfold NewServer. repeat case_match; try done; by intros [= <-].
Qed.

Lemma checked_spec c :
  checked env args ParseDuration webUI = Ok c →
  TrimSpace (adminToken env args) ≠ "" ∧ adminToken env args ≠ "admin" ∧
  adminPassword env args ≠ "admin" ∧
  (set (altHTTPSListen env args) = true → tlsEnabled env args = true) ∧
  AdminToken c = adminToken env args ∧ AgentListen c = agentListen env args.
Proof.
  unfold checked. destruct (ParseDuration _); [|done].
  destruct (String.eqb_spec (TrimSpace (adminToken env args)) ""); [done|].
  destruct (String.eqb_spec (adminToken env args) "admin"); [done|].
  destruct (String.eqb_spec (adminPassword env args) "admin"); [done|].
  destruct (negb (Bool.eqb _ _)); [done|].
  destruct (set (altHTTPSListen env args) && negb (tlsEnabled env args)) eqn:E; [done|].
  destruct webUI; [|done]. intros [= <-]. split_and!; try done.
  intros Ha. rewrite Ha in E. simpl in E. by apply negb_false_iff in E.
Qed.

(** The listeners by mode *)
Lemma listeners_cases ls :
  listeners env args LoadX509KeyPair ManageSync = Ok ls →
  let alt := set (altHTTPSListen env args) in
  let main tls addr := mkListener addr (Some (primaryHandler alt)) tls in
  if tlsEnabled env args then
    ∃ d rest, ls = main true (httpsListen env args) d ::
      (if alt then [mkListener (altHTTPSListen env args) (Some AgentHandler) true d] else []) ++ rest ∧
      Forall (λ l, ls_routes l = None) rest
  else ls = [main false (listen env args) ""].
Proof.
  unfold listeners, tlsEnabled, runCertMagic. destruct (set (domain env args)) eqn:Hd; cbn [orb].
  - destruct (ManageSync _); [|done]. intros [= <-]. eexists (domain env args), _.
    split; [reflexivity|]. by repeat constructor.
  - destruct (set (tlsCert env args) && set (tlsKey env args)); [|by intros [= <-]].
    destruct (LoadX509KeyPair _ _); [|done]. intros [= <-]. exists (domain env args), [].
    split; [by rewrite app_nil_r|constructor].
Qed.

End deployment.

Section command_theorems.
Import ServerCmd AgentCmd.

(** A certificate problem of the server's own domain is always logged: a
    handshake line that reports no certificate for the configured domain or for any
    name below it, in any letter case, is not suppressed (unless it also carries
    one of the fixed protocol-noise phrases). *)
Theorem own_domain_reported domain sub sni pre post :
  let line := pre +:+ marker +:+ sni +:+ "'" +:+ post in
  ToLower sni = ToLower domain ∨ ToLower sni = ToLower (sub +:+ "." +:+ domain) →
  str_mem "'" sni = false → Index line marker = Some (String.length pre) →
  existsb (Contains line) noise = false →
  suppress domain line = false.
Proof.
  intros line Hsni Hq Hidx Hn. unfold suppress. destruct (negb _); [done|].
  rewrite Hn, Hidx. unfold line.
  assert (str_drop (String.length pre + String.length marker) (pre +:+ marker +:+ sni +:+ "'" +:+ post) =
    sni +:+ String "'" post) as ->.
  { rewrite (str_app_assoc pre marker), <- str_length_app. by rewrite str_drop_app. }
  rewrite Index_quote, str_take_app by done.
  destruct (String.eqb sni ""); [done|].
  destruct (String.eqb_spec (registrableDomain domain) "") as [->|Hd]; [done|]. cbn [orb].
  assert (registrableDomain sni = registrableDomain domain) as ->.
  { destruct Hsni as [E|E]; [by apply registrableDomain_lower|].
    rewrite (registrableDomain_lower _ _ E). by apply registrableDomain_sub. }
  by rewrite String.eqb_refl.
Qed.

(** A forward list survives the command line: printing any non-empty list of
    forwards in the flag's notation and parsing it gives the list back. *)
Theorem forward_list_round_trip l :
  l ≠ [] → Forall forward_ok l → parseForwards (Join (map print_forward l) ",") = Ok l.
Proof. apply parse_printed. Qed.

(** What the parser lets through: every forward names a device and two positive
    ports, there is one per item of the list, and one malformed item refuses the
    whole list. *)
Theorem parsed_forwards_valid spec l :
  parseForwards spec = Ok l →
  Forall (λ f, 0 < LocalPort f ∧ 0 < TargetPort f ∧ TargetDeviceID f ≠ "" ∧
               str_mem ":" (TargetDeviceID f) = false) l ∧
  (TrimSpace spec ≠ "" → length l = length (Split spec ",")).
Proof.
  unfold parseForwards. destruct (String.eqb_spec (TrimSpace spec) "").
  - intros [= <-]. by split; [constructor|].
  - intros HF%parseItems_Ok. split.
    + clear -HF. induction HF as [|i f items fwds Hf _ IH]; constructor; [by eapply parseForward_valid|done].
    + intros _. apply Forall2_length in HF. rewrite <- HF. unfold splitComma.
      destruct (String.eqb_spec spec "") as [->|]; [done|]. by rewrite length_map.
Qed.

(** The command-line terminal prints the session: the pieces of output the server
    relays, whatever bytes they hold, are printed in order and completely up to the
    shell's exit, messages of other kinds in between change nothing, and what comes
    after the exit is not printed. *)
Theorem terminal_cli_prints pieces sid rest others :
  Forall (λ m, Type_ m ≠ TypeTermOutput ∧ Type_ m ≠ TypeTermExit ∧ Type_ m ≠ TypeTermError) others →
  terminalLoop (others ++ concat (map (λ raw, data_msg TypeTermOutput sid (EncodeData raw) :: others) pieces) ++
    session_msg TypeTermExit sid :: rest) = (concat pieces, true).
Proof.
  intros Ho.
  assert (∀ l, terminalLoop (others ++ l) = terminalLoop l) as Hskip.
  { intros l. induction Ho as [|m ms (H1 & H2 & H3) _ IH]; [done|]. cbn [app terminalLoop].
    destruct (String.eqb_spec (Type_ m) TypeTermOutput); [done|].
    destruct (String.eqb_spec (Type_ m) TypeTermExit); [done|].
    by destruct (String.eqb_spec (Type_ m) TypeTermError). }
  rewrite Hskip. induction pieces as [|raw pieces IH]; [done|].
  cbn [map concat]. rewrite <- app_assoc. cbn [app terminalLoop].
  change (Type_ (data_msg TypeTermOutput sid (EncodeData raw))) with TypeTermOutput.
  rewrite String.eqb_refl. rewrite Hskip, IH. simpl.
  by rewrite DecodeData_EncodeData_ok.
Qed.

(** The forwards on the command line are the ones an agent serves: a list with
    distinct local ports is parsed, every port of it that can be listened on is
    open after the start, and nothing else is. *)
Theorem configured_forwards_listen l cfg disk :
  l ≠ [] → Forall forward_ok l → NoDup (map LocalPort l) →
  ∃ specs, parseForwards (Join (map print_forward l) ",") = Ok specs ∧
    ListForwards (startForwardListeners (map (λ f, (f, Ok tt)) specs) (newAgent cfg disk)).2 ≡ₚ l.
Proof.
  intros Hn HF Hnd. exists l. split; [by apply parse_printed|].
  rewrite startForwardListeners_all; [by rewrite app_nil_r|done| |done].
  eapply Forall_impl; [exact HF|]. intros f (Hl & _). unfold minInt64. lia.
Qed.
End command_theorems.

Section enrolment.
Import AgentCmd.
Context `{Crypto} `{UrlParser}.

Lemma handleEnroll_created r code name ib tb now s resp s' :
  handleEnroll r (Some (code, name)) ib tb now s = (resp, s') → rs_Status resp = StatusCreated →
  ∃ key, rs_Body resp = Some (JKey key) ∧
    (∀ t, ValidateDeviceKey (key_DeviceID key) (key_Token key) t (reg s') =
       ((KeyTTL (cfg s) <=? 0) || (t <=? now + KeyTTL (cfg s)))) ∧
    invite_codes (reg s') !! code = None ∧
    (∃ b, key_DeviceID key = "dev-" +:+ hex_encode b) ∧ (∃ b, key_Token key = hex_encode b).
Proof.
  unfold handleEnroll. destruct (negb _); [by intros [= <- <-]|]. rewrite bind_run. simpl.
  destruct (ValidateInvite code now (reg s)) as [inv|e]; [|by intros [= <- <-]].
  rewrite bind_run. unfold regM.
  set (name' := if String.eqb name "" then inv_Name inv else name).
  destruct (CreateDeviceKey ib tb name' (KeyTTL (cfg s)) now (reg s)) as [[key|e] r1] eqn:Hk; simpl;
    [|by intros [= <- <-]].
  rewrite bind_run. simpl.
  destruct (UseInvite code r1) as [[[]|e] r2] eqn:Hu; simpl; [|by intros [= <- <-]].
  rewrite bind_run, audit_run. simpl. intros [= <- <-] _. exists key. split; [done|].
  destruct (device_key_issued _ _ _ _ _ _ _ _ Hk) as (Hv & _).
  unfold UseInvite in Hu. destruct (db_up r1) eqn:Hdb; [|done]. cbn [negb] in Hu.
  destruct (invite_codes r1 !! code); [|done]. injection Hu as <-.
  unfold RecordAudit, sql_exec. simpl. rewrite Hdb. simpl. split_and!.
  - intros t. rewrite <- Hv. by apply ValidateDeviceKey_frame.
  - by rewrite lookup_delete_eq.
  - unfold CreateDeviceKey in Hk. destruct ib as [ib|], tb as [tb|]; try done.
    repeat case_match; try done. injection Hk as <- <-. by eexists.
  - unfold CreateDeviceKey in Hk. destruct ib as [ib|], tb as [tb|]; try done.
    repeat case_match; try done. injection Hk as <- <-. by eexists.
Qed.

(** C18: an enrolled device is let in: when the server answers an enrolment with a
    key and the command stores it, an agent later started on the same data
    directory, with no identity of its own given, takes exactly the enrolled
    identity and token, the server accepts that key until it expires, and the
    invite is spent. *)
Theorem enrolled_device_connects r code name ib tb now s resp s' h dir fs cred fs' env h' c :
  handleEnroll r (Some (code, name)) ib tb now s = (resp, s') → rs_Status resp = StatusCreated →
  runEnrollCLI h (Ok resp) dir fs = (Ok cred, fs') → dir ≠ "" →
  (∀ p, ho_write h p = Ok tt) → (∀ p, ho_mkdir h' p = Ok tt) →
  cg_DataDir c = dir → cg_Token c = "" → cg_DeviceID c = "" →
  ∃ c', New env h' c fs' = (Ok c', fs') ∧ (cg_DeviceID c', cg_Token c') = cred ∧
    (∀ t, authorizeAgent (cg_DeviceID c') (cg_Token c') t s' =
       ((KeyTTL (cfg s) <=? 0) || (t <=? now + KeyTTL (cfg s)))) ∧
    invite_codes (reg s') !! code = None.
Proof.
  intros He Hst Hcli Hdir Hw Hm Hd Ht Hi.
  destruct (handleEnroll_created _ _ _ _ _ _ _ _ _ He Hst) as (key & Hbody & Hv & Hcode & [b1 Hid] & [b2 Htok]).
  pose proof (token_path_ne dir Hdir) as Hpaths.
  unfold runEnrollCLI, enrollDevice in Hcli. rewrite Hbody in Hcli. cbn [decode_key] in Hcli.
  unfold New, loadOrCreateID. rewrite Hd, Ht, Hi.
  set (tokenPath := JoinPath [dir; "token"]) in *. set (idPath := JoinPath [dir; "device-id"]) in *.
  clearbody tokenPath idPath.
  destruct (String.eqb_spec (key_Token key) "") as [|Hne]; [done|].
  destruct (String.eqb_spec dir ""); [done|]. cbn [negb] in Hcli.
  destruct (ho_mkdir h dir); [|done]. rewrite !Hw in Hcli. injection Hcli as <- <-.
  destruct (String.eqb_spec dir ""); [done|]. cbn [negb andb].
  rewrite Hm. change (String.eqb "" "") with true. cbn [andb].
  rewrite lookup_insert_eq, Htok, TrimSpace_hex, <- Htok.
  destruct (String.eqb_spec (key_Token key) "") as [|_]; [done|].
  cbn [negb]. rewrite lookup_insert_ne by done. rewrite lookup_insert_eq.
  rewrite Hid, TrimSpace_device_id, <- Hid.
  destruct (String.eqb_spec (key_DeviceID key) "") as [E|_]; [by rewrite Hid in E|]. cbn [negb].
  eexists. split; [reflexivity|]. simpl. split; [done|]. split; [|done]. apply Hv.
Qed.
End enrolment.

(** ** Witnesses *)

Module CommandsDemo.
Import Toy ApiDemo.
Definition env (k : string) : string := if String.eqb k "DEVICE_RELAY_ADMIN_TOKEN" then "s3cret" else "".
(** A TLS deployment with a separate agent port *)
Definition args (f : string) : option string :=
  if String.eqb f "tls-cert" then Some "cert.pem"
  else if String.eqb f "tls-key" then Some "key.pem"
  else if String.eqb f "alt-https-listen" then Some ":8443" else None.
Definition duration (s : string) : res Duration := Ok (8760 * Hour).
Definition load (c k : string) : res unit := Ok tt.
Definition manage (d : string) : res unit := Ok tt.
Definition started (args : string → option string) : res (Server * list ServerCmd.listener) :=
  ServerCmd.run env args duration (Ok tt) load manage (Some empty_registry) "" 10.
Definition post : Request :=
  mkRequest "POST" "/api/enroll" [] "" [] [] "relay" true "10.0.0.9:4000".
Definition enrolled : Response * Server :=
  handleEnroll post (Some (code, "box")) (Some ["a"%char]) (Some ["b"%char]) 60 srv.
Definition host : AgentCmd.host :=
  AgentCmd.mkHost (λ _, Ok tt) (λ _, Ok tt) (Some "box") (Some "/home/me") false None.
Definition blank : AgentCmd.Config :=
  AgentCmd.mkConfig "wss://relay/ws/agent" "" "" "" "" "data" false [] [] [] 0 0 false.
Definition stored : res (string * string) * gmap string string :=
  AgentCmd.runEnrollCLI host (Ok enrolled.1) "data" ∅.
Definition spec1 : ForwardSpec := mkForwardSpec 2222 "dev-1" 22.
Definition spec2 : ForwardSpec := mkForwardSpec 8080 "my box" 80.
End CommandsDemo.
Import Toy ApiDemo CommandsDemo.


Lemma own_domain_reported_witness :
  ServerCmd.suppress "relay.example.com"
    "http: TLS handshake error from 1.2.3.4:5: no certificate available for 'a.Relay.Example.com'." = false ∧
  ServerCmd.suppress "relay.example.com"
    "http: TLS handshake error from 1.2.3.4:5: no certificate available for 'scan.test'." = true.
Proof.
  split; [|vm_compute; reflexivity].
  apply (own_domain_reported "relay.example.com" "a" "a.Relay.Example.com"
    "http: TLS handshake error from 1.2.3.4:5: " ".").
  - right. vm_compute. reflexivity.
  - reflexivity.
  - vm_compute. reflexivity.
  - vm_compute. reflexivity.
Defined.

Lemma forward_list_round_trip_witness :
  AgentCmd.parseForwards "2222:dev-1:22,8080:my box:80" = Ok [spec1; spec2].
Proof.
  apply (forward_list_round_trip [spec1; spec2]); [discriminate|].
  repeat constructor; vm_compute; try discriminate; reflexivity.
Defined.

Lemma terminal_cli_prints_witness :
  AgentCmd.terminalLoop
    ([msg_of TypePong] ++ concat (map (λ raw, data_msg TypeTermOutput "s" (EncodeData raw) :: [msg_of TypePong])
       [["h"%char]; ["i"%char]]) ++ session_msg TypeTermExit "s" :: []) = (["h"%char; "i"%char], true).
Proof.
  apply (terminal_cli_prints [["h"%char]; ["i"%char]] "s" [] [msg_of TypePong]).
  repeat constructor; discriminate.
Defined.

Lemma configured_forwards_listen_witness :
  ∃ specs, AgentCmd.parseForwards "2222:dev-1:22,8080:my box:80" = Ok specs ∧
    ListForwards (AgentCmd.startForwardListeners (map (λ f, (f, Ok tt)) specs)
      (newAgent (mkAgentConfig "d" "n" "" []) ∅)).2 ≡ₚ [spec1; spec2].
Proof.
  apply (configured_forwards_listen [spec1; spec2]); [discriminate| |].
  - repeat constructor; vm_compute; try discriminate; reflexivity.
  - apply (bool_decide_unpack _). vm_compute. exact I.
Defined.

Lemma parsed_forwards_valid_witness :
  AgentCmd.parseForwards " 2222:dev-1:22 , 8080:my box:80" = Ok [spec1; spec2] ∧
  Forall (λ f, 0 < LocalPort f ∧ 0 < TargetPort f ∧ TargetDeviceID f ≠ "" ∧
               str_mem ":" (TargetDeviceID f) = false) [spec1; spec2] ∧
  is_ok (AgentCmd.parseForwards "2222:dev-1:22,8080") = false.
Proof.
  split; [vm_compute; reflexivity|]. split; [|vm_compute; reflexivity].
  refine (proj1 (parsed_forwards_valid " 2222:dev-1:22 , 8080:my box:80" [spec1; spec2] _)).
  vm_compute. reflexivity.
Defined.

Lemma enrolled_device_connects_witness :
  ∃ c', AgentCmd.New (λ _, "") host blank stored.2 = (Ok c', stored.2) ∧
    AgentCmd.cg_DeviceID c' = "dev-61" ∧
    authorizeAgent (AgentCmd.cg_DeviceID c') (AgentCmd.cg_Token c') 61 enrolled.2 = true.
Proof.
  destruct (enrolled_device_connects post code "box" (Some ["a"%char]) (Some ["b"%char]) 60 srv
    enrolled.1 enrolled.2 host "data" ∅ ("dev-61", "62") stored.2 (λ _, "") host blank)
    as (c' & Hn & Hc & Hv & _).
  - vm_compute; reflexivity.
  - vm_compute; reflexivity.
  - vm_compute; reflexivity.
  - discriminate.
  - reflexivity.
  - reflexivity.
  - reflexivity.
  - reflexivity.
  - reflexivity.
  - exists c'. split; [exact Hn|]. injection Hc as Hi Ht. split; [exact Hi|].
    rewrite Hv. vm_compute. reflexivity.
Defined.

(** The console password is called required, but a server without one starts, and
    has no account to log in with. *)
Example empty_password_starts :
  match started (λ _, None) with
  | Ok (s, _) => users (reg s) = ∅
  | Err _ => False
  end.
Proof. vm_compute. reflexivity. Qed.

(** A port beyond the 16 bits of TCP is accepted on the command line. *)
Example forward_port_unbounded :
  AgentCmd.parseForwards "70000:dev-1:99999" = Ok [mkForwardSpec 70000 "dev-1" 99999].
Proof. vm_compute. reflexivity. Qed.
