(* ===== verification/Client.v ===== *)
(** * The agent's subcommands ([cmd/agent/cli.go], [cmd/agent/main.go], [cmd/agent/tls.go])

    [terminal], [desktop], [enroll] and [vnc-install]: the URLs they build, what they
    send and what they do with the answers, and the dispatch of [main].  The loop of
    the terminal and the enrolment's files are in [Commands].  [url.Parse] and
    [URL.String] are the parameters [url_Parse] and [url_String]; dialling, standard
    input and the network's answers are arguments. *)
From stdpp Require Import pretty.
From Stdlib Require Import ZArith Lia Ascii String.
From S2P Require Import Prelude GoStrings Protocol Registry Tickets Traffic Http Quoting Server Auth.
From S2P Require Import AgentWS Browser Api Agent Analytics Routing Commands.
Open Scope char_scope.
Open Scope string_scope.
Open Scope list_scope.
Open Scope Z_scope.

(** ** URLs *)

(** The fields of a [url.URL] the command changes; [u_Rest] stands for the others
    (user, host, fragment). *)
Record URL := mkURL { u_Scheme : string; u_Rest : string; u_Path : string; u_RawQuery : string }.

Class UrlLib := { url_Parse : string → option URL; url_String : URL → string }.

Module Client.
Import AgentCmd.

Section client.
Context `{UrlLib} `{UnicodeTables}.

Definition ws_scheme (scheme : string) : string :=
  if String.eqb scheme "http" then "ws" else if String.eqb scheme "https" then "wss" else scheme.

(** The URL [webWSSURL] prints; [query] is a Go map, set in any order *)
Definition wss (u : URL) (path : string) (query : pairs) : URL :=
  mkURL (ws_scheme (u_Scheme u)) (u_Rest u) path
    (Encode (foldl (λ q kv, Set_ kv.1 kv.2 q) (values_of (ParseQuery (u_RawQuery u))) query)).

Definition webWSSURL (base path : string) (query : pairs) : string :=
  match url_Parse base with
  | None => ""
  | Some u => url_String (wss u path query)
  end.

(** ** [terminal] *)

Definition terminal_query (token device : string) (cols rows : Z) : pairs :=
  [("token", token); ("device", device); ("cols", Itoa cols); ("rows", Itoa rows)].

(** [json.Marshal] of a string, up to its escapes: a byte that is not part of a rune
    becomes U+FFFD. *)
Fixpoint valid_loop (skip : nat) (s : string) : string :=
  match s with
  | EmptyString => ""
  | String a s =>
      match skip with
      | S k => String a (valid_loop k s)
      | O =>
          if code a <? 0x80 then String a (valid_loop 0 s)
          else match DecodeRune (String a s) with
               | Some (_, w) => String a (valid_loop (Nat.pred w) s)
               | None => EncodeRune 0xFFFD +:+ valid_loop 0 s
               end
      end
  end.
Definition json_text (s : string) : string := valid_loop 0 s.

(** What is sent for one read of standard input *)
Definition term_input (raw : bytes) : Message :=
  mkMessage TypeTermInput "" "" "" "" "" [] 0 None "" (json_text (string_of_list_ascii raw))
    0 0 0 "" 0 "" "" 0 "" "" [].

(** How a subcommand ends: an exit code and a line on standard error, or normally, with
    what it printed *)
Inductive exit (A : Type) := Exit (n : Z) (line : string) | Done (a : A).
Arguments Exit {A} n line.
Arguments Done {A} a.

Definition terminal_usage : string :=
  "usage: warpmesh-agent terminal -server https://host -token <admin-token> -device <device-id>".

(** [runTerminalCLI]: [dial] is the dialler (the second argument skips the check of the
    server's certificate), [input] the reads of standard input, [msgs] what arrives;
    the result is what is sent and printed. *)
Definition runTerminalCLI (env : string → string) (args : string → option string)
    (intArgs : string → option Z) (boolArgs : string → option bool)
    (dial : string → bool → res unit) (input : list bytes) (msgs : list Message)
    : exit (list Message * bytes) :=
  let server := flag args "server" "https://warpmesh.ddns.net" in
  let token := flag args "token" (env "WARPMESH_ADMIN_TOKEN") in
  let device := flag args "device" "" in
  let insecure := default false (boolArgs "insecure") in
  let cols := default 120 (intArgs "cols") in
  let rows := default 30 (intArgs "rows") in
  if String.eqb device "" || String.eqb token "" then Exit 2 terminal_usage
  else
    let wss := webWSSURL server "/ws/terminal" (terminal_query token device cols rows) in
    match dial wss insecure with
    | Err e => Exit 1 ("connect terminal: " +:+ e)
    | Ok _ => Done (map term_input input, (terminalLoop msgs).1)
    end.

(** ** [desktop] *)

(** [openURL]: the program started for a URL, by operating system *)
Definition openURL (goos u : string) : option (list string) :=
  if String.eqb goos "darwin" then Some ["open"; u]
  else if String.eqb goos "linux" then Some ["xdg-open"; u]
  else if String.eqb goos "windows" then Some ["rundll32"; "url.dll,FileProtocolHandler"; u]
  else None.

Definition runDesktopCLI (goos : string) (args : string → option string)
    (boolArgs : string → option bool) : exit (string * option (list string)) :=
  let server := flag args "server" "https://warpmesh.ddns.net" in
  let device := flag args "device" "" in
  let noOpen := default false (boolArgs "no-open") in
  if String.eqb device "" then
    Exit 2 "usage: warpmesh-agent desktop -server https://host -device <device-id>"
  else
    let u := desktopURL PathEscape server device in
    Done (u, if negb noOpen then openURL goos u else None).

(** ** [enroll] *)

(** The body [enrollDevice] posts *)
Definition enrollBody (code name : string) : string :=
  String "{" (Quote "code" +:+ ":" +:+ Quote code +:+ "," +:+ Quote "name" +:+ ":" +:+ Quote name +:+ "}").

(** [runEnrollCLI]; [post] is [http.Post]. *)
Definition enrollCLI (h : host) (post : string → string → res Response)
    (args : string → option string) (fs : files) : exit (string * string) * files :=
  let server := flag args "server" "https://warpmesh.ddns.net" in
  let code := flag args "code" "" in
  let name := flag args "name" "" in
  let dataDir := flag args "data-dir" "data" in
  if String.eqb code "" then
    (Exit 2 "usage: warpmesh-agent enroll -server https://host -code <invite> -name <device-name>", fs)
  else
    match runEnrollCLI h (post (TrimRightByte server "/" +:+ "/api/enroll") (enrollBody code name)) dataDir fs with
    | (Err e, fs) => (Exit 1 ("enroll: " +:+ e), fs)
    | (Ok key, fs) => (Done key, fs)
    end.

(** ** [vnc-install] *)

(** [downloadVNCInstaller]: [get] is [http.Get] with the body it answers, which is
    copied whole or in part ([Err] with what was written); the answer's status is not
    looked at. *)
Definition downloadVNCInstaller (mkdir : res unit) (get : res (Z * string)) (create : res unit)
    (copy : string → res unit * string) (close : res unit) (dataDir : string) (fs : files)
    : res string * files :=
  match mkdir with
  | Err e => (Err e, fs)
  | Ok _ =>
      match get with
      | Err e => (Err e, fs)
      | Ok (_, body) =>
          let path := Paths.JoinPath [dataDir; "tightvnc-setup.msi"] in
          match create with
          | Err e => (Err e, fs)
          | Ok _ =>
              let '(err, written) := copy body in
              let fs := <[path := written]> fs in
              match err with
              | Err e => (Err e, fs)
              | Ok _ => match close with Err e => (Err e, fs) | Ok _ => (Ok path, fs) end
              end
          end
      end
  end.

Definition runVNCInstallCLI (mkdir : res unit) (get : string → res (Z * string)) (create : res unit)
    (copy : string → res unit * string) (close : res unit)
    (args : string → option string) (fs : files) : exit (list string) * files :=
  let dataDir := flag args "data-dir" "data" in
  let url := flag args "url" "https://www.tightvnc.com/download/2.8.63/tightvnc-2.8.63-gpl-setup-64bit.msi" in
  match mkdir with
  | Err e => (Exit 1 ("vnc-install: " +:+ e), fs)
  | Ok _ =>
      match downloadVNCInstaller mkdir (get url) create copy close dataDir fs with
      | (Err e, fs) => (Exit 1 ("vnc-install: " +:+ e), fs)
      | (Ok path, fs) =>
          (Done ["downloaded installer to " +:+ path;
                 "run it: tightvnc-setup.msi /VERYSILENT /NORESTART";
                 "then start warpmesh-agent again; it will find TightVNC automatically"], fs)
      end
  end.

(** ** [main] *)

Inductive command := CmdTerminal | CmdDesktop | CmdEnroll | CmdVNCInstall | CmdAgent.

(** The command the first argument names, and the arguments left for its flags *)
Definition dispatch (args : list string) : command * list string :=
  match args with
  | a :: rest =>
      if String.eqb a "terminal" then (CmdTerminal, rest)
      else if String.eqb a "desktop" then (CmdDesktop, rest)
      else if String.eqb a "enroll" then (CmdEnroll, rest)
      else if String.eqb a "vnc-install" then (CmdVNCInstall, rest)
      else (CmdAgent, args)
  | [] => (CmdAgent, [])
  end.

(** ** Lemmas *)

(** A string made of whole runes *)
Fixpoint whole_runes (skip : nat) (s : string) : bool :=
  match s with
  | EmptyString => true
  | String a s =>
      match skip with
      | S k => whole_runes k s
      | O =>
          if code a <? 0x80 then whole_runes 0 s
          else match DecodeRune (String a s) with
               | Some (_, w) => whole_runes (Nat.pred w) s
               | None => false
               end
      end
  end.

Lemma valid_loop_whole s k : whole_runes k s = true → valid_loop k s = s.
Proof.
  revert k. induction s as [|a s IH]; intros [|k]; [done..| |]; cbn [whole_runes valid_loop].
  - destruct (code a <? 0x80); [intros Hw; by rewrite IH|].
    destruct (DecodeRune _) as [[r w]|]; [|done]. intros Hw. by rewrite IH.
  - intros Hw. by rewrite IH.
Qed.

(** Input is sent as it was read as long as no read ends inside a character. *)
Lemma term_input_exact raw :
  whole_runes 0 (string_of_list_ascii raw) = true →
  Data (term_input raw) = string_of_list_ascii raw.
Proof. apply valid_loop_whole. Qed.

(** The values a URL's query is given *)
Lemma wss_query u path query k :
  GetFirst (ParseQuery (u_RawQuery (wss u path query))) k =
    hd "" (default [] (foldl (λ q kv, Set_ kv.1 kv.2 q) (values_of (ParseQuery (u_RawQuery u))) query !! k)).
Proof. apply GetFirst_Encode. Qed.

Lemma wss_terminal u path token device cols rows k v :
  (k, v) ∈ terminal_query token device cols rows →
  GetFirst (ParseQuery (u_RawQuery (wss u path (terminal_query token device cols rows)))) k = v.
Proof.
  rewrite wss_query. unfold terminal_query, Set_. cbn [foldl fst snd].
  rewrite !elem_of_cons. intros [[= -> ->]|[[= -> ->]|[[= -> ->]|[[= -> ->]|[]%elem_of_nil]]]];
    rewrite ?lookup_insert_eq, ?lookup_insert_ne by done; rewrite ?lookup_insert_eq; done.
Qed.

(** The request a dialled URL becomes: no cookie, no header beyond the handshake's *)
Definition request_of (w : URL) (r : Request) : Prop :=
  r_Method r = "GET" ∧ r_Path r = u_Path w ∧ r_RawQuery r = u_RawQuery w ∧
  r_Query r = ParseQuery (u_RawQuery w) ∧ r_Cookies r = [] ∧ r_Header r = [].

Lemma runTerminalCLI_dials env args intArgs boolArgs dial input msgs out u :
  let server := flag args "server" "https://warpmesh.ddns.net" in
  let token := flag args "token" (env "WARPMESH_ADMIN_TOKEN") in
  let device := flag args "device" "" in
  runTerminalCLI env args intArgs boolArgs dial input msgs = Done out → url_Parse server = Some u →
  token ≠ "" ∧ device ≠ "" ∧
  dial (url_String (wss u "/ws/terminal" (terminal_query token device
    (default 120 (intArgs "cols")) (default 30 (intArgs "rows")))))
    (default false (boolArgs "insecure")) = Ok tt.
Proof.
  intros server token device. unfold runTerminalCLI. fold server token device.
  destruct (_ || _) eqn:E; [done|]. bools. intros Hr Hu. split_and!; [done..|].
  revert Hr. unfold webWSSURL. rewrite Hu. by destruct (dial _ _) as [[]|].
Qed.

(** The server reads the request as the command line meant it. *)
Lemma terminal_request u token device cols rows r :
  request_of (wss u "/ws/terminal" (terminal_query token device cols rows)) r →
  r_Path r = "/ws/terminal" ∧ requestToken r = token ∧ QueryGet r "device" = device ∧
  (0 ≤ cols ≤ maxInt64 → queryInt r "cols" 120 = cols) ∧
  (0 ≤ rows ≤ maxInt64 → queryInt r "rows" 30 = rows).
Proof.
  intros (_ & Hp & _ & Hq & Hc & Hh).
  assert (∀ k v, (k, v) ∈ terminal_query token device cols rows → QueryGet r k = v) as Hget.
  { intros k v Hkv. unfold QueryGet. rewrite Hq. by apply wss_terminal. }
  assert (∀ k z def, (k, Itoa z) ∈ terminal_query token device cols rows → 0 ≤ z ≤ maxInt64 →
    queryInt r k def = z) as Hint.
  { intros k z def Hkv Hz. destruct (query_int_spec r k def) as (_ & _ & Hn & _).
    rewrite <- (Z2N.id z) by lia. apply Hn; [lia|]. rewrite Z2N.id by lia. by apply Hget. }
  split_and!; [done| | | |].
  - unfold requestToken, Cookie, HeaderGet. rewrite Hc, Hh. simpl. apply Hget. set_solver.
  - apply Hget. set_solver.
  - apply Hint. set_solver.
  - apply Hint. set_solver.
Qed.

(** The desktop command prints a link whose last part decodes to the device. *)
Lemma desktop_link_device server device :
  PathUnescape (PathEscape device) = Some device ∧
  desktopURL PathEscape server device = TrimRightByte server "/" +:+ "/#/desktop/" +:+ PathEscape device.
Proof. split; [apply PathUnescape_Escape|done]. Qed.
End client.
Arguments Exit {A} n line.
Arguments Done {A} a.
End Client.
