(* ===== verification/ClientProps.v ===== *)
(** * Properties of the agent's subcommands

    The terminal a command line asks for is the one the server opens
    ([terminal_cli_opens]): through the URL, its escaping, the server's parsing of the
    query, the credential check and the start message to the device. *)
From Stdlib Require Import ZArith Lia Ascii String.
From S2P Require Import Prelude GoStrings Protocol Registry RegistryProps Tickets Traffic Http Quoting.
From S2P Require Import Server Auth AuthProps AgentWS Browser BrowserProps Api Agent Analytics Routing.
From S2P Require Import Commands Client.
Open Scope char_scope.
Open Scope string_scope.
Open Scope list_scope.
Open Scope Z_scope.
Import Client AgentCmd.

Section props.
Context `{Crypto} `{UrlParser} `{UrlLib} `{UnicodeTables}.

(** The admin token opens every kind of session on an online device. *)
Lemma openOn_admin r kind now s agent :
  r_Method r = "GET" → r_Header r = [] → QueryGet r "device" ≠ "" →
  requestToken r = AdminToken (cfg s) → requestToken r ≠ "" →
  getAgent (QueryGet r "device") s = Some agent →
  openOn r kind now s = (inr ("admin-token", agent), s).
Proof.
  intros Hm Hh Hd Ht Hne Ha. unfold openOn, authorizeWS. rewrite !bind_run.
  rewrite (proj2 (String.eqb_neq _ _) Hd).
  assert (wsTicketFromRequest r = "") as -> by (unfold wsTicketFromRequest; by rewrite Hh).
  cbn [String.eqb negb]. rewrite !bind_run. unfold authenticate.
  assert (checkCSRF r = true) as -> by (unfold checkCSRF; by rewrite Hm).
  cbn [negb]. rewrite !bind_run. cbn [getS fst snd].
  assert (validAdmin (requestToken r) s = true) as ->.
  { unfold validAdmin. rewrite Ht in Hne |- *. by rewrite (proj2 (String.eqb_neq _ _) Hne), String.eqb_refl. }
  cbn. rewrite !bind_run. cbn [getS mret stateM_ret fst snd]. rewrite bind_run. cbn [getS fst snd].
  by rewrite Ha.
Qed.

Lemma startMetric_frame r actor service transport metric now s :
  let s' := (startMetric r actor service transport metric now s).2 in
  agentH s' = agentH s ∧ open_ws s' = open_ws s ∧ wire s' = wire s.
Proof.
  unfold startMetric, regM. rewrite !bind_run. destruct (StartConnection _ _ _ _ _ _ _ _ _) as [[m|e] r'];
    simpl; done.
Qed.

(** C16: the terminal the command line asks for is the one the server opens: with the
    admin token and the device online, the request the dialled URL becomes opens a
    session on that device, whatever characters token and device id hold, and the
    device is told to start a terminal of the size asked. *)
Theorem terminal_cli_opens env args intArgs boolArgs dial input msgs out u s agent a :
  let device := flag args "device" "" in
  let cols := default 120 (intArgs "cols") in
  let rows := default 30 (intArgs "rows") in
  runTerminalCLI env args intArgs boolArgs dial input msgs = Done out →
  url_Parse (flag args "server" "https://warpmesh.ddns.net") = Some u →
  AdminToken (cfg s) = flag args "token" (env "WARPMESH_ADMIN_TOKEN") →
  getAgent device s = Some agent → agentH s !! agent = Some a → ac_ws a ∈ open_ws s →
  0 ≤ cols ≤ maxInt64 → 0 ≤ rows ≤ maxInt64 →
  ∃ w, dial (url_String w) (default false (boolArgs "insecure")) = Ok tt ∧
    u_Scheme w = ws_scheme (u_Scheme u) ∧
    ∀ r x sid metric now, request_of w r →
      ∃ c s1, terminalOpen r (Some x) sid metric now s = ((None, Some c), s1) ∧
        ses_id c = sid ∧ ses_agent c = agent ∧
        terminalStart r c now s1 =
          (Continue, upd_wire (λ l, l ++ [(ac_ws a, Text (term_start_msg sid cols rows))]) s1).
Proof.
  intros device cols rows Hrun Hu Htok Hag Ha Hop Hc Hr.
  destruct (runTerminalCLI_dials env args intArgs boolArgs dial input msgs out u Hrun Hu) as (H1' & H2' & Hd).
  eexists. split; [exact Hd|]. split; [done|]. intros r x sid metric now Hreq.
  destruct (terminal_request u _ _ _ _ r Hreq) as (_ & Ht & Hdev & Hcols & Hrows).
  destruct Hreq as (Hm & _ & _ & _ & _ & Hh).
  unfold terminalOpen. rewrite bind_run.
  rewrite (openOn_admin r "terminal" now s agent); [|done|done|by rewrite Hdev|congruence|congruence|by rewrite Hdev].
  cbn [fst snd]. rewrite bind_run.
  pose proof (startMetric_frame r "admin-token" "terminal" "negotiating" metric now s) as (F1 & F2 & F3).
  destruct (startMetric _ _ _ _ _ _ s) as [[m t] s0]. cbn [fst snd] in *.
  unfold fresh. rewrite !bind_run. rewrite audit_run. cbn [getS modifyS mret stateM_ret fst snd].
  eexists _, _. split; [reflexivity|]. split_and!; [done..|].
  match goal with |- terminalStart _ _ _ ?x = _ => set (s1 := x) end.
  assert (agentH s1 = agentH s) as E1 by exact F1. assert (open_ws s1 = open_ws s) as E2 by exact F2.
  unfold terminalStart. cbn [ses_agent ses_id]. rewrite bind_run, agentWrite_run.
  rewrite E1, Ha, E2, bool_decide_eq_true_2 by done. cbn [fst snd negb mret stateM_ret].
  by rewrite Hcols, Hrows.
Qed.

(** A command line never negotiates, so its session stays "negotiating": the input it
    sends reaches the device through the relay and is not counted. *)
Theorem cli_input_uncounted c raw now s t a :
  termH s !! ses_ref c = Some t → ts_transport t = "negotiating" →
  agentH s !! ses_agent c = Some a → ac_ws a ∈ open_ws s →
  terminalEvent c (Some (term_input raw)) now s =
    (Continue, upd_wire (λ l, l ++ [(ac_ws a, Text (with_session (term_input raw) (ses_id c)))]) s).
Proof.
  intros Ht Htr Ha Ho. unfold terminalEvent. rewrite bind_run. cbn [getS fst snd].
  unfold term_transport. rewrite Ht, Htr. cbn -[agentWrite trafficAdd trafficClose].
  rewrite bind_run, agentWrite_run, Ha. by rewrite bool_decide_eq_true_2.
Qed.
End props.

(** ** Witnesses and examples *)

Module ClientDemo.
Import Toy.
#[export] Existing Instance AuthDemo.url.
#[export] Instance unicode : UnicodeTables := {| IsPrint r := 0xA0 <? r |}.
#[export] Instance urls : UrlLib := {|
  url_Parse s := if String.eqb s "https://warpmesh.ddns.net" then Some (mkURL "https" "//warpmesh.ddns.net" "" "")
                 else None;
  url_String u := u_Scheme u +:+ ":" +:+ u_Rest u +:+ u_Path u +:+ "?" +:+ u_RawQuery u
|}.
Definition env (k : string) : string := if String.eqb k "WARPMESH_ADMIN_TOKEN" then "root-token" else "".
Definition args (f : string) : option string := if String.eqb f "device" then Some "dev-30" else None.
Definition size (f : string) : option Z := if String.eqb f "cols" then Some 200 else None.
Definition none (f : string) : option bool := None.
(** The only URL that is reachable *)
Definition dial (u : string) (insecure : bool) : res unit :=
  if String.eqb u "wss://warpmesh.ddns.net/ws/terminal?cols=200&device=dev-30&rows=30&token=root-token"
  then Ok tt else Err "bad handshake".
Definition typed : list bytes := [["l"%char; "s"%char]].
Definition srv : Server := BrowserDemo.srv.
Definition conn : agentConn := mkAgentConn "dev-30" "10.0.0.1" 0 1%nat 0 None.
(** A Chinese character in UTF-8 *)
Definition zhong : string := byte_seq [228; 184; 173]%nat.
End ClientDemo.
Import Toy ClientDemo.

Lemma terminal_cli_opens_witness :
  ∃ w, dial (url_String w) false = Ok tt ∧ u_Scheme w = "wss" ∧
    ∀ r, request_of w r →
      ∃ c s1, terminalOpen r (Some 9%nat) "sid" "m9" 160 srv = ((None, Some c), s1) ∧
        terminalStart r c 160 s1 =
          (Continue, upd_wire (λ l, l ++ [(1%nat, Text (term_start_msg "sid" 200 30))]) s1).
Proof.
  destruct (terminal_cli_opens env args size none dial typed [] (map term_input typed, [])
    (mkURL "https" "//warpmesh.ddns.net" "" "") srv 0%nat conn) as (w & Hd & Hs & Hw).
  - vm_compute. reflexivity.
  - vm_compute. reflexivity.
  - reflexivity.
  - vm_compute. reflexivity.
  - vm_compute. reflexivity.
  - apply (bool_decide_unpack _). vm_compute. exact I.
  - vm_compute. split; discriminate.
  - vm_compute. split; discriminate.
  - exists w. split; [exact Hd|]. split; [exact Hs|]. intros r Hr.
    destruct (Hw r 9%nat "sid" "m9" 160 Hr) as (c & s1 & Ho & _ & _ & Hst). eauto.
Defined.

(** A read of standard input that ends inside a character replaces its bytes. *)
Example split_character_is_lost :
  json_text zhong = zhong ∧
  json_text (str_take 2 zhong) +:+ json_text (str_drop 2 zhong) ≠ zhong.
Proof. split; [vm_compute; reflexivity|vm_compute; discriminate]. Qed.

(** A device name with a control character gives an escape that JSON does not have. *)
Example enroll_body_not_json :
  ∃ body, enrollBody "c" (byte_seq [7%nat]) = String "{" body ∧ Contains body "\a" = true.
Proof. eexists. split; [reflexivity|]. vm_compute. reflexivity. Qed.

(** The answer's status is not looked at: an error page is stored as the installer. *)
Example error_page_is_installed :
  let '(out, fs) := downloadVNCInstaller (Ok tt) (Ok (404, "Not Found")) (Ok tt) (λ b, (Ok tt, b)) (Ok tt) "data" ∅ in
  out = Ok "data/tightvnc-setup.msi" ∧ fs !! "data/tightvnc-setup.msi" = Some "Not Found".
Proof. vm_compute. split; reflexivity. Qed.
