(* ===== verification/Serving.v ===== *)
(** * Serving, the janitor and the time a shutdown takes

    [serveAll], [shutdownServers] and [main] of [cmd/server/main.go]; [startJanitor]
    and [waitForHandlers] of [server.go].  Listeners, the signal and the drained
    connections are events and durations of the model; a server's shutdown always ends
    in time ([shutdown_bounded]), and expired logins do not outlive a sweep
    ([janitor_bounds_sessions]). *)
From stdpp Require Import pretty.
From Stdlib Require Import ZArith Lia String.
From S2P Require Import Prelude GoStrings Protocol Registry Tickets Traffic Http Server Auth.
Open Scope string_scope.
Open Scope list_scope.
Open Scope Z_scope.

Definition Second : Duration := 1000000000.
Definition shutdownTimeout : Duration := 15 * Second.
Definition handlerDrainTimeout : Duration := 5 * Second.
Definition sweepInterval : Duration := 10 * Minute.

(** ** Serving *)

(** What [serveAll] waits for: a signal, or a listener that returns ([None] is
    [http.ErrServerClosed]) *)
Inductive happening := Signal | Returned (server : nat) (err : option string).

(** [serveAll]: the line it logs when it returns, [None] while it serves *)
Fixpoint serveAll (events : list happening) : option string :=
  match events with
  | [] => None
  | Signal :: _ => Some "shutdown signal received, draining connections"
  | Returned _ (Some err) :: _ => Some ("server stopped: " +:+ err)
  | Returned _ None :: events => serveAll events
  end.

(** ** Shutting down *)

(** How a listener ended: its connections drained, or it was closed *)
Inductive ended := Drained | Closed.

(** The loop of [shutdownServers]: [left] of the context's time; [drain] is how long a
    server's connections take ([None]: forever).  The result is how each one ended,
    what is logged, and the time taken. *)
Fixpoint shutdownLoop (left : Duration) (servers : list (string * option Duration))
    : list ended * list string * Duration :=
  match servers with
  | [] => ([], ["warpmesh stopped"], 0)
  | (addr, drain) :: servers =>
      match drain with
      | Some d =>
          if d <=? left then
            let '(es, ls, t) := shutdownLoop (left - d) servers in (Drained :: es, ls, d + t)
          else
            let '(es, ls, t) := shutdownLoop 0 servers in
            (Closed :: es, ("graceful shutdown of " +:+ addr +:+ ": context deadline exceeded") :: ls, left + t)
      | None =>
          let '(es, ls, t) := shutdownLoop 0 servers in
          (Closed :: es, ("graceful shutdown of " +:+ addr +:+ ": context deadline exceeded") :: ls, left + t)
      end
  end.
Definition shutdownServers (servers : list (string * option Duration)) : list ended * list string * Duration :=
  shutdownLoop shutdownTimeout servers.

(** [waitForHandlers]: [remaining] is the time each handler still takes ([None]:
    forever); the result is the time waited and whether all have finished. *)
Fixpoint slowest (remaining : list (option Duration)) : option Duration :=
  match remaining with
  | [] => Some 0
  | r :: rest => a ← r; b ← slowest rest; Some (Z.max a b)
  end.
Definition waitForHandlers (remaining : list (option Duration)) (timeout : Duration) : Duration * bool :=
  match slowest remaining with
  | Some d => if d <=? timeout then (d, true) else (timeout, false)
  | None => (timeout, false)
  end.

(** [main]: the exit code, and the line of [log.Fatalf] *)
Definition main (run : res unit) : Z * option string :=
  match run with
  | Ok _ => (0, None)
  | Err e => (1, Some ("warpmesh: " +:+ e))
  end.

(** ** The janitor *)

(** [startJanitor] since [start], at its [n]-th tick *)
Fixpoint startJanitor (start : Time) (n : nat) : stateM Server unit :=
  match n with
  | O => mret tt
  | S n => _ ← startJanitor start n; sweepAuthState (start + Z.of_nat (S n) * sweepInterval)
  end.

(** ** Properties *)

(** [serveAll] returns exactly for a signal or the failure of a listener; a listener
    that was closed in order does not end the others. *)
Theorem serveAll_returns events :
  serveAll events ≠ None ↔
  ∃ e, e ∈ events ∧ (e = Signal ∨ ∃ i err, e = Returned i (Some err)).
Proof.
  induction events as [|e events IH]; simpl.
  - split; [done|]. by intros (e & []%elem_of_nil & _).
  - destruct e as [|i [err|]].
    + split; [|done]. intros _. exists Signal. split; [left|by left].
    + split; [|done]. intros _. exists (Returned i (Some err)). split; [left|right; by eexists _, _].
    + rewrite IH. split.
      * intros (e & He & Hs). exists e. split; [by right|done].
      * intros (e & [->|He]%elem_of_cons & Hs); [|by exists e].
        by destruct Hs as [|(? & ? & ?)].
Qed.

Lemma shutdownLoop_bounded left servers :
  0 ≤ left → Forall (λ s, match s.2 with Some d => 0 ≤ d | None => True end) servers →
  let '(es, _, t) := shutdownLoop left servers in
  0 ≤ t ≤ left ∧ length es = length servers ∧
  ∀ i, es !! i = Some Drained → ∃ s d, servers !! i = Some s ∧ s.2 = Some d ∧ d ≤ left.
Proof.
  intros Hl Hs. revert left Hl. induction Hs as [|[addr drain] servers Hd _ IH]; intros left Hl; simpl.
  { split_and!; [lia|lia|done|]. intros i. by rewrite lookup_nil. }
  assert (let '(es, ls, t) := shutdownLoop 0 servers in
    0 ≤ left + t ≤ left ∧ length (Closed :: es) = S (length servers) ∧
    ∀ i, (Closed :: es) !! i = Some Drained →
      ∃ s d, ((addr, drain) :: servers) !! i = Some s ∧ s.2 = Some d ∧ d ≤ left) as Hclosed.
  { specialize (IH 0 ltac:(lia)). destruct (shutdownLoop 0 servers) as [[es ls] t].
    destruct IH as (Ht & Hn & Hi). simpl. split_and!; [lia|lia|lia|].
    intros [|i]; [done|]. intros Hes. destruct (Hi i Hes) as (s & d & ? & ? & ?). exists s, d.
    split_and!; [done..|lia]. }
  destruct drain as [d|].
  - simpl in Hd. destruct (Z.leb_spec d left).
    + specialize (IH (left - d) ltac:(lia)). destruct (shutdownLoop (left - d) servers) as [[es ls] t].
      destruct IH as (Ht & Hn & Hi). simpl. split_and!; [lia|lia|lia|].
      intros [|i]; simpl.
      * intros _. by exists (addr, Some d), d.
      * intros Hes. destruct (Hi i Hes) as (s & d' & ? & ? & ?). exists s, d'. split_and!; [done..|lia].
    + by destruct (shutdownLoop 0 servers) as [[es ls] t].
  - by destruct (shutdownLoop 0 servers) as [[es ls] t].
Qed.

(** However many listeners there are and however long their requests take, shutting
    down takes at most the one timeout they share, every listener is ended, and the
    handlers are waited for at most their own timeout more. *)
Theorem shutdown_bounded servers remaining :
  Forall (λ s, match s.2 with Some d => 0 ≤ d | None => True end) servers →
  let '(es, _, t) := shutdownServers servers in
  length es = length servers ∧ t + (waitForHandlers remaining handlerDrainTimeout).1 ≤ 20 * Second.
Proof.
  intros Hs. pose proof (shutdownLoop_bounded shutdownTimeout servers ltac:(by vm_compute) Hs) as Hb.
  unfold shutdownServers. destruct (shutdownLoop _ _) as [[es ls] t]. destruct Hb as (Ht & Hn & _).
  split; [done|]. assert ((waitForHandlers remaining handlerDrainTimeout).1 ≤ handlerDrainTimeout) as Hw.
  { unfold waitForHandlers. destruct (slowest remaining) as [d|]; [|simpl; lia].
    destruct (Z.leb_spec d handlerDrainTimeout); simpl; lia. }
  revert Ht Hw. unfold shutdownTimeout, handlerDrainTimeout, Second. lia.
Qed.

(** An expired login is gone after the next sweep: at the [n]-th tick of the janitor no
    session that had expired by then is left. *)
Theorem janitor_bounds_sessions start n s tok e :
  (0 < n)%nat → sessions (startJanitor start n s).2 !! tok = Some e →
  start + Z.of_nat n * sweepInterval ≤ se_expiresAt e.
Proof.
  destruct n as [|n]; [lia|]. intros _. cbn [startJanitor]. rewrite bind_run.
  set (s1 := (startJanitor start n s).2). set (now := start + _).
  unfold sweepAuthState. rewrite !bind_run. cbn [modifyS fst snd sessions upd_tickets upd_loginAttempts upd_sessions].
  intros [_ Hx]%map_lookup_filter_Some. simpl in Hx. clock.
Qed.
