(* ===== verification/Schema.v ===== *)
(** * Opening an older database ([registrySchema], [ensureColumn] in [registry.go])

    The tables as SQLite stores them: columns and rows of values.  [openSchema] is what
    [NewRegistry] does before it resets the liveness state: the statements of
    [registrySchema], then the columns older files lack.  It loses nothing, completes
    every table and is idempotent ([schema_upgrade]).  [Registry] models the tables
    after that. *)
From Stdlib Require Import ZArith Lia String.
From S2P Require Import Prelude GoStrings Protocol Registry.
Open Scope string_scope.
Open Scope list_scope.

Record table := mkTable { tb_columns : list string; tb_rows : list (gmap string string) }.
Abbreviation database := (gmap string table).

(** The columns of [registrySchema] *)
Definition registrySchema : list (string * list string) :=
  [("devices", ["id"; "name"; "hostname"; "os"; "arch"; "lan_ips"; "group_name"; "forward_policy";
     "created_at"; "last_seen"; "online"]);
   ("users", ["id"; "username"; "password_hash"; "role"; "created_at"; "expires_at"; "device_ids"]);
   ("device_keys", ["device_id"; "token_hash"; "name"; "created_at"; "expires_at"]);
   ("invite_codes", ["code"; "name"; "expires_at"; "created_at"]);
   ("audit_log", ["id"; "actor"; "action"; "target"; "detail"; "created_at"]);
   ("connection_sessions", ["id"; "actor"; "device_id"; "peer_device_id"; "service"; "transport"; "state";
     "client_ip"; "bytes_to_device"; "bytes_from_device"; "started_at"; "ended_at"]);
   ("connection_traffic", ["connection_id"; "bucket_start"; "bytes_to_device"; "bytes_from_device"]);
   ("forward_grants", ["source_device"; "target_device"; "port_min"; "port_max"; "created_at"])].

(** [CREATE TABLE IF NOT EXISTS] *)
Definition create_table (db : database) (t : string * list string) : database :=
  match db !! t.1 with Some _ => db | None => <[t.1 := mkTable t.2 []]> db end.

(** [ALTER TABLE ... ADD COLUMN ... DEFAULT]: rows already there get the default. *)
Definition add_column (column def : string) (t : table) : table :=
  mkTable (tb_columns t ++ [column]) (map (<[column := def]>) (tb_rows t)).

(** [PRAGMA table_info] of an unknown table has no rows. *)
Definition table_info (name : string) (db : database) : list string :=
  match db !! name with Some t => tb_columns t | None => [] end.

(** [ensureColumn]; the DDL is the column with its default. *)
Definition ensureColumn (name column def : string) (db : database) : res unit * database :=
  if existsb (String.eqb column) (table_info name db) then (Ok tt, db)
  else match db !! name with
       | None => (Err "no such table", db)
       | Some t => (Ok tt, <[name := add_column column def t]> db)
       end.

(** The columns [NewRegistry] ensures, in order *)
Definition ensured : list (string * string * string) :=
  [("devices", "group_name", ""); ("devices", "forward_policy", "any");
   ("device_keys", "expires_at", ""); ("users", "expires_at", ""); ("users", "device_ids", "[]")].

Fixpoint ensureColumns (cs : list (string * string * string)) (db : database) : res unit * database :=
  match cs with
  | [] => (Ok tt, db)
  | (name, column, def) :: cs =>
      match ensureColumn name column def db with
      | (Err e, db) => (Err e, db)
      | (Ok _, db) => ensureColumns cs db
      end
  end.

Definition openSchema (db : database) : res unit * database :=
  ensureColumns ensured (foldl create_table db registrySchema).

(** ** Lemmas *)

(** Rows have values for known columns only. *)
Definition table_wf (t : table) : Prop :=
  Forall (λ r : gmap string string, ∀ c v, r !! c = Some v → c ∈ tb_columns t) (tb_rows t).

(** A later table holds the columns and, row by row, the values of an earlier one. *)
Record extends (t t' : table) : Prop := mkExtends {
  ex_columns : ∀ c, c ∈ tb_columns t → c ∈ tb_columns t';
  ex_length : length (tb_rows t') = length (tb_rows t);
  ex_rows : ∀ i r, tb_rows t !! i = Some r → ∃ r', tb_rows t' !! i = Some r' ∧ r ⊆ r';
  ex_wf : table_wf t'
}.

Definition grows (db db' : database) : Prop :=
  ∀ name t, db !! name = Some t → table_wf t → ∃ t', db' !! name = Some t' ∧ extends t t'.

#[export] Instance grows_preorder : PreOrder grows.
Proof.
  split.
  - intros db name t Ht Hwf. exists t. split; [done|]. split; try done. eauto.
  - intros a b c Hab Hbc name t Ht Hwf. destruct (Hab name t Ht Hwf) as (t1 & H1 & E1).
    destruct (Hbc name t1 H1 (ex_wf _ _ E1)) as (t2 & H2 & E2). exists t2. split; [done|].
    split; [|by rewrite (ex_length _ _ E2), (ex_length _ _ E1)| |apply E2].
    + intros x Hx. by apply (ex_columns _ _ E2), (ex_columns _ _ E1).
    + intros i r Hr. destruct (ex_rows _ _ E1 i r Hr) as (r1 & Hr1 & S1).
      destruct (ex_rows _ _ E2 i r1 Hr1) as (r2 & Hr2 & S2). exists r2. split; [done|by etrans].
Qed.

Lemma create_grows db t : grows db (create_table db t).
Proof.
  unfold create_table. destruct (db !! t.1) eqn:E; [reflexivity|].
  intros name x Hx Hwf. exists x. rewrite lookup_insert_ne by congruence. split; [done|].
  split; try done. eauto.
Qed.

Lemma add_column_extends c d t : c ∉ tb_columns t → table_wf t → extends t (add_column c d t).
Proof.
  intros Hc Hwf. split; simpl.
  - intros x Hx. set_solver.
  - by rewrite length_map.
  - intros i r Hr. exists (<[c := d]> r). rewrite list_lookup_fmap, Hr. split; [done|].
    apply insert_subseteq. destruct (r !! c) eqn:E; [|done]. destruct Hc.
    eapply Forall_lookup_1 in Hwf; [|exact Hr]. by eapply Hwf.
  - unfold table_wf, add_column in *. cbn [tb_rows tb_columns]. rewrite Forall_map. eapply Forall_impl; [exact Hwf|]. simpl.
    intros r Hr x v. rewrite lookup_insert. case_decide; [set_solver|]. intros Hx%Hr. set_solver.
Qed.

(** A table has a column. *)
Definition has_column (db : database) (name column : string) : Prop :=
  ∃ t, db !! name = Some t ∧ column ∈ tb_columns t.

Lemma table_info_spec name column db :
  existsb (String.eqb column) (table_info name db) = true ↔ has_column db name column.
Proof.
  unfold table_info, has_column. rewrite existsb_exists. setoid_rewrite String.eqb_eq.
  setoid_rewrite <- list_elem_of_In. destruct (db !! name) as [t|].
  - split; [intros (x & ? & ->); eauto|]. intros (? & [= <-] & ?). eauto.
  - split; [by intros (x & []%elem_of_nil & _)|by intros (? & ? & _)].
Qed.

Lemma ensureColumn_spec name column def db :
  is_Some (db !! name) →
  ∃ db', ensureColumn name column def db = (Ok tt, db') ∧ grows db db' ∧ has_column db' name column ∧
    (∀ n c, has_column db n c → has_column db' n c) ∧ (∀ n, is_Some (db !! n) → is_Some (db' !! n)) ∧
    (has_column db name column → db' = db).
Proof.
  intros [t Ht]. unfold ensureColumn. destruct (existsb _ _) eqn:E.
  - apply table_info_spec in E. exists db. split_and!; done.
  - assert (¬ has_column db name column) as Hno by (rewrite <- table_info_spec; congruence).
    rewrite Ht. exists (<[name := add_column column def t]> db).
    assert (column ∉ tb_columns t) as Hc by (intros Hc; apply Hno; by exists t).
    split_and!; [done| | | | |by intros ?%Hno].
    + intros n x Hx Hwf. rewrite lookup_insert. case_decide as En.
      * subst n. assert (x = t) as -> by congruence. eexists. split; [done|]. by apply add_column_extends.
      * exists x. split; [done|]. split; try done. eauto.
    + exists (add_column column def t). rewrite lookup_insert_eq. split; [done|]. simpl. set_solver.
    + intros n c (x & Hx & Hxc). unfold has_column. rewrite lookup_insert. case_decide as En; [|eauto].
      subst n. eexists. split; [done|]. simpl. assert (x = t) as -> by congruence. set_solver.
    + intros n Hn. rewrite lookup_insert. by case_decide.
Qed.

Lemma ensureColumns_spec cs db :
  Forall (λ c, is_Some (db !! c.1.1)) cs →
  ∃ db', ensureColumns cs db = (Ok tt, db') ∧ grows db db' ∧
    Forall (λ c, has_column db' c.1.1 c.1.2) cs ∧ (∀ n c, has_column db n c → has_column db' n c) ∧
    (∀ n, is_Some (db !! n) → is_Some (db' !! n)) ∧
    (Forall (λ c, has_column db c.1.1 c.1.2) cs → db' = db).
Proof.
  revert db. induction cs as [|[[name column] def] cs IH]; intros db Hcs; [by exists db|].
  apply Forall_cons in Hcs as [Hn Hcs]. simpl in Hn.
  destruct (ensureColumn_spec name column def db Hn) as (db1 & E1 & G1 & C1 & K1 & T1 & S1).
  destruct (IH db1) as (db2 & E2 & G2 & C2 & K2 & T2 & S2).
  { eapply Forall_impl; [exact Hcs|]. auto. }
  exists db2. cbn [ensureColumns]. rewrite E1, E2. split_and!; [done|by etrans| |auto|auto|].
  - constructor; [by apply K2|done].
  - intros [Hc Hcs']%Forall_cons. simpl in Hc. rewrite (S1 Hc) in *. auto.
Qed.

Lemma create_tables_spec ts db :
  let db' := foldl create_table db ts in
  grows db db' ∧ (∀ n, is_Some (db !! n) → is_Some (db' !! n)) ∧
  Forall (λ t, is_Some (db' !! t.1)) ts ∧ (Forall (λ t, is_Some (db !! t.1)) ts → db' = db).
Proof.
  revert db. induction ts as [|t ts IH]; intros db; [by simpl|]. simpl.
  destruct (IH (create_table db t)) as (G & T & C & S).
  assert (∀ n, is_Some (db !! n) → is_Some (create_table db t !! n)) as Ht.
  { intros n Hn. unfold create_table. destruct (db !! t.1) eqn:E; [done|].
    rewrite lookup_insert. by case_decide. }
  split_and!; [by etrans; [apply create_grows|]|auto| |].
  - constructor; [|done]. apply T. unfold create_table. destruct (db !! t.1) eqn:E; [by rewrite E|].
    by rewrite lookup_insert_eq.
  - intros [H1 H2]%Forall_cons. assert (create_table db t = db) as E.
    { unfold create_table. by destruct H1 as [x ->]. }
    rewrite E in *. auto.
Qed.

(** Opening any older file succeeds: every table exists and has the columns the relay
    needs, no value of the file is lost, and opening it again changes nothing. *)
Theorem schema_upgrade db :
  ∃ db', openSchema db = (Ok tt, db') ∧ grows db db' ∧
    (∀ t, t ∈ registrySchema → is_Some (db' !! t.1)) ∧
    (∀ name column def, (name, column, def) ∈ ensured → has_column db' name column) ∧
    openSchema db' = (Ok tt, db').
Proof.
  destruct (create_tables_spec registrySchema db) as (G1 & _ & C1 & _).
  set (db1 := foldl create_table db registrySchema) in *.
  assert (Forall (λ c, is_Some (db1 !! c.1.1)) ensured) as He.
  { assert (Forall (λ c : string * string * string,
      existsb (λ t : string * list string, String.eqb t.1 c.1.1) registrySchema = true) ensured)
      as Hin by (repeat constructor).
    eapply Forall_impl; [exact Hin|]. intros c (t & Ht & <-%String.eqb_eq)%existsb_exists.
    rewrite Forall_forall in C1. by apply C1, list_elem_of_In. }
  destruct (ensureColumns_spec ensured db1 He) as (db2 & E2 & G2 & C2 & _ & T2 & _).
  exists db2. split_and!; [done|by etrans| | |].
  - intros t Ht. apply T2. rewrite Forall_forall in C1. by apply C1.
  - intros name column def Hin. rewrite Forall_forall in C2. by apply (C2 (name, column, def)).
  - destruct (create_tables_spec registrySchema db2) as (_ & _ & _ & S).
    unfold openSchema. rewrite S by (rewrite Forall_forall in C1 |- *; eauto).
    destruct (ensureColumns_spec ensured db2) as (db3 & E3 & _ & _ & _ & _ & S3).
    { eapply Forall_impl; [exact He|]. auto. }
    by rewrite E3, (S3 C2).
Qed.
