(* ===== verification/LocalUI.v ===== *)
(** * The agent's local web UI ([internal/agent/localui.go])

    A page on the loopback interface that lists, opens and closes the agent's
    forwards.  Binding to the loopback address does not keep other web sites out
    of it (a page in the same browser can send requests there, and a DNS name can
    be rebound to 127.0.0.1), so every API request passes [localUIRequest].
    [url.Parse] and [net.ParseIP(host).IsLoopback()] are parameters; the outcome of
    opening or closing a listener is an argument. *)
From Stdlib Require Import ZArith Lia Ascii String.
From S2P Require Import Prelude GoStrings Protocol Registry Http Agent Paths Routing.
Open Scope string_scope.
Open Scope list_scope.
Open Scope Z_scope.

(** ** Definitions *)

(** A parsed URL; [u_User] says that there is user information. *)
Record URL := mkURL {
  u_Scheme : string; u_Host : string; u_User : bool; u_Path : string; u_RawQuery : string;
  u_Fragment : string
}.

Class LocalNet := {
  url_Parse : string → option URL;
  ip_loopback : string → bool          (* ParseIP succeeds and IsLoopback *)
}.

(** Simple case folding to ASCII letters: besides the capitals, the long s and the
    Kelvin sign fold to a letter. *)
Fixpoint fold_case (s : string) : string :=
  match s with
  | String "197" (String "191" s) => String "s" (fold_case s)
  | String "226" (String "132" (String "170" s)) => String "k" (fold_case s)
  | String a s => String (lower_byte a) (fold_case s)
  | EmptyString => ""
  end.
(** [strings.EqualFold] with a lower-case ASCII text *)
Definition EqualFold (s t : string) : bool := String.eqb (fold_case s) t.

Inductive local_body :=
| LNone
| LHtml
| LError (e : string)
| LForwards (device : string) (forwards : list ForwardSpec)
| LSpec (f : ForwardSpec).

Record local_response := mkLocal { lr_Status : Z; lr_Body : local_body }.

Section localui.
Context `{LocalNet}.

(** The host of the request, without its port *)
Definition request_host (r : Request) : string :=
  match SplitHostPort (r_Host r) with Some (h, _) => h | None => r_Host r end.

Definition local_host (r : Request) : bool :=
  EqualFold (request_host r) "localhost" || ip_loopback (request_host r).

(** The origin is exactly the page's own: [http://] and the request's host. *)
Definition own_origin (r : Request) (origin : string) : bool :=
  match url_Parse origin with
  | None => false
  | Some u =>
      String.eqb (u_Scheme u) "http" && String.eqb (u_Host u) (r_Host r) && negb (u_User u) &&
      String.eqb (u_Path u) "" && String.eqb (u_RawQuery u) "" && String.eqb (u_Fragment u) ""
  end.

Definition localUIRequest (r : Request) : bool :=
  let allowed := local_host r in
  let origin := HeaderGet r "Origin" in
  let allowed := if negb (String.eqb origin "") then allowed && own_origin r origin else allowed in
  if String.eqb (HeaderGet r "Sec-Fetch-Site") "cross-site" then false else allowed.

Definition refused : local_response := mkLocal StatusForbidden (LError "local same-origin requests only").

Definition uiIndex : local_response := mkLocal StatusOK LHtml.

(** [uiForwards]; [body] is the decoded request, [listen] the outcome of [net.Listen]. *)
Definition uiForwards (r : Request) (body : res ForwardSpec) (listen : res unit)
    : stateM Agent local_response :=
  if negb (localUIRequest r) then mret refused
  else if String.eqb (r_Method r) "GET" then
    a ← getS; mret (mkLocal StatusOK (LForwards (cf_DeviceID (ag_cfg a)) (ListForwards a)))
  else if String.eqb (r_Method r) "POST" then
    match body with
    | Err e => mret (mkLocal StatusBadRequest (LError e))
    | Ok req =>
        err ← StartForward listen req;
        match err with
        | Err e => mret (mkLocal StatusConflict (LError e))
        | Ok _ => mret (mkLocal StatusCreated (LSpec req))
        end
    end
  else mret (mkLocal StatusMethodNotAllowed LNone).

(** [uiForwardByPort]; [close] is the outcome of closing the listener. *)
Definition uiForwardByPort (r : Request) (close : res unit) : stateM Agent local_response :=
  if negb (localUIRequest r) then mret refused
  else if negb (String.eqb (r_Method r) "DELETE") then mret (mkLocal StatusMethodNotAllowed LNone)
  else
    let '(port, ok) := Atoi (TrimPrefix (r_Path r) "/api/forwards/") in
    if negb ok then mret (mkLocal StatusBadRequest (LError "invalid port"))
    else
      err ← StopForward close port;
      match err with
      | Err e => mret (mkLocal StatusNotFound (LError e))
      | Ok _ => mret (mkLocal StatusNoContent LNone)
      end.

(** [startLocalUI]'s routes *)
Inductive ui_endpoint := UIndex | UForwards | UForwardByPort.
Definition startLocalUI : list (string * ui_endpoint) :=
  [("/", UIndex); ("/api/forwards", UForwards); ("/api/forwards/", UForwardByPort)].

(** A request to the UI; [os] is the outcome of the listener call it may make. *)
Definition ui_serve (r : Request) (body : res ForwardSpec) (os : res unit)
    : stateM Agent (option local_response) :=
  match ServeMux startLocalUI (r_Path r) with
  | MServe _ UIndex => mret (Some uiIndex)
  | MServe _ UForwards => resp ← uiForwards r body os; mret (Some resp)
  | MServe _ UForwardByPort => resp ← uiForwardByPort r os; mret (Some resp)
  | MRedirect _ | MNotFound => mret None
  end.
End localui.

(** ** Lemmas *)

Section local_lemmas.
Context `{LocalNet}.

(** The guard, spelled out *)
Lemma localUIRequest_iff r :
  localUIRequest r = true ↔
  local_host r = true ∧ HeaderGet r "Sec-Fetch-Site" ≠ "cross-site" ∧
  (HeaderGet r "Origin" = "" ∨ own_origin r (HeaderGet r "Origin") = true).
Proof.
  unfold localUIRequest.
  destruct (String.eqb_spec (HeaderGet r "Sec-Fetch-Site") "cross-site"); [naive_solver|].
  destruct (String.eqb_spec (HeaderGet r "Origin") ""); cbn [negb]; rewrite ?andb_true_iff; naive_solver.
Qed.

Lemma own_origin_iff r origin :
  own_origin r origin = true ↔
  ∃ u, url_Parse origin = Some u ∧ u = mkURL "http" (r_Host r) false "" "" "".
Proof.
  unfold own_origin. destruct (url_Parse origin) as [u|]; [|naive_solver].
  rewrite !andb_true_iff, !String.eqb_eq, negb_true_iff. destruct u; simpl. split.
  - intros [[[[[-> ->] ->] ->] ->] ->]. eauto.
  - intros (u & [= <-] & [= -> -> -> -> -> ->]). done.
Qed.

(** A refused request changes nothing, on any path. *)
Lemma ui_refused r body os a :
  localUIRequest r = false →
  (ui_serve r body os a).2 = a ∧
  ((ui_serve r body os a).1 = None ∨ (ui_serve r body os a).1 = Some uiIndex ∨
   (ui_serve r body os a).1 = Some refused).
Proof.
  intros Hr. unfold ui_serve. destruct (ServeMux startLocalUI (r_Path r)) as [? []| |]; simpl; auto.
  - rewrite bind_run. unfold uiForwards. rewrite Hr. simpl. auto.
  - rewrite bind_run. unfold uiForwardByPort. rewrite Hr. simpl. auto.
Qed.

Lemma StartForward_run listen spec a :
  StartForward listen spec a =
    match ag_listeners a !! Itoa (LocalPort spec), listen with
    | Some _, _ => (Err ("forward " ++ Itoa (LocalPort spec) ++ " already exists"), a)
    | None, Err e => (Err e, a)
    | None, Ok _ => (Ok tt, upd_listeners (<[Itoa (LocalPort spec) := spec]>) a)
    end.
Proof.
  unfold StartForward. rewrite bind_run. simpl. destruct (_ !! _); [done|]. by destruct listen.
Qed.

Lemma StopForward_run close port a :
  StopForward close port a =
    match ag_listeners a !! Itoa port with
    | None => (Err ("forward " ++ Itoa port ++ " not found"), a)
    | Some _ => (close, upd_listeners (delete (Itoa port)) a)
    end.
Proof. unfold StopForward. rewrite bind_run. simpl. by destruct (_ !! _). Qed.
End local_lemmas.

(** ** Theorems *)

Section local_theorems.
Context `{LocalNet}.

(** C32: another web site cannot use the local UI: whatever a request asks, it reads
    the forwards or changes the agent only if it was addressed to this machine by a
    loopback address or as localhost, is not marked cross-site by the browser, and
    carries no origin other than the UI's own page. In particular a rebound DNS name
    and a form on another site are refused. *)
Theorem local_ui_guarded r body os a :
  (ui_serve r body os a).2 ≠ a ∨
  (∃ device l, (ui_serve r body os a).1 = Some (mkLocal StatusOK (LForwards device l))) →
  (EqualFold (request_host r) "localhost" = true ∨ ip_loopback (request_host r) = true) ∧
  HeaderGet r "Sec-Fetch-Site" ≠ "cross-site" ∧
  (HeaderGet r "Origin" = "" ∨
   url_Parse (HeaderGet r "Origin") = Some (mkURL "http" (r_Host r) false "" "" "")).
Proof.
  intros Hany. destruct (localUIRequest r) eqn:Hr.
  - apply localUIRequest_iff in Hr as (Hh & Hs & Ho). split_and!; [|done|].
    + unfold local_host in Hh. by apply orb_true_iff in Hh.
    + destruct Ho as [|(u & Hu & ->)%own_origin_iff]; auto.
  - destruct (ui_refused r body os a Hr) as [E Hresp]. exfalso.
    destruct Hany as [Hne|(device & l & Hl)]; [done|]. rewrite Hl in Hresp.
    destruct Hresp as [|[|]]; discriminate.
Qed.

(** The UI opens and closes forwards: adding a forward on a free port answers
    201 and the list then holds it beside the others; deleting that port answers
    204 and leaves exactly the forwards there were; a port in use is answered 409
    with nothing changed. *)
Theorem local_ui_forwards r d spec a :
  localUIRequest r = true → r_Method r = "POST" →
  localUIRequest d = true → r_Method d = "DELETE" →
  r_Path d = "/api/forwards/" +:+ Itoa (LocalPort spec) →
  minInt64 ≤ LocalPort spec ≤ maxInt64 →
  match ag_listeners a !! Itoa (LocalPort spec) with
  | Some _ =>
      (uiForwards r (Ok spec) (Ok tt) a).2 = a ∧
      lr_Status (uiForwards r (Ok spec) (Ok tt) a).1 = StatusConflict
  | None =>
      let '(resp, a1) := uiForwards r (Ok spec) (Ok tt) a in
      let '(resp2, a2) := uiForwardByPort d (Ok tt) a1 in
      resp = mkLocal StatusCreated (LSpec spec) ∧
      ListForwards a1 ≡ₚ spec :: ListForwards a ∧
      resp2 = mkLocal StatusNoContent LNone ∧ ag_listeners a2 = ag_listeners a
  end.
Proof.
  intros Hr Hm Hd Hdm Hp Hport. unfold uiForwards. rewrite Hr, Hm. cbn [negb].
  change (String.eqb "POST" "GET") with false. change (String.eqb "POST" "POST") with true.
  cbv iota. rewrite bind_run, StartForward_run.
  destruct (ag_listeners a !! Itoa (LocalPort spec)) as [old|] eqn:E; [done|]. cbn [fst snd].
  unfold uiForwardByPort. rewrite Hd, Hdm. cbn [negb]. change (String.eqb "DELETE" "DELETE") with true.
  cbn [negb]. rewrite Hp, TrimPrefix_app, Atoi_Itoa by done. cbn [negb]. simpl.
  rewrite bind_run, StopForward_run. simpl. rewrite lookup_insert_eq. simpl.
  split_and!; [done| |done|].
  - unfold ListForwards. simpl. rewrite map_to_list_insert by done. done.
  - by rewrite delete_insert_id.
Qed.
End local_theorems.

(** ** Witnesses *)

Module LocalDemo.
#[export] Instance net : LocalNet := {|
  url_Parse s := if HasPrefix s "http://" then Some (mkURL "http" (TrimPrefix s "http://") false "" "" "")
                 else None;
  ip_loopback h := String.eqb h "127.0.0.1"
|}.
Definition agent0 : Agent := newAgent (mkAgentConfig "dev-1" "box" "" []) ∅.
Definition ui_req (m path host origin : string) : Request :=
  mkRequest m path [] "" [("Origin", origin)] [] host false "127.0.0.1:5000".
Definition page : Request := ui_req "POST" "/api/forwards" "127.0.0.1:9876" "http://127.0.0.1:9876".
Definition del : Request := ui_req "DELETE" "/api/forwards/2222" "localhost:9876" "".
Definition spec : ForwardSpec := mkForwardSpec 2222 "dev-2" 22.
(** A page at a name rebound to the loopback address *)
Definition rebound : Request := ui_req "POST" "/api/forwards" "evil.test:9876" "http://evil.test:9876".
End LocalDemo.
Import LocalDemo.

Lemma local_ui_guarded_witness :
  (EqualFold (request_host page) "localhost" = true ∨ ip_loopback (request_host page) = true) ∧
  lr_Status (default uiIndex (ui_serve rebound (Ok spec) (Ok tt) agent0).1) = 403.
Proof.
  split; [|vm_compute; reflexivity].
  destruct (local_ui_guarded page (Ok spec) (Ok tt) agent0) as (Hh & _); [|exact Hh].
  left. intros E. apply (f_equal (λ a, size (ag_listeners a))) in E. vm_compute in E. discriminate.
Defined.

Lemma local_ui_forwards_witness :
  (uiForwards page (Ok spec) (Ok tt) agent0).1 = mkLocal 201 (LSpec spec).
Proof.
  pose proof (local_ui_forwards page del spec agent0 eq_refl eq_refl eq_refl eq_refl eq_refl) as Hui.
  assert (minInt64 ≤ LocalPort spec ≤ maxInt64) as Hp by (vm_compute; split; discriminate).
  specialize (Hui Hp). change (ag_listeners agent0 !! Itoa (LocalPort spec)) with (@None ForwardSpec) in Hui.
  cbv iota in Hui. destruct (uiForwards page (Ok spec) (Ok tt) agent0) as [resp a1].
  destruct (uiForwardByPort del (Ok tt) a1). exact (proj1 Hui).
Defined.

(** The UI does not check what it is given: a forward without a target on port 0 is
    opened. *)
Example local_ui_accepts_any_spec :
  lr_Status (uiForwards page (Ok (mkForwardSpec 0 "" (-1))) (Ok tt) agent0).1 = 201.
Proof. vm_compute. reflexivity. Qed.
