(* ===== verification/Screen.v ===== *)
(** * The agent's desktop link ([internal/agent/screen.go])

    When a desktop session is relayed, the agent opens a second WebSocket to the
    server and copies bytes between it and the local VNC server.  [bridge] is the
    state of [bridgeScreen]: the two transports, the two copying goroutines and the
    function that waits for them; [bridge_step] is one step of one of them, in any
    order, with what the network answered as an argument.  A read from a closed
    transport returns an error and a write to one fails. *)
From Stdlib Require Import ZArith Lia Ascii String.
From S2P Require Import Prelude GoStrings Protocol Registry RegistryProps Tickets Traffic Http Server.
From S2P Require Import Auth AuthProps Forward AgentWS Browser BrowserProps.
Open Scope string_scope.
Open Scope list_scope.
Open Scope Z_scope.

(** ** The copy *)

(** [br_up]: the goroutine from the VNC connection to the WebSocket still runs;
    [br_down]: the other one.  [br_torn]: the first [<-done] was received and both
    transports were closed; [br_returned]: the second one too.  [br_read] and
    [br_got] are what the goroutines have read so far, [br_sent] the binary
    messages written to the WebSocket, [br_written] the bytes written to the VNC
    server. *)
Record bridge := mkBridge {
  br_ws : bool; br_conn : bool; br_up : bool; br_down : bool; br_torn : bool; br_returned : bool;
  br_read : bytes; br_sent : list bytes; br_got : list bytes; br_written : bytes
}.

Definition newBridge : bridge := mkBridge true true true true false false [] [] [] [].

(** What happens next: a read of the VNC connection returned [data] and an error or
    none, and the write after it succeeded or not; a read of the WebSocket returned
    a message or an error, and the write after it succeeded or not; the waiting
    function goes on. *)
Inductive bridge_act :=
| UpRound (data : bytes) (failed : bool) (written : bool)
| DownRound (msg : option bytes) (written : bool)
| FirstDone
| SecondDone.

Definition bridge_step (b : bridge) (act : bridge_act) : bridge :=
  match act with
  | UpRound data failed written =>
      if negb (br_up b) then b
      else
        let data := if br_conn b then data else [] in
        let failed := failed || negb (br_conn b) in
        let ok := br_ws b && written in
        let empty := bool_decide (data = []) in
        mkBridge (br_ws b) (br_conn b) (negb failed && (empty || ok)) (br_down b) (br_torn b)
          (br_returned b) (br_read b ++ data)
          (if negb empty && ok then br_sent b ++ [data] else br_sent b) (br_got b) (br_written b)
  | DownRound msg written =>
      if negb (br_down b) then b
      else match (if br_ws b then msg else None) with
      | None =>
          mkBridge (br_ws b) (br_conn b) (br_up b) false (br_torn b) (br_returned b) (br_read b)
            (br_sent b) (br_got b) (br_written b)
      | Some data =>
          let ok := br_conn b && written in
          mkBridge (br_ws b) (br_conn b) (br_up b) ok (br_torn b) (br_returned b) (br_read b)
            (br_sent b) (br_got b ++ [data])
            (if ok then br_written b ++ data else br_written b)
      end
  | FirstDone =>
      if negb (br_torn b) && (negb (br_up b) || negb (br_down b)) then
        mkBridge false false (br_up b) (br_down b) true (br_returned b) (br_read b) (br_sent b)
          (br_got b) (br_written b)
      else b
  | SecondDone =>
      if br_torn b && negb (br_up b) && negb (br_down b) then
        mkBridge (br_ws b) (br_conn b) false false true true (br_read b) (br_sent b) (br_got b)
          (br_written b)
      else b
  end.

Definition bridgeScreen (acts : list bridge_act) : bridge := foldl bridge_step newBridge acts.

(** ** Opening the link *)

(** The request [startScreenLink] dials: the server's URL with the link's path, the
    device and the session in the query and the device's token in the header *)
Definition link_request (host remote token deviceID sessionID : string) : Request :=
  mkRequest "GET" "/ws/screen-link" [("device", deviceID); ("session", sessionID)] ""
    [("Authorization", "Bearer " +:+ token)] [] host true remote.

(** [startScreenLink] after the URL was parsed: whether the WebSocket and the VNC
    connection are handed to [bridgeScreen], and whether the WebSocket was opened
    and is closed again (its deferred close) *)
Inductive link_outcome := LinkFailed | LinkDropped | LinkBridged.
Definition startScreenLink (parsed dialed vnc : res unit) : link_outcome :=
  match parsed, dialed, vnc with
  | Err _, _, _ => LinkFailed
  | _, Err _, _ => LinkFailed
  | _, _, Err _ => LinkDropped
  | Ok _, Ok _, Ok _ => LinkBridged
  end.

(** ** Lemmas *)

Record bridge_ok (b : bridge) : Prop := {
  bo_sent : concat (br_sent b) `prefix_of` br_read b;
  bo_running : br_up b = true → concat (br_sent b) = br_read b;
  bo_written : br_written b `prefix_of` concat (br_got b);
  bo_running' : br_down b = true → br_written b = concat (br_got b);
  bo_torn : br_torn b = true → br_ws b = false ∧ br_conn b = false ∧ (br_up b = false ∨ br_down b = false);
  bo_open : br_torn b = false → br_ws b = true ∧ br_conn b = true;
  bo_returned : br_returned b = true → br_torn b = true ∧ br_up b = false ∧ br_down b = false
}.

Lemma bridge_step_ok b act : bridge_ok b → bridge_ok (bridge_step b act).
Proof.
  intros Hb. pose proof Hb as [Hs Hr Hw Hd Ht Ho Hret].
  destruct act as [data failed written|msg written| |]; unfold bridge_step.
  - destruct (br_up b) eqn:Hup; cbn [negb]; [|exact Hb].
    specialize (Hr eq_refl). set (data' := if br_conn b then data else []).
    case_bool_decide as He; cbn [negb andb orb].
    + split; cbn; rewrite ?He, ?app_nil_r; naive_solver.
    + destruct (br_ws b && written) eqn:Hok; cbn [andb].
      * bools. split; cbn; rewrite ?concat_app, ?Hr; cbn; rewrite ?app_nil_r; naive_solver.
      * rewrite andb_false_r. split; cbn; [rewrite Hr; by exists data'|naive_solver..].
  - destruct (br_down b) eqn:Hdn; cbn [negb]; [|exact Hb].
    specialize (Hd eq_refl). destruct (if br_ws b then msg else None) as [data|] eqn:Em.
    + destruct (br_conn b && written) eqn:Hok.
      * bools. split; cbn; rewrite ?concat_app, ?Hd; cbn; rewrite ?app_nil_r; naive_solver.
      * split; cbn; rewrite ?concat_app, ?Hd; [done|done|by eexists|naive_solver..].
    + split; cbn; naive_solver.
  - destruct (negb (br_torn b) && _) eqn:E; [|exact Hb].
    apply andb_true_iff in E as [E1 E2]. apply negb_true_iff in E1. apply orb_true_iff in E2.
    rewrite !negb_true_iff in E2. split; cbn; naive_solver.
  - destruct (br_torn b && _ && _) eqn:E; [|exact Hb]. bools. split; cbn; naive_solver.
Qed.

Lemma bridgeScreen_ok acts : bridge_ok (bridgeScreen acts).
Proof.
  unfold bridgeScreen.
  assert (∀ b, bridge_ok b → bridge_ok (foldl bridge_step b acts)) as Hgen.
  { induction acts as [|x acts IH]; intros b Hb; simpl; [done|]. apply IH. by apply bridge_step_ok. }
  apply Hgen. split; cbn; try done.
Qed.

(** After the teardown either goroutine stops at its next round. *)
Definition torn (b : bridge) : Prop := br_torn b = true ∧ br_ws b = false ∧ br_conn b = false.

Lemma torn_up b data failed written :
  torn b → let b' := bridge_step b (UpRound data failed written) in torn b' ∧ br_up b' = false.
Proof.
  intros (Ht & Hw & Hc). unfold torn, bridge_step. destruct (br_up b) eqn:Hu; cbn [negb]; [|done].
  rewrite Hw, Hc. cbn. by rewrite orb_true_r.
Qed.

Lemma torn_down b msg written :
  torn b → br_up b = false →
  let b' := bridge_step b (DownRound msg written) in torn b' ∧ br_up b' = false ∧ br_down b' = false.
Proof.
  intros (Ht & Hw & Hc) Hu. unfold torn, bridge_step. destruct (br_down b) eqn:Hd; cbn [negb]; [|done].
  by rewrite Hw.
Qed.

(** ** Theorems *)

(** The desktop link copies faithfully and always comes down: in every
    interleaving of the two copying goroutines and the function that waits for
    them, what was written on either side is, in order, a prefix of what was read
    on the other (all of it while the goroutine runs); the transports stay open
    until a direction stops; and once one has, closing both makes the other stop at
    its next read, whatever the network does, so that the function returns with
    both transports closed. *)
Theorem desktop_link_tears_down acts data failed w1 msg w2 :
  let b := bridgeScreen acts in
  concat (br_sent b) `prefix_of` br_read b ∧ br_written b `prefix_of` concat (br_got b) ∧
  (br_up b = true → concat (br_sent b) = br_read b) ∧
  (br_down b = true → br_written b = concat (br_got b)) ∧
  (br_up b = true → br_down b = true → br_ws b = true ∧ br_conn b = true) ∧
  (br_up b = false ∨ br_down b = false →
     let b' := foldl bridge_step b [FirstDone; UpRound data failed w1; DownRound msg w2; SecondDone] in
     br_returned b' = true ∧ br_ws b' = false ∧ br_conn b' = false).
Proof.
  intros b. assert (bridge_ok b) as Hok by apply bridgeScreen_ok. clearbody b.
  destruct Hok as [Hs Hr Hw Hd Ht Ho Hret].
  split_and!; try done.
  - intros Hu Hdn. apply Ho. destruct (br_torn b) eqn:E; [|done].
    destruct (Ht eq_refl) as (_ & _ & [|]); congruence.
  - intros Hstop. cbn [foldl].
    assert (∃ b1, bridge_step b FirstDone = b1 ∧ br_torn b1 = true ∧ br_ws b1 = false ∧ br_conn b1 = false)
      as (b1 & -> & T1 & W1 & C1).
    { unfold bridge_step. destruct (br_torn b) eqn:E; cbn [negb andb].
      - destruct (Ht eq_refl) as (? & ? & _). by exists b.
      - destruct Hstop as [-> | ->]; cbn [negb]; rewrite ?orb_true_r; by eexists. }
    destruct (torn_up b1 data failed w1) as [T2 U2]; [done|].
    destruct (torn_down _ msg w2 T2 U2) as ((T3 & W3 & C3) & U3 & D3).
    set (b3 := bridge_step _ (DownRound msg w2)) in *. clearbody b3.
    unfold bridge_step. by rewrite T3, U3, D3.
Qed.

Section link.
Context `{Crypto} `{UrlParser}.

(** The link an agent opens is the one the server waits for: for a desktop
    session of this device that has no link yet, the request [startScreenLink] makes
    with the device's valid key attaches its socket to that session, and to no other
    object of the server. *)
Theorem screen_link_attaches host remote token deviceID sid w now s p t :
  deviceID ≠ "" → sid ≠ "" → ValidateDeviceKey deviceID token now (reg s) = true →
  screens s !! sid = Some p → screenH s !! p = Some t → sc_deviceID t = deviceID →
  sc_linkSet t = false →
  screenLink (link_request host remote token deviceID sid) (Some w) now s =
    (inr true, upd_screenH (alter (set_link w) p) s).
Proof.
  intros Hd Hsid Hk Hp Ht Hdev Hl. unfold screenLink. rewrite bind_run.
  assert (agentToken (link_request host remote token deviceID sid) = token) as Htok.
  { assert (bearerToken (link_request host remote token deviceID sid) = token) as Hb.
    { unfold bearerToken. change (HeaderGet _ _) with ("Bearer " +:+ token).
      by rewrite HasPrefix_app, TrimPrefix_app. }
    unfold agentToken. rewrite Hb. by destruct (String.eqb_spec token "") as [->|]. }
  change (QueryGet (link_request host remote token deviceID sid) "device") with deviceID.
  change (QueryGet (link_request host remote token deviceID sid) "session") with sid.
  rewrite Htok. unfold authorizeAgent. simpl. rewrite Hk. cbn [negb].
  destruct (String.eqb_spec deviceID ""); [done|]. destruct (String.eqb_spec sid ""); [done|].
  cbn [orb]. rewrite Hp. simpl. rewrite Ht. simpl. rewrite Hdev, String.eqb_refl, Hl. done.
Qed.
End link.

(** ** Witnesses *)

Import Toy BrowserDemo.

Lemma screen_link_attaches_witness :
  screenLink (link_request "relay" "10.0.0.3:99" "31" "dev-30" "x") (Some 3%nat) 150 srv =
    (inr true, upd_screenH (alter (set_link 3%nat) 2%nat) srv).
Proof.
  apply (screen_link_attaches "relay" "10.0.0.3:99" "31" "dev-30" "x" 3%nat 150 srv 2%nat
    (mkScreenSession "x" "dev-30" 2%nat None false false None "" "relay" false)).
  - discriminate.
  - discriminate.
  - vm_compute; reflexivity.
  - vm_compute; reflexivity.
  - vm_compute; reflexivity.
  - reflexivity.
  - reflexivity.
Defined.
